(* ===== verification/_CoqProject ===== *)
-Q . S2P
Prelude.v
RustStr.v
Errors.v
Sodium.v
Instances.v
Harness.v
Padding.v
PaddingTests.v
AesGcm.v
DoubleRatchet.v
RatchetFacts.v
RatchetChain.v
RatchetProps.v
SignalSpec.v
RatchetFrame.v
RatchetNetwork.v
RatchetReceive.v
RatchetSession.v
RatchetRuns.v
RatchetScripts.v
RatchetTests.v
RatchetStale.v
Identity.v
X3dh.v
Prekeys.v
Auth.v
ServerAuth.v
Group.v
Json.v
JsonReader.v
MessagePayload.v
PayloadFormat.v
PayloadTests.v
Media.v
Security.v
SafetyNumber.v
SealedSender.v
KeyTests.v
DataTests.v
AuthTests.v
Strength.v
StrengthTests.v
UnitTests.v
Conversation.v
EndToEnd.v
SecurityAudit.v
Foreign.v
IntegrationTests.v
