(* ===== verification/Prelude.v ===== *)
(** * A verification library for the VAULTEX end-to-end encryption code

    ** The program

    The repository publishes the client cryptography of VAULTEX, the crate
    [crates/vaultex-crypto], and one file of its server,
    [extracted/server-middleware/auth.rs]. A user has an identity key pair
    (identity.rs) and publishes prekeys (prekeys.rs). To open a conversation the
    initiator runs X3DH over the other user's bundle (x3dh.rs); the shared secret
    starts a Double Ratchet session on each side (double_ratchet.rs), whose message
    keys seal each message (aes_gcm.rs). The plaintext of a message is a JSON payload
    (message_payload.rs) padded to a bucket size (padding.rs). Requests to the
    server are signed (auth.rs) and checked by the middleware. Around this stand
    sealed envelopes (sealed_sender.rs), groups (group.rs), encrypted attachments
    (media.rs), the numbers that two users compare (safety_number.rs) and small
    utilities (security.rs). All errors are of one type (errors.rs).

    ** The files

    Paths below are relative to [crates/vaultex-crypto/src] unless they say
    otherwise. Definitions keep the names of the functions they model.

    - [Prelude]: bytes, machine integers, slices, arrays, the two monads, the generic
      lemmas, the hint databases [vaultex] and [vaultex_len], and the tactics [mred]
      (compute the structural operations of monadic code) and [mstep] (run its next
      call with a known result).
    - [RustStr]: the functions of Rust's [str] and formatting that the source calls.
    - [Errors]: [CryptoError] and its messages (errors.rs).
    - [Sodium]: the third-party functions as classes ([Sodium], [Hashes], [Hex],
      [SerdeJson]) and, in classes of their own ([SodiumLaws], [AeadLaws],
      [SecretboxLaws], [KeyLaws], [HashLaws], [HexLaws], [SerdeLaws]), the
      documented facts about them. A theorem names in its context the laws it needs.
    - [Instances]: an executable instance that satisfies all these laws. It shows
      that the laws are consistent, and the witnesses run the code on it.
    - [Padding] (padding.rs). State: none. [pad_message], [unpad_message],
      [bucket_size], [generate_dummy_message], [is_dummy_message].
    - [AesGcm] (aes_gcm.rs): [encrypt], [decrypt] and [EncryptionKey].
    - [DoubleRatchet] (double_ratchet.rs): the record [RatchetState] with the fields
      of the struct, [skipped_keys] being a [gmap] on (ratchet key, number); each
      [&mut self] method is a computation in [M (RatchetState * rng) CryptoError].
    - [RatchetFacts]: the chain keys and message keys of a chain as functions of
      its first key, and one equation per method and branch.
    - [RatchetChain]: the abstract state of one receiving chain, the set of the
      numbers received, and the lemmas that [decrypt] refines it.
    - [RatchetProps]: the properties of one session.
    - [SignalSpec]: decryption as the Signal specification words it, a function that
      authenticates CONCAT(AD, header), with CONCAT a parameter, and changes the
      session only when it succeeds; and the refinement.
    - [RatchetFrame]: what [decrypt] leaves alone on every path, errors included.
    - [RatchetNetwork]: two sessions and a network as a step relation. The network
      delays, reorders and loses packets, delivers packets of the current chain
      again ([seen] remembers what was delivered), and offers packets that are
      too far ahead ([step_refuse]: the call fails and the packet stays in flight); a
      side may store its session and restart from the bytes.
    - [RatchetReceive]: what each call of [decrypt] does to a session when a packet of
      the network arrives, case by case.
    - [RatchetSession]: the invariant of the reachable configurations and the
      properties that follow.
    - [RatchetRuns]: the network emptied packet by packet.
    - [RatchetStale]: what a session does not protect against.
    - [Harness]: [unwrap], [assert!] and method calls on a session that the caller
      owns, with the lemmas and tactics that run a test.
    - [RatchetScripts]: client code that follows a script of calls, a reference that
      knows no cryptography, and the simulation between them.
    - [Conversation]: a conversation in order, as a loop.
    - [RatchetTests], [PaddingTests], [PayloadTests], [KeyTests], [DataTests] and
      [AuthTests]: the tests of the source files as programs, and that they pass.
      [AuthTests] has a class of its own, [HeaderBuild], for the functions with which
      the server's tests make a header map.
    - [Strength] and [StrengthTests]: the tests that expect something to be refused or
      to differ, each with the exact condition on the draws and the primitives under
      which it passes. [UnitTests] puts all unit tests together.
    - [Identity] (identity.rs), [X3dh] (x3dh.rs), [Prekeys] (prekeys.rs).
    - [Auth] (auth.rs) and [ServerAuth] (extracted/server-middleware/auth.rs). What
      the middleware calls outside the repository (axum's request type, the account
      table, the UUID parser, [crate::crypto::verify], the next handler) is the
      class [Server]; the relation [authenticated] specifies the check and the table
      [exemptions] the public routes.
    - [Group] (group.rs), with finite sets as the specification of the member list.
    - [MessagePayload] (message_payload.rs): the payload and its operations.
      [PayloadFormat]: its JSON form, that is, what the serde attributes of the two
      structs say is written and read ([payload_members], [read_payload]), with the
      class [PayloadFormat] for serde_json's part. [Json] has the values and their
      text, [JsonReader] an executable reader on which the witnesses run.
    - [Media] (media.rs), [Security] (security.rs), [SafetyNumber]
      (safety_number.rs), [SealedSender] (sealed_sender.rs).
    - [EndToEnd]: the components composed as the helper [setup_session] of
      [crates/vaultex-crypto/tests/e2e_message_flow.rs] composes them, and tests 1 to
      3 of that file for any script or message.
    - [SecurityAudit]: sixteen tests of
      [crates/vaultex-crypto/tests/security_audit_tests.rs].
    - [Foreign]: what a session does with a packet of another session.
    - [IntegrationTests]: the other nine tests of the audit, the end-to-end tests 4 to
      6, and all integration tests together.

    ** Conventions

    A function that returns [Result<T>] is an [outcome CryptoError T]: [Ret], [Throw]
    or [Panic]. Slice indexing, [split_at], [unwrap], [expect], over-large
    allocations and integer overflow panic where Rust does, so that a theorem that
    the result is [Ret] also says that nothing panics. A method that mutates its
    receiver, or draws randomness, runs in [M S E]: a function from the state to an
    outcome and a state. The state is returned with every outcome, because the
    source keeps the writes made before an early [return Err].

    Integers are [Z] with the width written out ([add_w], [sub_w], [mul_w], [is_u32],
    [is_u64]). Whether an overflow panics or wraps, and whether debug assertions run,
    is the class [BuildProfile]; theorems hold for every profile unless they name
    one. The state of libsodium's generator is the type [rng] of the class [Sodium],
    and [ready w] says that the library is initialised in it. Clocks are arguments;
    [None] is a clock before 1970. Strings are their UTF-8 bytes.

    ** What the theorems show

    - The session. In every configuration that the two sessions reach over the
      network, [decrypt] recovers a packet in flight if it lies in its window and
      otherwise reports too many skipped messages ([session_window_exact]); with chains of at most [MAX_SKIP] messages this is
      every packet ([short_chains_always_deliver]), and emptying the network in any
      order ends and hands over every message ([draining_delivers_everything]). One
      side's root key is one derivation ahead of the other's
      ([session_roots_in_step]); no key of a delivered message is kept
      ([session_keys_erased]) and a replay on the current chain changes nothing
      ([session_replay_harmless]). The sides must draw fresh ratchet keys, which the
      step relation requires of each ratchet step: the generator's quality is not
      something the source could ensure.
    - The specification. Given CONCAT(AD, header) as associated data, for any CONCAT,
      [decrypt] accepts exactly what [RatchetDecrypt] of the Signal specification
      accepts, with its result and its state, where code and text agree on what to skip
      ([conforming]: the code refuses numbers behind the counter outright, and ignores
      the length of a chain it does not have) ([decrypt_implements_signal]). The
      callers pass AD alone, which is not what the specification does; the next group
      says what follows.
    - What it does not protect against. The state after [decrypt] does not depend on
      the ciphertext ([decrypt_state_ignores_ciphertext]). A forged packet with a new
      key ([failed_decrypt_commits_ratchet]), and an old packet of an earlier chain
      delivered again ([stale_replay_ratchets]), fail after they have moved the session
      on, provided that the cipher refuses them ([no_sealing]: the ciphertext is the
      sealing of no message under the key in question). The header is not authenticated
      ([header_length_not_authenticated]).
    - One session. Any permutation of a first batch is delivered; arbitrary input keeps
      the invariant [wf], adds a bounded number of cached keys, and panics exactly where
      the counter after number [u32::MAX] overflows ([counter_overflows],
      [decrypt_total_on_any_input]); replays are refused; far jumps are refused on every
      path ([skip_limit_enforced]); a stored session is restored; the sending counter
      at [u32::MAX] panics or wraps.
    - Key agreement. Both sides of X3DH compute the same secret, a bad prekey signature
      stops the handshake before randomness is drawn, generated keys and prekeys are
      usable, and the fingerprint determines the first eight bytes of a key.
    - Requests. The canonical message determines its fields, a signed request is
      accepted within 300 seconds, the middleware accepts exactly the requests that
      satisfy its specification and answers every other with the status code of the
      first check that fails ([middleware_refuses_exact]), what it accepts is what
      was signed, and without credentials exactly the requests in the table of
      [exemptions] get through ([anonymous_requests_exact]).
    - The wire form. Padding is reversible and takes the least bucket, [unpad_message]
      accepts exactly padded messages, and cover traffic is told apart from them. Every
      payload that fits in memory survives the wire form
      ([payload_padded_roundtrip]); direct and group messages have one length, and
      would differ by 78 bytes of text without the placeholder
      ([dm_and_group_same_size]); a payload is read whatever the order of its members
      and whatever other members a later version adds ([payload_read_any_order]).
    - The rest. Attachments, sealed envelopes and identity boxes open exactly what was
      sealed; the member list is a set; the safety number is symmetric and determines
      24 bytes of the hash.
    - The whole. [first_payload_delivered]: from key generation to the payload that the
      receiver reads, no step fails and the payload is the one sent.
      [message_flow_passes] says so for a whole conversation, and
      [sealed_flow_passes] for sealed messages.
    - Scripts and tests. Client code that follows a script of calls passes whenever
      the script is plausible to a reference that is a bag of waiting packets
      ([plausible_scripts_pass]). The tests of the repository are exact for every
      generator, not only for the values that one run draws ([unit_tests_exact],
      [integration_tests_exact]): those of what the code does on its own pass, and
      those that rest on the strength of the cryptography or on random values being
      different pass if and only if a stated condition on the primitives and the draws
      holds, so that the code adds no way to accept what it must refuse.

    The cryptographic facts assumed are functional correctness (decryption inverts
    encryption, Diffie-Hellman commutes, signatures verify) and unique decryption.
    Secrecy is not stated.

    ** Fuel and bounds

    The decimal printer [dec_go] runs with more fuel than the number has digits
    ([dec_go_spec]); [strip_prefixes], the loop of [trim], [chunks] and the reader of
    JSON texts with the length of their argument, one element at least being consumed
    per round ([json_of_json_text]). The skipping
    loop recurs on the number of keys to skip and needs no fuel. [MAX_SKIP] is 1000, as
    in the source. Lengths are bounded by [isize::MAX] where the code allocates.

    ** What is not modelled

    Zeroization of local buffers and running time have no functional effect;
    [RatchetState_drop] and the wrappers' [drop] are modelled. Logging in the
    middleware has no result. serde_json is a parameter: for payloads, whose text the
    code and its tests look into, its law is the format; for the other types, which
    are only stored and restored, it is the round trip. The format describes how the
    reader treats objects without arrays and fractions, which no payload has.
    [lib.rs] only declares the modules; every test is modelled. Probability is not
    modelled: that a wrong key is refused with overwhelming probability follows from
    no law of the parameters, and the tests that expect it are characterised by the
    event on which they pass. For the same reason the network does not alter headers: what a session
    does with such a packet is stated for single calls
    ([decrypt_total_on_any_input], [failed_decrypt_commits_ratchet],
    [header_length_not_authenticated]), but that it refuses one rests on the
    strength of the cipher. *)

From Stdlib Require Import Strings.Byte Strings.String.
From stdpp Require Import prelude list list_numbers gmap strings.
From stdpp Require Export prelude list list_numbers gmap strings.
Abbreviation byte := Byte.byte.

Open Scope Z_scope.
Declare Scope rust_scope.
Delimit Scope rust_scope with rust.
Create HintDb vaultex.
Create Rewrite HintDb vaultex_len.

(** ** Bytes *)

Abbreviation bytes := (list byte).

#[export] Instance byte_eq_decision : EqDecision byte := Byte.byte_eq_dec.
#[export] Instance byte_countable : Countable byte :=
  inj_countable Byte.to_N Byte.of_N Byte.of_to_N.

(** The value of a [u8], and the [u8] with the low eight bits of a number
    (the cast [as u8]). *)
Definition byte_to_Z (b : byte) : Z := Z.of_N (Byte.to_N b).
Definition byte_of_Z (z : Z) : byte :=
  default Byte.x00 (Byte.of_N (Z.to_N (z `mod` 256))).

(** The bytes of a string literal of the source. *)
Definition bstr (s : string) : bytes := String.list_byte_of_string s.

(** The length of a slice, as the [usize] that [len()] returns. *)
Definition blen {A} (l : list A) : Z := Z.of_nat (length l).

(** ** Machine integers

    A [w]-bit unsigned integer is a [Z]; whether an overflowing operation
    panics or wraps is the build profile's choice (debug or release). *)
Class BuildProfile := {
  overflow_checks : bool;
  debug_assertions : bool;
}.

Definition in_width (w z : Z) : Prop := 0 ≤ z < 2 ^ w.
Definition is_u32 : Z → Prop := in_width 32.
Definition is_u64 : Z → Prop := in_width 64.
Definition u32_max : Z := 2 ^ 32 - 1.

(** The largest number of bytes a Rust allocation or slice can have. *)
Definition isize_max : Z := 2 ^ 63 - 1.

(** The cast [as u32]. *)
Definition as_u32 (z : Z) : Z := z `mod` 2 ^ 32.

(** ** Results of Rust code: a value, an error, or a panic *)
Inductive outcome (E A : Type) : Type :=
| Ret (a : A)
| Throw (e : E)
| Panic.
Arguments Ret {E A} a.
Arguments Throw {E A} e.
Arguments Panic {E A}.

Definition is_err {E A} (o : outcome E A) : Prop :=
  match o with Throw _ => True | _ => False end.

#[export] Instance outcome_ret {E} : MRet (outcome E) := λ A a, Ret a.
#[export] Instance outcome_bind {E} : MBind (outcome E) := λ A B k o,
  match o with Ret a => k a | Throw e => Throw e | Panic => Panic end.
#[export] Instance outcome_fmap {E} : FMap (outcome E) := λ A B f o,
  match o with Ret a => Ret (f a) | Throw e => Throw e | Panic => Panic end.

Definition ok_or {E A} (o : option A) (e : E) : outcome E A :=
  match o with Some a => Ret a | None => Throw e end.
(** [expect]/[unwrap]: a panic when there is no value. *)
Definition expect {E A} (o : option A) : outcome E A :=
  match o with Some a => Ret a | None => Panic end.

(** ** Code with mutable state

    A method with [&mut self] keeps the writes it did before an early return:
    the state survives an error and a panic. *)
Definition M (S E A : Type) : Type := S → outcome E A * S.

#[export] Instance M_ret {S E} : MRet (M S E) := λ A a s, (Ret a, s).
#[export] Instance M_bind {S E} : MBind (M S E) := λ A B k m s,
  match m s with
  | (Ret a, s') => k a s'
  | (Throw e, s') => (Throw e, s')
  | (Panic, s') => (Panic, s')
  end.

Definition lift {S E A} (o : outcome E A) : M S E A := λ s, (o, s).
Definition throw {S E A} (e : E) : M S E A := λ s, (Throw e, s).
Definition get {S E} : M S E S := λ s, (Ret s, s).
Definition gets {S E A} (f : S → A) : M S E A := λ s, (Ret (f s), s).
Definition modify {S E} (f : S → S) : M S E unit := λ s, (Ret tt, f s).
(** An operation that only advances the outside world [W] of a state [T * W]. *)
Definition on_world {T W E A} (m : M W E A) : M (T * W) E A := λ s,
  let '(o, w') := m s.2 in (o, (s.1, w')).
(** A method call on a field: run [m] on the object part of the state. *)
Definition on_self {T W E} (f : T → T) : M (T * W) E unit := λ s,
  (Ret tt, (f s.1, s.2)).
(** A pure generator (random bytes, a fresh key): it cannot fail. *)
Definition draw {W E A} (g : W → A * W) : M W E A := λ w,
  let '(a, w') := g w in (Ret a, w').

Section arithmetic.
Context {BP : BuildProfile} {E : Type}.

(** [a + b], [a - b] and [a * b] at width [w]. *)
Definition wrap_w (w z : Z) : outcome E Z :=
  if (0 <=? z) && (z <? 2 ^ w) then Ret z
  else if overflow_checks then Panic else Ret (z `mod` 2 ^ w).
Definition add_w (w a b : Z) : outcome E Z := wrap_w w (a + b).
Definition sub_w (w a b : Z) : outcome E Z := wrap_w w (a - b).
Definition mul_w (w a b : Z) : outcome E Z := wrap_w w (a * b).

(** [usize::next_power_of_two] and [usize::div_ceil]. *)
Definition next_power_of_two (n : Z) : outcome E Z :=
  wrap_w 64 (2 ^ Z.log2_up n).
Definition div_ceil (n d : Z) : Z :=
  if 0 <? n `mod` d then n / d + 1 else n / d.

(** [debug_assert!]. *)
Definition debug_assert (b : bool) : outcome E unit :=
  if debug_assertions && negb b then Panic else Ret tt.
End arithmetic.

Notation "a +u32 b" := (add_w 32 a b) (at level 50, left associativity) : rust_scope.
Notation "a +usize b" := (add_w 64 a b) (at level 50, left associativity) : rust_scope.
Notation "a -usize b" := (sub_w 64 a b) (at level 50, left associativity) : rust_scope.
Notation "a *usize b" := (mul_w 64 a b) (at level 40, left associativity) : rust_scope.

(** ** Slices: an index out of range panics *)
Section slices.
Context {E A : Type}.

(** [l[i]]. *)
Definition index (l : list A) (i : Z) : outcome E A :=
  if 0 <=? i then expect (l !! Z.to_nat i) else Panic.
(** [l[i] = a]. *)
Definition index_set (l : list A) (i : Z) (a : A) : outcome E (list A) :=
  if (0 <=? i) && (i <? blen l) then Ret (<[Z.to_nat i := a]> l) else Panic.
(** [&l[..n]]. *)
Definition slice_to (l : list A) (n : Z) : outcome E (list A) :=
  if (0 <=? n) && (n <=? blen l) then Ret (take (Z.to_nat n) l) else Panic.
(** [&l[n..]]. *)
Definition slice_from (l : list A) (n : Z) : outcome E (list A) :=
  if (0 <=? n) && (n <=? blen l) then Ret (drop (Z.to_nat n) l) else Panic.
(** [l.split_at(n)]. *)
Definition split_at (l : list A) (n : Z) : outcome E (list A * list A) :=
  if (0 <=? n) && (n <=? blen l)
  then Ret (take (Z.to_nat n) l, drop (Z.to_nat n) l) else Panic.
(** [Vec::with_capacity(n)] and [vec![0; n]]: a capacity overflow panics. *)
Definition with_capacity (n : Z) : outcome E unit :=
  if n <=? isize_max then Ret tt else Panic.
End slices.

(** ** The iteration order of a [HashMap]: unspecified, every entry once *)
Class HashMapIter (K V : Type) `{Countable K} := {
  hash_iter : gmap K V → list (K * V);
}.
Class HashMapIterLaws (K V : Type) `{Countable K} (HI : HashMapIter K V) : Prop := {
  hash_iter_perm (m : gmap K V) : hash_iter m ≡ₚ map_to_list m;
}.

(** ** Arrays [[u8; n]] *)
Record array (n : nat) := mk_array {
  array_list : bytes;
  array_length_ok : bool_decide (length array_list = n);
}.
Arguments mk_array {n} _ _.
Arguments array_list {n} _.
Arguments array_length_ok {n} _.

Definition array_of_list (n : nat) (l : bytes) : option (array n) :=
  match decide (bool_decide (length l = n)) with
  | left H => Some (mk_array l H)
  | right _ => None
  end.

Lemma array_replicate_ok (n : nat) (b : byte) :
  bool_decide (length (replicate n b) = n).
Proof. apply bool_decide_pack, length_replicate. Qed.

(** [[b; n]]. *)
Definition array_repeat (n : nat) (b : byte) : array n :=
  mk_array (replicate n b) (array_replicate_ok n b).

(** [dst.copy_from_slice(src)] into an array of [n] bytes: a panic when the
    lengths differ. *)
Definition copy_from_slice {E} (n : nat) (src : bytes) : outcome E (array n) :=
  expect (array_of_list n src).

Lemma array_eq {n} (a b : array n) : array_list a = array_list b → a = b.
Proof.
  destruct a as [l Hl], b as [l' Hl']; simpl; intros ->.
  f_equal. apply proof_irrel.
Qed.

#[export] Instance array_eq_decision n : EqDecision (array n).
Proof.
  intros a b. destruct (decide (array_list a = array_list b)) as [H|H].
  - left. by apply array_eq.
  - right. by intros ->.
Defined.
#[export] Program Instance array_countable n : Countable (array n) :=
  inj_countable array_list (array_of_list n) _.
Next Obligation.
  intros n [l Hl]; simpl. unfold array_of_list.
  destruct (decide _) as [H|[]]; [|done]. f_equal. by apply array_eq.
Qed.

Lemma array_length {n} (a : array n) : length (array_list a) = n.
Proof. destruct a as [l Hl]; simpl. by apply bool_decide_unpack in Hl. Qed.
Lemma array_blen {n} (a : array n) : blen (array_list a) = Z.of_nat n.
Proof. unfold blen. by rewrite array_length. Qed.

Lemma array_of_list_Some n l :
  length l = n → ∃ a, array_of_list n l = Some a ∧ array_list a = l.
Proof.
  intros H. unfold array_of_list. destruct (decide _) as [H'|[]].
  - by eexists.
  - by apply bool_decide_pack.
Qed.
Lemma array_of_list_None n l : length l ≠ n → array_of_list n l = None.
Proof.
  intros H. unfold array_of_list. destruct (decide _) as [H'|]; [|done].
  by pose proof (bool_decide_unpack _ H').
Qed.
Lemma array_of_list_inv n l a : array_of_list n l = Some a → array_list a = l.
Proof. unfold array_of_list. case_match; naive_solver. Qed.
Lemma array_of_list_array {n} (a : array n) :
  array_of_list n (array_list a) = Some a.
Proof.
  destruct (array_of_list_Some n (array_list a) (array_length a)) as (b & -> & H).
  f_equal. by apply array_eq.
Qed.
#[export] Hint Rewrite @array_of_list_array @array_length @array_blen : vaultex_len.

(** ** Facts about bytes *)

Lemma byte_to_Z_range b : 0 ≤ byte_to_Z b < 256.
Proof. unfold byte_to_Z. pose proof (Byte.to_N_bounded b). lia. Qed.
Lemma byte_of_to_Z b : byte_of_Z (byte_to_Z b) = b.
Proof.
  unfold byte_of_Z. rewrite Z.mod_small by apply byte_to_Z_range.
  unfold byte_to_Z. by rewrite N2Z.id, Byte.of_to_N.
Qed.
Lemma byte_to_of_Z z : byte_to_Z (byte_of_Z z) = z `mod` 256.
Proof.
  unfold byte_of_Z. pose proof (Z.mod_pos_bound z 256 eq_refl) as Hz.
  destruct (Byte.of_N (Z.to_N (z `mod` 256))) as [b|] eqn:Hb.
  - simpl. apply Byte.to_of_N in Hb. unfold byte_to_Z. rewrite Hb. lia.
  - apply Byte.of_N_None_iff in Hb. lia.
Qed.
#[export] Instance byte_to_Z_inj : Inj (=) (=) byte_to_Z.
Proof. intros a b H. by rewrite <-(byte_of_to_Z a), H, byte_of_to_Z. Qed.

(** [u32::to_le_bytes] and [u32::from_le_bytes]. *)
Definition u32_to_le_bytes (z : Z) : bytes :=
  byte_of_Z <$> Z_to_little_endian 4 8 z.
Definition u32_from_le_bytes (l : bytes) : Z :=
  little_endian_to_Z 8 (byte_to_Z <$> l).

Lemma length_u32_to_le_bytes z : length (u32_to_le_bytes z) = 4%nat.
Proof.
  unfold u32_to_le_bytes. rewrite length_fmap.
  pose proof (length_Z_to_little_endian 4 8 z). lia.
Qed.
Lemma u32_from_to_le_bytes z :
  is_u32 z → u32_from_le_bytes (u32_to_le_bytes z) = z.
Proof.
  intros Hz. unfold u32_from_le_bytes, u32_to_le_bytes.
  rewrite <-list_fmap_compose.
  rewrite (list_fmap_ext _ id).
  - rewrite list_fmap_id, little_endian_to_Z_to_little_endian by lia.
    by apply Z.mod_small.
  - intros i x Hx. simpl. rewrite byte_to_of_Z. apply Z.mod_small.
    pose proof (Z_to_little_endian_bound 4 8 z ltac:(lia) ltac:(lia)) as HF.
    rewrite Forall_lookup in HF. by apply (HF i).
Qed.
Lemma u32_from_le_bytes_range l :
  length l = 4%nat → is_u32 (u32_from_le_bytes l).
Proof.
  intros Hl. unfold is_u32, in_width, u32_from_le_bytes.
  pose proof (little_endian_to_Z_bound 8 (byte_to_Z <$> l) ltac:(lia)) as H.
  rewrite length_fmap, Hl in H. apply H.
  apply Forall_fmap, Forall_true. apply byte_to_Z_range.
Qed.
Lemma u32_le_bytes_max z :
  is_u32 z → u32_to_le_bytes z = replicate 4 Byte.xff → z = u32_max.
Proof.
  intros Hz H. rewrite <-(u32_from_to_le_bytes z), H by done. by vm_compute.
Qed.

(** ** Facts about lengths and slices *)

Lemma blen_nonneg {A} (l : list A) : 0 ≤ blen l.
Proof. unfold blen. lia. Qed.
Lemma blen_app {A} (l k : list A) : blen (l ++ k) = blen l + blen k.
Proof. unfold blen. rewrite length_app. lia. Qed.
Lemma blen_nil {A} : blen (@nil A) = 0.
Proof. done. Qed.
Lemma blen_cons {A} (a : A) l : blen (a :: l) = 1 + blen l.
Proof. unfold blen. simpl. lia. Qed.
Lemma blen_replicate {A} n (a : A) : blen (replicate n a) = Z.of_nat n.
Proof. unfold blen. by rewrite length_replicate. Qed.
Lemma blen_u32_to_le_bytes z : blen (u32_to_le_bytes z) = 4.
Proof. unfold blen. by rewrite length_u32_to_le_bytes. Qed.
#[export] Hint Rewrite @blen_app @blen_nil @blen_cons @blen_replicate
  blen_u32_to_le_bytes : vaultex_len.

Section slice_facts.
Context {E A : Type}.
Implicit Types l k : list A.

Lemma slice_to_app l k :
  slice_to (E:=E) (l ++ k) (blen l) = Ret l.
Proof.
  unfold slice_to, blen. rewrite length_app.
  rewrite (proj2 (Z.leb_le 0 _)), (proj2 (Z.leb_le _ _)) by lia; simpl.
  by rewrite Nat2Z.id, take_app_length.
Qed.
Lemma slice_from_app l k :
  slice_from (E:=E) (l ++ k) (blen l) = Ret k.
Proof.
  unfold slice_from, blen. rewrite length_app.
  rewrite (proj2 (Z.leb_le 0 _)), (proj2 (Z.leb_le _ _)) by lia; simpl.
  by rewrite Nat2Z.id, drop_app_length.
Qed.
Lemma take_app_blen l k n : n = blen l → take (Z.to_nat n) (l ++ k) = l.
Proof. intros ->. unfold blen. by rewrite Nat2Z.id, take_app_length. Qed.
Lemma drop_app_blen l k n : n = blen l → drop (Z.to_nat n) (l ++ k) = k.
Proof. intros ->. unfold blen. by rewrite Nat2Z.id, drop_app_length. Qed.
Lemma slice_to_app_eq l k n :
  n = blen l → slice_to (E:=E) (l ++ k) n = Ret l.
Proof. intros ->. apply slice_to_app. Qed.
Lemma slice_from_app_eq l k n :
  n = blen l → slice_from (E:=E) (l ++ k) n = Ret k.
Proof. intros ->. apply slice_from_app. Qed.
Lemma split_at_app_eq l k n :
  n = blen l → split_at (E:=E) (l ++ k) n = Ret (l, k).
Proof.
  intros ->. unfold split_at, blen. rewrite length_app.
  rewrite (proj2 (Z.leb_le 0 _)), (proj2 (Z.leb_le _ _)) by lia; simpl.
  by rewrite Nat2Z.id, take_app_length, drop_app_length.
Qed.
Lemma slice_to_ok l n :
  0 ≤ n ≤ blen l → slice_to (E:=E) l n = Ret (take (Z.to_nat n) l).
Proof.
  intros. unfold slice_to.
  by rewrite (proj2 (Z.leb_le 0 _)), (proj2 (Z.leb_le _ _)) by lia.
Qed.
Lemma slice_from_ok l n :
  0 ≤ n ≤ blen l → slice_from (E:=E) l n = Ret (drop (Z.to_nat n) l).
Proof.
  intros. unfold slice_from.
  by rewrite (proj2 (Z.leb_le 0 _)), (proj2 (Z.leb_le _ _)) by lia.
Qed.
Lemma slice_to_full l n :
  n = blen l → slice_to (E:=E) l n = Ret l.
Proof. intros ->. rewrite <-(app_nil_r l) at 1. by apply slice_to_app_eq. Qed.
Lemma index_app_r l k i a :
  0 ≤ i → k !! Z.to_nat i = Some a →
  index (E:=E) (l ++ k) (blen l + i) = Ret a.
Proof.
  intros Hi Ha. unfold index, blen.
  rewrite (proj2 (Z.leb_le 0 _)) by lia.
  rewrite lookup_app_r by lia.
  replace (Z.to_nat (Z.of_nat (length l) + i) - length l)%nat
    with (Z.to_nat i) by lia.
  by rewrite Ha.
Qed.
Lemma index_ok l i a :
  0 ≤ i → l !! Z.to_nat i = Some a → index (E:=E) l i = Ret a.
Proof.
  intros Hi Ha. unfold index. by rewrite (proj2 (Z.leb_le 0 _)), Ha by lia.
Qed.
Lemma with_capacity_ok n :
  n ≤ isize_max → with_capacity (E:=E) n = Ret tt.
Proof. intros. unfold with_capacity. by rewrite (proj2 (Z.leb_le _ _)). Qed.
End slice_facts.

(** ** Facts about machine arithmetic *)
Section arithmetic_facts.
Context {BP : BuildProfile} {E : Type}.

Lemma wrap_w_ok w z : in_width w z → wrap_w (E:=E) w z = Ret z.
Proof.
  intros [? ?]. unfold wrap_w.
  by rewrite (proj2 (Z.leb_le 0 _)), (proj2 (Z.ltb_lt _ _)).
Qed.
Lemma wrap_w_overflow w z :
  ¬ in_width w z →
  wrap_w (E:=E) w z = if overflow_checks then Panic else Ret (z `mod` 2 ^ w).
Proof.
  intros Hz. unfold wrap_w, in_width in *.
  destruct (Z.leb_spec 0 z), (Z.ltb_spec z (2 ^ w)); simpl; auto; lia.
Qed.
Lemma add_w_ok w a b : in_width w (a + b) → add_w (E:=E) w a b = Ret (a + b).
Proof. apply wrap_w_ok. Qed.
Lemma sub_w_ok w a b : in_width w (a - b) → sub_w (E:=E) w a b = Ret (a - b).
Proof. apply wrap_w_ok. Qed.
Lemma mul_w_ok w a b : in_width w (a * b) → mul_w (E:=E) w a b = Ret (a * b).
Proof. apply wrap_w_ok. Qed.
Lemma debug_assert_ok b : b = true → debug_assert (E:=E) b = Ret tt.
Proof. intros ->. unfold debug_assert. by rewrite andb_false_r. Qed.
End arithmetic_facts.

(** ** Running monadic code *)
Section running.
Context {S E : Type}.

Lemma bind_Ret {A B} (m : M S E A) (k : A → M S E B) s a s' :
  m s = (Ret a, s') → (m ≫= k) s = k a s'.
Proof. intros H. unfold mbind, M_bind. by rewrite H. Qed.
Lemma bind_Throw {A B} (m : M S E A) (k : A → M S E B) s e s' :
  m s = (Throw e, s') → (m ≫= k) s = (Throw e, s').
Proof. intros H. unfold mbind, M_bind. by rewrite H. Qed.
Lemma bind_Panic {A B} (m : M S E A) (k : A → M S E B) s s' :
  m s = (Panic, s') → (m ≫= k) s = (Panic, s').
Proof. intros H. unfold mbind, M_bind. by rewrite H. Qed.
Lemma bind_inv {A B} (m : M S E A) (k : A → M S E B) s b s' :
  (m ≫= k) s = (Ret b, s') →
  ∃ a s1, m s = (Ret a, s1) ∧ k a s1 = (Ret b, s').
Proof.
  unfold mbind, M_bind. destruct (m s) as [[a|e|] s1]; naive_solver.
Qed.
End running.

(** [mstep H]: run the first operation of the goal's monadic code, with [H] its
    result. [mred] computes the structural operations. *)
Ltac mstep H := first [ rewrite (bind_Ret _ _ _ _ _ H)
                      | rewrite (bind_Throw _ _ _ _ _ H)
                      | rewrite (bind_Panic _ _ _ _ H) ]; cbn beta iota.
Ltac mred :=
  cbv [mbind M_bind mret M_ret outcome_bind outcome_ret lift throw get gets
       modify on_world on_self draw ok_or expect fmap outcome_fmap fst snd];
  cbn beta iota.
