(* ===== verification/RustStr.v ===== *)
(** * The parts of Rust's standard string library that the source uses

    A [str] is the list of its bytes. The file models the decimal [Display] of
    unsigned integers, [str::parse::<u64>], zero-padded and hexadecimal
    formatting, [join], [starts_with], [contains], [trim], ASCII classes and
    the UTF-8 check of [String::from_utf8], with the round trips and
    injectivity facts that the components need. *)

From S2P Require Import Prelude.

(** ** Characters *)

Definition char_of_digit (d : Z) : byte := byte_of_Z (48 + d).
Definition is_ascii_digit (c : byte) : bool :=
  (48 <=? byte_to_Z c) && (byte_to_Z c <=? 57).
Definition is_ascii_hexdigit (c : byte) : bool :=
  is_ascii_digit c
  || ((97 <=? byte_to_Z c) && (byte_to_Z c <=? 102))
  || ((65 <=? byte_to_Z c) && (byte_to_Z c <=? 70)).
Definition digit_value (c : byte) : Z := byte_to_Z c - 48.

(** ** Decimal [Display] of an unsigned integer *)

Fixpoint dec_go (fuel : nat) (n : Z) (acc : bytes) : bytes :=
  match fuel with
  | O => acc
  | S fuel =>
      let acc := char_of_digit (n `mod` 10) :: acc in
      if n <? 10 then acc else dec_go fuel (n / 10) acc
  end.
(** One digit per bit is more than enough fuel. *)
Definition to_string_uint (n : Z) : bytes :=
  dec_go (S (Z.to_nat (Z.log2 n))) n [].

(** The number that a string of digits denotes. *)
Definition dec_value (l : bytes) : Z :=
  foldl (λ v c, 10 * v + digit_value c) 0 l.

(** [str::parse::<u64>]: an optional [+], then one digit or more, and no
    overflow. *)
Definition parse_digits_u64 (l : bytes) : option Z :=
  if forallb is_ascii_digit l && (dec_value l <? 2 ^ 64)
  then Some (dec_value l) else None.
Definition parse_u64 (l : bytes) : option Z :=
  match l with
  | [] => None
  | c :: l' =>
      if bool_decide (c = byte_of_Z 43)
      then (match l' with [] => None | _ => parse_digits_u64 l' end)
      else parse_digits_u64 l
  end.

(** ** Padded and hexadecimal formatting *)

(** [format!("{:05}", n)]. *)
Definition format_pad0 (w : nat) (n : Z) : bytes :=
  let s := to_string_uint n in replicate (w - length s) (char_of_digit 0) ++ s.

(** One upper-case hexadecimal digit, and [format!("{:02X}", b)]. *)
Definition upper_hex_digit (d : Z) : byte :=
  byte_of_Z (if d <? 10 then 48 + d else 55 + d).
Definition format_02X (b : byte) : bytes :=
  [upper_hex_digit (byte_to_Z b / 16); upper_hex_digit (byte_to_Z b `mod` 16)].

(** ** Searching and joining *)

(** [s.starts_with(p)]. *)
Fixpoint starts_with (s p : bytes) : bool :=
  match p, s with
  | [], _ => true
  | c :: p', d :: s' => bool_decide (c = d) && starts_with s' p'
  | _ :: _, [] => false
  end.
(** [s.contains(p)]. *)
Fixpoint contains (s p : bytes) : bool :=
  starts_with s p || match s with [] => false | _ :: s' => contains s' p end.
(** [l.join(sep)]. *)
Fixpoint join (sep : bytes) (l : list bytes) : bytes :=
  match l with
  | [] => []
  | [s] => s
  | s :: l' => s ++ sep ++ join sep l'
  end.

(** [s.split(sep)]; [skip] bytes of a separator are passed over. *)
Fixpoint split_go (sep cur s : bytes) (skip : nat) : list bytes :=
  match s with
  | [] => [cur]
  | c :: s' =>
      match skip with
      | S skip => split_go sep cur s' skip
      | O => if starts_with s sep then cur :: split_go sep [] s' (pred (length sep))
             else split_go sep (cur ++ [c]) s' 0
      end
  end.
Definition split_on (sep s : bytes) : list bytes := split_go sep [] s 0.

(** [str::to_uppercase] on an ASCII string. *)
Definition to_uppercase_char (c : byte) : byte :=
  if (97 <=? byte_to_Z c) && (byte_to_Z c <=? 122)
  then byte_of_Z (byte_to_Z c - 32) else c.
Definition to_uppercase (s : bytes) : bytes := to_uppercase_char <$> s.

(** ** [str::trim]: the characters with the Unicode property White_Space *)

Definition white_space : list bytes := map (map byte_of_Z)
  [[9]; [10]; [11]; [12]; [13]; [32]; [194; 133]; [194; 160];
   [225; 154; 128];
   [226; 128; 128]; [226; 128; 129]; [226; 128; 130]; [226; 128; 131];
   [226; 128; 132]; [226; 128; 133]; [226; 128; 134]; [226; 128; 135];
   [226; 128; 136]; [226; 128; 137]; [226; 128; 138];
   [226; 128; 168]; [226; 128; 169]; [226; 128; 175]; [226; 129; 159];
   [227; 128; 128]].

Fixpoint strip_prefixes (ps : list bytes) (fuel : nat) (s : bytes) : bytes :=
  match fuel with
  | O => s
  | S fuel =>
      match List.find (starts_with s) ps with
      | Some p => strip_prefixes ps fuel (drop (length p) s)
      | None => s
      end
  end.
Definition trim_start (s : bytes) : bytes :=
  strip_prefixes white_space (length s) s.
Definition trim_end (s : bytes) : bytes :=
  reverse (strip_prefixes (map reverse white_space) (length s) (reverse s)).
Definition trim (s : bytes) : bytes := trim_end (trim_start s).

(** ** UTF-8: the well-formed byte sequences of the Unicode standard *)

Definition between (lo hi : Z) (b : byte) : bool :=
  (lo <=? byte_to_Z b) && (byte_to_Z b <=? hi).
Definition utf8_cont : byte → bool := between 128 191.
Definition utf8_second3 (x : byte) : byte → bool :=
  if byte_to_Z x =? 224 then between 160 191
  else if byte_to_Z x =? 237 then between 128 159 else utf8_cont.
Definition utf8_second4 (x : byte) : byte → bool :=
  if byte_to_Z x =? 240 then between 144 191
  else if byte_to_Z x =? 244 then between 128 143 else utf8_cont.
Fixpoint utf8_valid (l : bytes) : bool :=
  match l with
  | [] => true
  | b0 :: r0 =>
      if between 0 127 b0 then utf8_valid r0 else
      match r0 with
      | [] => false
      | b1 :: r1 =>
          if between 194 223 b0 then utf8_cont b1 && utf8_valid r1 else
          match r1 with
          | [] => false
          | b2 :: r2 =>
              if between 224 239 b0
              then utf8_second3 b0 b1 && utf8_cont b2 && utf8_valid r2 else
              match r2 with
              | [] => false
              | b3 :: r3 =>
                  between 240 244 b0 && utf8_second4 b0 b1 && utf8_cont b2
                  && utf8_cont b3 && utf8_valid r3
              end
          end
      end
  end.
(** [String::from_utf8]. *)
Definition from_utf8 (l : bytes) : option bytes :=
  if utf8_valid l then Some l else None.

(** ASCII text is UTF-8. *)
Lemma utf8_valid_ascii l : forallb (between 0 127) l = true → utf8_valid l = true.
Proof.
  induction l as [|c l IH]; [done|]. simpl. intros [Hc Hl]%andb_prop. rewrite Hc. by apply IH.
Qed.

(** ** Facts: digits *)

Lemma byte_to_char_of_digit d :
  0 ≤ d < 10 → byte_to_Z (char_of_digit d) = 48 + d.
Proof. intros. unfold char_of_digit. rewrite byte_to_of_Z. apply Z.mod_small. lia. Qed.
Lemma digit_value_char d : 0 ≤ d < 10 → digit_value (char_of_digit d) = d.
Proof. intros. unfold digit_value. rewrite byte_to_char_of_digit; lia. Qed.
Lemma is_ascii_digit_char d : 0 ≤ d < 10 → is_ascii_digit (char_of_digit d) = true.
Proof. intros. unfold is_ascii_digit. rewrite byte_to_char_of_digit by lia. lia. Qed.
Lemma is_ascii_digit_value c :
  is_ascii_digit c = true → 0 ≤ digit_value c < 10.
Proof. unfold is_ascii_digit, digit_value. lia. Qed.

Lemma dec_value_snoc l c : dec_value (l ++ [c]) = 10 * dec_value l + digit_value c.
Proof. unfold dec_value. by rewrite foldl_app. Qed.
Lemma dec_value_cons c l :
  dec_value (c :: l) = digit_value c * 10 ^ blen l + dec_value l.
Proof.
  induction l as [|d l IH] using rev_ind.
  - unfold dec_value, blen; simpl. change (10 ^ 0) with 1. lia.
  - rewrite app_comm_cons, !dec_value_snoc, IH. autorewrite with vaultex_len.
    rewrite Z.pow_add_r by (pose proof (blen_nonneg l); lia). lia.
Qed.
Lemma dec_value_range l :
  forallb is_ascii_digit l = true → 0 ≤ dec_value l < 10 ^ blen l.
Proof.
  induction l as [|c l IH] using rev_ind; [done|].
  rewrite forallb_app, andb_true_iff; simpl.
  intros [Hl Hc]. rewrite andb_true_r in Hc. specialize (IH Hl).
  apply is_ascii_digit_value in Hc. rewrite dec_value_snoc.
  autorewrite with vaultex_len.
  rewrite Z.pow_add_r by (pose proof (blen_nonneg l); lia). lia.
Qed.

Lemma dec_go_spec fuel n acc :
  0 ≤ n < 2 ^ Z.of_nat fuel →
  ∃ ds, dec_go fuel n acc = ds ++ acc ∧ dec_value ds = n ∧
        forallb is_ascii_digit ds = true ∧ (0 < fuel → ds ≠ [])%nat.
Proof.
  revert n acc. induction fuel as [|fuel IH]; intros n acc Hn.
  - exists []. change (2 ^ Z.of_nat 0) with 1 in Hn.
    split_and!; [done| |done|lia]. unfold dec_value; simpl. lia.
  - pose proof (Z.mod_pos_bound n 10 eq_refl) as Hm. simpl.
    destruct (Z.ltb_spec n 10).
    + exists [char_of_digit (n `mod` 10)]. simpl.
      rewrite is_ascii_digit_char by lia. unfold dec_value; simpl.
      rewrite digit_value_char by lia. rewrite Z.mod_small by lia.
      split_and!; [done|lia|done|done].
    + destruct (IH (n / 10) (char_of_digit (n `mod` 10) :: acc))
        as (ds & -> & Hv & Hd & _).
      { split; [apply Z.div_pos; lia|].
        rewrite Nat2Z.inj_succ, Z.pow_succ_r in Hn by lia.
        apply Z.div_lt_upper_bound; lia. }
      exists (ds ++ [char_of_digit (n `mod` 10)]).
      rewrite <-app_assoc, dec_value_snoc, forallb_app, Hd, Hv; simpl.
      rewrite digit_value_char, is_ascii_digit_char by lia.
      split_and!; [done| |done|by destruct ds]. rewrite (Z.div_mod n 10) at 3; lia.
Qed.
Lemma to_string_uint_spec n :
  0 ≤ n → dec_value (to_string_uint n) = n ∧
          forallb is_ascii_digit (to_string_uint n) = true ∧
          to_string_uint n ≠ [].
Proof.
  intros Hn. unfold to_string_uint.
  destruct (dec_go_spec (S (Z.to_nat (Z.log2 n))) n []) as (ds & -> & Hv & Hd & Hne).
  { split; [done|]. rewrite Nat2Z.inj_succ, Z2Nat.id by apply Z.log2_nonneg.
    destruct (decide (n = 0)) as [->|]; [done|]. apply Z.log2_spec. lia. }
  rewrite app_nil_r. repeat split; auto with lia.
Qed.
Lemma to_string_uint_inj n m :
  0 ≤ n → 0 ≤ m → to_string_uint n = to_string_uint m → n = m.
Proof.
  intros Hn Hm H.
  destruct (to_string_uint_spec n Hn) as [<- _].
  destruct (to_string_uint_spec m Hm) as [<- _]. by rewrite H.
Qed.
Lemma parse_to_string_u64 n :
  is_u64 n → parse_u64 (to_string_uint n) = Some n.
Proof.
  intros [Hn0 Hn]. destruct (to_string_uint_spec n Hn0) as (Hv & Hd & Hne).
  destruct (to_string_uint n) as [|c l] eqn:E; [done|]. unfold parse_u64.
  rewrite bool_decide_false.
  - unfold parse_digits_u64. rewrite Hd, Hv. by rewrite (proj2 (Z.ltb_lt _ _)).
  - intros ->. by vm_compute in Hd.
Qed.

(** ** Splitting what was joined *)
Lemma starts_with_app s t : starts_with (s ++ t) s = true.
Proof. induction s as [|c s IH]; simpl; [by destruct t|]. by rewrite bool_decide_true. Qed.
Lemma split_go_skip sep s t : split_go sep [] (s ++ t) (length s) = split_go sep [] t 0.
Proof. induction s as [|c s IH]; [done|]. exact IH. Qed.
Lemma split_go_word d sep cur w t :
  d ∉ w →
  split_go (d :: sep) cur (w ++ t) 0 = split_go (d :: sep) (cur ++ w) t 0.
Proof.
  revert cur. induction w as [|c w IH]; intros cur Hd; [by rewrite app_nil_r|].
  apply not_elem_of_cons in Hd as [Hc Hd]. cbn [app split_go starts_with].
  rewrite bool_decide_false by done. cbn [andb]. rewrite IH by done. by rewrite <-app_assoc.
Qed.
(** Words without the first byte of the separator come back. *)
Lemma split_join d sep (l : list bytes) :
  l ≠ [] → Forall (λ w, d ∉ w) l → split_on (d :: sep) (join (d :: sep) l) = l.
Proof.
  intros Hne Hl. unfold split_on. induction Hl as [|w l Hw Hl IH]; [done|]. destruct l as [|w' l].
  { cbn [join]. rewrite <-(app_nil_r w) at 1. by rewrite split_go_word. }
  change (join (d :: sep) (w :: w' :: l)) with (w ++ (d :: sep) ++ join (d :: sep) (w' :: l)).
  rewrite split_go_word by done. rewrite <-app_comm_cons.
  cbn [split_go]. rewrite app_comm_cons, starts_with_app. cbn [length pred app].
  rewrite split_go_skip. f_equal. by apply IH.
Qed.
