(* ===== verification/Errors.v ===== *)
(** * errors.rs: the error type of the crate

    [CryptoError] has the source's constructors; [display] is the message that
    the [#[error(...)]] attributes give each of them. A [Result<T>] of the crate
    is an [outcome CryptoError T]. *)

From S2P Require Import Prelude RustStr.

Inductive CryptoError : Type :=
| InitFailed
| SignatureVerificationFailed
| InvalidKeyLength (expected actual : Z)
| HkdfExpandFailed
| EncryptionFailed
| DecryptionFailed
| MissingOneTimePreKey (id : Z)
| InvalidPreKeySignature
| SealedSenderError (msg : bytes)
| RatchetError (msg : bytes)
| PaddingError (msg : bytes)
| SerializationError (msg : bytes).

#[export] Instance CryptoError_eq_decision : EqDecision CryptoError.
Proof. solve_decision. Defined.

Definition display (e : CryptoError) : bytes :=
  match e with
  | InitFailed => bstr "sodiumoxide initialization failed"
  | SignatureVerificationFailed => bstr "signature verification failed"
  | InvalidKeyLength e a =>
      bstr "invalid key length: expected " ++ to_string_uint e
      ++ bstr ", got " ++ to_string_uint a
  | HkdfExpandFailed => bstr "HKDF expansion failed"
  | EncryptionFailed => bstr "encryption failed"
  | DecryptionFailed =>
      bstr "decryption failed: ciphertext authentication failed"
  | MissingOneTimePreKey id =>
      bstr "missing one-time prekey with id " ++ to_string_uint id
  | InvalidPreKeySignature => bstr "invalid prekey signature"
  | SealedSenderError m => bstr "sealed sender: " ++ m
  | RatchetError m => bstr "ratchet error: " ++ m
  | PaddingError m => bstr "padding error: " ++ m
  | SerializationError m => bstr "serialization error: " ++ m
  end.

Abbreviation Result := (outcome CryptoError).

(** The two strings that the unit tests of errors.rs expect. *)
Example display_key_length :
  display (InvalidKeyLength 32 16) = bstr "invalid key length: expected 32, got 16".
Proof. reflexivity. Qed.
Example display_missing_prekey :
  display (MissingOneTimePreKey 42) = bstr "missing one-time prekey with id 42".
Proof. reflexivity. Qed.
