(* ===== verification/Sodium.v ===== *)
(** * The third-party code the crate calls

    The sources of libsodium (through sodiumoxide), RustCrypto's [hkdf],
    [hmac] and [sha2], the [hex] crate and [serde_json] are not part of the
    repository. Each is an operational class whose fields are the functions the
    crate calls, and a class of the documented facts that theorems may assume
    of them. The newtypes over byte arrays ([PublicKey], [Nonce], ...) are the
    arrays, as their public field [.0] exposes them. *)

From S2P Require Import Prelude RustStr Errors.

Abbreviation key32 := (array 32).

(** ** sodiumoxide *)

Class Sodium := {
  (** libsodium's process-wide state: initialised or not, and its generator. *)
  rng : Type;
  (** [sodiumoxide::init()]: [true] for [Ok(())]. *)
  sodium_init : rng → bool * rng;
  (** [randombytes(n)] and [randombytes_into] of [n] bytes. *)
  randombytes : nat → rng → bytes * rng;
  (** [from_slice] of the newtype of [n] bytes. *)
  from_slice : ∀ n, bytes → option (array n);

  box_gen_keypair : rng → (key32 * key32) * rng;
  box_gen_nonce : rng → array 24 * rng;
  (** [box_::seal(m, nonce, pk, sk)] and [box_::open(c, nonce, pk, sk)]. *)
  box_seal : bytes → array 24 → key32 → key32 → bytes;
  box_open : bytes → array 24 → key32 → key32 → option bytes;
  (** [sealedbox::seal(m, pk)] draws an ephemeral key; [open(c, pk, sk)]. *)
  sealedbox_seal : bytes → key32 → rng → bytes * rng;
  sealedbox_open : bytes → key32 → key32 → option bytes;

  (** [curve25519::scalarmult(n, p)]: [Err] when the result is zero. *)
  scalarmult : key32 → key32 → option key32;

  sign_gen_keypair : rng → (key32 * array 64) * rng;
  Signature : Type;
  sign_detached : bytes → array 64 → Signature;
  verify_detached : Signature → bytes → key32 → bool;
  signature_from_bytes : bytes → option Signature;
  signature_as_ref : Signature → bytes;
  (** The conversions of libsodium-sys: the return code and the output. *)
  ed25519_pk_to_curve25519 : key32 → Z * key32;
  ed25519_sk_to_curve25519 : array 64 → Z * key32;

  (** [xchacha20poly1305_ietf]: [seal(m, ad, nonce, key)]. *)
  aead_gen_nonce : rng → array 24 * rng;
  aead_seal : bytes → option bytes → array 24 → key32 → bytes;
  aead_open : bytes → option bytes → array 24 → key32 → option bytes;

  secretbox_gen_key : rng → key32 * rng;
  secretbox_gen_nonce : rng → array 24 * rng;
  secretbox_seal : bytes → array 24 → key32 → bytes;
  secretbox_open : bytes → array 24 → key32 → option bytes;

  (** [utils::memcmp]. *)
  memcmp : bytes → bytes → bool;
}.

(** The constants of sodiumoxide's modules. *)
Definition NONCEBYTES : Z := 24.
Definition MACBYTES : Z := 16.

(** The library is initialised: [init] succeeds and changes nothing. *)
Definition ready {SO : Sodium} (w : rng) : Prop := sodium_init w = (true, w).

(** What the documentation says of the generator and of [from_slice]. *)
Class SodiumLaws (SO : Sodium) : Prop := {
  from_slice_spec n s : from_slice n s = array_of_list n s;
  randombytes_length n w : length (randombytes n w).1 = n;
  ready_randombytes n w : ready w → ready (randombytes n w).2;
  ready_box_gen_keypair w : ready w → ready (box_gen_keypair w).2;
  ready_box_gen_nonce w : ready w → ready (box_gen_nonce w).2;
  ready_sealedbox_seal m pk w : ready w → ready (sealedbox_seal m pk w).2;
  ready_sign_gen_keypair w : ready w → ready (sign_gen_keypair w).2;
  ready_aead_gen_nonce w : ready w → ready (aead_gen_nonce w).2;
  ready_secretbox_gen_key w : ready w → ready (secretbox_gen_key w).2;
  ready_secretbox_gen_nonce w : ready w → ready (secretbox_gen_nonce w).2;
  memcmp_spec a b : length a = length b → memcmp a b = bool_decide (a = b);
}.

(** Correctness and unique decryption of the AEAD: Poly1305 tags are
    recomputed, so a ciphertext that opens is the sealing of its plaintext. *)
Class AeadLaws (SO : Sodium) : Prop := {
  aead_open_seal m ad n k : aead_open (aead_seal m ad n k) ad n k = Some m;
  aead_open_inv c m ad n k : aead_open c ad n k = Some m → c = aead_seal m ad n k;
  aead_seal_length m ad n k : blen (aead_seal m ad n k) = blen m + MACBYTES;
}.
Class SecretboxLaws (SO : Sodium) : Prop := {
  secretbox_open_seal m n k : secretbox_open (secretbox_seal m n k) n k = Some m;
  secretbox_open_inv c m n k :
    secretbox_open c n k = Some m → c = secretbox_seal m n k;
  secretbox_seal_length m n k : blen (secretbox_seal m n k) = blen m + MACBYTES;
}.

(** Key pairs. [box_pair pk sk] holds of an X25519 pair and [sign_pair pk sk]
    of an Ed25519 pair; a generated pair is one, and the conversion to
    Curve25519 takes a pair to a pair. *)
Class KeyLaws (SO : Sodium) := {
  box_pair : key32 → key32 → Prop;
  sign_pair : key32 → array 64 → Prop;
  box_gen_pair w : box_pair (box_gen_keypair w).1.1 (box_gen_keypair w).1.2;
  sign_gen_pair w : sign_pair (sign_gen_keypair w).1.1 (sign_gen_keypair w).1.2;
  (** Diffie-Hellman: both sides compute the same non-zero point. *)
  scalarmult_comm pa sa pb sb :
    box_pair pa sa → box_pair pb sb →
    ∃ s, scalarmult sa pb = Some s ∧ scalarmult sb pa = Some s;
  verify_sign pk sk m : sign_pair pk sk → verify_detached (sign_detached m sk) m pk = true;
  ed25519_to_curve25519 pk sk :
    sign_pair pk sk →
    (ed25519_pk_to_curve25519 pk).1 = 0 ∧ (ed25519_sk_to_curve25519 sk).1 = 0 ∧
    box_pair (ed25519_pk_to_curve25519 pk).2 (ed25519_sk_to_curve25519 sk).2;
  signature_roundtrip s : signature_from_bytes (signature_as_ref s) = Some s;
  signature_length s : length (signature_as_ref s) = 64%nat;
  (** [crypto_box]: the recipient opens what the sender sealed. *)
  box_open_seal pa sa pb sb m n :
    box_pair pa sa → box_pair pb sb →
    box_open (box_seal m n pb sa) n pa sb = Some m;
  sealedbox_open_seal pk sk m w :
    box_pair pk sk → sealedbox_open (sealedbox_seal m pk w).1 pk sk = Some m;
}.

(** ** Hashes *)

Class Hashes := {
  sha256 : bytes → key32;
  (** [Hmac::<Sha256>::new_from_slice(key)], [update(msg)], [finalize()]. *)
  hmac_sha256 : bytes → bytes → option key32;
  (** [Hkdf::<Sha256>::new(salt, ikm)], [expand(info, out)] with [out] of the
      given length; [None] when that length is too large. *)
  hkdf_sha256 : option bytes → bytes → bytes → nat → option bytes;
}.
Class HashLaws (HA : Hashes) : Prop := {
  hmac_any_key k m : is_Some (hmac_sha256 k m);
  hkdf_length salt ikm info n :
    Z.of_nat n ≤ 8160 →
    ∃ okm, hkdf_sha256 salt ikm info n = Some okm ∧ length okm = n;
}.

(** ** The hex crate *)

Class Hex := {
  hex_encode : bytes → bytes;
  hex_decode : bytes → option bytes;
}.
Definition is_lower_hexdigit (c : byte) : bool :=
  ((48 <=? byte_to_Z c) && (byte_to_Z c <=? 57))
  || ((97 <=? byte_to_Z c) && (byte_to_Z c <=? 102)).
Class HexLaws (HX : Hex) : Prop := {
  hex_decode_encode b : hex_decode (hex_encode b) = Some b;
  hex_encode_lower b : forallb is_lower_hexdigit (hex_encode b) = true;
  hex_encode_length b : length (hex_encode b) = (2 * length b)%nat;
  hex_decode_length s b : hex_decode s = Some b → length s = (2 * length b)%nat;
}.

(** ** serde_json

    [serde_json::to_vec] and [serde_json::from_slice] at one type, with the
    implementations that [#[derive(Serialize, Deserialize)]] generates for it.
    An error is the text of the [serde_json::Error]. *)
Class SerdeJson (T : Type) := {
  to_vec : T → outcome bytes bytes;
  json_from_slice : bytes → outcome bytes T;
}.
(** A serialised value is read back, and serialising a value of this type
    succeeds. *)
Class SerdeLaws (T : Type) (SJ : SerdeJson T) : Prop := {
  to_vec_ok x : ∃ v, to_vec x = Ret v;
  json_roundtrip x v : to_vec x = Ret v → json_from_slice v = Ret x;
}.

(** ** Calls shared by the components *)

(** [sodiumoxide::init().map_err(|_| CryptoError::InitFailed)?]. *)
Definition init_sodium {SO : Sodium} : M rng CryptoError unit :=
  ok ← draw sodium_init;
  if ok : bool then mret tt else throw InitFailed.

(** [map_err]. *)
Definition map_err {E F A} (f : E → F) (o : outcome E A) : outcome F A :=
  match o with Ret a => Ret a | Throw e => Throw (f e) | Panic => Panic end.

Section facts.
Context {SO : Sodium} {L : SodiumLaws SO}.
Lemma init_sodium_ready w : ready w → init_sodium w = (Ret tt, w).
Proof. intros H. unfold init_sodium, ready in *. mred. by rewrite H. Qed.
Lemma from_slice_array {n} (a : array n) : from_slice n (array_list a) = Some a.
Proof. by rewrite from_slice_spec, array_of_list_array. Qed.
Lemma from_slice_None n s : length s ≠ n → from_slice n s = None.
Proof. intros. by rewrite from_slice_spec, array_of_list_None. Qed.
Lemma from_slice_inv n s a : from_slice n s = Some a → array_list a = s.
Proof. rewrite from_slice_spec. apply array_of_list_inv. Qed.
Lemma from_slice_Some n s :
  length s = n → ∃ a, from_slice n s = Some a ∧ array_list a = s.
Proof. intros. rewrite from_slice_spec. by apply array_of_list_Some. Qed.
End facts.
#[export] Hint Rewrite @from_slice_array : vaultex_len.

Section hex_facts.
Context {HX : Hex} {L : HexLaws HX}.
#[export] Instance hex_encode_inj : Inj (=) (=) hex_encode.
Proof.
  intros a b H. pose proof (hex_decode_encode a) as Ha.
  rewrite H, hex_decode_encode in Ha. congruence.
Qed.
Lemma hex_encode_blen b : blen (hex_encode b) = 2 * blen b.
Proof. unfold blen. rewrite hex_encode_length. lia. Qed.
End hex_facts.
