(* ===== verification/Instances.v ===== *)
(** * A concrete instance of the interfaces

    Executable functions that satisfy every law of [Sodium.v]: they show that
    the hypotheses of the theorems can hold and let the witnesses run the
    modelled code on concrete inputs. They have the interface of the
    cryptography, not its strength: a secret key is its own public key, the
    shared secret of two keys is their bytewise sum, and a tag is a checksum. *)

From S2P Require Import Prelude Sodium.

(** ** The two standard build profiles *)
Definition debug_profile : BuildProfile :=
  {| overflow_checks := true; debug_assertions := true |}.
Definition release_profile : BuildProfile :=
  {| overflow_checks := false; debug_assertions := false |}.

(** ** Tabulated arrays *)
Lemma tabulate_ok n (f : Z → Z) :
  bool_decide (length ((λ i, byte_of_Z (f (Z.of_nat i))) <$> seq 0 n) = n).
Proof. apply bool_decide_pack. by rewrite length_fmap, length_seq. Qed.
Definition tabulate (n : nat) (f : Z → Z) : array n :=
  mk_array ((λ i, byte_of_Z (f (Z.of_nat i))) <$> seq 0 n) (tabulate_ok n f).
Definition byte_at (l : bytes) (i : Z) : Z :=
  default 0 (byte_to_Z <$> l !! Z.to_nat i).
Definition checksum (l : bytes) : Z :=
  foldl (λ v b, 3 * v + byte_to_Z b + 1) 0 l `mod` 65521.

(** ** sodiumoxide *)
Definition toy_tag (k : key32) (n : array 24) (ad : option bytes) (m : bytes) : array 16 :=
  tabulate 16 (λ i, byte_at (array_list k) i + byte_at (array_list k) (i + 16)
    + byte_at (array_list n) i + checksum (default [] ad) + checksum m).
Definition toy_seal (m : bytes) (ad : option bytes) (n : array 24) (k : key32) : bytes :=
  m ++ array_list (toy_tag k n ad m).
Definition toy_open (c : bytes) (ad : option bytes) (n : array 24) (k : key32) : option bytes :=
  let m := take (length c - 16) c in
  if bool_decide (c = toy_seal m ad n k) then Some m else None.
Definition toy_sum (a b : key32) : key32 :=
  tabulate 32 (λ i, byte_at (array_list a) i + byte_at (array_list b) i).
Definition toy_fresh (n : nat) (w : Z) : array n := tabulate n (λ i, w / 256 ^ i).
Definition toy_sign_pk (sk : array 64) : key32 :=
  tabulate 32 (λ i, byte_at (array_list sk) (i + 32)).
Definition toy_sign (m : bytes) (sk : array 64) : array 64 :=
  tabulate 64 (λ i, if i <? 32 then byte_at (array_list sk) (i + 32)
                    else checksum m / 256 ^ (i - 32)).

#[export] Instance toy_sodium : Sodium := {|
  rng := Z;
  sodium_init w := (true, w);
  randombytes n w := (array_list (toy_fresh n w), w + 1);
  from_slice n s := array_of_list n s;
  box_gen_keypair w := ((toy_fresh 32 w, toy_fresh 32 w), w + 1);
  box_gen_nonce w := (toy_fresh 24 w, w + 1);
  box_seal m n pk sk := toy_seal m None n (toy_sum pk sk);
  box_open c n pk sk := toy_open c None n (toy_sum pk sk);
  sealedbox_seal m pk w := (toy_seal m None (toy_fresh 24 0) pk, w + 1);
  sealedbox_open c pk sk := toy_open c None (toy_fresh 24 0) sk;
  scalarmult n p := Some (toy_sum n p);
  sign_gen_keypair w :=
    ((toy_fresh 32 w, tabulate 64 (λ i, w / 256 ^ (i `mod` 32))), w + 1);
  Signature := array 64;
  sign_detached := toy_sign;
  verify_detached s m pk :=
    bool_decide (s = toy_sign m (tabulate 64 (λ i, byte_at (array_list pk) (i - 32))));
  signature_from_bytes := array_of_list 64;
  signature_as_ref := array_list;
  ed25519_pk_to_curve25519 pk := (0, pk);
  ed25519_sk_to_curve25519 sk := (0, toy_sign_pk sk);
  aead_gen_nonce w := (toy_fresh 24 w, w + 1);
  aead_seal := toy_seal;
  aead_open := toy_open;
  secretbox_gen_key w := (toy_fresh 32 w, w + 1);
  secretbox_gen_nonce w := (toy_fresh 24 w, w + 1);
  secretbox_seal m n k := toy_seal m None n k;
  secretbox_open c n k := toy_open c None n k;
  memcmp a b := bool_decide (a = b);
|}.

Lemma tabulate_ext n f g :
  (∀ i, 0 ≤ i < Z.of_nat n → f i `mod` 256 = g i `mod` 256) →
  tabulate n f = tabulate n g.
Proof.
  intros H. apply array_eq; simpl. apply list_fmap_ext. intros j x Hx.
  apply lookup_seq in Hx as [-> Hj]. apply byte_to_Z_inj.
  rewrite !byte_to_of_Z. apply H. lia.
Qed.
Lemma byte_at_tabulate n f i :
  0 ≤ i < Z.of_nat n → byte_at (array_list (tabulate n f)) i = f i `mod` 256.
Proof.
  intros Hi. unfold byte_at; simpl. rewrite list_lookup_fmap, lookup_seq_lt by lia.
  simpl. by rewrite byte_to_of_Z, Z2Nat.id by lia.
Qed.

Lemma toy_seal_length m ad n k : blen (toy_seal m ad n k) = blen m + MACBYTES.
Proof. unfold toy_seal. by autorewrite with vaultex_len. Qed.
Lemma toy_open_seal m ad n k : toy_open (toy_seal m ad n k) ad n k = Some m.
Proof.
  unfold toy_open.
  replace (take (length (toy_seal m ad n k) - 16) (toy_seal m ad n k)) with m.
  - by rewrite bool_decide_true.
  - unfold toy_seal. rewrite length_app, array_length.
    replace (length m + 16 - 16)%nat with (length m) by lia.
    by rewrite take_app_length.
Qed.
Lemma toy_open_inv c m ad n k : toy_open c ad n k = Some m → c = toy_seal m ad n k.
Proof. unfold toy_open. case_bool_decide; naive_solver. Qed.
Lemma toy_sum_comm a b : toy_sum a b = toy_sum b a.
Proof. apply tabulate_ext. intros. by rewrite Z.add_comm. Qed.

#[export] Instance toy_sodium_laws : SodiumLaws toy_sodium.
Proof. split; try done. intros n w. simpl. by rewrite length_fmap, length_seq. Qed.
#[export] Instance toy_aead_laws : AeadLaws toy_sodium.
Proof. split; [apply toy_open_seal | apply toy_open_inv | apply toy_seal_length]. Qed.
#[export] Instance toy_secretbox_laws : SecretboxLaws toy_sodium.
Proof.
  split; intros; [apply toy_open_seal | by apply toy_open_inv | apply toy_seal_length].
Qed.
Lemma toy_sign_ext m sk sk' :
  (∀ i, 0 ≤ i < 32 → byte_at (array_list sk) (i + 32) = byte_at (array_list sk') (i + 32)) →
  toy_sign m sk = toy_sign m sk'.
Proof.
  intros H. apply tabulate_ext. intros i Hi.
  destruct (Z.ltb_spec i 32); [|done]. by rewrite H by lia.
Qed.
#[export] Program Instance toy_key_laws : KeyLaws toy_sodium := {|
  box_pair pk sk := pk = sk;
  sign_pair pk sk := pk = toy_sign_pk sk;
|}.
Next Obligation. done. Qed.
Next Obligation.
  intros w; simpl. apply tabulate_ext. intros i Hi.
  rewrite byte_at_tabulate by lia. rewrite Z.mod_mod by lia.
  by rewrite <-Z.add_mod_idemp_r, Z.mod_same, Z.add_0_r, (Z.mod_small i) by lia.
Qed.
Next Obligation. simpl. intros pa sa pb sb -> ->. eexists. by rewrite (toy_sum_comm sb). Qed.
Next Obligation.
  simpl. intros pk sk m ->. apply bool_decide_eq_true, toy_sign_ext. intros i Hi.
  rewrite byte_at_tabulate by lia.
  replace (i + 32 - 32) with i by lia. unfold toy_sign_pk.
  rewrite byte_at_tabulate, Z.mod_mod by lia. symmetry. apply Z.mod_small.
  unfold byte_at. destruct (_ !! _) as [b|]; simpl; [apply byte_to_Z_range | lia].
Qed.
Next Obligation. done. Qed.
Next Obligation. intros s; simpl. apply array_of_list_array. Qed.
Next Obligation. intros s; simpl. apply array_length. Qed.
Next Obligation. simpl. intros pa sa pb sb m n -> ->. rewrite (toy_sum_comm sb). apply toy_open_seal. Qed.
Next Obligation. simpl. intros pk sk m w ->. apply toy_open_seal. Qed.

(** ** Hashes *)
#[export] Instance toy_hashes : Hashes := {|
  sha256 m := tabulate 32 (λ i, checksum m / 2 ^ i + 7 * i + checksum (byte_of_Z i :: m));
  hmac_sha256 k m :=
    Some (tabulate 32 (λ i, 3 * byte_at k i + 5 * checksum m + checksum (k ++ m) + i));
  hkdf_sha256 salt ikm info n :=
    if Z.of_nat n <=? 8160
    then Some (array_list (tabulate n (λ i,
           byte_at (default [] salt) (i `mod` 32) + byte_at ikm (i `mod` 32)
           + checksum ikm + checksum info + i)))
    else None;
|}.
#[export] Instance toy_hash_laws : HashLaws toy_hashes.
Proof.
  split; simpl; [by eexists|]. intros salt ikm info n Hn.
  rewrite (proj2 (Z.leb_le _ _)) by done. eexists; split; [done|].
  by rewrite length_fmap, length_seq.
Qed.

(** ** The hexadecimal codec *)
Definition hex_digit (d : Z) : byte := byte_of_Z (if d <? 10 then 48 + d else 87 + d).
Definition hex_value (c : byte) : option Z :=
  let z := byte_to_Z c in
  if (48 <=? z) && (z <=? 57) then Some (z - 48)
  else if (97 <=? z) && (z <=? 102) then Some (z - 87)
  else if (65 <=? z) && (z <=? 70) then Some (z - 55) else None.
Fixpoint hex_encode_list (l : bytes) : bytes :=
  match l with
  | [] => []
  | b :: l => hex_digit (byte_to_Z b / 16) :: hex_digit (byte_to_Z b `mod` 16)
              :: hex_encode_list l
  end.
Fixpoint hex_decode_list (l : bytes) : option bytes :=
  match l with
  | [] => Some []
  | [_] => None
  | c :: d :: l =>
      x ← hex_value c; y ← hex_value d; r ← hex_decode_list l;
      Some (byte_of_Z (16 * x + y) :: r)
  end.
#[export] Instance toy_hex : Hex :=
  {| hex_encode := hex_encode_list; hex_decode := hex_decode_list |}.

Lemma hex_value_digit d :
  0 ≤ d < 16 → hex_value (hex_digit d) = Some d ∧ is_lower_hexdigit (hex_digit d) = true.
Proof.
  intros Hd. assert (∃ i, d = Z.of_nat i ∧ (i < 16)%nat) as (i & -> & Hi)
    by (exists (Z.to_nat d); lia).
  do 16 (destruct i as [|i]; [by vm_compute|]). lia.
Qed.
Lemma hex_decode_list_length l b :
  hex_decode_list l = Some b → length l = (2 * length b)%nat.
Proof.
  revert b. induction l as [l IH] using (induction_ltof1 _ (@length byte)).
  destruct l as [|c [|d l]]; simpl; intros b H; simplify_option_eq; [done|].
  erewrite IH; [|unfold ltof; simpl; lia|done]. lia.
Qed.
#[export] Instance toy_hex_laws : HexLaws toy_hex.
Proof.
  assert (∀ b, 0 ≤ byte_to_Z b / 16 < 16 ∧ 0 ≤ byte_to_Z b `mod` 16 < 16) as Hb.
  { intros b. pose proof (byte_to_Z_range b).
    split; [split; [apply Z.div_pos; lia|apply Z.div_lt_upper_bound; lia]|].
    by apply Z.mod_pos_bound. }
  split; simpl.
  - induction b as [|b l IH]; [done|]. cbn -[hex_value hex_digit].
    destruct (hex_value_digit _ (proj1 (Hb b))) as [-> _].
    destruct (hex_value_digit _ (proj2 (Hb b))) as [-> _]. cbn -[Z.mul].
    rewrite IH; cbn -[Z.mul]. do 2 f_equal.
    rewrite <-Z.div_mod by lia. apply byte_of_to_Z.
  - induction b as [|b l IH]; [done|]. cbn -[is_lower_hexdigit hex_digit].
    destruct (hex_value_digit _ (proj1 (Hb b))) as [_ ->].
    by destruct (hex_value_digit _ (proj2 (Hb b))) as [_ ->].
  - induction b as [|b l IH]; [done|]. simpl. lia.
  - apply hex_decode_list_length.
Qed.

(** ** A serialiser for any countable type *)
Fixpoint pos_to_bytes (p : positive) : bytes :=
  match p with
  | xH => []
  | xO p => Byte.x00 :: pos_to_bytes p
  | xI p => Byte.x01 :: pos_to_bytes p
  end.
Fixpoint pos_of_bytes (l : bytes) : positive :=
  match l with
  | [] => xH
  | b :: l => if bool_decide (b = Byte.x00) then xO (pos_of_bytes l) else xI (pos_of_bytes l)
  end.
Lemma pos_of_to_bytes p : pos_of_bytes (pos_to_bytes p) = p.
Proof. induction p as [p IH|p IH|]; simpl; by rewrite ?IH. Qed.
Definition countable_serde (T : Type) `{Countable T} : SerdeJson T := {|
  to_vec x := Ret (pos_to_bytes (encode x));
  json_from_slice l :=
    match decode (pos_of_bytes l) with Some x => Ret x | None => Throw [] end;
|}.
Lemma countable_serde_laws (T : Type) `{Countable T} : SerdeLaws T (countable_serde T).
Proof.
  split; simpl; [by eexists|]. intros x v [= <-].
  by rewrite pos_of_to_bytes, decode_encode.
Qed.
