(* ===== verification/Harness.v ===== *)
(** * Calls from client code and from tests

    [unwrap], [assert!], a method call on a session that the caller owns, and a
    call whose result is examined instead of unwrapped. *)

From S2P Require Import Prelude RustStr Errors Sodium.

(** [Result::unwrap] and [assert!]: a panic. *)
Definition unwrap {S E A} (m : M S E A) : M S E A := λ s,
  match m s with (Throw _, s') => (Panic, s') | r => r end.
Definition assert_that {S E} (b : bool) : M S E unit := λ s, (if b then Ret tt else Panic, s).
(** The assertions of a loop. *)
Fixpoint assert_all {S E} (bs : list bool) : M S E unit :=
  match bs with [] => mret tt | b :: bs => assert_that b;; assert_all bs end.
(** [is_err()], and the result of a call as a value: the caller goes on. *)
Definition is_err {E A} (o : outcome E A) : bool := match o with Throw _ => true | _ => false end.
Definition attempt {S E A} (m : M S E A) : M S E (outcome E A) := λ s,
  match m s with (Panic, s') => (Panic, s') | (o, s') => (Ret o, s') end.
(** [unwrap] of a value that is at hand, of any error type. *)
Definition unwrapped {E F A} (o : outcome E A) : outcome F A :=
  match o with Ret a => Ret a | _ => Panic end.
(** A test passes when it runs to its end. *)
Definition passes {W E} (t : M W E unit) (w : W) : Prop := ∃ w', t w = (Ret tt, w').
(** A method call on a session that the caller owns. *)
Definition with_session {T W E A} (m : M (T * W) E A) (s : T) : M W E (A * T) := λ w,
  match m (s, w) with
  | (Ret a, (s', w')) => (Ret (a, s'), w')
  | (Throw e, (_, w')) => (Throw e, w')
  | (Panic, (_, w')) => (Panic, w')
  end.
(** The same with the result as a value; the session keeps what the call wrote. *)
Definition try_session {T W E A} (m : M (T * W) E A) (s : T) : M W E (outcome E A * T) := λ w,
  match m (s, w) with
  | (Panic, (_, w')) => (Panic, w')
  | (o, (s', w')) => (Ret (o, s'), w')
  end.

Lemma unwrap_Ret {S E A} (m : M S E A) s a s' : m s = (Ret a, s') → unwrap m s = (Ret a, s').
Proof. intros H. unfold unwrap. by rewrite H. Qed.
Lemma assert_that_true {S E} b (s : S) : b = true → assert_that (E:=E) b s = (Ret tt, s).
Proof. by intros ->. Qed.
Lemma assert_that_passes {S E} b (s : S) : b = true → passes (assert_that (E:=E) b) s.
Proof. intros H. exists s. by apply assert_that_true. Qed.
(** The rest of a test after a call with a known result. *)
Lemma passes_bind {W E A} (m : M W E A) (k : A → M W E unit) w a w' :
  m w = (Ret a, w') → passes (k a) w' → passes (m ≫= k) w.
Proof. intros H [w2 Hk]. exists w2. by rewrite (bind_Ret _ _ _ _ _ H). Qed.
Lemma passes_assert {W E} b (k : unit → M W E unit) w :
  b = true → passes (k tt) w → passes (assert_that b ≫= k) w.
Proof. intros ->. by apply passes_bind. Qed.
Lemma passes_assert_all {W E} bs (k : unit → M W E unit) w :
  forallb id bs = true → passes (k tt) w → passes (assert_all bs ≫= k) w.
Proof.
  intros H. apply passes_bind. induction bs as [|b bs IH]; [done|]. simpl in H.
  apply andb_prop in H as [Hb H]. cbn [assert_all]. rewrite (bind_Ret _ _ _ _ _ (assert_that_true b w Hb)).
  by apply IH.
Qed.
Lemma passes_lift {W E A} (o : outcome E A) (k : A → M W E unit) w a :
  o = Ret a → passes (k a) w → passes (lift o ≫= k) w.
Proof. intros ->. by apply passes_bind. Qed.
Lemma passes_unwrap_lift {W E A} (o : outcome E A) (k : A → M W E unit) w a :
  o = Ret a → passes (k a) w → passes (unwrap (lift o) ≫= k) w.
Proof. intros ->. by apply passes_bind. Qed.
Lemma passes_attempt {W E A} (m : M W E A) (k : outcome E A → M W E unit) w o w' :
  m w = (o, w') → o ≠ Panic → passes (k o) w' → passes (attempt m ≫= k) w.
Proof.
  intros H Ho. apply passes_bind. unfold attempt. rewrite H. by destruct o.
Qed.
Lemma with_session_Ret {T W E A} (m : M (T * W) E A) s w a s' w' :
  m (s, w) = (Ret a, (s', w')) → with_session m s w = (Ret (a, s'), w').
Proof. intros H. unfold with_session. by rewrite H. Qed.
Lemma try_session_run {T W E A} (m : M (T * W) E A) s w o s' w' :
  m (s, w) = (o, (s', w')) → o ≠ Panic → try_session m s w = (Ret (o, s'), w').
Proof. intros H Ho. unfold try_session. rewrite H. by destruct o. Qed.

Lemma init_step {SO : Sodium} {L : SodiumLaws SO} (k : unit → M rng CryptoError unit) w :
  ready w → passes (k tt) w → passes (unwrap init_sodium ≫= k) w.
Proof. intros Hw. apply passes_bind, unwrap_Ret. by apply init_sodium_ready. Qed.

(** [each_case]: the members of a list one by one. [tstep H]: the test's first call returns as [H] says. [tassert]: its first
    assertion holds. [tcompute]: its first call is pure and computes. *)
Ltac each_case := repeat (apply Forall_cons; split); try apply Forall_nil_2.
Ltac tcompute := first [eapply passes_lift | eapply passes_unwrap_lift]; [reflexivity|]; cbn beta iota.
Ltac tstep H :=
  first [ eapply passes_bind; [exact H|] | eapply passes_bind; [apply unwrap_Ret; exact H|]
        | eapply passes_lift; [exact H|] | eapply passes_unwrap_lift; [exact H|] ];
  cbn beta iota.
Ltac tassert := first [apply passes_assert | apply passes_assert_all | apply assert_that_passes].
