(* ===== verification/Padding.v ===== *)
(** * padding.rs: length-hiding padding of messages

    [pad_message], [unpad_message], [bucket_size], [generate_dummy_message] and
    [is_dummy_message] as the source has them, with every slice index, [usize]
    operation and allocation able to panic. The abstract specification is
    [is_bucket]: the padded sizes are 256, 512, ..., 65536 and the multiples of
    65536, and a message takes the least one that leaves four bytes of room. *)

From S2P Require Import Prelude RustStr Errors Sodium Instances.
Local Open Scope rust_scope.

Definition MIN_BUCKET : Z := 256.
Definition MAX_BUCKET : Z := 65536.
Definition PAD_LEN_BYTES : Z := 4.

(** The sizes that [bucket_size] may return. *)
Definition is_bucket (b : Z) : Prop :=
  (∃ k, 8 ≤ k ≤ 16 ∧ b = 2 ^ k) ∨ (∃ j, 1 ≤ j ∧ b = j * MAX_BUCKET).

(** The plaintexts for which a padded vector can be allocated. *)
Definition paddable (m : bytes) : Prop :=
  blen m + PAD_LEN_BYTES + MAX_BUCKET ≤ isize_max.

Section padding.
Context {BP : BuildProfile} {SO : Sodium}.

Definition bucket_size (len : Z) : Result Z :=
  needed ← len +usize PAD_LEN_BYTES;
  if needed <=? MIN_BUCKET then Ret MIN_BUCKET
  else if needed <=? MAX_BUCKET then next_power_of_two needed
  else div_ceil needed MAX_BUCKET *usize MAX_BUCKET.

Definition pad_message (plaintext : bytes) : M rng CryptoError bytes :=
  target ← lift (bucket_size (blen plaintext));
  pad_len ← lift (target -usize blen plaintext);
  if pad_len <? PAD_LEN_BYTES
  then throw (PaddingError (bstr "computed padding too small for length encoding"))
  else
    lift (with_capacity target);;
    fill_len ← lift (pad_len -usize PAD_LEN_BYTES);
    padded ← (if 0 <? fill_len
              then lift (with_capacity fill_len);;
                   fill ← draw (randombytes (Z.to_nat fill_len));
                   mret (plaintext ++ fill)
              else mret plaintext);
    let padded := padded ++ u32_to_le_bytes (as_u32 pad_len) in
    lift (debug_assert (blen padded =? target));;
    mret padded.

Definition unpad_message (padded : bytes) : Result bytes :=
  if blen padded <? PAD_LEN_BYTES
  then Throw (PaddingError (bstr "padded message too short"))
  else
    offset ← blen padded -usize PAD_LEN_BYTES;
    o1 ← offset +usize 1; o2 ← offset +usize 2; o3 ← offset +usize 3;
    b0 ← index padded offset; b1 ← index padded o1;
    b2 ← index padded o2; b3 ← index padded o3;
    let pad_len := u32_from_le_bytes [b0; b1; b2; b3] in
    if (pad_len <? PAD_LEN_BYTES) || (blen padded <? pad_len)
    then Throw (PaddingError (bstr "invalid padding length"))
    else
      payload_len ← blen padded -usize pad_len;
      slice_to padded payload_len.

Definition generate_dummy_message (size : Z) : M rng CryptoError bytes :=
  let actual_size := if size <? MIN_BUCKET then MIN_BUCKET else size in
  lift (with_capacity actual_size);;
  buf ← draw (randombytes (Z.to_nat actual_size));
  mark ← lift (actual_size -usize PAD_LEN_BYTES);
  m1 ← lift (mark +usize 1); m2 ← lift (mark +usize 2); m3 ← lift (mark +usize 3);
  buf ← lift (index_set buf mark Byte.xff);
  buf ← lift (index_set buf m1 Byte.xff);
  buf ← lift (index_set buf m2 Byte.xff);
  lift (index_set buf m3 Byte.xff).

Definition is_dummy_message (data : bytes) : Result bool :=
  if blen data <? PAD_LEN_BYTES then Ret false
  else
    offset ← blen data -usize PAD_LEN_BYTES;
    b0 ← index data offset;
    if negb (bool_decide (b0 = Byte.xff)) then Ret false else
    o1 ← offset +usize 1; b1 ← index data o1;
    if negb (bool_decide (b1 = Byte.xff)) then Ret false else
    o2 ← offset +usize 2; b2 ← index data o2;
    if negb (bool_decide (b2 = Byte.xff)) then Ret false else
    o3 ← offset +usize 3; b3 ← index data o3;
    Ret (bool_decide (b3 = Byte.xff)).
End padding.

(** ** Buckets *)
Section bucket_facts.
Context {BP : BuildProfile} {SO : Sodium}.

Lemma div_ceil_spec n d :
  0 < d → (div_ceil n d - 1) * d < n ≤ div_ceil n d * d.
Proof.
  intros Hd. unfold div_ceil. pose proof (Z.mod_pos_bound n d Hd).
  pose proof (Z.div_mod n d ltac:(lia)).
  destruct (Z.ltb_spec 0 (n `mod` d)); nia.
Qed.

Lemma is_bucket_ge b : is_bucket b → MIN_BUCKET ≤ b.
Proof.
  intros [(k & Hk & ->)|(j & Hj & ->)]; unfold MIN_BUCKET, MAX_BUCKET in *.
  - change 256 with (2 ^ 8). apply Z.pow_le_mono_r; lia.
  - lia.
Qed.
(** Above 2^16 only multiples of 65536 are left; below, only powers. *)
Lemma is_bucket_large b : is_bucket b → MAX_BUCKET ≤ b → ∃ j, b = j * MAX_BUCKET.
Proof.
  intros [(k & Hk & ->)|(j & Hj & ->)] Hb; [|by exists j].
  exists 1. unfold MAX_BUCKET in *. change 65536 with (2 ^ 16) in Hb.
  apply Z.pow_le_mono_r_iff in Hb; [|lia..]. by replace k with 16 by lia.
Qed.
Lemma is_bucket_small b :
  is_bucket b → b ≤ MAX_BUCKET → ∃ k, 8 ≤ k ≤ 16 ∧ b = 2 ^ k.
Proof.
  intros [?|(j & Hj & ->)] Hb; [done|]. exists 16. unfold MAX_BUCKET in *. lia.
Qed.

(** The code returns, and it returns the least bucket with room. *)
Lemma bucket_size_spec len :
  0 ≤ len → len + PAD_LEN_BYTES + MAX_BUCKET ≤ isize_max →
  ∃ b, bucket_size len = Ret b ∧ is_bucket b ∧ len + PAD_LEN_BYTES ≤ b ∧
       (∀ b', is_bucket b' → len + PAD_LEN_BYTES ≤ b' → b ≤ b') ∧
       b ≤ len + PAD_LEN_BYTES + MAX_BUCKET.
Proof.
  unfold PAD_LEN_BYTES, isize_max. intros H0 Hlen. unfold bucket_size, MAX_BUCKET in *.
  rewrite add_w_ok by (unfold in_width, PAD_LEN_BYTES; lia). mred.
  unfold PAD_LEN_BYTES, MIN_BUCKET.
  destruct (Z.leb_spec (len + 4) 256) as [Hs|Hs].
  { exists 256. split_and!; [done| |lia| |lia].
    - left. by exists 8.
    - intros b' Hb' _. by apply is_bucket_ge. }
  destruct (Z.leb_spec (len + 4) 65536) as [Hm|Hm].
  - pose proof (Z.log2_up_spec (len + 4) ltac:(lia)) as [Hlo Hhi].
    assert (8 ≤ Z.log2_up (len + 4) ≤ 16) as Hk.
    { split.
      - change 8 with (Z.log2_up 256). apply Z.log2_up_le_mono. lia.
      - change 16 with (Z.log2_up 65536). apply Z.log2_up_le_mono. lia. }
    assert (2 ^ Z.log2_up (len + 4) ≤ 2 ^ 16) by (apply Z.pow_le_mono_r; lia).
    exists (2 ^ Z.log2_up (len + 4)). unfold next_power_of_two.
    rewrite wrap_w_ok by (unfold in_width; lia).
    split_and!; [done|by left; eexists|done| |lia].
    intros b' Hb' Hge. destruct (Z.le_gt_cases b' 65536) as [Hle|]; [|lia].
    destruct (is_bucket_small b' Hb' Hle) as (k & Hk' & ->).
    apply Z.pow_le_mono_r; [lia|]. apply Z.log2_up_le_pow2; lia.
  - pose proof (div_ceil_spec (len + 4) 65536 ltac:(lia)).
    exists (div_ceil (len + 4) 65536 * 65536).
    rewrite mul_w_ok by (unfold in_width; lia).
    split_and!; [done|right; eexists; split; [|done]; lia|lia| |lia].
    intros b' Hb' Hge. unfold MAX_BUCKET in *.
    destruct (is_bucket_large b' Hb' ltac:(unfold MAX_BUCKET; lia)) as [j ->].
    unfold MAX_BUCKET in *. nia.
Qed.
End bucket_facts.

(** ** What the operations compute *)
Section padding_facts.
Context {BP : BuildProfile} {SO : Sodium} {L : SodiumLaws SO}.

Lemma pad_message_spec m w :
  paddable m →
  ∃ b fill w', pad_message m w = (Ret (m ++ fill ++ u32_to_le_bytes (b - blen m)), w') ∧
    bucket_size (blen m) = Ret b ∧ is_bucket b ∧
    blen fill = b - blen m - PAD_LEN_BYTES ∧
    PAD_LEN_BYTES ≤ b - blen m ≤ MAX_BUCKET + PAD_LEN_BYTES ∧
    (ready w → ready w').
Proof.
  intros Hm. pose proof (blen_nonneg m) as H0.
  destruct (bucket_size_spec (blen m) H0 Hm) as (b & Hb & Hbk & Hge & _ & Hle).
  unfold paddable, isize_max, PAD_LEN_BYTES, MAX_BUCKET in *.
  unfold pad_message. mred. rewrite Hb. mred.
  rewrite sub_w_ok by (unfold in_width; lia). mred.
  unfold PAD_LEN_BYTES. rewrite (proj2 (Z.ltb_ge _ _)) by lia.
  rewrite with_capacity_ok by (unfold isize_max; lia). mred.
  rewrite sub_w_ok by (unfold in_width; lia). mred.
  assert (as_u32 (b - blen m) = b - blen m) as ->.
  { unfold as_u32. apply Z.mod_small. lia. }
  exists b. destruct (Z.ltb_spec 0 (b - blen m - 4)) as [Hf|Hf].
  - rewrite with_capacity_ok by (unfold isize_max; lia). mred.
    destruct (randombytes (Z.to_nat (b - blen m - 4)) w) as [fill w'] eqn:Hr. mred.
    pose proof (randombytes_length (Z.to_nat (b - blen m - 4)) w) as Hfl.
    pose proof (ready_randombytes (Z.to_nat (b - blen m - 4)) w) as Hrdy.
    rewrite Hr in Hfl, Hrdy; simpl in Hfl, Hrdy.
    assert (blen fill = b - blen m - 4) as Hbf by (unfold blen in *; lia).
    rewrite debug_assert_ok.
    + exists fill, w'. rewrite <-app_assoc. split_and!; auto with lia.
    + autorewrite with vaultex_len. apply Z.eqb_eq. lia.
  - rewrite debug_assert_ok.
    + exists [], w. split_and!; auto with lia. change (@blen byte []) with 0. lia.
    + autorewrite with vaultex_len. apply Z.eqb_eq. lia.
Qed.

Lemma index_tail4 (E : Type) (q l4 : bytes) :
  length l4 = 4%nat →
  ∃ b0 b1 b2 b3, l4 = [b0; b1; b2; b3] ∧
    index (E:=E) (q ++ l4) (blen q) = Ret b0 ∧
    index (E:=E) (q ++ l4) (blen q + 1) = Ret b1 ∧
    index (E:=E) (q ++ l4) (blen q + 2) = Ret b2 ∧
    index (E:=E) (q ++ l4) (blen q + 3) = Ret b3.
Proof.
  destruct l4 as [|b0 [|b1 [|b2 [|b3 []]]]]; try done. intros _.
  exists b0, b1, b2, b3. split_and!; [done| |by apply index_app_r..].
  rewrite <-(Z.add_0_r (blen q)). by apply index_app_r.
Qed.
Lemma split_tail4 (p : bytes) :
  PAD_LEN_BYTES ≤ blen p → ∃ q l4, p = q ++ l4 ∧ length l4 = 4%nat.
Proof.
  unfold PAD_LEN_BYTES, blen. intros Hp.
  exists (take (length p - 4) p), (drop (length p - 4) p).
  rewrite take_drop, length_drop. split; [done|lia].
Qed.

(** [unpad_message] on a buffer whose last four bytes are [l4]. *)
Lemma unpad_app q l4 :
  length l4 = 4%nat → blen (q ++ l4) ≤ isize_max →
  unpad_message (q ++ l4) =
    if (u32_from_le_bytes l4 <? PAD_LEN_BYTES)
       || (blen q + PAD_LEN_BYTES <? u32_from_le_bytes l4)
    then Throw (PaddingError (bstr "invalid padding length"))
    else Ret (take (Z.to_nat (blen q + PAD_LEN_BYTES - u32_from_le_bytes l4)) q).
Proof.
  intros Hl4 Hmax. pose proof (blen_nonneg q).
  assert (blen (q ++ l4) = blen q + 4) as Hlen
    by (rewrite blen_app; unfold blen; lia).
  unfold unpad_message, isize_max, PAD_LEN_BYTES in *. rewrite Hlen in *.
  rewrite (proj2 (Z.ltb_ge _ _)) by lia.
  rewrite sub_w_ok by (unfold in_width; lia).
  replace (blen q + 4 - 4) with (blen q) by lia. mred.
  rewrite !add_w_ok by (unfold in_width; lia). mred.
  destruct (index_tail4 CryptoError q l4 Hl4) as (b0 & b1 & b2 & b3 & -> & -> & -> & -> & ->).
  mred.
  pose proof (u32_from_le_bytes_range [b0; b1; b2; b3] Hl4) as Hr.
  unfold is_u32, in_width in Hr.
  destruct (Z.ltb_spec (u32_from_le_bytes [b0; b1; b2; b3]) 4); [done|]. simpl orb.
  destruct (Z.ltb_spec (blen q + 4) (u32_from_le_bytes [b0; b1; b2; b3])); [done|].
  rewrite sub_w_ok by (unfold in_width; lia). mred.
  rewrite slice_to_ok by lia. f_equal. apply take_app_le. unfold blen in *. lia.
Qed.
Lemma unpad_short p :
  blen p < PAD_LEN_BYTES →
  unpad_message p = Throw (PaddingError (bstr "padded message too short")).
Proof. intros H. unfold unpad_message. by rewrite (proj2 (Z.ltb_lt _ _)). Qed.

Lemma is_dummy_app q l4 :
  length l4 = 4%nat → blen (q ++ l4) ≤ isize_max →
  is_dummy_message (q ++ l4) = Ret (bool_decide (l4 = replicate 4 Byte.xff)).
Proof.
  intros Hl4 Hmax. pose proof (blen_nonneg q).
  assert (blen (q ++ l4) = blen q + 4) as Hlen
    by (rewrite blen_app; unfold blen; lia).
  unfold is_dummy_message, isize_max, PAD_LEN_BYTES in *. rewrite Hlen in *.
  rewrite (proj2 (Z.ltb_ge _ _)) by lia.
  rewrite sub_w_ok by (unfold in_width; lia).
  replace (blen q + 4 - 4) with (blen q) by lia. mred.
  rewrite !add_w_ok by (unfold in_width; lia). mred.
  destruct (index_tail4 CryptoError q l4 Hl4) as (b0 & b1 & b2 & b3 & -> & -> & -> & -> & ->).
  mred. simpl replicate. by repeat (case_bool_decide; simplify_eq/=).
Qed.

(** The round trip, for the components that pad. *)
Lemma pad_unpads m w :
  paddable m →
  ∃ p w', pad_message m w = (Ret p, w') ∧ unpad_message p = Ret m ∧
          is_dummy_message p = Ret false ∧ (ready w → ready w').
Proof.
  intros Hm. pose proof (blen_nonneg m) as H0.
  destruct (pad_message_spec m w Hm) as (b & fill & w' & Hp & _ & _ & Hf & Hr & Hrdy).
  exists (m ++ fill ++ u32_to_le_bytes (b - blen m)), w'. split; [done|].
  pose proof (length_u32_to_le_bytes (b - blen m)) as Hl4.
  assert (is_u32 (b - blen m)) as Hu.
  { unfold is_u32, in_width, PAD_LEN_BYTES, MAX_BUCKET in *. lia. }
  assert (blen ((m ++ fill) ++ u32_to_le_bytes (b - blen m)) ≤ isize_max) as Hmax.
  { rewrite !blen_app. unfold paddable, PAD_LEN_BYTES, MAX_BUCKET, blen in *. lia. }
  rewrite app_assoc, unpad_app, is_dummy_app, u32_from_to_le_bytes by done.
  rewrite blen_app. unfold PAD_LEN_BYTES, MAX_BUCKET in *. split; [|split; [|done]].
  - rewrite (proj2 (Z.ltb_ge _ _)), (proj2 (Z.ltb_ge _ _)) by lia. simpl. f_equal.
    apply take_app_blen. lia.
  - rewrite bool_decide_false; [done|]. intros H%u32_le_bytes_max; [|done].
    unfold u32_max in H. lia.
Qed.

Lemma index_set_ok (E : Type) (l : bytes) i b :
  0 ≤ i < blen l → index_set (E:=E) l i b = Ret (<[Z.to_nat i := b]> l).
Proof.
  intros. unfold index_set.
  by rewrite (proj2 (Z.leb_le _ _)), (proj2 (Z.ltb_lt _ _)) by lia.
Qed.
Lemma generate_dummy_spec size w :
  size ≤ isize_max →
  ∃ q w', generate_dummy_message size w = (Ret (q ++ replicate 4 Byte.xff), w') ∧
          blen q + 4 = Z.max MIN_BUCKET size ∧ (ready w → ready w').
Proof.
  unfold isize_max. intros Hs. unfold generate_dummy_message. mred.
  set (n := if size <? MIN_BUCKET then MIN_BUCKET else size).
  assert (n = Z.max MIN_BUCKET size ∧ 256 ≤ n ≤ isize_max) as [Hn Hb].
  { unfold n, MIN_BUCKET, isize_max. destruct (Z.ltb_spec size 256); lia. }
  unfold isize_max in Hb. rewrite with_capacity_ok by (unfold isize_max; lia). mred.
  pose proof (randombytes_length (Z.to_nat n) w) as Hl.
  pose proof (ready_randombytes (Z.to_nat n) w) as Hrdy.
  destruct (randombytes (Z.to_nat n) w) as [buf w'] eqn:Hr; simpl in Hl, Hrdy. mred.
  assert (PAD_LEN_BYTES ≤ blen buf) as H4 by (unfold PAD_LEN_BYTES, blen; lia).
  destruct (split_tail4 buf H4) as (q & l4 & -> & Hl4).
  rewrite length_app in Hl. unfold PAD_LEN_BYTES.
  rewrite sub_w_ok by (unfold in_width; lia). mred.
  replace (n - 4) with (blen q) by (unfold blen; lia).
  rewrite !add_w_ok by (unfold in_width, blen; lia). mred.
  destruct l4 as [|b0 [|b1 [|b2 [|b3 []]]]]; try done.
  pose proof (blen_nonneg q) as Hq. unfold blen in *. simpl in Hl.
  do 4 (rewrite index_set_ok;
        [mred | unfold blen; rewrite ?length_insert, length_app; simpl; lia]).
  exists q, w'. split_and!; [|lia|done]. do 2 f_equal.
  rewrite insert_app_r_alt by lia.
  replace (Z.to_nat (Z.of_nat (length q)) - length q)%nat with 0%nat by lia.
  rewrite insert_app_r_alt by lia.
  replace (Z.to_nat (Z.of_nat (length q) + 1) - length q)%nat with 1%nat by lia.
  rewrite insert_app_r_alt by lia.
  replace (Z.to_nat (Z.of_nat (length q) + 2) - length q)%nat with 2%nat by lia.
  rewrite insert_app_r_alt by lia.
  by replace (Z.to_nat (Z.of_nat (length q) + 3) - length q)%nat with 3%nat by lia.
Qed.
End padding_facts.

(** ** Properties *)
Section padding_properties.
Context {BP : BuildProfile} {SO : Sodium} {L : SodiumLaws SO}.

(** C27: padding a message that fits in memory never fails or panics,
    [unpad_message] gives the message back, and the padded buffer is not
    taken for cover traffic. *)
Theorem pad_unpad_roundtrip m w :
  paddable m →
  ∃ p w', pad_message m w = (Ret p, w') ∧ unpad_message p = Ret m ∧
          is_dummy_message p = Ret false.
Proof.
  intros Hm. destruct (pad_unpads m w Hm) as (p & w' & Hp & Hu & Hd & _). by exists p, w'.
Qed.


(** C29: [unpad_message] is total on every buffer. It returns [m] exactly when
    the buffer is [m], then some fill, then the little-endian [u32] length of
    the padding (suffix included), and otherwise it reports a padding
    error. *)
Theorem unpad_exact p :
  blen p ≤ isize_max →
  (∀ m, unpad_message p = Ret m ↔
        ∃ fill l4, p = m ++ fill ++ l4 ∧ length l4 = 4%nat ∧
                   u32_from_le_bytes l4 = blen fill + PAD_LEN_BYTES) ∧
  ((∃ m, unpad_message p = Ret m) ∨ ∃ msg, unpad_message p = Throw (PaddingError msg)).
Proof.
  intros Hmax. destruct (Z.lt_ge_cases (blen p) PAD_LEN_BYTES) as [Hs|Hs].
  { rewrite unpad_short by done. split; [|by right; eexists]. intros m. split; [done|].
    intros (fill & l4 & -> & Hl4 & _). autorewrite with vaultex_len in Hs.
    unfold PAD_LEN_BYTES, blen in *. lia. }
  destruct (split_tail4 p Hs) as (q & l4 & -> & Hl4). rewrite unpad_app by done.
  pose proof (u32_from_le_bytes_range l4 Hl4) as [Hr _]. pose proof (blen_nonneg q).
  unfold PAD_LEN_BYTES in *. split.
  - intros m. split.
    + destruct (Z.ltb_spec (u32_from_le_bytes l4) 4); [done|].
      destruct (Z.ltb_spec (blen q + 4) (u32_from_le_bytes l4)); [done|].
      simpl. intros [= <-].
      eexists (drop _ q), l4. rewrite app_assoc, take_drop. split_and!; [done..|].
      unfold blen in *. rewrite length_drop. lia.
    + intros (fill & l4' & Heq & Hl4' & Hu).
      rewrite app_assoc in Heq. apply app_inj_2 in Heq as [-> ->]; [|lia].
      rewrite Hu, blen_app in *. pose proof (blen_nonneg fill).
      pose proof (blen_nonneg m).
      rewrite (proj2 (Z.ltb_ge _ _)), (proj2 (Z.ltb_ge _ _)) by lia. simpl. f_equal.
      apply take_app_blen. lia.
  - destruct (_ || _); [right|left]; by eexists.
Qed.

(** C30: cover traffic of any size below 4 GiB is recognised by
    [is_dummy_message] and cannot be unpadded as a message. *)
Theorem dummy_recognised size w :
  size < u32_max →
  ∃ d w', generate_dummy_message size w = (Ret d, w') ∧
          blen d = Z.max MIN_BUCKET size ∧ is_dummy_message d = Ret true ∧
          unpad_message d = Throw (PaddingError (bstr "invalid padding length")).
Proof.
  unfold u32_max. intros Hs.
  destruct (generate_dummy_spec size w) as (q & w' & Hg & Hq & _).
  { unfold isize_max. lia. }
  assert (blen (q ++ replicate 4 Byte.xff) = blen q + 4) as Hlen by (by rewrite blen_app).
  assert (blen (q ++ replicate 4 Byte.xff) ≤ isize_max).
  { unfold isize_max, MIN_BUCKET in *. lia. }
  eexists _, w'. split; [done|]. rewrite is_dummy_app, unpad_app by done.
  split_and!; [lia|done|].
  change (u32_from_le_bytes (replicate 4 Byte.xff)) with (2 ^ 32 - 1).
  unfold PAD_LEN_BYTES, MIN_BUCKET in *.
  rewrite (proj2 (Z.ltb_ge (2 ^ 32 - 1) 4)), (proj2 (Z.ltb_lt _ _)) by lia. done.
Qed.
End padding_properties.

Lemma paddable_hello : paddable (bstr "hello, vaultex!").
Proof. by vm_compute. Qed.

Lemma pad_unpad_roundtrip_witness :
  paddable (bstr "hello, vaultex!") ∧
  ∃ p w', @pad_message debug_profile toy_sodium (bstr "hello, vaultex!") 7 = (Ret p, w') ∧
          @unpad_message debug_profile p = Ret (bstr "hello, vaultex!") ∧
          @is_dummy_message debug_profile p = Ret false.
Proof.
  split; [exact paddable_hello|].
  exact (@pad_unpad_roundtrip debug_profile toy_sodium _ (bstr "hello, vaultex!") 7 paddable_hello).
Defined.


Lemma unpad_exact_witness :
  let p := bstr "hi" ++ map byte_of_Z [9; 5; 0; 0; 0] in
  blen p ≤ isize_max ∧ @unpad_message release_profile p = Ret (bstr "hi").
Proof.
  split; [by vm_compute|].
  apply (proj1 (@unpad_exact release_profile (bstr "hi" ++ map byte_of_Z [9; 5; 0; 0; 0])
                  ltac:(by vm_compute)) (bstr "hi")).
  exists [byte_of_Z 9], (map byte_of_Z [5; 0; 0; 0]). split_and!; by vm_compute.
Defined.

Lemma dummy_recognised_witness :
  ∃ d w', @generate_dummy_message debug_profile toy_sodium 300 7 = (Ret d, w') ∧
          blen d = Z.max MIN_BUCKET 300 ∧ @is_dummy_message debug_profile d = Ret true ∧
          @unpad_message debug_profile d
          = Throw (PaddingError (bstr "invalid padding length")).
Proof. exact (@dummy_recognised debug_profile toy_sodium _ 300 7 ltac:(by vm_compute)). Defined.
