(* ===== verification/PaddingTests.v ===== *)
(** * The tests of padding.rs

    Each test is the program that the source has; the theorem says that all of them
    pass for every random generator. *)

From S2P Require Import Prelude RustStr Errors Sodium Instances Harness Padding.
Local Open Scope rust_scope.

(** [vec![b; n]]. *)
Definition vec_of (b : byte) (n : Z) : bytes := replicate (Z.to_nat n) b.
Arguments vec_of : simpl never.

Section tests.
Context {BP : BuildProfile} {SO : Sodium}.

(** [u32::from_le_bytes([padded[i], ...])]. *)
Definition u32_at (padded : bytes) (i : Z) : Result Z :=
  b0 ← index padded i; b1 ← index padded (i + 1); b2 ← index padded (i + 2); b3 ← index padded (i + 3);
  mret (u32_from_le_bytes [b0; b1; b2; b3]).

Definition test_pad_unpad_roundtrip : M rng CryptoError unit :=
  unwrap init_sodium;;
  let original := bstr "hello, vaultex!" in
  padded ← unwrap (pad_message original);
  recovered ← unwrap (lift (unpad_message padded));
  assert_that (bool_decide (recovered = original)).

Definition test_empty_message_pads_to_minimum : M rng CryptoError unit :=
  unwrap init_sodium;;
  padded ← unwrap (pad_message []);
  assert_that (blen padded =? MIN_BUCKET);;
  recovered ← unwrap (lift (unpad_message padded));
  assert_that (blen recovered =? 0).

Definition bucket_cases : list (Z * Z) :=
  [(1, 256); (100, 256); (252, 256); (253, 512); (256, 512); (300, 512); (508, 512); (509, 1024);
   (512, 1024); (1000, 1024); (1020, 1024); (1021, 2048); (1024, 2048); (2044, 2048); (2045, 4096);
   (2048, 4096); (4092, 4096); (4093, 8192); (4096, 8192); (8188, 8192); (8189, 16384);
   (8192, 16384); (16380, 16384); (16381, 32768); (16384, 32768); (32764, 32768); (32765, 65536);
   (32768, 65536); (65532, 65536)].
Fixpoint bucket_size_loop (cases : list (Z * Z)) : M rng CryptoError unit :=
  match cases with
  | [] => mret tt
  | (msg_len, expected_bucket) :: cases =>
      let msg := vec_of Byte.x41 msg_len in
      padded ← unwrap (pad_message msg);
      assert_that (blen padded =? expected_bucket);;
      bucket_size_loop cases
  end.
Definition test_all_bucket_sizes : M rng CryptoError unit :=
  unwrap init_sodium;;
  bucket_size_loop bucket_cases.

Definition test_large_message_pads_to_multiple_of_max : M rng CryptoError unit :=
  unwrap init_sodium;;
  let msg := vec_of Byte.x42 65536 in
  padded ← unwrap (pad_message msg);
  assert_that (blen padded =? 2 * MAX_BUCKET);;
  recovered ← unwrap (lift (unpad_message padded));
  assert_that (bool_decide (recovered = msg)).

Definition test_same_bucket_same_padded_length : M rng CryptoError unit :=
  unwrap init_sodium;;
  let msg1 := vec_of Byte.x41 10 in
  let msg2 := vec_of Byte.x42 200 in
  padded1 ← unwrap (pad_message msg1);
  padded2 ← unwrap (pad_message msg2);
  assert_that (blen padded1 =? blen padded2);;
  assert_that (blen padded1 =? 256).

Definition test_corrupted_padding_detected : M rng CryptoError unit :=
  unwrap init_sodium;;
  padded ← unwrap (pad_message (bstr "test data"));
  let len := blen padded in
  l1 ← lift (len +usize 1);
  let bad_bytes := u32_to_le_bytes (as_u32 l1) in
  i0 ← lift (len -usize 4); b0 ← lift (index bad_bytes 0); padded ← lift (index_set padded i0 b0);
  i1 ← lift (len -usize 3); b1 ← lift (index bad_bytes 1); padded ← lift (index_set padded i1 b1);
  i2 ← lift (len -usize 2); b2 ← lift (index bad_bytes 2); padded ← lift (index_set padded i2 b2);
  i3 ← lift (len -usize 1); b3 ← lift (index bad_bytes 3); padded ← lift (index_set padded i3 b3);
  result ← attempt (lift (unpad_message padded));
  assert_that (is_err result).

(** [assert!(unpad_message(data).is_err())]. *)
Definition unpad_fails (data : bytes) : M rng CryptoError unit :=
  result ← attempt (lift (unpad_message data));
  assert_that (is_err result).
Definition test_unpad_empty_fails : M rng CryptoError unit := unpad_fails [].
Definition test_unpad_too_short_fails : M rng CryptoError unit :=
  unpad_fails [Byte.x01];;
  unpad_fails [Byte.x01; Byte.x02];;
  unpad_fails [Byte.x01; Byte.x02; Byte.x03].
Definition test_unpad_zero_padding_length_fails : M rng CryptoError unit :=
  unpad_fails [Byte.x41; Byte.x00; Byte.x00; Byte.x00; Byte.x00].
Definition test_unpad_small_padding_length_fails : M rng CryptoError unit :=
  unpad_fails [Byte.x41; Byte.x01; Byte.x00; Byte.x00; Byte.x00];;
  unpad_fails [Byte.x41; Byte.x02; Byte.x00; Byte.x00; Byte.x00];;
  unpad_fails [Byte.x41; Byte.x03; Byte.x00; Byte.x00; Byte.x00].

Definition test_padding_length_encoded_correctly : M rng CryptoError unit :=
  unwrap init_sodium;;
  let msg := vec_of Byte.x41 100 in
  padded ← unwrap (pad_message msg);
  assert_that (blen padded =? 256);;
  pad_len ← lift (u32_at padded 252);
  assert_that (pad_len =? 156).

Definition test_max_size_boundary : M rng CryptoError unit :=
  unwrap init_sodium;;
  let msg := vec_of Byte.x41 252 in
  padded ← unwrap (pad_message msg);
  assert_that (blen padded =? 256);;
  pad_len ← lift (u32_at padded 252);
  assert_that (pad_len =? 4);;
  recovered ← unwrap (lift (unpad_message padded));
  assert_that (bool_decide (recovered = msg)).

Definition test_dummy_message_generation : M rng CryptoError unit :=
  unwrap init_sodium;;
  dummy ← generate_dummy_message 512;
  assert_that (blen dummy =? 512);;
  d ← lift (is_dummy_message dummy);
  assert_that d.

Definition test_dummy_message_min_size : M rng CryptoError unit :=
  unwrap init_sodium;;
  dummy ← generate_dummy_message 10;
  assert_that (blen dummy =? MIN_BUCKET).

Definition test_real_message_not_dummy : M rng CryptoError unit :=
  unwrap init_sodium;;
  padded ← unwrap (pad_message (bstr "real message"));
  d ← lift (is_dummy_message padded);
  assert_that (negb d).

Fixpoint size_loop (sizes : list Z) : M rng CryptoError unit :=
  match sizes with
  | [] => mret tt
  | size :: sizes =>
      let msg := vec_of Byte.x61 size in
      padded ← unwrap (pad_message msg);
      recovered ← unwrap (lift (unpad_message padded));
      assert_that (bool_decide (recovered = msg));;
      size_loop sizes
  end.
Definition various_sizes : list Z :=
  [0; 1; 10; 127; 128; 251; 252; 253; 256; 500; 1020; 1021; 1024; 4000; 8188; 8189; 8192; 16383;
   32767; 65532; 65535].
Definition test_pad_unpad_various_sizes : M rng CryptoError unit :=
  unwrap init_sodium;;
  size_loop various_sizes.

Definition test_different_messages_same_bucket_same_length : M rng CryptoError unit :=
  unwrap init_sodium;;
  padded_a ← unwrap (pad_message (bstr "short"));
  padded_b ← unwrap (pad_message (bstr "a slightly longer message here"));
  assert_that (blen padded_a =? blen padded_b).

Definition padding_tests : list (M rng CryptoError unit) :=
  [test_pad_unpad_roundtrip; test_empty_message_pads_to_minimum; test_all_bucket_sizes;
   test_large_message_pads_to_multiple_of_max; test_same_bucket_same_padded_length;
   test_corrupted_padding_detected; test_unpad_empty_fails; test_unpad_too_short_fails;
   test_unpad_zero_padding_length_fails; test_unpad_small_padding_length_fails;
   test_padding_length_encoded_correctly; test_max_size_boundary; test_dummy_message_generation;
   test_dummy_message_min_size; test_real_message_not_dummy; test_pad_unpad_various_sizes;
   test_different_messages_same_bucket_same_length].
End tests.

(** ** They pass *)
Section passing.
Context {BP : BuildProfile} {SO : Sodium} {L : SodiumLaws SO}.

Lemma blen_vec_of b n : 0 ≤ n → blen (vec_of b n) = n.
Proof. intros Hn. unfold vec_of. rewrite blen_replicate. lia. Qed.

(** A call of [pad_message] on a message of known length. *)
Lemma pads m n b w :
  blen m = n → 0 ≤ n ≤ 65536 → bucket_size n = Ret b → ready w →
  ∃ q w', pad_message m w = (Ret (q ++ u32_to_le_bytes (b - n)), w') ∧ ready w' ∧
    blen q = b - 4 ∧ is_u32 (b - n) ∧ blen (q ++ u32_to_le_bytes (b - n)) = b ∧
    unpad_message (q ++ u32_to_le_bytes (b - n)) = Ret m ∧
    is_dummy_message (q ++ u32_to_le_bytes (b - n)) = Ret false.
Proof.
  intros <- Hn Hb Hw. assert (paddable m) as Hp.
  { unfold paddable, PAD_LEN_BYTES, MAX_BUCKET, isize_max. lia. }
  destruct (pad_message_spec m w Hp) as (b' & fill & w' & Hpad & Hb' & _ & Hf & Hr & Hrdy).
  rewrite Hb in Hb'. injection Hb' as <-.
  destruct (pad_unpads m w Hp) as (p & w2 & Hpad2 & Hu & Hd & _).
  rewrite Hpad, app_assoc in Hpad2. injection Hpad2 as <- <-.
  exists (m ++ fill), w'. unfold PAD_LEN_BYTES, MAX_BUCKET in *.
  split_and!; [by rewrite <-app_assoc|by apply Hrdy| |unfold is_u32, in_width; lia| |done|done];
    autorewrite with vaultex_len; lia.
Qed.
Lemma unpad_fails_passes data w : is_err (unpad_message data) = true → passes (unpad_fails data) w.
Proof.
  intros H. unfold unpad_fails. eapply passes_attempt; [reflexivity|intros He; by rewrite He in H|]. by tassert.
Qed.
Lemma unpad_fails_step data k w :
  is_err (unpad_message data) = true → passes (k tt) w → passes (unpad_fails data ≫= k) w.
Proof.
  intros H. apply passes_bind. unfold unpad_fails, attempt. unfold mbind, M_bind.
  destruct (unpad_message data); done.
Qed.

(** Pad and compare lengths; pad and unpad. *)
Lemma bucket_size_loop_passes cases w :
  ready w → Forall (λ c, 0 ≤ c.1 ≤ 65536 ∧ bucket_size c.1 = Ret c.2) cases →
  passes (bucket_size_loop cases) w.
Proof.
  intros Hw Hc. revert w Hw.
  induction Hc as [|[n b] cases [Hn Hb] _ IH]; intros w Hw; [by exists w|].
  destruct (pads (vec_of Byte.x41 n) n b w) as (q & w' & Hp & Hw' & _ & _ & Hl & _);
    [apply blen_vec_of; simpl in *; lia|done..|].
  cbn [bucket_size_loop]. tstep Hp. rewrite Hl, Z.eqb_refl. tassert; [done|]. by apply IH.
Qed.
Lemma size_loop_passes sizes w :
  ready w → Forall (λ n, 0 ≤ n ≤ 65536 ∧ ∃ b, bucket_size n = Ret b) sizes →
  passes (size_loop sizes) w.
Proof.
  intros Hw Hc. revert w Hw.
  induction Hc as [|n sizes [Hn [b Hb]] _ IH]; intros w Hw; [by exists w|].
  destruct (pads (vec_of Byte.x61 n) n b w) as (q & w' & Hp & Hw' & _ & _ & _ & Hu & _);
    [apply blen_vec_of; simpl in *; lia|done..|].
  cbn [size_loop]. tstep Hp. tstep Hu. tassert; [by apply bool_decide_eq_true|]. by apply IH.
Qed.

(** The last four bytes of a padded message. *)
Lemma u32_at_tail q z :
  is_u32 z → u32_at (q ++ u32_to_le_bytes z) (blen q) = Ret z.
Proof.
  intros Hz. unfold u32_at.
  destruct (index_tail4 CryptoError q _ (length_u32_to_le_bytes z)) as (b0 & b1 & b2 & b3 & He & H0 & H1 & H2 & H3).
  rewrite H0, H1, H2, H3. mred. by rewrite <-He, u32_from_to_le_bytes.
Qed.

(** The test that overwrites the length: the buffer keeps its size, and the length
    that it ends with is one too large. *)
Lemma overwrite_tail (q l4 b4 : bytes) i :
  length l4 = 4%nat → length b4 = 4%nat → i = blen q →
  ∃ p1 p2 p3 b0 b1 b2 b3,
    index (E:=CryptoError) b4 0 = Ret b0 ∧ index_set (E:=CryptoError) (q ++ l4) i b0 = Ret p1 ∧
    index (E:=CryptoError) b4 1 = Ret b1 ∧ index_set (E:=CryptoError) p1 (i + 1) b1 = Ret p2 ∧
    index (E:=CryptoError) b4 2 = Ret b2 ∧ index_set (E:=CryptoError) p2 (i + 2) b2 = Ret p3 ∧
    index (E:=CryptoError) b4 3 = Ret b3 ∧ index_set (E:=CryptoError) p3 (i + 3) b3 = Ret (q ++ b4).
Proof.
  intros Hl Hb ->. destruct l4 as [|x0 [|x1 [|x2 [|x3 []]]]]; try done.
  destruct b4 as [|b0 [|b1 [|b2 [|b3 []]]]]; try done.
  exists (q ++ [b0; x1; x2; x3]), (q ++ [b0; b1; x2; x3]), (q ++ [b0; b1; b2; x3]), b0, b1, b2, b3.
  split_and!; try done;
    (rewrite index_set_ok by (unfold blen; rewrite length_app; simpl; lia); f_equal;
     rewrite insert_app_r_alt by (unfold blen; lia)).
  - by replace (Z.to_nat (blen q) - length q)%nat with 0%nat by (unfold blen; lia).
  - by replace (Z.to_nat (blen q + 1) - length q)%nat with 1%nat by (unfold blen; lia).
  - by replace (Z.to_nat (blen q + 2) - length q)%nat with 2%nat by (unfold blen; lia).
  - by replace (Z.to_nat (blen q + 3) - length q)%nat with 3%nat by (unfold blen; lia).
Qed.
Lemma corrupted_padding_passes w : ready w → passes test_corrupted_padding_detected w.
Proof.
  intros Hw. unfold test_corrupted_padding_detected. apply init_step; [done|].
  destruct (pads (bstr "test data") 9 256 w eq_refl ltac:(lia) eq_refl Hw)
    as (q & w' & Hp & _ & Hq & _ & Hl & _). tstep Hp. rewrite Hl.
  tcompute.
  destruct (overwrite_tail q (u32_to_le_bytes (256 - 9)) (u32_to_le_bytes (as_u32 (256 + 1))) 252)
    as (p1 & p2 & p3 & b0 & b1 & b2 & b3 & Hb0 & Hi0 & Hb1 & Hi1 & Hb2 & Hi2 & Hb3 & Hi3);
    [apply length_u32_to_le_bytes..|lia|].
  tcompute. tstep Hb0. tstep Hi0.
  tcompute. tstep Hb1. tstep Hi1.
  tcompute. tstep Hb2. tstep Hi2.
  tcompute. tstep Hb3. tstep Hi3.
  pose proof (length_u32_to_le_bytes (as_u32 (256 + 1))) as H4.
  assert (unpad_message (q ++ u32_to_le_bytes (as_u32 (256 + 1))) = Throw (PaddingError (bstr "invalid padding length"))) as Hu.
  { rewrite unpad_app by (try done; rewrite blen_app, Hq; unfold blen; rewrite H4; by vm_compute).
    rewrite u32_from_to_le_bytes by (by vm_compute). rewrite Hq. done. }
  eapply passes_attempt; [reflexivity|rewrite Hu; done|]. rewrite Hu. by tassert.
Qed.

Lemma dummies n w :
  ready w → 0 ≤ n ≤ 65536 → ∃ d w', generate_dummy_message n w = (Ret d, w') ∧
    blen d = Z.max MIN_BUCKET n ∧ is_dummy_message d = Ret true.
Proof.
  intros Hw Hn.
  destruct (generate_dummy_spec n w) as (q & w' & Hg & Hq & _); [unfold isize_max; lia|].
  exists (q ++ replicate 4 Byte.xff), w'. unfold MIN_BUCKET in *.
  assert (blen (q ++ replicate 4 Byte.xff) = Z.max 256 n) as Hl by (rewrite blen_app, blen_replicate; lia).
  split_and!; [done..|]. rewrite is_dummy_app; [by rewrite bool_decide_true|done|unfold isize_max; lia].
Qed.

(** Tests that pad one message, of a known length. *)
Lemma pad_step m n b (k : bytes → M rng CryptoError unit) w :
  blen m = n → 0 ≤ n ≤ 65536 → bucket_size n = Ret b → ready w →
  (∀ q w', ready w' → blen q = b - 4 → is_u32 (b - n) → blen (q ++ u32_to_le_bytes (b - n)) = b →
     unpad_message (q ++ u32_to_le_bytes (b - n)) = Ret m →
     is_dummy_message (q ++ u32_to_le_bytes (b - n)) = Ret false →
     passes (k (q ++ u32_to_le_bytes (b - n))) w') →
  passes (unwrap (pad_message m) ≫= k) w.
Proof.
  intros Hm Hn Hb Hw Hk. destruct (pads m n b w Hm Hn Hb Hw) as (q & w' & Hp & Hw' & Hq & Hu & Hl & Hr & Hd).
  tstep Hp. by apply Hk.
Qed.

(** The tests of padding.rs pass for every generator of random bytes: the round
    trips over messages of 0 to 65536 bytes, the 29 bucket sizes, the length that is
    written, the dummy messages, and the errors on input that is too short, has a
    length below four or one that is too large. *)
Theorem padding_tests_pass w : ready w → Forall (λ t, passes t w) padding_tests.
Proof.
  intros Hw.
  each_case; lazymatch goal with
             | |- passes test_corrupted_padding_detected _ => by apply corrupted_padding_passes
             | |- _ => try (apply init_step; [done|])
             end.
  - apply (pad_step _ 15 256); [done|lia|done|done|]. intros q w1 _ _ _ _ Hu _. tstep Hu.
    tassert. by apply bool_decide_eq_true.
  - apply (pad_step _ 0 256); [done|lia|done|done|]. intros q w1 _ _ _ Hl Hu _. rewrite Hl.
    tassert; [done|]. tstep Hu. by tassert.
  - apply bucket_size_loop_passes; [done|]. each_case. all: split; [simpl; lia|reflexivity].
  - apply (pad_step _ 65536 131072); [by apply blen_vec_of|lia|done|done|]. intros q w1 _ _ _ Hl Hu _. rewrite Hl.
    tassert; [done|]. tstep Hu. tassert. by apply bool_decide_eq_true.
  - apply (pad_step _ 10 256); [by apply blen_vec_of|lia|done|done|]. intros q w1 Hw1 _ _ Hl _ _.
    apply (pad_step _ 200 256); [by apply blen_vec_of|lia|done|done|]. intros q2 w2 _ _ _ Hl2 _ _.
    rewrite Hl, Hl2. tassert; [done|]. by tassert.
  - by apply unpad_fails_passes.
  - do 2 (apply unpad_fails_step; [done|]). by apply unpad_fails_passes.
  - by apply unpad_fails_passes.
  - do 2 (apply unpad_fails_step; [done|]). by apply unpad_fails_passes.
  - apply (pad_step _ 100 256); [by apply blen_vec_of|lia|done|done|]. intros q w1 _ Hq Hz Hl _ _. rewrite Hl.
    tassert; [done|]. pose proof (u32_at_tail q _ Hz) as Hu. rewrite Hq in Hu. tstep Hu. by tassert.
  - apply (pad_step _ 252 256); [by apply blen_vec_of|lia|done|done|]. intros q w1 _ Hq Hz Hl Hr _. rewrite Hl.
    tassert; [done|]. pose proof (u32_at_tail q _ Hz) as Hu. rewrite Hq in Hu. tstep Hu.
    tassert; [done|]. tstep Hr. tassert. by apply bool_decide_eq_true.
  - destruct (dummies 512 w Hw) as (d & w1 & Hg & Hl & Hd); [lia|]. tstep Hg. rewrite Hl.
    tassert; [done|]. tstep Hd. by tassert.
  - destruct (dummies 10 w Hw) as (d & w1 & Hg & Hl & _); [lia|]. tstep Hg. rewrite Hl. by tassert.
  - apply (pad_step _ 12 256); [done|lia|done|done|]. intros q w1 _ _ _ _ _ Hd. tstep Hd. by tassert.
  - apply size_loop_passes; [done|]. each_case. all: split; [simpl; lia|by eexists].
  - apply (pad_step _ 5 256); [done|lia|done|done|]. intros q w1 Hw1 _ _ Hl _ _.
    apply (pad_step _ 30 256); [done|lia|done|done|]. intros q2 w2 _ _ _ Hl2 _ _.
    rewrite Hl, Hl2. by tassert.
Qed.
End passing.

Lemma padding_tests_pass_witness :
  Forall (λ t, passes t 7) (@padding_tests debug_profile toy_sodium).
Proof. exact (@padding_tests_pass debug_profile toy_sodium _ 7 eq_refl). Defined.
