(* ===== verification/AesGcm.v ===== *)
(** * aes_gcm.rs: authenticated encryption of one message

    [encrypt] draws a nonce and seals; [decrypt] checks the lengths and opens;
    [EncryptionKey] wraps a key. The AEAD itself is a parameter. *)

From S2P Require Import Prelude RustStr Errors Sodium Instances.

Section aes_gcm.
Context {SO : Sodium}.

Definition encrypt (key : key32) (plaintext : bytes) (associated_data : option bytes) :
  M rng CryptoError (bytes * bytes) :=
  init_sodium;;
  aead_key ← lift (ok_or (from_slice 32 (array_list key))
                         (InvalidKeyLength 32 (blen (array_list key))));
  nonce ← draw aead_gen_nonce;
  let ciphertext := aead_seal plaintext associated_data nonce aead_key in
  mret (array_list nonce, ciphertext).

Definition decrypt (key : key32) (nonce ciphertext : bytes)
  (associated_data : option bytes) : Result bytes :=
  aead_key ← ok_or (from_slice 32 (array_list key))
                   (InvalidKeyLength 32 (blen (array_list key)));
  aead_nonce ← ok_or (from_slice 24 nonce) (InvalidKeyLength NONCEBYTES (blen nonce));
  plaintext ← ok_or (aead_open ciphertext associated_data aead_nonce aead_key)
                    DecryptionFailed;
  mret plaintext.
End aes_gcm.

(** The wrapper [EncryptionKey]. *)
Module EncryptionKey.
Record t := mk { key : key32 }.
Definition new (key : key32) : t := mk key.
Definition of_slice (slice : bytes) : Result t :=
  if negb (blen slice =? 32)
  then Throw (InvalidKeyLength 32 (blen slice))
  else key ← copy_from_slice 32 slice; mret (mk key).
Definition as_bytes (self : t) : key32 := key self.
Definition encrypt {SO : Sodium} (self : t) (plaintext : bytes) (ad : option bytes) :=
  AesGcm.encrypt (key self) plaintext ad.
Definition decrypt {SO : Sodium} (self : t) (nonce ciphertext : bytes) (ad : option bytes) :=
  AesGcm.decrypt (key self) nonce ciphertext ad.
Definition zeroize (self : t) : t := mk (array_repeat 32 Byte.x00).
Definition drop (self : t) : t := zeroize self.
End EncryptionKey.

Section aes_gcm_facts.
Context {SO : Sodium} {L : SodiumLaws SO} {LA : AeadLaws SO}.

Lemma aead_encrypt_drawn key m ad w :
  ready w →
  encrypt key m ad w = (Ret (array_list (aead_gen_nonce w).1, aead_seal m ad (aead_gen_nonce w).1 key),
                        (aead_gen_nonce w).2).
Proof.
  intros Hw. unfold encrypt. mstep (init_sodium_ready w Hw).
  rewrite from_slice_array. mred. by destruct (aead_gen_nonce w) as [n w'].
Qed.
Lemma encrypt_spec key m ad w :
  ready w →
  ∃ n, encrypt key m ad w = (Ret (array_list n, aead_seal m ad n key), (aead_gen_nonce w).2) ∧
       ready (aead_gen_nonce w).2.
Proof.
  intros Hw. eexists. split; [by apply aead_encrypt_drawn|by apply ready_aead_gen_nonce].
Qed.
Lemma decrypt_nonce key n c ad :
  decrypt key (array_list n) c ad = ok_or (aead_open c ad n key) DecryptionFailed.
Proof. unfold decrypt. rewrite !from_slice_array. mred. by case_match. Qed.
Lemma decrypt_bad_nonce key nonce c ad :
  length nonce ≠ 24%nat → decrypt key nonce c ad = Throw (InvalidKeyLength NONCEBYTES (blen nonce)).
Proof. intros H. unfold decrypt. by rewrite from_slice_array, from_slice_None. Qed.
Lemma decrypt_sealed key m n ad :
  decrypt key (array_list n) (aead_seal m ad n key) ad = Ret m.
Proof. by rewrite decrypt_nonce, aead_open_seal. Qed.
End aes_gcm_facts.

Section aes_gcm_properties.
Context {SO : Sodium} {L : SodiumLaws SO} {LA : AeadLaws SO}.

(** Once libsodium is initialised [encrypt] succeeds with a 24-byte nonce
    and a ciphertext 16 bytes longer than the plaintext, and [decrypt] under the
    same key and associated data returns the plaintext.*)
Theorem aead_roundtrip key m ad w :
  ready w →
  ∃ nonce c w', encrypt key m ad w = (Ret (nonce, c), w') ∧
    blen nonce = NONCEBYTES ∧ blen c = blen m + MACBYTES ∧
    decrypt key nonce c ad = Ret m.
Proof.
  intros Hw. destruct (encrypt_spec key m ad w Hw) as (n & He & _).
  eexists _, _, _. split; [exact He|].
  by rewrite aead_seal_length, decrypt_sealed, array_blen.
Qed.

(** [decrypt] is exact and total: it returns [m] only on a 24-byte nonce
    and the sealing of [m] under that key, nonce and associated data; a nonce of
    another length is reported as such, and every other ciphertext fails
    authentication.*)
Theorem aead_decrypt_exact key nonce c ad :
  (∀ m, decrypt key nonce c ad = Ret m ↔
        ∃ n, nonce = array_list n ∧ c = aead_seal m ad n key) ∧
  (length nonce ≠ 24%nat →
   decrypt key nonce c ad = Throw (InvalidKeyLength NONCEBYTES (blen nonce))) ∧
  (length nonce = 24%nat → (∀ m, decrypt key nonce c ad ≠ Ret m) →
   decrypt key nonce c ad = Throw DecryptionFailed).
Proof.
  split_and!.
  - intros m. split.
    + intros H. destruct (decide (length nonce = 24%nat)) as [Hl|Hl].
      * destruct (array_of_list_Some 24 nonce Hl) as (n & _ & <-). exists n. split; [done|].
        rewrite decrypt_nonce in H.
        destruct (aead_open c ad n key) eqn:Ho; simplify_eq/=. by apply aead_open_inv.
      * by rewrite decrypt_bad_nonce in H.
    + intros (n & -> & ->). apply decrypt_sealed.
  - apply decrypt_bad_nonce.
  - intros Hl Hno. destruct (array_of_list_Some 24 nonce Hl) as (n & _ & <-).
    rewrite decrypt_nonce in *. destruct (aead_open c ad n key) as [m|]; [|done].
    by destruct (Hno m).
Qed.
End aes_gcm_properties.

Lemma aead_roundtrip_witness :
  @ready toy_sodium 5 ∧
  ∃ nonce c w', @encrypt toy_sodium (array_repeat 32 Byte.x01) (bstr "hi") None 5
                = (Ret (nonce, c), w') ∧
    blen nonce = NONCEBYTES ∧ blen c = blen (bstr "hi") + MACBYTES ∧
    @decrypt toy_sodium (array_repeat 32 Byte.x01) nonce c None = Ret (bstr "hi").
Proof.
  split; [done|].
  exact (@aead_roundtrip toy_sodium _ _ (array_repeat 32 Byte.x01) (bstr "hi") None 5 eq_refl).
Defined.
Lemma aead_decrypt_exact_witness :
  @decrypt toy_sodium (array_repeat 32 Byte.x01) [] (bstr "hi") None
  = Throw (InvalidKeyLength NONCEBYTES 0).
Proof.
  exact (proj1 (proj2 (@aead_decrypt_exact toy_sodium _ _ (array_repeat 32 Byte.x01) []
           (bstr "hi") None)) ltac:(done)).
Defined.
