(* ===== verification/DoubleRatchet.v ===== *)
(** * double_ratchet.rs: the Double Ratchet session

    [RatchetState] and [MessageHeader] are the source's structs; the methods
    with [&mut self] run in the state monad over the session and libsodium's
    generator, so every write made before an early return is kept. The skipped
    message keys are a finite map on (ratchet key, message number). *)

From S2P Require Import Prelude RustStr Errors Sodium Instances AesGcm.
Local Open Scope rust_scope.

Definition RATCHET_INFO : bytes := bstr "VAULTEX_RATCHET".
Definition CHAIN_KEY_SEED : bytes := [Byte.x01].
Definition MSG_KEY_SEED : bytes := [Byte.x02].
Definition MAX_SKIP : Z := 1000.

Record MessageHeader := mkMessageHeader {
  ratchet_public_key : key32;
  h_previous_chain_length : Z;
  message_number : Z;
}.

Record RatchetState := mkRatchetState {
  root_key : key32;
  sending_chain_key : option key32;
  receiving_chain_key : option key32;
  sending_keypair : option (key32 * key32);
  remote_ratchet_key : option key32;
  send_message_number : Z;
  recv_message_number : Z;
  previous_chain_length : Z;
  skipped_keys : gmap (key32 * Z) key32;
}.

(** Assignments to one field. *)
Definition set_root_key k (s : RatchetState) : RatchetState :=
  let (_, sck, rck, kp, rk, sn, rn, pl, sk) := s in mkRatchetState k sck rck kp rk sn rn pl sk.
Definition set_sending_chain_key sck (s : RatchetState) : RatchetState :=
  let (k, _, rck, kp, rk, sn, rn, pl, sk) := s in mkRatchetState k sck rck kp rk sn rn pl sk.
Definition set_receiving_chain_key rck (s : RatchetState) : RatchetState :=
  let (k, sck, _, kp, rk, sn, rn, pl, sk) := s in mkRatchetState k sck rck kp rk sn rn pl sk.
Definition set_sending_keypair kp (s : RatchetState) : RatchetState :=
  let (k, sck, rck, _, rk, sn, rn, pl, sk) := s in mkRatchetState k sck rck kp rk sn rn pl sk.
Definition set_remote_ratchet_key rk (s : RatchetState) : RatchetState :=
  let (k, sck, rck, kp, _, sn, rn, pl, sk) := s in mkRatchetState k sck rck kp rk sn rn pl sk.
Definition set_send_message_number sn (s : RatchetState) : RatchetState :=
  let (k, sck, rck, kp, rk, _, rn, pl, sk) := s in mkRatchetState k sck rck kp rk sn rn pl sk.
Definition set_recv_message_number rn (s : RatchetState) : RatchetState :=
  let (k, sck, rck, kp, rk, sn, _, pl, sk) := s in mkRatchetState k sck rck kp rk sn rn pl sk.
Definition set_previous_chain_length pl (s : RatchetState) : RatchetState :=
  let (k, sck, rck, kp, rk, sn, rn, _, sk) := s in mkRatchetState k sck rck kp rk sn rn pl sk.
Definition set_skipped_keys sk (s : RatchetState) : RatchetState :=
  let (k, sck, rck, kp, rk, sn, rn, pl, _) := s in mkRatchetState k sck rck kp rk sn rn pl sk.

(** The serialised form of a session. *)
Record RatchetStateSer := mkRatchetStateSer {
  ser_root_key : key32;
  ser_sending_chain_key : option key32;
  ser_receiving_chain_key : option key32;
  ser_sending_public_key : option key32;
  ser_sending_secret_key : option key32;
  ser_remote_ratchet_key : option key32;
  ser_send_message_number : Z;
  ser_recv_message_number : Z;
  ser_previous_chain_length : Z;
  ser_skipped_keys : list (key32 * Z * key32);
}.

(** [Drop]: key material is overwritten and the cache is cleared. *)
Definition zero32 : key32 := array_repeat 32 Byte.x00.
Definition RatchetState_drop (s : RatchetState) : RatchetState :=
  let s := set_root_key zero32 s in
  let s := set_sending_chain_key ((λ _, zero32) <$> sending_chain_key s) s in
  let s := set_receiving_chain_key ((λ _, zero32) <$> receiving_chain_key s) s in
  let s := set_skipped_keys ((λ _, zero32) <$> skipped_keys s) s in
  set_skipped_keys ∅ s.

Section double_ratchet.
Context {BP : BuildProfile} {SO : Sodium} {HA : Hashes}.

Definition kdf_rk (root_key dh_output : key32) : Result (key32 * key32) :=
  output ← ok_or (hkdf_sha256 (Some (array_list root_key)) (array_list dh_output)
                    RATCHET_INFO 64) HkdfExpandFailed;
  lo ← slice_to output 32;
  new_root ← copy_from_slice 32 lo;
  hi ← slice_from output 32;
  chain_key ← copy_from_slice 32 hi;
  mret (new_root, chain_key).

Definition kdf_ck (chain_key : key32) : Result (key32 * key32) :=
  new_chain_key ← ok_or (hmac_sha256 (array_list chain_key) CHAIN_KEY_SEED) HkdfExpandFailed;
  msg_key ← ok_or (hmac_sha256 (array_list chain_key) MSG_KEY_SEED) HkdfExpandFailed;
  mret (new_chain_key, msg_key).

Definition dh_exchange (our_sk their_pk : key32) : Result key32 :=
  sk ← slice_to (array_list our_sk) 32;
  our_scalar ← ok_or (from_slice 32 sk) (RatchetError (bstr "invalid secret key"));
  their_ge ← ok_or (from_slice 32 (array_list their_pk))
                   (RatchetError (bstr "invalid public key"));
  ok_or (scalarmult our_scalar their_ge) (RatchetError (bstr "DH failed")).

Definition init_sender (shared_secret recipient_ratchet_key : key32) :
  M rng CryptoError RatchetState :=
  init_sodium;;
  '(sending_pk, sending_sk) ← draw box_gen_keypair;
  dh_out ← lift (dh_exchange sending_sk recipient_ratchet_key);
  '(root_key, sending_chain_key) ← lift (kdf_rk shared_secret dh_out);
  mret (mkRatchetState root_key (Some sending_chain_key) None
          (Some (sending_pk, sending_sk)) (Some recipient_ratchet_key) 0 0 0 ∅).

Definition init_receiver (shared_secret : key32) (our_ratchet_keypair : key32 * key32) :
  RatchetState :=
  mkRatchetState shared_secret None None (Some our_ratchet_keypair) None 0 0 0 ∅.

Definition encrypt (plaintext associated_data : bytes) :
  M (RatchetState * rng) CryptoError (MessageHeader * bytes) :=
  self ← gets fst;
  ck ← lift (ok_or (sending_chain_key self) (RatchetError (bstr "no sending chain key")));
  '(new_ck, msg_key) ← lift (kdf_ck ck);
  on_self (set_sending_chain_key (Some new_ck));;
  '(sending_pk, _) ← lift (ok_or (sending_keypair self)
                                 (RatchetError (bstr "no sending keypair")));
  let header := mkMessageHeader sending_pk (previous_chain_length self)
                  (send_message_number self) in
  n ← lift (send_message_number self +u32 1);
  on_self (set_send_message_number n);;
  '(nonce, ciphertext) ← on_world (AesGcm.encrypt msg_key plaintext (Some associated_data));
  cap ← lift (blen nonce +usize blen ciphertext);
  lift (with_capacity cap);;
  mret (header, nonce ++ ciphertext).

Definition decrypt_with_key (msg_key : key32) (ciphertext associated_data : bytes) :
  Result bytes :=
  let nonce_len := 24 in
  if blen ciphertext <? nonce_len then Throw DecryptionFailed
  else
    nonce ← slice_to ciphertext nonce_len;
    ct ← slice_from ciphertext nonce_len;
    AesGcm.decrypt msg_key nonce ct (Some associated_data).

(** The loop [for n in from..until] of both skipping functions: cache [count]
    message keys from number [n] on and return the advanced chain key. *)
Fixpoint skip_loop (remote_pk : key32) (n : Z) (count : nat) (current_ck : key32) :
  M (RatchetState * rng) CryptoError key32 :=
  match count with
  | O => mret current_ck
  | S count =>
      '(new_ck, mk) ← lift (kdf_ck current_ck);
      on_self (λ s, set_skipped_keys (<[(remote_pk, n) := mk]> (skipped_keys s)) s);;
      skip_loop remote_pk (n + 1) count new_ck
  end.

Definition skip_message_keys_for_current_chain (until : Z) :
  M (RatchetState * rng) CryptoError unit :=
  self ← gets fst;
  match receiving_chain_key self with
  | None => mret tt
  | Some _ =>
      match remote_ratchet_key self with
      | None => mret tt
      | Some remote_pk =>
          if until <? recv_message_number self then mret tt
          else
            skip_count ← lift (sub_w 32 until (recv_message_number self));
            if MAX_SKIP <? skip_count
            then throw (RatchetError (bstr "too many skipped messages"))
            else
              current_ck ← lift (ok_or (receiving_chain_key self)
                                       (RatchetError (bstr "no receiving chain key")));
              current_ck ← skip_loop remote_pk (recv_message_number self)
                             (Z.to_nat (until - recv_message_number self)) current_ck;
              on_self (set_receiving_chain_key (Some current_ck));;
              on_self (set_recv_message_number until)
      end
  end.

Definition skip_message_keys (until : Z) : M (RatchetState * rng) CryptoError unit :=
  self ← gets fst;
  if until <? recv_message_number self
  then throw (RatchetError (bstr "message number already consumed"))
  else
    skip_count ← lift (sub_w 32 until (recv_message_number self));
    if MAX_SKIP <? skip_count
    then throw (RatchetError (bstr "too many skipped messages"))
    else
      remote_pk ← lift (ok_or (remote_ratchet_key self)
                              (RatchetError (bstr "no remote ratchet key")));
      current_ck ← lift (ok_or (receiving_chain_key self)
                               (RatchetError (bstr "no receiving chain key")));
      current_ck ← skip_loop remote_pk (recv_message_number self)
                     (Z.to_nat (until - recv_message_number self)) current_ck;
      on_self (set_receiving_chain_key (Some current_ck)).

Definition dh_ratchet_step (their_new_pk : key32) : M (RatchetState * rng) CryptoError unit :=
  on_self (λ s, set_previous_chain_length (send_message_number s) s);;
  on_self (set_send_message_number 0);;
  on_self (set_recv_message_number 0);;
  on_self (set_remote_ratchet_key (Some their_new_pk));;
  self ← gets fst;
  '(_, our_sk) ← lift (ok_or (sending_keypair self)
                             (RatchetError (bstr "no sending keypair")));
  dh_recv ← lift (dh_exchange our_sk their_new_pk);
  '(new_root, recv_ck) ← lift (kdf_rk (root_key self) dh_recv);
  on_self (set_root_key new_root);;
  on_self (set_receiving_chain_key (Some recv_ck));;
  '(new_pk, new_sk) ← on_world (draw box_gen_keypair);
  dh_send ← lift (dh_exchange new_sk their_new_pk);
  self ← gets fst;
  '(new_root, send_ck) ← lift (kdf_rk (root_key self) dh_send);
  on_self (set_root_key new_root);;
  on_self (set_sending_chain_key (Some send_ck));;
  on_self (set_sending_keypair (Some (new_pk, new_sk))).

Definition decrypt (header : MessageHeader) (ciphertext associated_data : bytes) :
  M (RatchetState * rng) CryptoError bytes :=
  self ← gets fst;
  let id := (ratchet_public_key header, message_number header) in
  match skipped_keys self !! id with
  | Some msg_key =>
      on_self (λ s, set_skipped_keys (delete id (skipped_keys s)) s);;
      lift (decrypt_with_key msg_key ciphertext associated_data)
  | None =>
      their_pk ← lift (ok_or (from_slice 32 (array_list (ratchet_public_key header)))
                             (RatchetError (bstr "invalid ratchet key in header")));
      let need_ratchet := match remote_ratchet_key self with
                          | Some remote => negb (bool_decide (remote = their_pk))
                          | None => true
                          end in
      (if need_ratchet : bool
       then skip_message_keys_for_current_chain (h_previous_chain_length header);;
            dh_ratchet_step their_pk
       else mret tt);;
      skip_message_keys (message_number header);;
      self ← gets fst;
      ck ← lift (ok_or (receiving_chain_key self)
                       (RatchetError (bstr "no receiving chain key")));
      '(new_ck, msg_key) ← lift (kdf_ck ck);
      on_self (set_receiving_chain_key (Some new_ck));;
      n ← lift (message_number header +u32 1);
      on_self (set_recv_message_number n);;
      lift (decrypt_with_key msg_key ciphertext associated_data)
  end.

Context {SJ : SerdeJson RatchetStateSer} {HI : HashMapIter (key32 * Z) key32}.

Definition to_bytes (self : RatchetState) : Result bytes :=
  let ser := {|
    ser_root_key := root_key self;
    ser_sending_chain_key := sending_chain_key self;
    ser_receiving_chain_key := receiving_chain_key self;
    ser_sending_public_key := fst <$> sending_keypair self;
    ser_sending_secret_key := snd <$> sending_keypair self;
    ser_remote_ratchet_key := remote_ratchet_key self;
    ser_send_message_number := send_message_number self;
    ser_recv_message_number := recv_message_number self;
    ser_previous_chain_length := previous_chain_length self;
    ser_skipped_keys := (λ '((rpk, mn), mk), (rpk, mn, mk)) <$> hash_iter (skipped_keys self);
  |} in
  map_err SerializationError (to_vec ser).

Definition from_bytes (b : bytes) : Result RatchetState :=
  ser ← map_err SerializationError (json_from_slice b);
  sending_keypair ←
    match ser_sending_public_key ser, ser_sending_secret_key ser with
    | Some pk_bytes, Some sk_bytes =>
        pk ← ok_or (from_slice 32 (array_list pk_bytes))
                   (SerializationError (bstr "invalid sending public key"));
        sk ← ok_or (from_slice 32 (array_list sk_bytes))
                   (SerializationError (bstr "invalid sending secret key"));
        mret (Some (pk, sk))
    | _, _ => mret None
    end;
  let remote_ratchet_key :=
    ser_remote_ratchet_key ser ≫= λ b, from_slice 32 (array_list b) in
  let skipped_keys :=
    foldl (λ m '(rpk, mn, mk), <[(rpk, mn) := mk]> m) ∅ (ser_skipped_keys ser) in
  mret {|
    root_key := ser_root_key ser;
    sending_chain_key := ser_sending_chain_key ser;
    receiving_chain_key := ser_receiving_chain_key ser;
    sending_keypair := sending_keypair;
    remote_ratchet_key := remote_ratchet_key;
    send_message_number := ser_send_message_number ser;
    recv_message_number := ser_recv_message_number ser;
    previous_chain_length := ser_previous_chain_length ser;
    skipped_keys := skipped_keys;
  |}.
End double_ratchet.
