(* ===== verification/RatchetFacts.v ===== *)
(** * The chains of the Double Ratchet and the runs of its methods

    Under the laws of the hashes the key derivations are total functions; the
    file names them, describes the cache that the skipping loop builds, and
    gives one equation per method and branch. *)

From S2P Require Import Prelude RustStr Errors Sodium Instances AesGcm DoubleRatchet.
Local Open Scope rust_scope.

Section chains.
Context {HA : Hashes}.

(** The outputs of [kdf_ck] and [kdf_rk] where they succeed. *)
Definition next_ck (ck : key32) : key32 :=
  default ck (hmac_sha256 (array_list ck) CHAIN_KEY_SEED).
Definition msg_key (ck : key32) : key32 :=
  default ck (hmac_sha256 (array_list ck) MSG_KEY_SEED).
Definition rk_step (rk dh : key32) : key32 * key32 :=
  match kdf_rk rk dh with Ret p => p | _ => (rk, rk) end.

(** The chain key and the message key number [n] of the chain from [ck]. *)
Definition chain_at (ck : key32) (n : nat) : key32 := Nat.iter n next_ck ck.
Definition mk_at (ck : key32) (n : Z) : key32 := msg_key (chain_at ck (Z.to_nat n)).

(** The cache after [count] insertions from number [n] on. *)
Fixpoint skip_map (pk : key32) (n : Z) (count : nat) (ck : key32)
  (m : gmap (key32 * Z) key32) : gmap (key32 * Z) key32 :=
  match count with
  | O => m
  | S count => skip_map pk (n + 1) count (next_ck ck) (<[(pk, n) := msg_key ck]> m)
  end.

Lemma chain_at_succ ck n : chain_at ck (S n) = next_ck (chain_at ck n).
Proof. done. Qed.
Lemma chain_at_next ck n : chain_at (next_ck ck) n = chain_at ck (S n).
Proof. unfold chain_at. by rewrite Nat.iter_succ_r. Qed.
Lemma chain_at_add ck n m : chain_at (chain_at ck n) m = chain_at ck (n + m).
Proof. unfold chain_at. by rewrite Nat.add_comm, Nat.iter_add. Qed.
Lemma mk_at_chain_at ck n k :
  0 ≤ k → mk_at (chain_at ck n) k = mk_at ck (Z.of_nat n + k).
Proof.
  intros Hk. unfold mk_at. rewrite chain_at_add. do 2 f_equal. lia.
Qed.

Lemma skip_map_lookup pk n count ck m pk' k :
  skip_map pk n count ck m !! (pk', k) =
    if bool_decide (pk' = pk ∧ n ≤ k < n + Z.of_nat count)
    then Some (mk_at ck (k - n)) else m !! (pk', k).
Proof.
  revert n ck m. induction count as [|count IH]; intros n ck m; simpl.
  { rewrite bool_decide_false; [done|]. intros [_ ?]. lia. }
  rewrite IH. destruct (decide (pk' = pk ∧ n + 1 ≤ k < n + 1 + Z.of_nat count)) as [[-> Hk]|Hk].
  - rewrite !bool_decide_true by (split; [done|lia]). f_equal. unfold mk_at. rewrite chain_at_next.
    do 2 f_equal. lia.
  - rewrite (bool_decide_false _ Hk).
    destruct (decide ((pk, n) = (pk', k))) as [[= -> ->]|Hne].
    + rewrite lookup_insert_eq, bool_decide_true by (split; [done|lia]). f_equal.
      by rewrite Z.sub_diag.
    + rewrite lookup_insert_ne by done. rewrite bool_decide_false; [done|].
      intros [-> ?]. destruct (decide (k = n)) as [->|]; [done|]. apply Hk. split; [done|lia].
Qed.
Lemma skip_map_size pk n count ck m :
  (size (skip_map pk n count ck m) ≤ size m + count)%nat.
Proof.
  revert n ck m. induction count as [|count IH]; intros n ck m; simpl; [lia|].
  etrans; [apply IH|]. destruct (m !! (pk, n)) eqn:Hm.
  - rewrite map_size_insert_Some by done. lia.
  - rewrite map_size_insert_None by done. lia.
Qed.

Context {L : HashLaws HA}.

Lemma kdf_ck_total ck : kdf_ck ck = Ret (next_ck ck, msg_key ck).
Proof.
  unfold kdf_ck, next_ck, msg_key.
  destruct (hmac_any_key (array_list ck) CHAIN_KEY_SEED) as [? ->].
  by destruct (hmac_any_key (array_list ck) MSG_KEY_SEED) as [? ->].
Qed.
Lemma kdf_rk_total rk dh : kdf_rk rk dh = Ret (rk_step rk dh).
Proof.
  unfold rk_step. unfold kdf_rk.
  destruct (hkdf_length (Some (array_list rk)) (array_list dh) RATCHET_INFO 64)
    as (okm & -> & Hl); [lia|]. mred.
  assert (blen okm = 64) as Hb by (unfold blen; lia).
  rewrite slice_to_ok, slice_from_ok by lia. mred. unfold copy_from_slice.
  destruct (array_of_list_Some 32 (take (Z.to_nat 32) okm)) as (a & -> & _).
  { rewrite length_take. lia. }
  destruct (array_of_list_Some 32 (drop (Z.to_nat 32) okm)) as (b & Hb' & _).
  { rewrite length_drop. lia. }
  mred. unfold copy_from_slice. by rewrite Hb'.
Qed.
End chains.

(** ** One equation per method and branch *)

(** The effect of caching the keys up to (not including) [until]. *)
Definition cache_until {HA : Hashes} (pk ck : key32) (until : Z) (s : RatchetState) : RatchetState :=
  let c := Z.to_nat (until - recv_message_number s) in
  set_receiving_chain_key (Some (chain_at ck c))
    (set_skipped_keys (skip_map pk (recv_message_number s) c ck (skipped_keys s)) s).

(** The effect of receiving message number [n] of the current chain. *)
Definition receive_at {HA : Hashes} (pk ck : key32) (n : Z) (s : RatchetState) : RatchetState :=
  let c := Z.to_nat (n - recv_message_number s) in
  set_recv_message_number (n + 1)
    (set_receiving_chain_key (Some (chain_at ck (S c)))
      (set_skipped_keys (skip_map pk (recv_message_number s) c ck (skipped_keys s)) s)).

(** The effect of a DH ratchet step to [pk] with the shared secrets [d1] (our
    old key) and [d2] (the new key pair [kp]). *)
Definition ratcheted {HA : Hashes} (pk d1 d2 : key32) (kp : key32 * key32) (s : RatchetState) :
  RatchetState :=
  let '(r1, rck) := rk_step (root_key s) d1 in
  let '(r2, sck) := rk_step r1 d2 in
  mkRatchetState r2 (Some sck) (Some rck) (Some kp) (Some pk) 0 0
    (send_message_number s) (skipped_keys s).

(** The receiving chain that a DH ratchet step to [pk] starts. *)
Definition new_chain_key {SO : Sodium} {HA : Hashes} (s : RatchetState) (pk : key32) : option key32 :=
  '(_, osk) ← sending_keypair s; d ← scalarmult osk pk; Some (rk_step (root_key s) d).2.

Section runs.
Context {BP : BuildProfile} {SO : Sodium} {HA : Hashes}.
Context {L : SodiumLaws SO} {LA : AeadLaws SO} {LH : HashLaws HA}.
Implicit Types (s : RatchetState) (w : rng).

Lemma decrypt_with_key_nonce k n c ad :
  decrypt_with_key k (array_list n ++ c) ad = ok_or (aead_open c (Some ad) n k) DecryptionFailed.
Proof.
  unfold decrypt_with_key. rewrite blen_app, array_blen. pose proof (blen_nonneg c).
  rewrite (proj2 (Z.ltb_ge _ _)) by lia.
  rewrite slice_to_app_eq, slice_from_app_eq by (by rewrite array_blen). mred. apply decrypt_nonce.
Qed.
Lemma decrypt_with_key_sealed k n m ad :
  decrypt_with_key k (array_list n ++ aead_seal m (Some ad) n k) ad = Ret m.
Proof. by rewrite decrypt_with_key_nonce, aead_open_seal. Qed.
(** Every other ciphertext fails authentication; nothing panics. *)
Lemma decrypt_with_key_cases k c ad :
  (∃ m n, c = array_list n ++ aead_seal m (Some ad) n k ∧ decrypt_with_key k c ad = Ret m) ∨
  decrypt_with_key k c ad = Throw DecryptionFailed.
Proof.
  unfold decrypt_with_key. destruct (Z.ltb_spec (blen c) 24) as [|Hc]; [by right|].
  rewrite slice_to_ok, slice_from_ok by lia. mred.
  destruct (array_of_list_Some 24 (take (Z.to_nat 24) c)) as (n & _ & Hn).
  { unfold blen in Hc. rewrite length_take. lia. }
  rewrite <-Hn, decrypt_nonce.
  destruct (aead_open _ _ n k) as [m|] eqn:Ho; [left|by right].
  exists m, n. apply aead_open_inv in Ho. rewrite <-Ho, Hn. by rewrite take_drop.
Qed.

(** [c] is the sealing of no message under [k]: what authentication must refuse. *)
Definition no_sealing (k : key32) (ad c : bytes) : Prop :=
  ∀ n m, c ≠ array_list n ++ aead_seal m (Some ad) n k.
Lemma decrypt_with_key_refuses k c ad :
  decrypt_with_key k c ad = Throw DecryptionFailed ↔ no_sealing k ad c.
Proof.
  split; [intros H n m ->; by rewrite decrypt_with_key_sealed in H|]. intros H.
  by destruct (decrypt_with_key_cases k c ad) as [(m & n & -> & _)|]; [destruct (H n m)|].
Qed.

Lemma dh_exchange_eq sk pk :
  dh_exchange sk pk = ok_or (scalarmult sk pk) (RatchetError (bstr "DH failed")).
Proof.
  unfold dh_exchange. rewrite slice_to_full by (by rewrite array_blen). mred.
  by rewrite !from_slice_array.
Qed.

Lemma encrypt_drawn s w ck pk sk m ad :
  ready w → sending_chain_key s = Some ck → sending_keypair s = Some (pk, sk) →
  is_u32 (send_message_number s + 1) → blen m + 40 ≤ isize_max →
  encrypt m ad (s, w)
  = (Ret (mkMessageHeader pk (previous_chain_length s) (send_message_number s),
          array_list (aead_gen_nonce w).1 ++ aead_seal m (Some ad) (aead_gen_nonce w).1 (msg_key ck)),
     (set_send_message_number (send_message_number s + 1)
        (set_sending_chain_key (Some (next_ck ck)) s), (aead_gen_nonce w).2)).
Proof.
  intros Hw Hck Hkp Hn Hm. pose proof (AesGcm.aead_encrypt_drawn (msg_key ck) m (Some ad) w Hw) as He.
  unfold encrypt. mred. rewrite Hck. mred.
  rewrite kdf_ck_total. mred. rewrite Hkp. mred. rewrite add_w_ok by done. mred.
  rewrite He. mred. pose proof (blen_nonneg m). unfold isize_max in Hm.
  rewrite add_w_ok by (rewrite array_blen, aead_seal_length; unfold in_width, MACBYTES; lia).
  mred. rewrite with_capacity_ok.
  - by destruct s.
  - rewrite array_blen, aead_seal_length. unfold isize_max, MACBYTES. lia.
Qed.
Lemma encrypt_run s w ck pk sk m ad :
  ready w → sending_chain_key s = Some ck → sending_keypair s = Some (pk, sk) →
  is_u32 (send_message_number s + 1) → blen m + 40 ≤ isize_max →
  ∃ n, encrypt m ad (s, w)
       = (Ret (mkMessageHeader pk (previous_chain_length s) (send_message_number s),
               array_list n ++ aead_seal m (Some ad) n (msg_key ck)),
          (set_send_message_number (send_message_number s + 1)
             (set_sending_chain_key (Some (next_ck ck)) s), (aead_gen_nonce w).2)) ∧
       ready (aead_gen_nonce w).2.
Proof.
  intros. eexists. split; [by eapply encrypt_drawn|by apply ready_aead_gen_nonce].
Qed.

Lemma skip_loop_run pk n count ck s w :
  skip_loop pk n count ck (s, w) =
    (Ret (chain_at ck count),
     (set_skipped_keys (skip_map pk n count ck (skipped_keys s)) s, w)).
Proof.
  revert n ck s. induction count as [|count IH]; intros n ck s; simpl.
  - by destruct s.
  - mred. rewrite kdf_ck_total. mred. rewrite IH, chain_at_next. by destruct s.
Qed.

Lemma skip_current_none until s w :
  receiving_chain_key s = None ∨ remote_ratchet_key s = None →
  skip_message_keys_for_current_chain until (s, w) = (Ret tt, (s, w)).
Proof.
  intros H. unfold skip_message_keys_for_current_chain. mred.
  by destruct (receiving_chain_key s), (remote_ratchet_key s); destruct H.
Qed.
Lemma skip_current_behind until s w :
  until < recv_message_number s →
  skip_message_keys_for_current_chain until (s, w) = (Ret tt, (s, w)).
Proof.
  intros H. unfold skip_message_keys_for_current_chain. mred.
  destruct (receiving_chain_key s), (remote_ratchet_key s); try done.
  by rewrite (proj2 (Z.ltb_lt _ _)).
Qed.
Lemma skip_current_run until s w ck pk :
  receiving_chain_key s = Some ck → remote_ratchet_key s = Some pk →
  is_u32 (recv_message_number s) → is_u32 until → recv_message_number s ≤ until →
  skip_message_keys_for_current_chain until (s, w) =
    if MAX_SKIP <? until - recv_message_number s
    then (Throw (RatchetError (bstr "too many skipped messages")), (s, w))
    else (Ret tt, (set_recv_message_number until (cache_until pk ck until s), w)).
Proof.
  intros Hck Hpk Hr Hu Hle. unfold skip_message_keys_for_current_chain. mred.
  rewrite Hck, Hpk, (proj2 (Z.ltb_ge _ _)) by done.
  rewrite sub_w_ok by (unfold is_u32, in_width in *; lia). mred.
  destruct (MAX_SKIP <? _); [done|]. by rewrite skip_loop_run.
Qed.

(** Closing the old chain within the window leaves the sending side alone. *)
Lemma close_chain until s w :
  is_u32 (recv_message_number s) → is_u32 until → until - recv_message_number s ≤ MAX_SKIP →
  ∃ s', skip_message_keys_for_current_chain until (s, w) = (Ret tt, (s', w)) ∧
        root_key s' = root_key s ∧ sending_keypair s' = sending_keypair s ∧
        send_message_number s' = send_message_number s.
Proof.
  intros Hr Hu Hmax. destruct (receiving_chain_key s) as [ck|] eqn:Hck;
    [|exists s; split; [by apply skip_current_none; left|done]].
  destruct (remote_ratchet_key s) as [pk|] eqn:Hpk;
    [|exists s; split; [by apply skip_current_none; right|done]].
  destruct (Z.lt_ge_cases until (recv_message_number s)) as [Hlt|Hge].
  { exists s. split; [by apply skip_current_behind|done]. }
  rewrite (skip_current_run until s w ck pk) by done. rewrite (proj2 (Z.ltb_ge _ _)) by done.
  eexists. split; [done|]. by destruct s.
Qed.
(** It stores keys of the old chain only. *)
Lemma skip_current_other until s w pk' j :
  is_u32 (recv_message_number s) → is_u32 until → remote_ratchet_key s ≠ Some pk' →
  skipped_keys (skip_message_keys_for_current_chain until (s, w)).2.1 !! (pk', j) = skipped_keys s !! (pk', j).
Proof.
  intros Hr Hu Hne. destruct (receiving_chain_key s) as [ck|] eqn:Hck; [|by rewrite skip_current_none by auto].
  destruct (remote_ratchet_key s) as [pk|] eqn:Hpk; [|by rewrite skip_current_none by auto].
  destruct (Z.lt_ge_cases until (recv_message_number s)); [by rewrite skip_current_behind|].
  rewrite (skip_current_run until s w ck pk) by done. case_match; [done|].
  destruct s; simpl. rewrite skip_map_lookup, bool_decide_false; [done|]. naive_solver.
Qed.

Lemma skip_behind until s w :
  until < recv_message_number s →
  skip_message_keys until (s, w) =
    (Throw (RatchetError (bstr "message number already consumed")), (s, w)).
Proof. intros H. unfold skip_message_keys. mred. by rewrite (proj2 (Z.ltb_lt _ _)). Qed.
Lemma skip_run until s w ck pk :
  receiving_chain_key s = Some ck → remote_ratchet_key s = Some pk →
  is_u32 (recv_message_number s) → is_u32 until → recv_message_number s ≤ until →
  skip_message_keys until (s, w) =
    if MAX_SKIP <? until - recv_message_number s
    then (Throw (RatchetError (bstr "too many skipped messages")), (s, w))
    else (Ret tt, (cache_until pk ck until s, w)).
Proof.
  intros Hck Hpk Hr Hu Hle. unfold skip_message_keys. mred.
  rewrite (proj2 (Z.ltb_ge _ _)) by done.
  rewrite sub_w_ok by (unfold is_u32, in_width in *; lia). mred.
  destruct (MAX_SKIP <? _); [done|]. rewrite Hpk. mred. rewrite Hck. mred.
  by rewrite skip_loop_run.
Qed.

Lemma dh_ratchet_run pk s w opk osk d1 kp d2 w' :
  sending_keypair s = Some (opk, osk) → scalarmult osk pk = Some d1 →
  box_gen_keypair w = (kp, w') → scalarmult kp.2 pk = Some d2 →
  dh_ratchet_step pk (s, w) = (Ret tt, (ratcheted pk d1 d2 kp s, w')).
Proof.
  intros Hkp Hd1 Hgen Hd2. unfold dh_ratchet_step, ratcheted.
  destruct s as [rk sck rck kp0 rem sn rn pl sk]; simpl in *. subst kp0. mred.
  cbn. rewrite dh_exchange_eq, Hd1. mred. rewrite kdf_rk_total.
  destruct (rk_step rk d1) as [r1 c1]. mred. rewrite Hgen. destruct kp as [npk nsk]. simpl in Hd2.
  mred. rewrite dh_exchange_eq, Hd2. mred. cbn. rewrite kdf_rk_total.
  by destruct (rk_step r1 d2) as [r2 c2].
Qed.

(** [decrypt] by the state of the cache and the header's ratchet key. *)
Lemma decrypt_cached h c ad s w mk :
  skipped_keys s !! (ratchet_public_key h, message_number h) = Some mk →
  decrypt h c ad (s, w) =
    (decrypt_with_key mk c ad,
     (set_skipped_keys (delete (ratchet_public_key h, message_number h) (skipped_keys s)) s, w)).
Proof. intros H. unfold decrypt. mred. rewrite H. by destruct s. Qed.

Lemma decrypt_current h c ad s w ck :
  skipped_keys s !! (ratchet_public_key h, message_number h) = None →
  remote_ratchet_key s = Some (ratchet_public_key h) →
  receiving_chain_key s = Some ck →
  is_u32 (recv_message_number s) → is_u32 (message_number h + 1) →
  recv_message_number s ≤ message_number h →
  message_number h - recv_message_number s ≤ MAX_SKIP →
  decrypt h c ad (s, w) =
    (decrypt_with_key (mk_at ck (message_number h - recv_message_number s)) c ad,
     (receive_at (ratchet_public_key h) ck (message_number h) s, w)).
Proof.
  intros Hnone Hrem Hck Hr Hn Hle Hskip. unfold decrypt. mred. rewrite Hnone.
  rewrite from_slice_array. mred. rewrite Hrem, bool_decide_true by done. cbn [negb]. mred.
  rewrite (skip_run _ s w ck (ratchet_public_key h)) by
    (auto; unfold is_u32, in_width in *; lia).
  rewrite (proj2 (Z.ltb_ge _ _)) by done. mred.
  unfold cache_until, receive_at. destruct s as [rk sck rck kp rem sn rn pl sk]; cbn.
  rewrite kdf_ck_total. mred. rewrite add_w_ok by done. by mred.
Qed.

Lemma decrypt_far h c ad s w :
  skipped_keys s !! (ratchet_public_key h, message_number h) = None →
  remote_ratchet_key s = Some (ratchet_public_key h) →
  is_u32 (recv_message_number s) → is_u32 (message_number h) →
  MAX_SKIP < message_number h - recv_message_number s →
  decrypt h c ad (s, w) = (Throw (RatchetError (bstr "too many skipped messages")), (s, w)).
Proof.
  intros Hnone Hrem Hr Hn Hskip. unfold decrypt. mred.
  rewrite Hnone, from_slice_array. mred. rewrite Hrem, bool_decide_true by done. cbn [negb]. mred.
  unfold skip_message_keys. mred. rewrite (proj2 (Z.ltb_ge _ _)) by (unfold MAX_SKIP in *; lia).
  rewrite sub_w_ok by (unfold is_u32, in_width, MAX_SKIP in *; lia). mred.
  by rewrite (proj2 (Z.ltb_lt _ _)).
Qed.
Lemma decrypt_no_chain h c ad s w :
  skipped_keys s !! (ratchet_public_key h, message_number h) = None →
  remote_ratchet_key s = Some (ratchet_public_key h) → receiving_chain_key s = None →
  is_u32 (recv_message_number s) → is_u32 (message_number h) → recv_message_number s ≤ message_number h →
  message_number h - recv_message_number s ≤ MAX_SKIP →
  decrypt h c ad (s, w) = (Throw (RatchetError (bstr "no receiving chain key")), (s, w)).
Proof.
  intros Hnone Hrem Hck Hr Hn Hle Hmax. unfold decrypt. mred. rewrite Hnone, from_slice_array. mred.
  rewrite Hrem, bool_decide_true by done. cbn [negb]. mred. unfold skip_message_keys. mred.
  rewrite (proj2 (Z.ltb_ge _ _)) by done. rewrite sub_w_ok by (unfold is_u32, in_width in *; lia). mred.
  rewrite (proj2 (Z.ltb_ge _ _)) by done. rewrite Hrem. mred. by rewrite Hck.
Qed.
(** The last number of the current chain: the counter after it overflows, when the
    chain key has already advanced. *)
Lemma decrypt_counter_end h c ad s w ck :
  overflow_checks = true → message_number h = u32_max →
  skipped_keys s !! (ratchet_public_key h, message_number h) = None →
  remote_ratchet_key s = Some (ratchet_public_key h) → receiving_chain_key s = Some ck →
  is_u32 (recv_message_number s) → message_number h - recv_message_number s ≤ MAX_SKIP →
  decrypt h c ad (s, w) =
    (Panic, (set_receiving_chain_key
               (Some (chain_at ck (S (Z.to_nat (message_number h - recv_message_number s)))))
               (cache_until (ratchet_public_key h) ck (message_number h) s), w)).
Proof.
  intros Ho Hn Hnone Hrem Hck Hr Hskip. unfold decrypt. mred. rewrite Hnone.
  rewrite from_slice_array. mred. rewrite Hrem, bool_decide_true by done. cbn [negb]. mred.
  assert (is_u32 (message_number h) ∧ recv_message_number s ≤ message_number h) as [Hu Hle]
    by (rewrite Hn; unfold is_u32, in_width, u32_max in *; lia).
  rewrite (skip_run _ s w ck (ratchet_public_key h)) by done.
  rewrite (proj2 (Z.ltb_ge _ _)) by done. mred.
  assert (message_number h +u32 1 = Panic (E:=CryptoError)) as He
    by (rewrite Hn; change (u32_max +u32 1) with (if overflow_checks then Panic (E:=CryptoError) else Ret 0);
        by rewrite Ho).
  unfold cache_until. destruct s as [rk sck rck kp rem sn rn pl sk]; cbn.
  rewrite kdf_ck_total. mred. by rewrite He.
Qed.

Lemma decrypt_consumed h c ad s w :
  skipped_keys s !! (ratchet_public_key h, message_number h) = None →
  remote_ratchet_key s = Some (ratchet_public_key h) →
  message_number h < recv_message_number s →
  decrypt h c ad (s, w) =
    (Throw (RatchetError (bstr "message number already consumed")), (s, w)).
Proof.
  intros Hnone Hrem Hlt. unfold decrypt. mred. rewrite Hnone, from_slice_array. mred.
  rewrite Hrem, bool_decide_true by done. cbn [negb]. mred.
  by rewrite skip_behind.
Qed.

(** A header with a new ratchet key, *)
Lemma need_ratchet_true (remote : option key32) pk :
  remote ≠ Some pk →
  match remote with Some remote => negb (bool_decide (remote = pk)) | None => true end = true.
Proof. intros H. destruct remote; [|done]. rewrite bool_decide_false; naive_solver. Qed.
(** when the old chain cannot be closed, *)
Lemma decrypt_unclosed h c ad s w e σ :
  skipped_keys s !! (ratchet_public_key h, message_number h) = None →
  remote_ratchet_key s ≠ Some (ratchet_public_key h) →
  skip_message_keys_for_current_chain (h_previous_chain_length h) (s, w) = (Throw e, σ) →
  decrypt h c ad (s, w) = (Throw e, σ).
Proof.
  intros Hnone Hrem Hskip. unfold decrypt. mred. rewrite Hnone, from_slice_array. mred.
  rewrite need_ratchet_true by done. by rewrite Hskip.
Qed.
(** and once it is closed by [s']. *)
Lemma decrypt_new_key h c ad s w s' opk osk d1 kp d2 w' :
  skipped_keys s !! (ratchet_public_key h, message_number h) = None →
  remote_ratchet_key s ≠ Some (ratchet_public_key h) →
  skip_message_keys_for_current_chain (h_previous_chain_length h) (s, w)
    = (Ret tt, (s', w)) →
  sending_keypair s' = Some (opk, osk) →
  scalarmult osk (ratchet_public_key h) = Some d1 →
  box_gen_keypair w = (kp, w') →
  scalarmult kp.2 (ratchet_public_key h) = Some d2 →
  is_u32 (message_number h + 1) → 0 ≤ message_number h ≤ MAX_SKIP →
  let rck := (rk_step (root_key s') d1).2 in
  decrypt h c ad (s, w) =
    (decrypt_with_key (mk_at rck (message_number h)) c ad,
     (receive_at (ratchet_public_key h) rck (message_number h)
        (ratcheted (ratchet_public_key h) d1 d2 kp s'), w')).
Proof.
  intros Hnone Hrem Hskip Hkp Hd1 Hgen Hd2 Hn Hm rck. unfold decrypt. mred.
  rewrite Hnone, from_slice_array. mred.
  rewrite need_ratchet_true by done.
  rewrite Hskip. mred. rewrite (dh_ratchet_run _ s' w opk osk d1 kp d2 w') by done. mred.
  unfold ratcheted. destruct (rk_step (root_key s') d1) as [r1 rck1] eqn:Hr1.
  destruct (rk_step r1 d2) as [r2 sck]. simpl in rck. subst rck.
  erewrite skip_run; [|done..| | |]; simpl;
    [|unfold is_u32, in_width in *; lia..].
  rewrite Z.sub_0_r, (proj2 (Z.ltb_ge _ _)) by lia. mred.
  unfold cache_until, receive_at; cbn. rewrite kdf_ck_total. mred.
  rewrite add_w_ok by done. mred. by rewrite !Z.sub_0_r.
Qed.
(** The same with a number that is too far on: the DH ratchet step was taken. *)
Lemma decrypt_new_key_far h c ad s w s' opk osk d1 kp d2 w' :
  skipped_keys s !! (ratchet_public_key h, message_number h) = None →
  remote_ratchet_key s ≠ Some (ratchet_public_key h) →
  skip_message_keys_for_current_chain (h_previous_chain_length h) (s, w)
    = (Ret tt, (s', w)) →
  sending_keypair s' = Some (opk, osk) →
  scalarmult osk (ratchet_public_key h) = Some d1 →
  box_gen_keypair w = (kp, w') →
  scalarmult kp.2 (ratchet_public_key h) = Some d2 →
  is_u32 (message_number h) → MAX_SKIP < message_number h →
  decrypt h c ad (s, w) =
    (Throw (RatchetError (bstr "too many skipped messages")),
     (ratcheted (ratchet_public_key h) d1 d2 kp s', w')).
Proof.
  intros Hnone Hrem Hskip Hkp Hd1 Hgen Hd2 Hn Hm. unfold decrypt. mred.
  rewrite Hnone, from_slice_array. mred.
  rewrite need_ratchet_true by done.
  rewrite Hskip. mred. rewrite (dh_ratchet_run _ s' w opk osk d1 kp d2 w') by done. mred.
  unfold ratcheted. destruct (rk_step (root_key s') d1) as [r1 rck1] eqn:Hr1.
  destruct (rk_step r1 d2) as [r2 sck].
  erewrite skip_run; [|done..| | |]; simpl; [|unfold is_u32, in_width in *; lia..].
  by rewrite Z.sub_0_r, (proj2 (Z.ltb_lt _ _)) by lia.
Qed.
(** What the step writes on every path, errors included. *)
Lemma dh_ratchet_writes pk s w :
  let s' := (dh_ratchet_step pk (s, w)).2.1 in
  remote_ratchet_key s' = Some pk ∧ recv_message_number s' = 0 ∧ skipped_keys s' = skipped_keys s.
Proof.
  unfold dh_ratchet_step. destruct s as [rk sck rck kp rem sn rn pl sk]. mred. cbn.
  destruct kp as [[opk osk]|]; mred; [|done]. rewrite dh_exchange_eq.
  destruct (scalarmult osk pk) as [d1|]; mred; [|done]. rewrite kdf_rk_total.
  destruct (rk_step rk d1) as [r1 c1]. mred. cbn.
  destruct (box_gen_keypair w) as [[npk nsk] w1]. mred. rewrite dh_exchange_eq.
  destruct (scalarmult nsk pk) as [d2|]; mred; [|done]. rewrite kdf_rk_total. cbn [root_key].
  by destruct (rk_step r1 d2) as [r2 c2].
Qed.
(** A number that is too far on, whatever closing the old chain and the step do. *)
Lemma decrypt_new_key_jump h c ad s w :
  skipped_keys s !! (ratchet_public_key h, message_number h) = None →
  remote_ratchet_key s ≠ Some (ratchet_public_key h) →
  is_u32 (message_number h) → MAX_SKIP < message_number h →
  decrypt h c ad (s, w) =
    (skip_message_keys_for_current_chain (h_previous_chain_length h);;
     dh_ratchet_step (ratchet_public_key h);;
     throw (RatchetError (bstr "too many skipped messages"))) (s, w).
Proof.
  intros Hnone Hrem Hn Hm. unfold decrypt. mred. rewrite Hnone, from_slice_array. mred.
  rewrite need_ratchet_true by done.
  destruct (skip_message_keys_for_current_chain _ (s, w)) as [[[]|e|] [s1 w1]]; mred; [|done..].
  pose proof (dh_ratchet_writes (ratchet_public_key h) s1 w1) as (_ & Hr2 & _).
  destruct (dh_ratchet_step _ (s1, w1)) as [[[]|e|] [s2 w2]]; mred; [|done..]. simpl in Hr2. unfold skip_message_keys. mred. rewrite Hr2, Z.sub_0_r.
  rewrite (proj2 (Z.ltb_ge _ _)) by (unfold MAX_SKIP in *; lia).
  rewrite sub_w_ok by (unfold is_u32, in_width in *; lia). mred. rewrite Z.sub_0_r.
  by rewrite (proj2 (Z.ltb_lt _ _)).
Qed.
End runs.
