(* ===== verification/RatchetChain.v ===== *)
(** * One receiving chain: delivery in any order, and replays

    [recv_chain s pk ck0 C] is the receiver's side of a chain: the chain of the
    ratchet key [pk] started at the chain key [ck0] and the messages numbered in
    [C] have been received. The abstract state of a chain is the set [C]; the
    lemmas refine [decrypt] to it. *)

From S2P Require Import Prelude RustStr Errors Sodium Instances AesGcm DoubleRatchet RatchetFacts.
Local Open Scope rust_scope.

Section chain_spec.
Context {HA : Hashes}.

(** The cache holds the keys below [N] that were not consumed, and no other
    key of this chain. *)
Definition cache_ok (m : gmap (key32 * Z) key32) (pk ck0 : key32) (N : Z) (C : gset Z) : Prop :=
  ∀ k, m !! (pk, k) = if bool_decide (0 ≤ k < N ∧ k ∉ C) then Some (mk_at ck0 k) else None.

Record recv_chain (s : RatchetState) (pk ck0 : key32) (C : gset Z) : Prop := {
  rc_remote : remote_ratchet_key s = Some pk;
  rc_ck : receiving_chain_key s = Some (chain_at ck0 (Z.to_nat (recv_message_number s)));
  rc_num : is_u32 (recv_message_number s);
  rc_cache : cache_ok (skipped_keys s) pk ck0 (recv_message_number s) C;
  rc_consumed : ∀ k, k ∈ C → 0 ≤ k < recv_message_number s;
}.

(** What receiving on the chain of [pk] leaves alone. *)
Record frame (pk : key32) (s s' : RatchetState) : Prop := {
  fr_root : root_key s' = root_key s;
  fr_sck : sending_chain_key s' = sending_chain_key s;
  fr_kp : sending_keypair s' = sending_keypair s;
  fr_sn : send_message_number s' = send_message_number s;
  fr_pl : previous_chain_length s' = previous_chain_length s;
  fr_cache pk' k : pk' ≠ pk → skipped_keys s' !! (pk', k) = skipped_keys s !! (pk', k);
}.

(** A packet of the chain: message [m] under number [n]. *)
Definition genuine {SO : Sodium} (pk ck0 : key32) (ad : bytes) (h : MessageHeader)
  (c : bytes) (n : Z) (m : bytes) : Prop :=
  ratchet_public_key h = pk ∧ message_number h = n ∧
  ∃ nc, c = array_list nc ++ aead_seal m (Some ad) nc (mk_at ck0 n).

Lemma cache_ok_skip m pk ck0 N N' C :
  cache_ok m pk ck0 N C → (∀ k, k ∈ C → k < N) → 0 ≤ N ≤ N' →
  cache_ok (skip_map pk N (Z.to_nat (N' - N)) (chain_at ck0 (Z.to_nat N)) m) pk ck0 N' C.
Proof.
  intros Hm HC HN k. rewrite skip_map_lookup.
  destruct (decide (N ≤ k < N')) as [Hk|Hk].
  - rewrite bool_decide_true by (split; [done|lia]).
    rewrite bool_decide_true by (split; [lia|]; intros ?%HC; lia).
    rewrite mk_at_chain_at by lia. f_equal. f_equal. lia.
  - rewrite bool_decide_false by (intros [_ ?]; lia). rewrite (Hm k).
    destruct (decide (0 ≤ k < N ∧ k ∉ C)) as [H|H].
    + rewrite !bool_decide_true; [done| |done]. split; [lia|apply H].
    + rewrite !bool_decide_false; [done| |done]. intros [? ?]. apply H. split; [lia|done].
Qed.
Lemma cache_ok_delete m pk ck0 N C n :
  cache_ok m pk ck0 N C → cache_ok (delete (pk, n) m) pk ck0 N ({[n]} ∪ C).
Proof.
  intros Hm k. destruct (decide (k = n)) as [->|Hne].
  - rewrite lookup_delete_eq, bool_decide_false; [done|]. set_solver.
  - rewrite lookup_delete_ne by congruence. rewrite (Hm k).
    destruct (decide (0 ≤ k < N ∧ k ∉ C)) as [H|H].
    + rewrite !bool_decide_true; [done| |done]. set_solver.
    + rewrite !bool_decide_false; [done| |done]. set_solver.
Qed.
Lemma cache_ok_advance m pk ck0 n C :
  cache_ok m pk ck0 n C → cache_ok m pk ck0 (n + 1) ({[n]} ∪ C).
Proof.
  intros Hm k. rewrite (Hm k).
  destruct (decide (0 ≤ k < n ∧ k ∉ C)) as [[H1 H2]|H].
  - rewrite !bool_decide_true; [done| |done]. split; [lia|].
    assert (k ≠ n) by lia. set_solver.
  - rewrite !bool_decide_false; [done| |done]. intros [H1 H2]. apply H.
    assert (k ≠ n) by set_solver. split; [lia|set_solver].
Qed.
End chain_spec.

Section chain_delivery.
Context {BP : BuildProfile} {SO : Sodium} {HA : Hashes}.
Context {L : SodiumLaws SO} {LA : AeadLaws SO} {LH : HashLaws HA}.
Implicit Types (s : RatchetState) (w : rng) (C : gset Z).

(** A cached key is used and forgotten. *)
Lemma deliver_cached h c ad s w pk ck0 N C :
  cache_ok (skipped_keys s) pk ck0 N C →
  ratchet_public_key h = pk → 0 ≤ message_number h < N → message_number h ∉ C →
  decrypt h c ad (s, w) =
    (decrypt_with_key (mk_at ck0 (message_number h)) c ad,
     (set_skipped_keys (delete (pk, message_number h) (skipped_keys s)) s, w)).
Proof.
  intros Hc <- Hn HC. apply decrypt_cached. by rewrite (Hc _), bool_decide_true.
Qed.

Lemma frame_delete pk n s :
  frame pk s (set_skipped_keys (delete (pk, n) (skipped_keys s)) s).
Proof.
  destruct s; split; try done; simpl. intros pk' k Hne. apply lookup_delete_ne. congruence.
Qed.
Lemma recv_chain_delete pk ck0 C n s :
  recv_chain s pk ck0 C → 0 ≤ n < recv_message_number s →
  recv_chain (set_skipped_keys (delete (pk, n) (skipped_keys s)) s) pk ck0 ({[n]} ∪ C).
Proof.
  intros [Hrem Hck Hnum Hcache HC] Hn. destruct s; simpl in *.
  split; simpl; [done..|by apply cache_ok_delete|].
  intros k [->%elem_of_singleton|Hk]%elem_of_union; [done|by apply HC].
Qed.

Lemma frame_receive_at pk ck n s : frame pk s (receive_at pk ck n s).
Proof.
  destruct s; split; try done; simpl. intros pk' k Hne.
  rewrite skip_map_lookup, bool_decide_false; naive_solver.
Qed.
Lemma recv_chain_receive_at pk ck0 C n s :
  recv_chain s pk ck0 C → recv_message_number s ≤ n → is_u32 (n + 1) →
  recv_chain
    (receive_at pk (chain_at ck0 (Z.to_nat (recv_message_number s))) n s) pk ck0 ({[n]} ∪ C).
Proof.
  intros [Hrem Hck Hnum Hcache HC] Hle Hn. unfold is_u32, in_width in *.
  destruct s as [rk sck rck kp rem sn rn pl sk]; simpl in *.
  split; simpl; [done| |done| |].
  - rewrite <-!chain_at_succ, chain_at_add. do 2 f_equal. lia.
  - apply cache_ok_advance, cache_ok_skip; [done|intros k Hk%HC; lia|lia].
  - intros k [->%elem_of_singleton|Hk%HC]%elem_of_union; lia.
Qed.

(** A chain that was just opened, and the first number received on it. *)
Lemma recv_chain_open pk ck0 s :
  remote_ratchet_key s = Some pk → receiving_chain_key s = Some ck0 →
  recv_message_number s = 0 → (∀ k, skipped_keys s !! (pk, k) = None) → recv_chain s pk ck0 ∅.
Proof.
  intros Hrem Hck Hn0 Hno. split; [done|by rewrite Hn0|by rewrite Hn0| |by intros].
  intros k. rewrite Hno, bool_decide_false; [done|lia].
Qed.
Lemma recv_chain_first pk ck0 n s :
  remote_ratchet_key s = Some pk → receiving_chain_key s = Some ck0 →
  recv_message_number s = 0 → (∀ k, skipped_keys s !! (pk, k) = None) →
  0 ≤ n → is_u32 (n + 1) → recv_chain (receive_at pk ck0 n s) pk ck0 {[n]}.
Proof.
  intros Hrem Hck Hn0 Hno Hn Hu.
  replace {[n]} with ({[n]} ∪ ∅ : gset Z) by set_solver.
  change (receive_at pk ck0 n s) with (receive_at pk (chain_at ck0 (Z.to_nat 0)) n s).
  rewrite <-Hn0. apply recv_chain_receive_at; [|lia|done]. by apply recv_chain_open.
Qed.

(** The step of one chain: any number that was not received yet and is at most
    [MAX_SKIP] ahead selects the right message key, whatever the ciphertext. *)
Lemma deliver_chain h c ad s w pk ck0 C :
  recv_chain s pk ck0 C → ratchet_public_key h = pk → 0 ≤ message_number h →
  is_u32 (message_number h + 1) → message_number h ∉ C →
  message_number h - recv_message_number s ≤ MAX_SKIP →
  ∃ s', decrypt h c ad (s, w) =
          (decrypt_with_key (mk_at ck0 (message_number h)) c ad, (s', w)) ∧
        recv_chain s' pk ck0 ({[message_number h]} ∪ C) ∧ frame pk s s' ∧
        recv_message_number s' = Z.max (recv_message_number s) (message_number h + 1).
Proof.
  intros Hrc Hpk Hn0 Hn HC Hskip. pose proof Hrc as [Hrem Hck Hnum Hcache HCb].
  destruct (Z.lt_ge_cases (message_number h) (recv_message_number s)) as [Hlt|Hge].
  - eexists. split; [by eapply deliver_cached|].
    split_and!; [by apply recv_chain_delete|by apply frame_delete|destruct s; simpl in *; lia].
  - eexists. split.
    + rewrite (decrypt_current h c ad s w _) by
        (first [by rewrite ?Hrem, ?Hpk | done
               | rewrite Hpk, (Hcache _), bool_decide_false; [done|lia]]).
      f_equal. f_equal. unfold is_u32, in_width in Hnum. rewrite mk_at_chain_at by lia.
      f_equal. lia.
    + rewrite Hpk.
      split_and!; [by apply recv_chain_receive_at|by apply frame_receive_at|].
      destruct s; simpl in *; lia.
Qed.

Lemma deliver_replay h c ad s w pk ck0 C :
  recv_chain s pk ck0 C → ratchet_public_key h = pk → message_number h ∈ C →
  decrypt h c ad (s, w) =
    (Throw (RatchetError (bstr "message number already consumed")), (s, w)).
Proof.
  intros [Hrem Hck Hnum Hcache HCb] Hpk HC. apply decrypt_consumed.
  - by rewrite Hpk, (Hcache _), bool_decide_false by naive_solver.
  - by rewrite Hpk.
  - by apply HCb.
Qed.

Lemma deliver_genuine h c ad s w pk ck0 C n m :
  recv_chain s pk ck0 C → genuine pk ck0 ad h c n m → 0 ≤ n → is_u32 (n + 1) → n ∉ C →
  n - recv_message_number s ≤ MAX_SKIP →
  ∃ s', decrypt h c ad (s, w) = (Ret m, (s', w)) ∧
        recv_chain s' pk ck0 ({[n]} ∪ C) ∧ frame pk s s' ∧
        recv_message_number s' = Z.max (recv_message_number s) (n + 1).
Proof.
  intros Hrc (Hpk & <- & nc & ->) Hn0 Hn HC Hskip.
  destruct (deliver_chain h (array_list nc ++ aead_seal m (Some ad) nc
              (mk_at ck0 (message_number h))) ad s w pk ck0 C) as (s' & Hd & Hrest); [done..|].
  exists s'. split; [|done]. by rewrite Hd, decrypt_with_key_sealed.
Qed.
End chain_delivery.

(** ** Sending and receiving a batch *)
Section batch.
Context {BP : BuildProfile} {SO : Sodium} {HA : Hashes}.

(** A client loop over [encrypt], and one over [decrypt]. *)
Fixpoint encrypt_all (ms : list bytes) (ad : bytes) :
  M (RatchetState * rng) CryptoError (list (MessageHeader * bytes)) :=
  match ms with
  | [] => mret []
  | m :: ms => p ← encrypt m ad; ps ← encrypt_all ms ad; mret (p :: ps)
  end.
Fixpoint decrypt_all (ps : list (MessageHeader * bytes)) (ad : bytes) :
  M (RatchetState * rng) CryptoError (list bytes) :=
  match ps with
  | [] => mret []
  | (h, c) :: ps => m ← decrypt h c ad; ms ← decrypt_all ps ad; mret (m :: ms)
  end.

Context {L : SodiumLaws SO} {LA : AeadLaws SO} {LH : HashLaws HA}.

(** The sender's side of a chain. *)
Record send_chain (s : RatchetState) (pk ck0 : key32) : Prop := {
  sc_kp : ∃ sk, sending_keypair s = Some (pk, sk);
  sc_ck : sending_chain_key s = Some (chain_at ck0 (Z.to_nat (send_message_number s)));
  sc_num : is_u32 (send_message_number s);
}.

Lemma encrypt_chain s w pk ck0 m ad :
  ready w → send_chain s pk ck0 → is_u32 (send_message_number s + 1) →
  blen m + 40 ≤ isize_max →
  ∃ h c s' w', encrypt m ad (s, w) = (Ret (h, c), (s', w')) ∧
    h = mkMessageHeader pk (previous_chain_length s) (send_message_number s) ∧
    genuine pk ck0 ad h c (send_message_number s) m ∧ send_chain s' pk ck0 ∧
    s' = set_send_message_number (send_message_number s + 1)
           (set_sending_chain_key
              (Some (chain_at ck0 (Z.to_nat (send_message_number s + 1)))) s) ∧
    ready w'.
Proof.
  intros Hw [[sk Hkp] Hck Hnum] Hn Hm.
  destruct (encrypt_run s w _ pk sk m ad Hw Hck Hkp Hn Hm) as (nc & He & Hw').
  unfold is_u32, in_width in *.
  assert (next_ck (chain_at ck0 (Z.to_nat (send_message_number s)))
          = chain_at ck0 (Z.to_nat (send_message_number s + 1))) as Hnext.
  { rewrite <-chain_at_succ. f_equal. lia. }
  rewrite Hnext in He. eexists _, _, _, _. split; [exact He|].
  split_and!; [done| | |done|done].
  - split_and!; [done..|]. by exists nc.
  - destruct s; simpl in *. split; simpl; [by exists sk|done|done].
Qed.

(** The batch the sender produces: message [i] under number [from + i]. *)
Definition genuine_batch (pk ck0 : key32) (ad : bytes) (from : Z)
  (ps : list (MessageHeader * bytes)) (ms : list bytes) : Prop :=
  Forall2 (λ p im, genuine pk ck0 ad p.1 p.2 im.1 im.2) ps (zip (seqZ from (blen ms)) ms).

Lemma encrypt_all_chain s w pk ck0 ms ad :
  ready w → send_chain s pk ck0 →
  send_message_number s + blen ms < 2 ^ 32 →
  Forall (λ m, blen m + 40 ≤ isize_max) ms →
  ∃ ps s' w', encrypt_all ms ad (s, w) = (Ret ps, (s', w')) ∧
    genuine_batch pk ck0 ad (send_message_number s) ps ms ∧ send_chain s' pk ck0 ∧
    send_message_number s' = send_message_number s + blen ms ∧ ready w'.
Proof.
  revert s w. induction ms as [|m ms IH]; intros s w Hw Hsc Hlen Hms.
  { exists [], s, w. split_and!; try done; [constructor|].
    rewrite blen_nil. lia. }
  pose proof (sc_num _ _ _ Hsc) as Hnum. pose proof (blen_nonneg ms).
  rewrite blen_cons in Hlen. inversion_clear Hms as [|?? Hm Hms'].
  unfold is_u32, in_width in Hnum.
  destruct (encrypt_chain s w pk ck0 m ad Hw Hsc) as (h & c & s1 & w1 & He & Hh & Hg & Hsc1 & Hs1 & Hw1).
  { unfold is_u32, in_width. lia. } { done. }
  assert (send_message_number s1 = send_message_number s + 1) as Hn1 by (subst s1; by destruct s).
  destruct (IH s1 w1 Hw1 Hsc1) as (ps & s2 & w2 & Hps & Hgs & Hsc2 & Hn2 & Hw2); [lia|done|].
  eexists ((h, c) :: ps), s2, w2. split_and!; try done.
  - simpl. mstep He. mstep Hps. done.
  - unfold genuine_batch. rewrite blen_cons, seqZ_cons by lia. simpl. constructor; [done|].
    replace (Z.succ (send_message_number s)) with (send_message_number s1) by lia.
    replace (Z.pred (1 + blen ms)) with (blen ms) by lia. done.
  - rewrite blen_cons. lia.
Qed.

Lemma decrypt_all_chain pk ck0 ad lo (items : list ((MessageHeader * bytes) * (Z * bytes))) s w C :
  recv_chain s pk ck0 C → lo ≤ recv_message_number s → 0 ≤ lo →
  NoDup (items.*2).*1 →
  Forall (λ it, genuine pk ck0 ad it.1.1 it.1.2 it.2.1 it.2.2 ∧ it.2.1 ∉ C ∧
                lo ≤ it.2.1 ≤ lo + MAX_SKIP ∧ is_u32 (it.2.1 + 1)) items →
  ∃ s', decrypt_all (items.*1) ad (s, w) = (Ret ((items.*2).*2), (s', w)) ∧
        recv_chain s' pk ck0 (list_to_set ((items.*2).*1) ∪ C).
Proof.
  revert s C. induction items as [|[[h c] [n m]] items IH]; intros s C Hrc Hlo H0 Hnd Hall; simpl.
  { exists s. split; [done|]. by replace (∅ ∪ C) with C by set_solver. }
  apply NoDup_cons in Hnd as [Hnin Hnd]. inversion_clear Hall as [|?? Hit Hrest].
  destruct Hit as (Hg & HnC & Hrange & Hu). simpl in *.
  destruct (deliver_genuine h c ad s w pk ck0 C n m Hrc Hg) as (s1 & Hd & Hrc1 & _ & Hn1);
    [lia|done|done|lia|].
  destruct (IH s1 ({[n]} ∪ C) Hrc1) as (s2 & Hds & Hrc2); [lia|done|done| |].
  { rewrite Forall_forall in Hrest |- *. intros [[h' c'] [n' m']] Hin.
    destruct (Hrest _ Hin) as (Hg' & HnC' & Hr' & Hu'). simpl in *.
    split; [done|split; [|done]].
    assert (n' ≠ n); [|set_solver]. intros ->. apply Hnin.
    apply list_elem_of_fmap. exists (n, m'). split; [done|].
    apply list_elem_of_fmap. by exists ((h', c'), (n, m')). }
  exists s2. split; [by mstep Hd; mstep Hds|].
  by rewrite (comm_L (∪) {[n]}), <-(assoc_L (∪)).
Qed.
End batch.
