(* ===== verification/RatchetProps.v ===== *)
(** * Properties of one Double Ratchet session

    Delivery of a batch in any order, rejection of replays, robustness against
    arbitrary headers and ciphertexts, the counters at the end of their range,
    the serialised form, and what a failed decryption leaves behind. *)

From S2P Require Import Prelude RustStr Errors Sodium Instances AesGcm DoubleRatchet.
From S2P Require Import RatchetFacts RatchetChain.
Local Open Scope rust_scope.

(** ** The type invariant: the [u32] fields are in range *)
Record wf (s : RatchetState) : Prop := mk_wf {
  wf_sn : is_u32 (send_message_number s);
  wf_rn : is_u32 (recv_message_number s);
  wf_pl : is_u32 (previous_chain_length s);
  wf_sk : map_Forall (λ k _, is_u32 k.2) (skipped_keys s);
}.
Definition wf_header (h : MessageHeader) : Prop :=
  is_u32 (h_previous_chain_length h) ∧ is_u32 (message_number h).

(** The result of a call on [s] that caches at most [k] keys, keeps the
    invariant and does not panic, whatever it returns. *)
Definition tame {W A} (k : Z) (s : RatchetState)
  (r : outcome CryptoError A * (RatchetState * W)) : Prop :=
  r.1 ≠ Panic ∧ wf r.2.1 ∧
  Z.of_nat (size (skipped_keys r.2.1)) ≤ Z.of_nat (size (skipped_keys s)) + k.

Section tame_facts.
Context {BP : BuildProfile} {SO : Sodium} {HA : Hashes}.
Context {L : SodiumLaws SO} {LA : AeadLaws SO} {LH : HashLaws HA}.
Implicit Types (s : RatchetState) (w : rng).

(** Sequencing: the bounds add up. *)
Lemma tame_bind {A B} (m : M (RatchetState * rng) CryptoError A)
  (f : A → M (RatchetState * rng) CryptoError B) j k s w :
  0 ≤ k → tame j s (m (s, w)) →
  (∀ a s' w', m (s, w) = (Ret a, (s', w')) → wf s' → tame k s' (f a (s', w'))) →
  tame (j + k) s ((m ≫= f) (s, w)).
Proof.
  intros Hk Hm Hf. unfold mbind, M_bind. unfold tame in *.
  destruct (m (s, w)) as [[a|e|] [s' w']] eqn:Hr; simpl in *; destruct Hm as (Hp & Hw & Hs).
  - destruct (Hf a s' w' eq_refl Hw) as (? & ? & ?). split_and!; [done..|lia].
  - split_and!; [done..|lia].
  - done.
Qed.

Lemma wf_skip_map pk n count ck m :
  0 ≤ n → n + Z.of_nat count ≤ 2 ^ 32 →
  map_Forall (λ k _, is_u32 k.2) m →
  map_Forall (λ (k : key32 * Z) _, is_u32 k.2) (skip_map pk n count ck m).
Proof.
  intros Hn Hc Hm [pk' k] mk Hk. rewrite skip_map_lookup in Hk. simpl.
  case_bool_decide as Hd; [|by apply (Hm (pk', k) mk)].
  unfold is_u32, in_width. lia.
Qed.
Lemma wf_cache_until pk ck until s :
  wf s → is_u32 until → recv_message_number s ≤ until → wf (cache_until pk ck until s).
Proof.
  intros [Hsn Hrn Hpl Hsk] Hu Hle. destruct s; split; simpl in *; try done.
  apply wf_skip_map; [|unfold is_u32, in_width in *; lia|done]. by destruct Hrn.
Qed.
Lemma size_cache_until pk ck until s :
  recv_message_number s ≤ until → until - recv_message_number s ≤ MAX_SKIP →
  Z.of_nat (size (skipped_keys (cache_until pk ck until s)))
  ≤ Z.of_nat (size (skipped_keys s)) + MAX_SKIP.
Proof.
  intros Hle Hm. destruct s as [rk sck rck kp rem sn rn pl sk]; simpl in *.
  pose proof (skip_map_size pk rn (Z.to_nat (until - rn)) ck sk). lia.
Qed.

Lemma skip_current_tame until s w :
  wf s → is_u32 until → tame MAX_SKIP s (skip_message_keys_for_current_chain until (s, w)).
Proof.
  intros Hw Hu. assert (tame MAX_SKIP s (Ret (E:=CryptoError) tt, (s, w))) as H0.
  { split_and!; [done..|]. unfold MAX_SKIP; simpl; lia. }
  destruct (receiving_chain_key s) as [ck|] eqn:Hck; [|by rewrite skip_current_none by auto].
  destruct (remote_ratchet_key s) as [pk|] eqn:Hpk; [|by rewrite skip_current_none by auto].
  destruct (Z.lt_ge_cases until (recv_message_number s)); [by rewrite skip_current_behind|].
  rewrite (skip_current_run _ _ _ ck pk) by (try done; apply Hw).
  destruct (Z.ltb_spec MAX_SKIP (until - recv_message_number s)).
  { split_and!; [done..|]. unfold MAX_SKIP; simpl; lia. }
  pose proof (wf_cache_until pk ck until s Hw Hu ltac:(lia)) as Hw'.
  pose proof (size_cache_until pk ck until s ltac:(lia) ltac:(lia)).
  split_and!; [done| |by destruct s].
  by destruct s; destruct Hw'; split.
Qed.

Lemma skip_tame until s w :
  wf s → is_u32 until → tame MAX_SKIP s (skip_message_keys until (s, w)).
Proof.
  intros Hw Hu.
  assert (∀ e, tame (A:=unit) MAX_SKIP s (Throw e, (s, w))) as H0.
  { intros. split_and!; [done..|]. unfold MAX_SKIP; simpl; lia. }
  destruct (Z.lt_ge_cases until (recv_message_number s)); [by rewrite skip_behind|].
  destruct (receiving_chain_key s) as [ck|] eqn:Hck;
    destruct (remote_ratchet_key s) as [pk|] eqn:Hpk.
  { rewrite (skip_run _ _ _ ck pk) by (try done; apply Hw).
    destruct (Z.ltb_spec MAX_SKIP (until - recv_message_number s)); [done|].
    split_and!; [done|by apply wf_cache_until|by apply size_cache_until]. }
  all: unfold skip_message_keys; mred; rewrite (proj2 (Z.ltb_ge _ _)) by done;
    rewrite sub_w_ok by (destruct Hw; unfold is_u32, in_width in *; lia); mred;
    rewrite Hpk, ?Hck; mred; by case_match.
Qed.

Lemma dh_ratchet_tame pk s w : wf s → tame 0 s (dh_ratchet_step pk (s, w)).
Proof.
  intros [Hsn Hrn Hpl Hsk]. destruct s as [rk sck rck kp rem sn rn pl sk]; simpl in *.
  unfold dh_ratchet_step. mred. cbn.
  destruct kp as [[opk osk]|]; mred; [|by split_and!; [|split|simpl; lia]].
  rewrite dh_exchange_eq. destruct (scalarmult osk pk) as [d1|]; mred;
    [|by split_and!; [|split|simpl; lia]].
  rewrite kdf_rk_total. destruct (rk_step rk d1) as [r1 c1]. mred. cbn.
  destruct (box_gen_keypair w) as [[npk nsk] w']. mred. rewrite dh_exchange_eq.
  destruct (scalarmult nsk pk) as [d2|]; mred; [|by split_and!; [|split|simpl; lia]].
  rewrite kdf_rk_total. cbn [root_key]. destruct (rk_step r1 d2) as [r2 c2]. mred. cbn.
  by split_and!; [|split|simpl; lia].
Qed.

Lemma decrypt_with_key_no_panic k c ad : decrypt_with_key k c ad ≠ Panic.
Proof. by destruct (decrypt_with_key_cases k c ad) as [(? & ? & _ & ->)| -> ]. Qed.

(** Receiving, after the chains are positioned. *)
Lemma receive_tail_tame h c ad s w :
  wf s → is_u32 (message_number h) →
  (overflow_checks = false ∨ message_number h ≠ u32_max) →
  tame 0 s
    ((self ← gets fst;
      ck ← lift (ok_or (receiving_chain_key self)
                       (RatchetError (bstr "no receiving chain key")));
      '(new_ck, msg_key) ← lift (kdf_ck ck);
      on_self (set_receiving_chain_key (Some new_ck));;
      n ← lift (message_number h +u32 1);
      on_self (set_recv_message_number n);;
      lift (decrypt_with_key msg_key c ad)) (s, w)).
Proof.
  intros [Hsn Hrn Hpl Hsk] Hh Ho. destruct s as [rk sck rck kp rem sn rn pl sk]; simpl in *.
  mred. cbn. destruct rck as [ck|]; mred; [|by split_and!; [|split|simpl; lia]].
  rewrite kdf_ck_total. mred.
  assert (∃ n, message_number h +u32 1 = Ret (E:=CryptoError) n ∧ is_u32 n) as (n & -> & Hn).
  { unfold add_w, wrap_w, is_u32, in_width, u32_max in *.
    destruct (Z.leb_spec 0 (message_number h + 1)); [|lia].
    destruct (Z.ltb_spec (message_number h + 1) (2 ^ 32)); simpl.
    - eexists. split; [done|lia].
    - destruct Ho as [->|Ho]; [|lia]. eexists. split; [done|]. by apply Z.mod_pos_bound. }
  mred. split_and!; [by apply decrypt_with_key_no_panic|by split|simpl; lia].
Qed.

Lemma decrypt_cached_tame h c ad s w mk :
  wf s → skipped_keys s !! (ratchet_public_key h, message_number h) = Some mk →
  tame (MAX_SKIP + MAX_SKIP) s (decrypt h c ad (s, w)).
Proof.
  intros Hw Hc. rewrite (decrypt_cached _ _ _ _ _ mk) by done.
  pose proof (map_size_delete_Some _ _ (mk_is_Some _ _ Hc)) as Hsz.
  destruct Hw, s; split_and!; simpl in *; [by apply decrypt_with_key_no_panic| |].
  - split; try done. by apply map_Forall_delete.
  - unfold MAX_SKIP. lia.
Qed.
Lemma decrypt_tame h c ad s w :
  wf s → wf_header h → (overflow_checks = false ∨ message_number h ≠ u32_max) →
  tame (MAX_SKIP + MAX_SKIP) s (decrypt h c ad (s, w)).
Proof.
  intros Hw [Hp Hh] Ho.
  destruct (skipped_keys s !! (ratchet_public_key h, message_number h)) as [mk|] eqn:Hc.
  { by apply (decrypt_cached_tame _ _ _ _ _ mk). }
  unfold decrypt. mstep (eq_refl (gets fst (E:=CryptoError) (s, w))). cbn [fst]. rewrite Hc.
  rewrite from_slice_array.
  mstep (eq_refl (lift (E:=CryptoError) (ok_or (Some (ratchet_public_key h))
           (RatchetError (bstr "invalid ratchet key in header"))) (s, w))).
  apply tame_bind; [done| |].
  - destruct (match remote_ratchet_key s with Some _ => _ | None => _ end).
    + apply (tame_bind _ _ MAX_SKIP 0); [done|by apply skip_current_tame|].
      intros. by apply dh_ratchet_tame.
    + split_and!; [done..|]. unfold MAX_SKIP; simpl; lia.
  - intros [] s' w' _ Hw'. apply (tame_bind _ _ MAX_SKIP 0); [done|by apply skip_tame|].
    intros [] s2 w2 _ Hw2. by apply receive_tail_tame.
Qed.
End tame_facts.

(** ** The first messages of a session *)
Section start.
Context {BP : BuildProfile} {SO : Sodium} {HA : Hashes}.
Context {L : SodiumLaws SO} {LA : AeadLaws SO} {LH : HashLaws HA} {LK : KeyLaws SO}.
Implicit Types (s : RatchetState) (w : rng).

(** What [init_sender] returns: a sending chain of its fresh key. *)
Lemma init_sender_run ss bpk bsk w :
  ready w → box_pair bpk bsk →
  ∃ pk sk d w', box_gen_keypair w = ((pk, sk), w') ∧ box_pair pk sk ∧ ready w' ∧
    scalarmult sk bpk = Some d ∧ scalarmult bsk pk = Some d ∧
    init_sender ss bpk w =
      (Ret (mkRatchetState (rk_step ss d).1 (Some (rk_step ss d).2) None
              (Some (pk, sk)) (Some bpk) 0 0 0 ∅), w').
Proof.
  intros Hw Hb. pose proof (box_gen_pair w) as Hp. pose proof (ready_box_gen_keypair w Hw) as Hw'.
  destruct (box_gen_keypair w) as [[pk sk] w'] eqn:Hg. simpl in *.
  destruct (scalarmult_comm pk sk bpk bsk Hp Hb) as (d & Hd1 & Hd2).
  exists pk, sk, d, w'. split_and!; [done..|].
  unfold init_sender. mstep (init_sodium_ready w Hw). mred. rewrite Hg. mred.
  rewrite dh_exchange_eq, Hd1. mred. rewrite kdf_rk_total. by destruct (rk_step ss d).
Qed.

(** The responder's session after the first packet of a chain, whichever of
    its numbers comes first. *)
Lemma first_delivery ss bpk bsk pk sk d w h c n m ad :
  box_pair bpk bsk → box_pair pk sk → scalarmult bsk pk = Some d →
  genuine pk (rk_step ss d).2 ad h c n m → 0 ≤ n ≤ MAX_SKIP →
  ∃ s' w', decrypt h c ad (init_receiver ss (bpk, bsk), w) = (Ret m, (s', w')) ∧
           recv_chain s' pk (rk_step ss d).2 {[n]} ∧ recv_message_number s' = n + 1 ∧
           (∀ pk' k, pk' ≠ pk → skipped_keys s' !! (pk', k) = None) ∧ (ready w → ready w').
Proof.
  intros Hb Hp Hd (<- & <- & nc & ->) Hn. pose proof (box_gen_pair w) as Hkp.
  pose proof (ready_box_gen_keypair w) as Hrdy.
  destruct (box_gen_keypair w) as [kp w'] eqn:Hg. simpl in Hkp.
  destruct (scalarmult_comm _ _ _ _ Hkp Hp) as (d2 & Hd2 & _).
  pose proof (decrypt_new_key h
    (array_list nc ++ aead_seal m (Some ad) nc (mk_at (rk_step ss d).2 (message_number h))) ad
    (init_receiver ss (bpk, bsk)) w (init_receiver ss (bpk, bsk)) bpk bsk d kp d2 w') as Hdec.
  simpl in Hdec. rewrite Hdec; [|done|done|by apply skip_current_none; left|done|done|done|done
    |unfold is_u32, in_width, MAX_SKIP in *; lia|done].
  clear Hdec. rewrite decrypt_with_key_sealed. eexists _, _. split; [done|].
  unfold ratcheted. simpl. destruct (rk_step ss d) as [r1 rck].
  destruct (rk_step r1 d2) as [r2 sck]. simpl. split; [|split_and!; try done].
  - apply recv_chain_first; try done; [lia|]. unfold is_u32, in_width, MAX_SKIP in *. lia.
  - intros pk' k Hne. by rewrite skip_map_lookup, bool_decide_false by naive_solver.
Qed.
End start.

(** ** Batches in any order *)
Section any_order.
Context {BP : BuildProfile} {SO : Sodium} {HA : Hashes}.
Context {L : SodiumLaws SO} {LA : AeadLaws SO} {LH : HashLaws HA} {LK : KeyLaws SO}.

(** A reordered batch, with the numbers made explicit again. *)
Lemma batch_numbering pk ck0 ad ps ms (items : list ((MessageHeader * bytes) * bytes)) :
  genuine_batch pk ck0 ad 0 ps ms → items ≡ₚ zip ps ms →
  ∃ full : list ((MessageHeader * bytes) * (Z * bytes)),
    items = (λ it, (it.1, it.2.2)) <$> full ∧ NoDup (full.*2).*1 ∧
    Forall (λ it, genuine pk ck0 ad it.1.1 it.1.2 it.2.1 it.2.2 ∧
                  0 ≤ it.2.1 < blen ms) full.
Proof.
  intros Hg Hperm. set (nm := zip (seqZ 0 (blen ms)) ms).
  assert (length (seqZ 0 (blen ms)) = length ms) as Hl.
  { rewrite length_seqZ. unfold blen. lia. }
  assert (length ps = length nm) as Hlp by (by eapply Forall2_length).
  assert (zip ps ms = (λ it : (MessageHeader * bytes) * (Z * bytes), (it.1, it.2.2)) <$> zip ps nm) as Hz.
  { transitivity (zip ps (nm.*2)); [unfold nm; rewrite snd_zip by lia; done|].
    clearbody nm. clear. revert nm. induction ps as [|p ps IH]; intros [|x nm]; simpl; [done..|]. by rewrite IH. }
  rewrite Hz in Hperm. apply Permutation_map_inv in Hperm as (full & -> & Hp).
  exists full. split; [done|]. split.
  - assert ((full.*2).*1 ≡ₚ seqZ 0 (blen ms)) as ->; [|apply NoDup_seqZ].
    rewrite <-Hp, snd_zip by lia. unfold nm. by rewrite fst_zip by lia.
  - rewrite <-Hp. apply Forall_forall. intros [p [n m]] Hin.
    apply elem_of_lookup_zip_with in Hin as (i & ? & [n' m'] & [= <- <- <-] & Hps & Hnm).
    pose proof (Forall2_lookup_lr _ _ _ _ _ _ Hg Hps Hnm) as Hgen. split; [exact Hgen|].
    apply list_elem_of_lookup_2, elem_of_zip_l, elem_of_seqZ in Hnm. simpl. lia.
Qed.

(** C9: a session started by [init_sender] and [init_receiver] delivers its
    first messages in any order. Up to [MAX_SKIP + 1] messages are encrypted; in
    whatever order the packets arrive, every one of them decrypts to its
    plaintext, and neither side reports an error or panics. *)
Theorem session_delivers_any_order ss bpk bsk ms ad w :
  ready w → box_pair bpk bsk → blen ms ≤ MAX_SKIP + 1 →
  Forall (λ m, blen m + 40 ≤ isize_max) ms →
  ∃ alice alice' ps w1 w2,
    init_sender ss bpk w = (Ret alice, w1) ∧
    encrypt_all ms ad (alice, w1) = (Ret ps, (alice', w2)) ∧ length ps = length ms ∧
    ∀ items wb, items ≡ₚ zip ps ms →
      ∃ bob' wb', decrypt_all items.*1 ad (init_receiver ss (bpk, bsk), wb)
                  = (Ret items.*2, (bob', wb')).
Proof.
  intros Hw Hb Hlen Hms.
  destruct (init_sender_run ss bpk bsk w Hw Hb)
    as (pk & sk & d & w1 & _ & Hp & Hw1 & _ & Hd & Hi).
  set (alice := mkRatchetState _ _ _ _ _ _ _ _ _) in Hi. set (ck0 := (rk_step ss d).2) in *.
  destruct (encrypt_all_chain alice w1 pk ck0 ms ad Hw1) as (ps & alice' & w2 & He & Hg & _);
    [by split; [exists sk|..]|simpl; unfold MAX_SKIP in *; lia|done|].
  exists alice, alice', ps, w1, w2. split_and!; [done..| |].
  { apply Forall2_length in Hg. rewrite Hg, length_zip, length_seqZ. unfold blen. lia. }
  intros items wb Hperm.
  destruct (batch_numbering pk ck0 ad ps ms items Hg Hperm) as (full & -> & Hnd & Hall).
  assert (((λ it, (it.1, it.2.2)) <$> full).*1 = full.*1 ∧
          ((λ it, (it.1, it.2.2)) <$> full).*2 = (full.*2).*2) as [-> ->]
    by (by rewrite <-!list_fmap_compose).
  destruct full as [|[[h c] [n m]] full]; [by eexists _, _|].
  apply NoDup_cons in Hnd as [Hnin Hnd]. inversion_clear Hall as [|?? [Hgen Hn] Hrest].
  simpl in *.
  destruct (first_delivery ss bpk bsk pk sk d wb h c n m ad Hb Hp Hd Hgen) as (s1 & wb' & Hd1 & Hrc & _);
    [unfold MAX_SKIP in *; lia|].
  pose proof (rc_num _ _ _ _ Hrc) as Hrn.
  destruct (decrypt_all_chain pk ck0 ad 0 full s1 wb' {[n]} Hrc) as (s2 & Hds & _);
    [apply Hrn|done|done| |].
  { rewrite Forall_forall in Hrest |- *. intros [[h' c'] [n' m']] Hin.
    destruct (Hrest _ Hin) as [Hg' Hn']. simpl in *.
    split_and!; [done| |unfold MAX_SKIP in *; lia..|unfold is_u32, in_width, MAX_SKIP in *; lia].
    intros ->%elem_of_singleton. apply Hnin.
    change (n ∈ (full.*2).*1). apply list_elem_of_fmap. exists (n, m'). split; [done|].
    apply list_elem_of_fmap. by exists ((h', c'), (n, m')). }
  exists s2, wb'. mstep Hd1. mstep Hds. done.
Qed.
End any_order.

(** ** Arbitrary input, replays and failures *)
Section robustness.
Context {BP : BuildProfile} {SO : Sodium} {HA : Hashes}.
Context {L : SodiumLaws SO} {LA : AeadLaws SO} {LH : HashLaws HA}.
Implicit Types (s : RatchetState) (w : rng).

(** The one way to a panic: a build with overflow checks receives number [u32::MAX] of
    the current chain within the window, and the counter after it overflows. *)
Definition counter_overflows s (h : MessageHeader) : Prop :=
  overflow_checks = true ∧ message_number h = u32_max ∧
  skipped_keys s !! (ratchet_public_key h, message_number h) = None ∧
  remote_ratchet_key s = Some (ratchet_public_key h) ∧ is_Some (receiving_chain_key s) ∧
  message_number h - recv_message_number s ≤ MAX_SKIP.

#[export] Instance counter_overflows_dec s h : Decision (counter_overflows s h).
Proof. unfold counter_overflows. apply _. Defined.

(** The last number in a build with overflow checks, when it does not get so far. *)
Lemma decrypt_last_number_tame h c ad s w :
  wf s → wf_header h → overflow_checks = true → message_number h = u32_max →
  ¬ counter_overflows s h → tame (MAX_SKIP + MAX_SKIP) s (decrypt h c ad (s, w)).
Proof.
  intros Hw [Hpl Hn] Ho Hmax Hno. pose proof (wf_rn s Hw) as Hr.
  assert (∀ e, tame (A:=bytes) (MAX_SKIP + MAX_SKIP) s (Throw e, (s, w))) as H0.
  { intros. split_and!; [done..|]. unfold MAX_SKIP; simpl; lia. }
  destruct (skipped_keys s !! (ratchet_public_key h, message_number h)) as [mk|] eqn:Hc.
  { by apply (decrypt_cached_tame _ _ _ _ _ mk). }
  destruct (decide (remote_ratchet_key s = Some (ratchet_public_key h))) as [Hrem|Hrem].
  - destruct (Z.lt_ge_cases MAX_SKIP (message_number h - recv_message_number s));
      [by rewrite decrypt_far|].
    destruct (receiving_chain_key s) eqn:Hck.
    { exfalso. apply Hno. unfold counter_overflows. rewrite Hck. by split_and!. }
    rewrite decrypt_no_chain; try done. rewrite Hmax. unfold is_u32, in_width, u32_max in *. lia.
  - rewrite decrypt_new_key_jump; [|done..|rewrite Hmax; unfold MAX_SKIP, u32_max; lia].
    apply (tame_bind _ _ MAX_SKIP MAX_SKIP); [done|by apply skip_current_tame|].
    intros [] s1 w1 _ Hw1. apply (tame_bind _ _ 0 MAX_SKIP); [done|by apply dh_ratchet_tame|].
    intros [] s2 w2 _ Hw2. split_and!; [done..|]. unfold MAX_SKIP; simpl; lia.
Qed.

(** C10: [decrypt] on arbitrary input. Whatever header and ciphertext arrive, [decrypt]
    keeps every counter in its [u32] range and caches at most [2 * MAX_SKIP] further
    message keys, whether it returns a plaintext, an error or panics; and it panics
    exactly on [counter_overflows]: in a build with overflow checks, on number
    [u32::MAX] of the current chain, within the window and not cached, which a forged
    packet may claim as well. *)
Theorem decrypt_total_on_any_input h c ad s w :
  wf s → wf_header h →
  let '(o, (s', _)) := decrypt h c ad (s, w) in
  wf s' ∧ Z.of_nat (size (skipped_keys s')) ≤ Z.of_nat (size (skipped_keys s)) + 2 * MAX_SKIP ∧
  (o = Panic ↔ counter_overflows s h).
Proof.
  intros Hw Hh. replace (2 * MAX_SKIP) with (MAX_SKIP + MAX_SKIP) by lia.
  assert (¬ counter_overflows s h → tame (MAX_SKIP + MAX_SKIP) s (decrypt h c ad (s, w))) as Htame.
  { intros Hno. destruct (decide (overflow_checks = true)) as [Ho|Ho%not_true_is_false];
      [|by apply decrypt_tame; [..|left]].
    destruct (decide (message_number h = u32_max)); [by apply decrypt_last_number_tame|].
    by apply decrypt_tame; [..|right]. }
  destruct (decide (counter_overflows s h)) as [Hc|Hno].
  - pose proof Hc as (Ho & Hn & Hnone & Hrem & [ck Hck] & Hskip). pose proof (wf_rn s Hw).
    rewrite (decrypt_counter_end h c ad s w ck) by done.
    assert (recv_message_number s ≤ message_number h) as Hle
      by (rewrite Hn; unfold is_u32, in_width, u32_max in *; lia).
    pose proof (wf_cache_until (ratchet_public_key h) ck (message_number h) s Hw (proj2 Hh) Hle) as Hw'.
    pose proof (size_cache_until (ratchet_public_key h) ck (message_number h) s Hle Hskip).
    destruct Hw', s. split_and!; [by split|simpl in *; unfold MAX_SKIP in *; lia|done].
  - specialize (Htame Hno). destruct (decrypt h c ad (s, w)) as [o [s' w']].
    destruct Htame as (Hp & Hw' & Hs). split_and!; [done..|]. split; [done|by intros].
Qed.

(** A number of the current chain is consumed by one delivery: when
    [recv_chain] describes the session and a packet with number [n] outside [C]
    has been accepted, every later packet with that number, whatever its
    ciphertext, is refused and leaves the session as it is. *)
Theorem replay_rejected h c ad s w pk ck0 C m s1 w1 :
  recv_chain s pk ck0 C → ratchet_public_key h = pk → 0 ≤ message_number h →
  is_u32 (message_number h + 1) →
  message_number h - recv_message_number s ≤ MAX_SKIP →
  decrypt h c ad (s, w) = (Ret m, (s1, w1)) →
  ∀ c' ad' w', decrypt h c' ad' (s1, w') =
    (Throw (RatchetError (bstr "message number already consumed")), (s1, w')).
Proof.
  intros Hrc Hpk Hn Hu Hskip Hd c' ad' w'.
  destruct (decide (message_number h ∈ C)) as [HC|HC].
  { by rewrite (deliver_replay h c ad s w pk ck0 C) in Hd. }
  destruct (deliver_chain h c ad s w pk ck0 C Hrc Hpk Hn Hu HC Hskip) as (s2 & Hd2 & Hrc2 & _).
  rewrite Hd in Hd2. injection Hd2 as _ -> _.
  apply (deliver_replay h c' ad' s2 w' pk ck0 ({[message_number h]} ∪ C)); [done..|set_solver].
Qed.

(** C24: the [MAX_SKIP] limit on every path. A packet whose key is not cached and that
    asks for more than [MAX_SKIP] numbers to be skipped is refused. On the current
    chain, and when the old chain would have to be closed over such a gap, the session
    is left as it is. When the number on a new chain is too large, the call does what
    closing the old chain and the DH ratchet step do, and then refuses: it ends in an
    error, and no key of the new chain is stored. *)
Theorem skip_limit_enforced h c ad s w :
  wf s → wf_header h →
  skipped_keys s !! (ratchet_public_key h, message_number h) = None →
  let pk := ratchet_public_key h in
  let too_many := RatchetError (bstr "too many skipped messages") in
  (remote_ratchet_key s = Some pk →
     MAX_SKIP < message_number h - recv_message_number s →
     decrypt h c ad (s, w) = (Throw too_many, (s, w))) ∧
  (remote_ratchet_key s ≠ Some pk → is_Some (remote_ratchet_key s) → is_Some (receiving_chain_key s) →
     MAX_SKIP < h_previous_chain_length h - recv_message_number s →
     decrypt h c ad (s, w) = (Throw too_many, (s, w))) ∧
  (remote_ratchet_key s ≠ Some pk → MAX_SKIP < message_number h →
     decrypt h c ad (s, w) =
       (skip_message_keys_for_current_chain (h_previous_chain_length h);;
        dh_ratchet_step pk;; throw too_many) (s, w) ∧
     ∃ e s' w', decrypt h c ad (s, w) = (Throw e, (s', w')) ∧
       ∀ j, skipped_keys s' !! (pk, j) = skipped_keys s !! (pk, j)).
Proof.
  intros Hw [Hpl Hn] Hnone pk too_many. pose proof (wf_rn s Hw) as Hr. split_and!.
  - intros Hrem Hskip. by apply decrypt_far.
  - intros Hrem [rem Hr'] [ck Hck] Hskip. apply decrypt_unclosed; [done..|].
    rewrite (skip_current_run _ s w ck rem); [|done..|unfold MAX_SKIP in *; lia].
    by rewrite (proj2 (Z.ltb_lt _ _)).
  - intros Hrem Hm. pose proof (decrypt_new_key_jump h c ad s w Hnone Hrem Hn Hm) as He.
    split; [exact He|]. rewrite He. mred. fold pk.
    pose proof (skip_current_tame (h_previous_chain_length h) s w Hw Hpl) as Ht.
    pose proof (λ j, skip_current_other (h_previous_chain_length h) s w pk j Hr Hpl Hrem) as Hk.
    destruct (skip_message_keys_for_current_chain _ (s, w)) as [o [s1 w1]]; simpl in Hk.
    destruct Ht as (Ho & Hw1 & _). simpl in Ho, Hw1.
    destruct o as [[]|e|]; [|by exists e, s1, w1|done].
    pose proof (dh_ratchet_tame pk s1 w1 Hw1) as (Ho2 & _).
    pose proof (dh_ratchet_writes pk s1 w1) as (_ & _ & Hsk).
    destruct (dh_ratchet_step pk (s1, w1)) as [o2 [s2 w2]]. simpl in Ho2, Hsk. rewrite <-Hsk in Hk.
    destruct o2 as [[]|e|]; [by eexists _, s2, w2|by exists e, s2, w2|done].
Qed.

(** C21: decryption is not transactional. Let the header name a new ratchet key, with
    any number and previous length within the window, and let the ciphertext fail
    authentication: it is the sealing of no message under the message key that the
    header calls for, whatever its length. Then [decrypt] reports [DecryptionFailed]
    after the session has taken the DH ratchet step: the remote key, the root key, both
    chains, the counters and our key pair are those of the forged header. *)
Theorem failed_decrypt_commits_ratchet h c ad s w opk osk d1 kp d2 w' :
  wf s → wf_header h →
  skipped_keys s !! (ratchet_public_key h, message_number h) = None →
  remote_ratchet_key s ≠ Some (ratchet_public_key h) →
  h_previous_chain_length h - recv_message_number s ≤ MAX_SKIP → message_number h ≤ MAX_SKIP →
  sending_keypair s = Some (opk, osk) →
  scalarmult osk (ratchet_public_key h) = Some d1 → box_gen_keypair w = (kp, w') →
  scalarmult kp.2 (ratchet_public_key h) = Some d2 →
  let '(root1, chain) := rk_step (root_key s) d1 in
  no_sealing (mk_at chain (message_number h)) ad c →
  ∃ s', decrypt h c ad (s, w) = (Throw DecryptionFailed, (s', w')) ∧
        remote_ratchet_key s' = Some (ratchet_public_key h) ∧
        root_key s' = (rk_step root1 d2).1 ∧
        sending_chain_key s' = Some (rk_step root1 d2).2 ∧
        receiving_chain_key s' = Some (chain_at chain (S (Z.to_nat (message_number h)))) ∧
        sending_keypair s' = Some kp ∧ send_message_number s' = 0 ∧
        recv_message_number s' = message_number h + 1 ∧
        previous_chain_length s' = send_message_number s.
Proof.
  intros Hw [Hpl Hn] Hnone Hrem Hwin Hm Hkp Hd1 Hg Hd2. destruct (rk_step (root_key s) d1) as [r1 rck] eqn:Hr1.
  intros Hc. destruct (close_chain (h_previous_chain_length h) s w (wf_rn s Hw) Hpl Hwin)
    as (s1 & Hclose & Hroot & Hkp1 & Hsn).
  eexists. split.
  - rewrite (decrypt_new_key h c ad s w s1 opk osk d1 kp d2 w');
      [|done|done|done|by rewrite Hkp1|done|done|done| |by destruct Hn].
    + rewrite Hroot, Hr1. cbn [snd]. by rewrite (proj2 (decrypt_with_key_refuses _ _ _) Hc).
    + unfold is_u32, in_width, MAX_SKIP in *. lia.
  - unfold ratcheted. rewrite Hroot, Hr1, Hsn. destruct (rk_step r1 d2) as [r2 c2]. simpl.
    by rewrite Z.sub_0_r.
Qed.
End robustness.

(** ** The sending counter *)
Section sending.
Context {BP : BuildProfile} {SO : Sodium} {HA : Hashes}.
Context {L : SodiumLaws SO} {LA : AeadLaws SO} {LH : HashLaws HA}.

Lemma genuine_batch_headers pk ck0 ad from ps ms :
  genuine_batch pk ck0 ad from ps ms →
  (λ p, ratchet_public_key p.1) <$> ps = replicate (length ms) pk ∧
  (λ p, message_number p.1) <$> ps = seqZ from (blen ms) ∧
  (λ p, blen p.2) <$> ps = (λ m, blen m + 40) <$> ms.
Proof.
  unfold genuine_batch. revert from ps. induction ms as [|m ms IH]; intros from ps Hg.
  { rewrite zip_with_nil_r in Hg. by apply Forall2_nil_inv_r in Hg as ->. }
  rewrite blen_cons, seqZ_cons in Hg |- * by (pose proof (blen_nonneg ms); lia). simpl in Hg.
  replace (Z.pred (1 + blen ms)) with (blen ms) in * by lia.
  apply Forall2_cons_inv_r in Hg as ([h c] & ps' & (Hpk & Hn & nc & Hc) & Hg & ->).
  destruct (IH _ _ Hg) as (IH1 & IH2 & IH3). csimpl in *.
  rewrite IH1, IH2, IH3. split_and!; [by f_equal..|].
  f_equal. rewrite Hc, blen_app, array_blen, aead_seal_length. unfold MACBYTES. lia.
Qed.

(** On a sending chain, a batch that does not exhaust the counter is
    encrypted without an error; the headers carry the chain's public key and
    consecutive numbers from the counter on, each ciphertext is 40 bytes longer
    than its plaintext, and the counter ends after the batch. *)
Theorem encrypt_batch_headers s w pk ck0 ms ad :
  ready w → send_chain s pk ck0 → send_message_number s + blen ms < 2 ^ 32 →
  Forall (λ m, blen m + 40 ≤ isize_max) ms →
  ∃ ps s' w', encrypt_all ms ad (s, w) = (Ret ps, (s', w')) ∧
    send_message_number s' = send_message_number s + blen ms ∧
    (λ p, ratchet_public_key p.1) <$> ps = replicate (length ms) pk ∧
    (λ p, message_number p.1) <$> ps = seqZ (send_message_number s) (blen ms) ∧
    (λ p, blen p.2) <$> ps = (λ m, blen m + 40) <$> ms.
Proof.
  intros Hw Hsc Hlen Hms.
  destruct (encrypt_all_chain s w pk ck0 ms ad Hw Hsc Hlen Hms)
    as (ps & s' & w' & He & Hg & _ & Hn & _).
  exists ps, s', w'. split_and!; [done..| | |]; by eapply genuine_batch_headers.
Qed.

(** The last number of a chain. With [send_message_number] at [u32::MAX],
    [encrypt] panics in a build with overflow checks, after the sending chain key
    has advanced; without them it sends number [u32::MAX] and the counter wraps to
    zero, so that the next header repeats number 0. *)
Theorem encrypt_counter_exhausted s w ck pk sk m ad :
  ready w → sending_chain_key s = Some ck → sending_keypair s = Some (pk, sk) →
  send_message_number s = u32_max → blen m + 40 ≤ isize_max →
  if overflow_checks
  then encrypt m ad (s, w) = (Panic, (set_sending_chain_key (Some (next_ck ck)) s, w))
  else ∃ h c s' w', encrypt m ad (s, w) = (Ret (h, c), (s', w')) ∧
         message_number h = u32_max ∧ send_message_number s' = 0.
Proof.
  intros Hw Hck Hkp Hn Hm. pose proof (blen_nonneg m). unfold encrypt. mred. rewrite Hck. mred.
  rewrite kdf_ck_total. mred. rewrite Hkp. mred.
  assert (send_message_number s +u32 1 = if overflow_checks then Panic (E:=CryptoError) else Ret 0)
    as -> by (by rewrite Hn).
  destruct overflow_checks; mred; [done|].
  destruct (AesGcm.encrypt_spec (msg_key ck) m (Some ad) w Hw) as (n & -> & _). mred.
  unfold isize_max in *.
  rewrite add_w_ok by (rewrite array_blen, aead_seal_length; unfold in_width, MACBYTES; lia).
  mred. rewrite with_capacity_ok
    by (rewrite array_blen, aead_seal_length; unfold isize_max, MACBYTES; lia).
  mred. eexists _, _, _, _. split; [done|]. by destruct s.
Qed.
End sending.

(** ** The serialised form *)
Section serialised.
Context {SO : Sodium} {SJ : SerdeJson RatchetStateSer} {HI : HashMapIter (key32 * Z) key32}.
Context {L : SodiumLaws SO} {LS : SerdeLaws RatchetStateSer SJ}.
Context {LI : HashMapIterLaws (key32 * Z) key32 HI}.

(** Reinserting the entries, in any order, rebuilds the map. *)
Lemma reinsert_entries (m : gmap (key32 * Z) key32) l :
  l ≡ₚ map_to_list m →
  foldl (λ m '(rpk, mn, mk), <[(rpk, mn) := mk]> m) (∅ : gmap (key32 * Z) key32)
    ((λ '((rpk, mn), mk), (rpk, mn, mk)) <$> l) = m.
Proof.
  intros Hl. rewrite <-(list_to_map_to_list m), <-(list_to_map_proper (reverse l)).
  2: { rewrite reverse_Permutation, Hl. apply NoDup_fst_map_to_list. }
  2: { by rewrite reverse_Permutation. }
  clear Hl. induction l as [|[[rpk mn] mk] l IH] using rev_ind; [done|].
  rewrite fmap_app, foldl_app, IH, reverse_snoc. done.
Qed.

Lemma state_restored s : ∃ b, to_bytes s = Ret b ∧ from_bytes b = Ret s.
Proof.
  unfold to_bytes. set (ser := mkRatchetStateSer _ _ _ _ _ _ _ _ _ _).
  destruct (to_vec_ok ser) as [v Hv]. exists v. rewrite Hv. split; [done|].
  unfold from_bytes. rewrite (json_roundtrip ser v Hv). mred. unfold ser. cbn -[hash_iter].
  rewrite (reinsert_entries (skipped_keys s)) by apply hash_iter_perm.
  destruct s as [rk sck rck [[pk sk]|] rem sn rn pl cache]; cbn.
  - rewrite !from_slice_array. mred. destruct rem; cbn; by rewrite ?from_slice_array.
  - mred. destruct rem; cbn; by rewrite ?from_slice_array.
Qed.

(** C20: a session survives being stored: [to_bytes] succeeds and [from_bytes]
    gives back the same session, skipped message keys included, whatever order
    the hash map is iterated in. *)
Theorem ratchet_state_roundtrip s :
  ∃ b, to_bytes s = Ret b ∧ from_bytes b = Ret s.
Proof. apply state_restored. Qed.
End serialised.

(** Dropping a session overwrites the root key and every chain key that is
    set, and leaves no skipped message key. *)
Theorem drop_zeroizes s :
  let s' := RatchetState_drop s in
  root_key s' = zero32 ∧
  (∀ k, sending_chain_key s' = Some k → k = zero32) ∧
  (∀ k, receiving_chain_key s' = Some k → k = zero32) ∧ skipped_keys s' = ∅.
Proof.
  destruct s as [rk sck rck kp rem sn rn pl sk]. simpl.
  split_and!; [done| | |done]; intros k Hk; [destruct sck|destruct rck]; naive_solver.
Qed.

(** ** Witnesses: the theorems at concrete sessions *)

Definition wit_ss : key32 := array_repeat 32 Byte.x42.
Definition wit_pk : key32 := array_repeat 32 Byte.x07.
Definition wit_ck : key32 := array_repeat 32 Byte.x09.
Definition wit_ad : bytes := bstr "session-id".
Definition wit_batch : list bytes := [bstr "message 0"; bstr "message 1"; bstr "message 2"].
(** A session that sends and receives on chains of [wit_pk]. *)
Definition wit_state (sn rn : Z) : RatchetState :=
  mkRatchetState wit_ss (Some wit_ck) (Some wit_ck) (Some (wit_pk, wit_pk)) (Some wit_pk) sn rn 0 ∅.
Definition wit_header (n : Z) : MessageHeader := mkMessageHeader wit_pk 0 n.

Lemma wf_wit_state sn rn : is_u32 sn → is_u32 rn → wf (wit_state sn rn).
Proof. intros. split; [done..| |]; [by vm_compute|apply map_Forall_empty]. Qed.
Lemma recv_chain_wit : @recv_chain toy_hashes (wit_state 0 0) wit_pk wit_ck ∅.
Proof.
  split; [done|done|by vm_compute| |by intros].
  intros k. rewrite bool_decide_false; [done|]. simpl. lia.
Qed.
Lemma send_chain_wit : @send_chain toy_hashes (wit_state 0 0) wit_pk wit_ck.
Proof. split; [by exists wit_pk|done|by vm_compute]. Qed.
Lemma wit_batch_fits : Forall (λ m : bytes, blen m + 40 ≤ isize_max) wit_batch.
Proof. repeat constructor; by vm_compute. Qed.

Lemma session_delivers_any_order_witness :
  @ready toy_sodium 5 ∧
  ∃ alice alice' ps w1 w2,
    @init_sender toy_sodium toy_hashes wit_ss wit_pk 5 = (Ret alice, w1) ∧
    @encrypt_all debug_profile toy_sodium toy_hashes wit_batch wit_ad (alice, w1)
      = (Ret ps, (alice', w2)) ∧ length ps = length wit_batch ∧
    ∀ items wb, items ≡ₚ zip ps wit_batch →
      ∃ bob' wb', @decrypt_all debug_profile toy_sodium toy_hashes items.*1 wit_ad
                    (init_receiver wit_ss (wit_pk, wit_pk), wb) = (Ret items.*2, (bob', wb')).
Proof.
  split; [done|].
  exact (@session_delivers_any_order debug_profile toy_sodium toy_hashes _ _ _ _ wit_ss wit_pk
           wit_pk wit_batch wit_ad 5 eq_refl eq_refl ltac:(by vm_compute) wit_batch_fits).
Defined.

(** The last number of a chain, forged by anyone: the session is within the window. *)
Definition wit_end : RatchetState := wit_state 0 (u32_max - 3).
Lemma decrypt_total_on_any_input_witness :
  (@decrypt debug_profile toy_sodium toy_hashes (wit_header u32_max) (bstr "garbage") wit_ad (wit_end, 5)).1
    = Panic ∧
  let '(o, (s', _)) := @decrypt debug_profile toy_sodium toy_hashes (wit_header u32_max)
                         (bstr "garbage") wit_ad (wit_end, 5) in
  wf s' ∧ Z.of_nat (size (skipped_keys s')) ≤ Z.of_nat (size (skipped_keys wit_end)) + 2 * MAX_SKIP ∧
  (o = Panic ↔ @counter_overflows debug_profile wit_end (wit_header u32_max)).
Proof.
  assert (wf wit_end) as Hw by (by apply wf_wit_state).
  assert (wf_header (wit_header u32_max)) as Hh by (by split).
  split; [by vm_compute|].
  exact (@decrypt_total_on_any_input debug_profile toy_sodium toy_hashes _ _ _ (wit_header u32_max)
           (bstr "garbage") wit_ad wit_end 5 Hw Hh).
Defined.

Lemma replay_rejected_witness :
  let c := array_list (array_repeat 24 Byte.x01)
           ++ @aead_seal toy_sodium (bstr "hi") (Some wit_ad) (array_repeat 24 Byte.x01)
                (@mk_at toy_hashes wit_ck 2) in
  ∃ s1 w1, @decrypt debug_profile toy_sodium toy_hashes (wit_header 2) c wit_ad (wit_state 0 0, 5)
           = (Ret (bstr "hi"), (s1, w1)) ∧
  @decrypt debug_profile toy_sodium toy_hashes (wit_header 2) c wit_ad (s1, 6)
  = (Throw (RatchetError (bstr "message number already consumed")), (s1, 6)).
Proof.
  intros c.
  assert (0 ≤ message_number (wit_header 2)) as H1 by done.
  assert (is_u32 (message_number (wit_header 2) + 1)) as H2 by done.
  assert (message_number (wit_header 2) - recv_message_number (wit_state 0 0) ≤ MAX_SKIP)
    as H3 by done.
  destruct (@deliver_genuine debug_profile toy_sodium toy_hashes _ _ _ (wit_header 2) c wit_ad
              (wit_state 0 0) 5 wit_pk wit_ck ∅ 2 (bstr "hi") recv_chain_wit)
    as (s1 & Hd & _); [by split_and!; [..|eexists]|done|done|set_solver|done|].
  exists s1, 5. split; [exact Hd|].
  exact (@replay_rejected debug_profile toy_sodium toy_hashes _ _ _ (wit_header 2) c wit_ad
           (wit_state 0 0) 5 wit_pk wit_ck ∅ (bstr "hi") s1 5 recv_chain_wit eq_refl
           H1 H2 H3 Hd c wit_ad 6).
Defined.

(** Number 1001 of a new chain, and a jump on the current chain. *)
Lemma skip_limit_enforced_witness :
  @decrypt debug_profile toy_sodium toy_hashes (wit_header 1001) [] wit_ad (wit_state 0 0, 5)
    = (Throw (RatchetError (bstr "too many skipped messages")), (wit_state 0 0, 5)) ∧
  ∃ e s' w', @decrypt debug_profile toy_sodium toy_hashes (mkMessageHeader wit_ck 0 1001) [] wit_ad
               (wit_state 0 0, 5) = (Throw e, (s', w')) ∧
    ∀ j, skipped_keys s' !! (wit_ck, j) = skipped_keys (wit_state 0 0) !! (wit_ck, j).
Proof.
  assert (wf (wit_state 0 0)) as H1 by (by apply wf_wit_state).
  assert (wf_header (wit_header 1001)) as H2 by (by split).
  assert (wf_header (mkMessageHeader wit_ck 0 1001)) as H2' by (by split).
  assert (MAX_SKIP < message_number (wit_header 1001) - recv_message_number (wit_state 0 0))
    as H3 by done.
  assert (remote_ratchet_key (wit_state 0 0) ≠ Some wit_ck) as H4 by (by intros [=]).
  split.
  - exact (proj1 (@skip_limit_enforced debug_profile toy_sodium toy_hashes _ _ (wit_header 1001) [] wit_ad
             (wit_state 0 0) 5 H1 H2 eq_refl) eq_refl H3).
  - exact (proj2 (proj2 (proj2 (@skip_limit_enforced debug_profile toy_sodium toy_hashes _ _
             (mkMessageHeader wit_ck 0 1001) [] wit_ad (wit_state 0 0) 5 H1 H2' eq_refl)) H4 H3)).
Defined.

(** A packet of number 2 on a new chain that announces one more message of the old
    chain; its ciphertext has a nonce and a tag, and the cipher refuses it. *)
Definition wit_forged_header : MessageHeader := mkMessageHeader wit_ck 5 2.
Definition wit_forged : bytes := replicate 50 Byte.x33.
Lemma failed_decrypt_commits_ratchet_witness :
  ∃ s', @decrypt debug_profile toy_sodium toy_hashes wit_forged_header wit_forged wit_ad (wit_state 3 4, 5)
        = (Throw DecryptionFailed, (s', 6)) ∧
        remote_ratchet_key s' = Some wit_ck ∧ root_key s' ≠ wit_ss ∧ send_message_number s' = 0.
Proof.
  assert (wf (wit_state 3 4)) as Hw by (by apply wf_wit_state).
  assert (wf_header wit_forged_header) as Hh by (by split).
  assert (remote_ratchet_key (wit_state 3 4) ≠ Some (ratchet_public_key wit_forged_header)) as H1.
  { by intros [=]. }
  assert (h_previous_chain_length wit_forged_header - recv_message_number (wit_state 3 4) ≤ MAX_SKIP) as H2 by done.
  assert (message_number wit_forged_header ≤ MAX_SKIP) as H3 by done.
  pose proof (@failed_decrypt_commits_ratchet debug_profile toy_sodium toy_hashes _ _ _ wit_forged_header
    wit_forged wit_ad (wit_state 3 4) 5 wit_pk wit_pk (toy_sum wit_pk wit_ck)
    (toy_fresh 32 5, toy_fresh 32 5) (toy_sum (toy_fresh 32 5) wit_ck) 6 Hw Hh eq_refl H1 H2 H3 eq_refl
    eq_refl eq_refl eq_refl) as H.
  destruct (@rk_step toy_hashes (root_key (wit_state 3 4)) (toy_sum wit_pk wit_ck)) as [r1 ck] eqn:Hr1.
  assert (r1 = (@rk_step toy_hashes (root_key (wit_state 3 4)) (toy_sum wit_pk wit_ck)).1) as Hr by (by rewrite Hr1).
  assert (ck = (@rk_step toy_hashes (root_key (wit_state 3 4)) (toy_sum wit_pk wit_ck)).2) as Hck by (by rewrite Hr1).
  destruct H as (s' & Hd & Hrem & Hroot & _ & _ & _ & Hsn & _).
  { apply decrypt_with_key_refuses. rewrite Hck. by vm_compute. }
  exists s'. split_and!; [exact Hd|exact Hrem| |exact Hsn].
  rewrite Hroot, Hr. intros He%(f_equal array_list). revert He. by vm_compute.
Defined.

Lemma encrypt_batch_headers_witness :
  ∃ ps s' w', @encrypt_all debug_profile toy_sodium toy_hashes wit_batch wit_ad (wit_state 0 0, 5)
              = (Ret ps, (s', w')) ∧ send_message_number s' = 0 + 3 ∧
    (λ p, ratchet_public_key p.1) <$> ps = replicate 3 wit_pk ∧
    (λ p, message_number p.1) <$> ps = seqZ 0 3 ∧
    (λ p, blen p.2) <$> ps = (λ m, blen m + 40) <$> wit_batch.
Proof.
  assert (send_message_number (wit_state 0 0) + blen wit_batch < 2 ^ 32) as H by done.
  exact (@encrypt_batch_headers debug_profile toy_sodium toy_hashes _ _ _ (wit_state 0 0) 5 wit_pk
           wit_ck wit_batch wit_ad eq_refl send_chain_wit H wit_batch_fits).
Defined.

Lemma encrypt_counter_exhausted_witness :
  ∃ h c s' w', @encrypt release_profile toy_sodium toy_hashes (bstr "hi") wit_ad
                 (wit_state u32_max 0, 5) = (Ret (h, c), (s', w')) ∧
               message_number h = u32_max ∧ send_message_number s' = 0.
Proof.
  assert (blen (bstr "hi") + 40 ≤ isize_max) as H by done.
  exact (@encrypt_counter_exhausted release_profile toy_sodium toy_hashes _ _ _ (wit_state u32_max 0)
           5 wit_ck wit_pk wit_pk (bstr "hi") wit_ad eq_refl eq_refl eq_refl eq_refl H).
Defined.

#[export] Instance RatchetStateSer_eq_decision : EqDecision RatchetStateSer.
Proof. solve_decision. Defined.
#[export] Program Instance RatchetStateSer_countable : Countable RatchetStateSer :=
  inj_countable'
    (λ s, ((ser_root_key s, ser_sending_chain_key s, ser_receiving_chain_key s,
            ser_sending_public_key s, ser_sending_secret_key s),
           (ser_remote_ratchet_key s, ser_send_message_number s, ser_recv_message_number s,
            ser_previous_chain_length s, ser_skipped_keys s)))
    (λ '((a, b, c, d, e), (f, g, h, i, j)), mkRatchetStateSer a b c d e f g h i j) _.
Next Obligation. by intros []. Qed.
Definition map_iter : HashMapIter (key32 * Z) key32 := {| hash_iter := map_to_list |}.
Lemma map_iter_laws : HashMapIterLaws (key32 * Z) key32 map_iter.
Proof. by split. Qed.

Lemma ratchet_state_roundtrip_witness :
  let s := set_skipped_keys {[ (wit_ck, 3) := wit_ss; (wit_ck, 5) := wit_pk ]} (wit_state 3 4) in
  ∃ b, @to_bytes (countable_serde RatchetStateSer) map_iter s = Ret b ∧
       @from_bytes toy_sodium (countable_serde RatchetStateSer) b = Ret s.
Proof.
  intros s.
  exact (@ratchet_state_roundtrip toy_sodium (countable_serde RatchetStateSer) map_iter _
           (countable_serde_laws _) map_iter_laws s).
Defined.
