(* ===== verification/SignalSpec.v ===== *)
(** * The Double Ratchet specification as a reference, and its refinement

    The doc comment of [decrypt] cites the Signal specification. [signal_decrypt]
    is its [RatchetDecrypt], written as the published pseudo-code has it: the
    state variables are the fields of [RatchetState] (DHs, DHr, RK, CKs, CKr, Ns,
    Nr, PN, MKSKIPPED in that text), the loop of [SkipMessageKeys] is iterated one
    key at a time, and an exception discards every change, so that a failure is
    [None]. Its CONCAT(AD, header) is a parameter, as in the text, which leaves the
    encoding of the header to the application. The methods of the source take the
    associated data from the caller and do not add the header: the theorem is about
    [decrypt] on CONCAT(AD, header), and [RatchetStale] shows what is lost because the
    callers pass AD alone. *)

From S2P Require Import Prelude RustStr Errors Sodium Instances AesGcm DoubleRatchet.
From S2P Require Import RatchetFacts RatchetChain RatchetProps.
Local Open Scope rust_scope.

Section spec.
Context {SO : Sodium} {HA : Hashes}.
Implicit Types (s : RatchetState) (w : rng).

(** The body of the loop: derive one message key, store it, advance. *)
Definition skip_one s : RatchetState :=
  match receiving_chain_key s, remote_ratchet_key s with
  | Some ck, Some pk =>
      set_recv_message_number (recv_message_number s + 1)
        (set_skipped_keys (<[(pk, recv_message_number s) := msg_key ck]> (skipped_keys s))
          (set_receiving_chain_key (Some (next_ck ck)) s))
  | _, _ => s
  end.
(** [while Nr < until]. *)
Definition signal_skip (until : Z) s : option RatchetState :=
  if recv_message_number s + MAX_SKIP <? until then None
  else Some (Nat.iter (Z.to_nat (until - recv_message_number s)) skip_one s).

Definition signal_dh_ratchet (their_pk : key32) s w : option (RatchetState * rng) :=
  '(_, our_sk) ← sending_keypair s;
  d1 ← scalarmult our_sk their_pk;
  let '(rk1, ckr) := rk_step (root_key s) d1 in
  let '((new_pk, new_sk), w) := box_gen_keypair w in
  d2 ← scalarmult new_sk their_pk;
  let '(rk2, cks) := rk_step rk1 d2 in
  Some ({|
    root_key := rk2;
    sending_chain_key := Some cks;
    receiving_chain_key := Some ckr;
    sending_keypair := Some (new_pk, new_sk);
    remote_ratchet_key := Some their_pk;
    send_message_number := 0;
    recv_message_number := 0;
    previous_chain_length := send_message_number s;
    skipped_keys := skipped_keys s;
  |}, w).

Definition value {E A} (o : outcome E A) : option A :=
  match o with Ret a => Some a | _ => None end.

(** [concat] is CONCAT. *)
Definition signal_decrypt (concat : bytes → MessageHeader → bytes)
  (h : MessageHeader) (c ad : bytes) s w : option (bytes * RatchetState * rng) :=
  let id := (ratchet_public_key h, message_number h) in
  match skipped_keys s !! id with
  | Some mk =>
      m ← value (decrypt_with_key mk c (concat ad h));
      Some (m, set_skipped_keys (delete id (skipped_keys s)) s, w)
  | None =>
      '(s, w) ← (if bool_decide (remote_ratchet_key s = Some (ratchet_public_key h))
                 then Some (s, w)
                 else s ← signal_skip (h_previous_chain_length h) s;
                      signal_dh_ratchet (ratchet_public_key h) s w);
      s ← signal_skip (message_number h) s;
      ck ← receiving_chain_key s;
      m ← value (decrypt_with_key (msg_key ck) c (concat ad h));
      Some (m, set_recv_message_number (recv_message_number s + 1)
                 (set_receiving_chain_key (Some (next_ck ck)) s), w)
  end.
End spec.

(** ** The two sides compared *)

(** The result of the code as the specification sees it. *)
Definition committed {W A} (r : outcome CryptoError A * (RatchetState * W)) :
  option (A * RatchetState * W) :=
  match r with (Ret a, (s, w)) => Some (a, s, w) | _ => None end.

(** Where the code and the text agree: a number of the current chain is not
    behind the counter (the code refuses those outright), and a session that has
    no receiving chain is not asked to skip more than [MAX_SKIP] of it (the code
    ignores the length then). *)
Definition conforming (s : RatchetState) (h : MessageHeader) : Prop :=
  skipped_keys s !! (ratchet_public_key h, message_number h) = None →
  if bool_decide (remote_ratchet_key s = Some (ratchet_public_key h))
  then recv_message_number s ≤ message_number h
  else receiving_chain_key s = None ∨ remote_ratchet_key s = None →
       h_previous_chain_length h ≤ recv_message_number s + MAX_SKIP.

Section refinement.
Context {BP : BuildProfile} {SO : Sodium} {HA : Hashes}.
Context {L : SodiumLaws SO} {LA : AeadLaws SO} {LH : HashLaws HA}.
Implicit Types (s : RatchetState) (w : rng).

Lemma iter_skip_one count s ck pk :
  receiving_chain_key s = Some ck → remote_ratchet_key s = Some pk →
  Nat.iter count skip_one s =
    set_recv_message_number (recv_message_number s + Z.of_nat count)
      (set_receiving_chain_key (Some (chain_at ck count))
        (set_skipped_keys (skip_map pk (recv_message_number s) count ck (skipped_keys s)) s)).
Proof.
  revert s ck. induction count as [|count IH]; intros s ck Hck Hpk.
  { destruct s; simpl in *; subst. by rewrite Z.add_0_r. }
  rewrite Nat.iter_succ_r, (IH (skip_one s) (next_ck ck)).
  - unfold skip_one. rewrite Hck, Hpk. destruct s; simpl in *; subst.
    rewrite chain_at_next. f_equal. lia.
  - unfold skip_one. rewrite Hck, Hpk. by destruct s.
  - unfold skip_one. rewrite Hck, Hpk. by destruct s.
Qed.
Lemma iter_skip_none count s :
  receiving_chain_key s = None ∨ remote_ratchet_key s = None → Nat.iter count skip_one s = s.
Proof.
  intros H. induction count as [|count IH]; [done|]. rewrite Nat.iter_succ, IH.
  unfold skip_one. by destruct (receiving_chain_key s), (remote_ratchet_key s); destruct H.
Qed.

(** Closing the old chain. *)
Lemma skip_current_signal until s w :
  wf s → is_u32 until →
  (receiving_chain_key s = None ∨ remote_ratchet_key s = None →
     until ≤ recv_message_number s + MAX_SKIP) →
  (∃ s', skip_message_keys_for_current_chain until (s, w) = (Ret tt, (s', w)) ∧
         signal_skip until s = Some s') ∨
  (∃ e, skip_message_keys_for_current_chain until (s, w) = (Throw e, (s, w)) ∧
        signal_skip until s = None).
Proof.
  intros Hw Hu Hc. unfold signal_skip.
  destruct (receiving_chain_key s) as [ck|] eqn:Hck;
    [destruct (remote_ratchet_key s) as [pk|] eqn:Hpk|].
  2-3: left; exists s; rewrite skip_current_none, iter_skip_none by auto;
    rewrite (proj2 (Z.ltb_ge _ _)) by auto; done.
  destruct (Z.lt_ge_cases until (recv_message_number s)) as [Hlt|Hge].
  { left. exists s. rewrite skip_current_behind by done.
    rewrite (proj2 (Z.ltb_ge _ _)) by (unfold MAX_SKIP; lia).
    by replace (Z.to_nat (until - recv_message_number s)) with O by lia. }
  rewrite (skip_current_run _ _ _ ck pk) by (try done; apply Hw).
  destruct (Z.ltb_spec MAX_SKIP (until - recv_message_number s)).
  - right. eexists. split; [done|]. by rewrite (proj2 (Z.ltb_lt _ _)) by lia.
  - left. eexists. split; [done|]. rewrite (proj2 (Z.ltb_ge _ _)) by lia.
    rewrite (iter_skip_one _ s ck pk) by done. unfold cache_until.
    rewrite Z2Nat.id by lia. do 2 f_equal. lia.
Qed.

(** The DH ratchet step. *)
Lemma dh_ratchet_signal pk s w :
  committed (dh_ratchet_step pk (s, w)) =
    '(s', w') ← signal_dh_ratchet pk s w; Some (tt, s', w').
Proof.
  unfold dh_ratchet_step, signal_dh_ratchet. destruct s as [rk sck rck kp rem sn rn pl sk].
  mred. cbn. destruct kp as [[opk osk]|]; mred; [|done]. rewrite dh_exchange_eq. cbn.
  destruct (scalarmult osk pk) as [d1|]; mred; [|done]. cbn. rewrite kdf_rk_total.
  destruct (rk_step rk d1) as [r1 c1]. mred. cbn.
  destruct (box_gen_keypair w) as [[npk nsk] w']. mred. rewrite dh_exchange_eq. cbn.
  destruct (scalarmult nsk pk) as [d2|]; mred; [|done]. cbn. rewrite kdf_rk_total.
  by destruct (rk_step r1 d2) as [r2 c2].
Qed.

Lemma committed_bind {A B} (m : M (RatchetState * rng) CryptoError A)
  (f : A → M (RatchetState * rng) CryptoError B) s w :
  committed ((m ≫= f) (s, w)) = '(a, s', w') ← committed (m (s, w)); committed (f a (s', w')).
Proof. unfold mbind at 1, M_bind. by destruct (m (s, w)) as [[a|e|] [s' w']]. Qed.
Lemma committed_lift {A} (o : outcome CryptoError A) s w :
  committed (lift o (s, w)) = a ← value o; Some (a, s, w).
Proof. by destruct o. Qed.

(** From the target chain on. *)
Lemma receive_signal h c ad s w :
  wf s → is_u32 (message_number h) → is_u32 (message_number h + 1) →
  remote_ratchet_key s = Some (ratchet_public_key h) →
  recv_message_number s ≤ message_number h →
  committed ((skip_message_keys (message_number h);;
    self ← gets fst;
    ck ← lift (ok_or (receiving_chain_key self) (RatchetError (bstr "no receiving chain key")));
    '(new_ck, msg_key) ← lift (kdf_ck ck);
    on_self (set_receiving_chain_key (Some new_ck));;
    n ← lift (message_number h +u32 1);
    on_self (set_recv_message_number n);;
    lift (decrypt_with_key msg_key c ad)) (s, w)) =
  s ← signal_skip (message_number h) s;
  ck ← receiving_chain_key s;
  m ← value (decrypt_with_key (msg_key ck) c ad);
  Some (m, set_recv_message_number (recv_message_number s + 1)
             (set_receiving_chain_key (Some (next_ck ck)) s), w).
Proof.
  intros Hw Hn Hn1 Hpk Hle. rewrite committed_bind. unfold signal_skip.
  destruct (receiving_chain_key s) as [ck|] eqn:Hck.
  - rewrite (skip_run _ s w ck _ Hck Hpk) by (try done; apply Hw).
    destruct (Z.ltb_spec MAX_SKIP (message_number h - recv_message_number s)).
    + by rewrite (proj2 (Z.ltb_lt _ _)) by lia.
    + rewrite (proj2 (Z.ltb_ge _ _)) by lia. rewrite (iter_skip_one _ s ck _ Hck Hpk).
      unfold cache_until. destruct s as [rk sck rck kp rem sn rn pl sk]; simpl in *.
      cbn. mred. cbn. rewrite kdf_ck_total. mred. rewrite add_w_ok by done. mred. cbn.
      rewrite Z2Nat.id by lia. replace (rn + (message_number h - rn)) with (message_number h) by lia.
      by destruct (decrypt_with_key _ _ _).
  - rewrite iter_skip_none by auto.
    assert (∃ e, skip_message_keys (message_number h) (s, w) = (Throw e, (s, w))) as [e ->].
    { unfold skip_message_keys. mred. rewrite (proj2 (Z.ltb_ge _ _)) by done.
      rewrite sub_w_ok by (destruct Hw; unfold is_u32, in_width in *; lia). mred.
      rewrite Hpk, Hck. mred. case_match; by eexists. }
    cbn. case_match; cbn; by rewrite ?Hck.
Qed.

(** The DH ratchet step leaves the session on the new chain. *)
Lemma signal_dh_ratchet_chain pk s w s' w' :
  wf s → signal_dh_ratchet pk s w = Some (s', w') →
  wf s' ∧ remote_ratchet_key s' = Some pk ∧ recv_message_number s' = 0.
Proof.
  intros [Hsn Hrn Hpl Hsk] H. unfold signal_dh_ratchet in H.
  destruct (sending_keypair s) as [[opk osk]|]; [|done]. cbn in H.
  destruct (scalarmult osk pk) as [d1|]; [|done]. cbn in H.
  destruct (rk_step (root_key s) d1) as [r1 c1].
  destruct (box_gen_keypair w) as [[npk nsk] w1].
  destruct (scalarmult nsk pk) as [d2|]; [|done]. cbn in H.
  destruct (rk_step r1 d2) as [r2 c2]. injection H as <- <-. by split; [split|].
Qed.

Lemma decrypt_signal_eq concat h c ad s w :
  wf s → wf_header h → is_u32 (message_number h + 1) → conforming s h →
  committed (decrypt h c (concat ad h) (s, w)) = signal_decrypt concat h c ad s w.
Proof.
  intros Hw [Hpl Hn] Hn1 Hc. unfold signal_decrypt, conforming in *.
  destruct (skipped_keys s !! _) as [mk|] eqn:Hsk.
  { rewrite (decrypt_cached _ _ _ _ _ mk Hsk). by destruct (decrypt_with_key _ _ _). }
  specialize (Hc eq_refl). unfold decrypt.
  mstep (eq_refl (gets fst (E:=CryptoError) (s, w))). cbn [fst]. rewrite Hsk, from_slice_array.
  mstep (eq_refl (lift (E:=CryptoError) (ok_or (Some (ratchet_public_key h))
           (RatchetError (bstr "invalid ratchet key in header"))) (s, w))).
  assert ((match remote_ratchet_key s with
           | Some remote => negb (bool_decide (remote = ratchet_public_key h))
           | None => true end) = negb (bool_decide (remote_ratchet_key s = Some (ratchet_public_key h))))
    as ->.
  { destruct (remote_ratchet_key s); [|done]. do 2 case_bool_decide; naive_solver. }
  rewrite committed_bind. case_bool_decide as Hrem; cbn [negb].
  - cbn. by rewrite receive_signal.
  - rewrite committed_bind.
    destruct (skip_current_signal (h_previous_chain_length h) s w Hw Hpl Hc)
      as [(s1 & Hrun & Hs)|(e & Hrun & Hs)]; rewrite Hrun, Hs; [|done]. cbn.
    pose proof (skip_current_tame _ s w Hw Hpl) as (_ & Hw1 & _). rewrite Hrun in Hw1. simpl in Hw1.
    rewrite dh_ratchet_signal.
    destruct (signal_dh_ratchet (ratchet_public_key h) s1 w) as [[s2 w2]|] eqn:Hd; [|done]. cbn.
    destruct (signal_dh_ratchet_chain _ _ _ _ _ Hw1 Hd) as (Hw2 & Hrem2 & Hr2).
    rewrite receive_signal; try done. rewrite Hr2. by destruct Hn.
Qed.
End refinement.

(** ** Properties *)
Section signal_properties.
Context {BP : BuildProfile} {SO : Sodium} {HA : Hashes}.
Context {L : SodiumLaws SO} {LA : AeadLaws SO} {LH : HashLaws HA}.

(** C2: [decrypt] implements the specification it cites, once the header is part of the
    associated data. For every CONCAT, and every session, header and ciphertext on
    which the code and the text agree what to skip ([conforming]), [decrypt] with the
    associated data CONCAT(AD, header) returns a plaintext exactly when the
    specification does, and then the plaintext, the new session, with its chains,
    counters and stored keys, and the generator are those of the specification. *)
Theorem decrypt_implements_signal concat h c ad s w m s' w' :
  wf s → wf_header h → is_u32 (message_number h + 1) → conforming s h →
  decrypt h c (concat ad h) (s, w) = (Ret m, (s', w')) ↔
  signal_decrypt concat h c ad s w = Some (m, s', w').
Proof.
  intros Hw Hh Hn Hc. rewrite <-(decrypt_signal_eq concat h c ad s w) by done.
  destruct (decrypt h c (concat ad h) (s, w)) as [[a|e|] [s1 w1]]; simpl; naive_solver.
Qed.
End signal_properties.

(** The first message that a session sees of a chain, sent as its third. *)
Definition wit_new_header : MessageHeader := mkMessageHeader wit_ck 3 2.
(** A CONCAT that writes the header after the associated data. *)
Definition wit_concat (ad : bytes) (h : MessageHeader) : bytes :=
  ad ++ array_list (ratchet_public_key h) ++ u32_to_le_bytes (h_previous_chain_length h)
  ++ u32_to_le_bytes (message_number h).
Definition wit_new_ct : bytes :=
  array_list (array_repeat 24 Byte.x01)
  ++ @aead_seal toy_sodium (bstr "hi") (Some (wit_concat wit_ad wit_new_header)) (array_repeat 24 Byte.x01)
       (@mk_at toy_hashes (@rk_step toy_hashes wit_ss (toy_sum wit_pk wit_ck)).2 2).
Lemma wit_new_accepted :
  ∃ s' w', @signal_decrypt toy_sodium toy_hashes wit_concat wit_new_header wit_new_ct wit_ad
             (wit_state 0 0) 5 = Some (bstr "hi", s', w').
Proof.
  assert ((λ x, x.1.1) <$> @signal_decrypt toy_sodium toy_hashes wit_concat wit_new_header wit_new_ct wit_ad
            (wit_state 0 0) 5 = Some (bstr "hi")) as He by (by vm_compute).
  apply fmap_Some in He as ([[m s'] w'] & -> & ->). by exists s', w'.
Qed.
(** The specification refuses the same ciphertext under a header with another length. *)
Example signal_authenticates_header :
  @signal_decrypt toy_sodium toy_hashes wit_concat (mkMessageHeader wit_ck 0 2) wit_new_ct wit_ad
    (wit_state 0 0) 5 = None.
Proof. by vm_compute. Qed.
Lemma decrypt_implements_signal_witness :
  ∃ s' w', @decrypt debug_profile toy_sodium toy_hashes wit_new_header wit_new_ct
             (wit_concat wit_ad wit_new_header) (wit_state 0 0, 5) = (Ret (bstr "hi"), (s', w')).
Proof.
  assert (wf (wit_state 0 0)) as Hw by (by apply wf_wit_state).
  assert (wf_header wit_new_header) as Hh by (by split).
  assert (is_u32 (message_number wit_new_header + 1)) as Hn by done.
  assert (conforming (wit_state 0 0) wit_new_header) as Hc by (by intros _).
  destruct wit_new_accepted as (s' & w' & Hs). exists s', w'.
  exact (proj2 (@decrypt_implements_signal debug_profile toy_sodium toy_hashes _ _ wit_concat wit_new_header
           wit_new_ct wit_ad (wit_state 0 0) 5 (bstr "hi") s' w' Hw Hh Hn Hc) Hs).
Defined.
