(* ===== verification/RatchetFrame.v ===== *)
(** * What the methods of a session change, and what they leave alone

    [leaves R m]: whatever [m] returns, the session it leaves is related by [R]
    to the one it started from. The rules compose such facts along the monadic
    code; they need no hypothesis about the session. *)

From S2P Require Import Prelude RustStr Errors Sodium Instances AesGcm DoubleRatchet.
From S2P Require Import RatchetFacts RatchetChain RatchetProps.
Local Open Scope rust_scope.

Section leaves.
Context {W : Type}.
Implicit Types (R : RatchetState → RatchetState → Prop).

Definition leaves {A} R (m : M (RatchetState * W) CryptoError A) : Prop :=
  ∀ s w, R s (m (s, w)).2.1.

Lemma leaves_bind {A B} R `{!Transitive R} (m : M (RatchetState * W) CryptoError A)
  (f : A → M (RatchetState * W) CryptoError B) :
  leaves R m → (∀ a, leaves R (f a)) → leaves R (m ≫= f).
Proof.
  intros Hm Hf s w. unfold mbind, M_bind. specialize (Hm s w).
  destruct (m (s, w)) as [[a|e|] [s' w']]; simpl in *; [|done..].
  etrans; [exact Hm|apply Hf].
Qed.
(** Two halves with relations of their own. *)
Lemma leaves_seq {A B} R1 R2 R (m : M (RatchetState * W) CryptoError A)
  (f : A → M (RatchetState * W) CryptoError B) :
  (∀ s s', R1 s s' → R s s') → (∀ s s' s'', R1 s s' → R2 s' s'' → R s s'') →
  leaves R1 m → (∀ a, leaves R2 (f a)) → leaves R (m ≫= f).
Proof.
  intros H1 HR Hm Hf s w. unfold mbind, M_bind. specialize (Hm s w).
  destruct (m (s, w)) as [[a|e|] [s' w']]; simpl in *; [|by apply H1..].
  eapply HR; [exact Hm|apply Hf].
Qed.
Lemma leaves_gets {A} R `{!Reflexive R} (g : RatchetState * W → A) : leaves R (gets g).
Proof. intros s w. done. Qed.
Lemma leaves_ret {A} R `{!Reflexive R} (a : A) : leaves R (mret a).
Proof. intros s w. done. Qed.
Lemma leaves_lift {A} R `{!Reflexive R} (o : outcome CryptoError A) : leaves R (lift o).
Proof. intros s w. done. Qed.
Lemma leaves_throw {A} R `{!Reflexive R} e : leaves R (throw (A:=A) e).
Proof. intros s w. done. Qed.
Lemma leaves_on_self R (f : RatchetState → RatchetState) : (∀ s, R s (f s)) → leaves R (on_self f).
Proof. intros H s w. apply H. Qed.
Lemma leaves_on_world {A} R `{!Reflexive R} (m : M W CryptoError A) : leaves R (on_world m).
Proof. intros s w. unfold on_world. simpl. by destruct (m w). Qed.
Lemma leaves_weaken {A} R R' (m : M (RatchetState * W) CryptoError A) :
  (∀ s s', R s s' → R' s s') → leaves R m → leaves R' m.
Proof. intros H Hm s w. apply H, Hm. Qed.
End leaves.

(** One rule per construct of the methods' code. *)
Ltac leaves_step :=
  match goal with
  | |- leaves _ (_ ≫= _) => apply leaves_bind; [apply _| |intros]
  | |- leaves _ (gets _) => apply leaves_gets; apply _
  | |- leaves _ (mret _) => apply leaves_ret; apply _
  | |- leaves _ (lift _) => apply leaves_lift; apply _
  | |- leaves _ (throw _) => apply leaves_throw; apply _
  | |- leaves _ (on_world _) => apply leaves_on_world; apply _
  | |- leaves _ (if ?b then _ else _) => destruct b
  | |- leaves _ (match ?x with _ => _ end) => destruct x
  end.

Section frames.
Context {BP : BuildProfile} {SO : Sodium} {HA : Hashes}.

(** Receiving leaves the sending side alone. *)
Definition keeps_sending (s s' : RatchetState) : Prop :=
  root_key s' = root_key s ∧ sending_chain_key s' = sending_chain_key s ∧
  sending_keypair s' = sending_keypair s ∧ send_message_number s' = send_message_number s ∧
  previous_chain_length s' = previous_chain_length s ∧
  remote_ratchet_key s' = remote_ratchet_key s.
#[export] Instance keeps_sending_preorder : PreOrder keeps_sending.
Proof. split; unfold keeps_sending; [done|]. intros ? ? ?. naive_solver congruence. Qed.

Lemma skip_loop_keeps pk n count ck :
  leaves (W:=rng) keeps_sending (skip_loop pk n count ck).
Proof.
  revert n ck. induction count as [|count IH]; intros n ck; simpl; repeat leaves_step.
  - apply leaves_on_self. by intros [].
  - apply IH.
Qed.
Lemma skip_current_keeps until : leaves keeps_sending (skip_message_keys_for_current_chain until).
Proof.
  unfold skip_message_keys_for_current_chain.
  repeat first [leaves_step | apply skip_loop_keeps | apply leaves_on_self; by intros []].
Qed.
Lemma skip_keeps until : leaves keeps_sending (skip_message_keys until).
Proof.
  unfold skip_message_keys.
  repeat first [leaves_step | apply skip_loop_keeps | apply leaves_on_self; by intros []].
Qed.

(** A DH ratchet step, complete or not, restarts the sending counter. *)
Definition counters (s s' : RatchetState) : Prop :=
  (send_message_number s' = send_message_number s ∧
   previous_chain_length s' = previous_chain_length s) ∨
  (send_message_number s' = 0 ∧ previous_chain_length s' = send_message_number s).

Lemma dh_ratchet_counters pk : leaves counters (dh_ratchet_step pk).
Proof.
  intros s w. right. unfold dh_ratchet_step. destruct s as [rk sck rck kp rem sn rn pl sk].
  mred. cbn. destruct kp as [[opk osk]|]; mred; [|done].
  destruct (dh_exchange osk pk) as [d1|e|]; mred; [|done..].
  destruct (kdf_rk rk d1) as [[r1 c1]|e|]; mred; [|done..]. cbn.
  destruct (box_gen_keypair w) as [[npk nsk] w']. mred.
  destruct (dh_exchange nsk pk) as [d2|e|]; mred; [|done..].
  cbn. destruct (kdf_rk r1 d2) as [[r2 c2]|e|]; mred; done.
Qed.
Lemma keeps_sending_counters s s' : keeps_sending s s' → counters s s'.
Proof. intros (_ & _ & _ & ? & ? & _). by left. Qed.

Lemma counters_after s s' s'' : counters s s' → keeps_sending s' s'' → counters s s''.
Proof.
  unfold counters, keeps_sending. intros [[]|[]] (_ & _ & _ & ? & ? & _); [left|right]; split; congruence.
Qed.
Lemma counters_before s s' s'' : keeps_sending s s' → counters s' s'' → counters s s''.
Proof.
  unfold counters, keeps_sending. intros (_ & _ & _ & ? & ? & _) [[]|[]]; [left|right]; split; congruence.
Qed.

(** After [decrypt] the sending counters are those from before, or those of a
    DH ratchet step. *)
Lemma decrypt_counters h c ad : leaves counters (decrypt h c ad).
Proof.
  pose proof keeps_sending_counters. pose proof counters_before.
  unfold decrypt. apply (leaves_seq keeps_sending counters); [done..|leaves_step|intros self].
  destruct (skipped_keys self !! _).
  { apply (leaves_weaken keeps_sending); [done|].
    repeat first [leaves_step | apply leaves_on_self; by intros []]. }
  apply (leaves_seq keeps_sending counters); [done..|leaves_step|intros their_pk].
  apply (leaves_seq counters keeps_sending); [done|exact counters_after| |intros _].
  - case_match.
    + apply (leaves_seq keeps_sending counters); [done..|apply skip_current_keeps|intros _].
      apply dh_ratchet_counters.
    + apply (leaves_weaken keeps_sending); [done|leaves_step].
  - repeat first [leaves_step | apply skip_keeps | apply leaves_on_self; by intros []].
Qed.

(** A session that can send is never left without a sending chain. *)
Definition still_sends (s s' : RatchetState) : Prop :=
  sending_chain_key s ≠ None → sending_chain_key s' ≠ None.
#[export] Instance still_sends_preorder : PreOrder still_sends.
Proof. split; unfold still_sends; naive_solver. Qed.
Lemma keeps_sending_still s s' : keeps_sending s s' → still_sends s s'.
Proof. intros (_ & He & _). unfold still_sends. by rewrite He. Qed.

Lemma dh_ratchet_still pk : leaves still_sends (dh_ratchet_step pk).
Proof.
  unfold dh_ratchet_step.
  repeat first [leaves_step | apply leaves_on_self; intros []; unfold still_sends; naive_solver].
Qed.
Lemma dh_ratchet_opens pk s w s' w' :
  dh_ratchet_step pk (s, w) = (Ret tt, (s', w')) → sending_chain_key s' ≠ None.
Proof.
  assert (∀ A B (m : M (RatchetState * rng) CryptoError A) (f : A → M (RatchetState * rng) CryptoError B),
    (∀ a σ b σ', f a σ = (Ret b, σ') → sending_chain_key σ'.1 ≠ None) →
    ∀ σ b σ', (m ≫= f) σ = (Ret b, σ') → sending_chain_key σ'.1 ≠ None) as Htail.
  { intros A B m f Hf σ b σ' (a & σ1 & _ & H)%bind_inv. by eapply Hf. }
  assert (∀ σ b σ', dh_ratchet_step pk σ = (Ret b, σ') → sending_chain_key σ'.1 ≠ None) as H;
    [|intros Hd; by apply H in Hd].
  unfold dh_ratchet_step.
  do 6 (apply Htail; intros ?). case_match. do 2 (apply Htail; intros ?). case_match.
  do 3 (apply Htail; intros ?). case_match. do 3 (apply Htail; intros ?). case_match.
  apply Htail. intros _ [[] w0] [] σ' [= <-]. done.
Qed.

Lemma decrypt_still_sends h c ad : leaves still_sends (decrypt h c ad).
Proof.
  pose proof keeps_sending_still. unfold decrypt.
  leaves_step; [leaves_step|]. destruct (skipped_keys a !! _).
  { apply (leaves_weaken keeps_sending); [done|].
    repeat first [leaves_step | apply leaves_on_self; by intros []]. }
  leaves_step; [leaves_step|]. leaves_step.
  - case_match; [|leaves_step]. leaves_step; [|apply dh_ratchet_still].
    apply (leaves_weaken keeps_sending); [done|apply skip_current_keeps].
  - apply (leaves_weaken keeps_sending); [done|].
    repeat first [leaves_step | apply skip_keeps | apply leaves_on_self; by intros []].
Qed.
(** The responder can send once it has received something. *)
Lemma first_decrypt_opens h c ad ss kp w m s' w' :
  decrypt h c ad (init_receiver ss kp, w) = (Ret m, (s', w')) → sending_chain_key s' ≠ None.
Proof.
  intros H. unfold decrypt in H. apply bind_inv in H as (? & ? & [= <- <-] & H).
  cbn -[kdf_ck decrypt_with_key skip_message_keys dh_ratchet_step skip_message_keys_for_current_chain
        mbind] in H.
  apply bind_inv in H as (pk & [s1 w1] & H1 & H). injection H1 as _ <- <-.
  apply bind_inv in H as ([] & [s2 w2] & H1 & H).
  apply bind_inv in H1 as (? & [s3 w3] & _ & H1). apply dh_ratchet_opens in H1.
  match type of H with ?code _ = _ => assert (leaves keeps_sending code) as Hk end;
    [|specialize (Hk s2 w2); rewrite H in Hk; destruct Hk as (_ & Hk & _); simpl in Hk; by rewrite Hk].
  repeat first [leaves_step | apply skip_keeps | apply leaves_on_self; by intros []].
Qed.
End frames.
