(* ===== verification/RatchetNetwork.v ===== *)
(** * Two parties and a network: configurations and steps

    A configuration holds both sessions, the packets in flight to each side and those
    delivered to it. [step] lets a side encrypt, store its session and restore it;
    and lets the network deliver any packet in flight, in any order, lose it, or
    deliver a packet of the current chain again. *)

From S2P Require Import Prelude RustStr Errors Sodium Instances AesGcm DoubleRatchet.
From S2P Require Import RatchetFacts RatchetChain RatchetProps.
Local Open Scope rust_scope.

Inductive side := Alice | Bob.
#[export] Instance side_eq_decision : EqDecision side.
Proof. solve_decision. Defined.
Definition other (b : side) : side := match b with Alice => Bob | Bob => Alice end.

(** A packet in flight, with the plaintext that its sender encrypted. *)
Record packet := mkPacket {
  p_header : MessageHeader;
  p_ct : bytes;
  p_msg : bytes;
}.
Definition p_id (p : packet) : key32 * Z :=
  (ratchet_public_key (p_header p), message_number (p_header p)).

(** A value per side. *)
Definition upd {A} (f : side → A) (b : side) (x : A) : side → A :=
  λ b', if decide (b' = b) then x else f b'.
Lemma upd_eq {A} (f : side → A) b x : upd f b x b = x.
Proof. unfold upd. by rewrite decide_True. Qed.
Lemma upd_other {A} (f : side → A) b x : upd f b x (other b) = f (other b).
Proof. unfold upd. by destruct b. Qed.
Lemma upd_same {A} (f : side → A) b b' : upd f b (f b) b' = f b'.
Proof. unfold upd. by case_decide; subst. Qed.
Lemma other_other b : other (other b) = b.
Proof. by destruct b. Qed.
Lemma upd_other_eq {A} (f : side → A) b x : upd f (other b) x b = f b.
Proof. unfold upd. by destruct b. Qed.

(** Is a packet inside the window that [MAX_SKIP] leaves? *)
Definition in_window (s : RatchetState) (h : MessageHeader) : bool :=
  match skipped_keys s !! (ratchet_public_key h, message_number h) with
  | Some _ => true
  | None =>
      if bool_decide (remote_ratchet_key s = Some (ratchet_public_key h))
      then message_number h - recv_message_number s <=? MAX_SKIP
      else (match receiving_chain_key s with
            | None => true
            | Some _ => h_previous_chain_length h - recv_message_number s <=? MAX_SKIP
            end) && (message_number h <=? MAX_SKIP)
  end.

Section session.
Context {BP : BuildProfile} {SO : Sodium} {HA : Hashes} {LK : KeyLaws SO}.
Context {SJ : SerdeJson RatchetStateSer} {HI : HashMapIter (key32 * Z) key32}.
Variable ad : bytes.

(** [st] the sessions, [fl] the packets in flight to each side and [seen] those
    delivered to it, [wd] the generator, [used] the ratchet keys drawn so far. *)
Record config := mkConfig {
  st : side → RatchetState;
  fl : side → list packet;
  seen : side → list packet;
  wd : rng;
  used : gset key32;
}.

(** The ratchet public key of a session, if it has one. *)
Definition own_key (s : RatchetState) : gset key32 :=
  match sending_keypair s with Some (pk, _) => {[pk]} | None => ∅ end.

(** The ratchet public key that the next DH ratchet step would generate has
    not been used in this session. *)
Definition next_key_fresh (c : config) : Prop := (box_gen_keypair (wd c)).1.1 ∉ used c.

(** The receiving chain of a session is that of the packet. *)
Definition on_current_chain (s : RatchetState) (p : packet) : bool :=
  bool_decide (remote_ratchet_key s = Some (ratchet_public_key (p_header p))).

(** A side encrypts; the network delivers a packet of the window, offers one that
    is too far ahead (it stays in flight: it may come again), loses one, or delivers
    one once more; a side stores its session and restores it. *)
Inductive step (c : config) : config → Prop :=
| step_send b m h ct s' w' :
    is_u32 (send_message_number (st c b) + 1) → blen m + 40 ≤ isize_max →
    encrypt m ad (st c b, wd c) = (Ret (h, ct), (s', w')) →
    step c (mkConfig (upd (st c) b s')
              (upd (fl c) (other b) (mkPacket h ct m :: fl c (other b))) (seen c) w' (used c))
| step_deliver b l1 p l2 o s' w' :
    fl c b = l1 ++ p :: l2 → in_window (st c b) (p_header p) = true → next_key_fresh c →
    decrypt (p_header p) (p_ct p) ad (st c b, wd c) = (o, (s', w')) →
    step c (mkConfig (upd (st c) b s') (upd (fl c) b (l1 ++ l2))
              (upd (seen c) b (p :: seen c b)) w' (own_key s' ∪ used c))
| step_refuse b p o s' w' :
    p ∈ fl c b → in_window (st c b) (p_header p) = false → next_key_fresh c →
    decrypt (p_header p) (p_ct p) ad (st c b, wd c) = (o, (s', w')) →
    step c (mkConfig (upd (st c) b s') (fl c) (seen c) w' (own_key s' ∪ used c))
| step_lose b l1 p l2 :
    fl c b = l1 ++ p :: l2 →
    step c (mkConfig (st c) (upd (fl c) b (l1 ++ l2)) (seen c) (wd c) (used c))
| step_replay b p o s' w' :
    p ∈ seen c b → on_current_chain (st c b) p = true →
    decrypt (p_header p) (p_ct p) ad (st c b, wd c) = (o, (s', w')) →
    step c (mkConfig (upd (st c) b s') (fl c) (seen c) w' (own_key s' ∪ used c))
| step_restart b v s' :
    to_bytes (st c b) = Ret v → from_bytes v = Ret s' →
    step c (mkConfig (upd (st c) b s') (fl c) (seen c) (wd c) (used c)).

(** The sessions right after the handshake. *)
Inductive start : config → Prop :=
| start_intro ss bpk bsk alice w w' :
    ready w → box_pair bpk bsk → init_sender ss bpk w = (Ret alice, w') →
    start (mkConfig
             (λ b, match b with Alice => alice | Bob => init_receiver ss (bpk, bsk) end)
             (λ _, []) (λ _, []) w' ({[bpk; (box_gen_keypair w).1.1]})).

Inductive reachable : config → Prop :=
| reachable_start c : start c → reachable c
| reachable_step c c' : reachable c → step c c' → reachable c'.
End session.
