(* ===== verification/RatchetReceive.v ===== *)
(** * One side of a session as a receiver of packets

    [rx_ok] is the receiver's state, [pkt_ok] a packet that it can still read and
    [consumed] one that it has read. The lemmas say what [decrypt] does with a packet
    of the receiving chain, with the first packet of a new chain ([opened]), and with a
    packet outside the window, and what becomes of the others. *)

From S2P Require Import Prelude RustStr Errors Sodium Instances AesGcm DoubleRatchet.
From S2P Require Import RatchetFacts RatchetChain RatchetProps RatchetNetwork.
Local Open Scope rust_scope.

Section receiving.
Context {BP : BuildProfile} {SO : Sodium} {HA : Hashes}.
Context {L : SodiumLaws SO} {LA : AeadLaws SO} {LH : HashLaws HA}.
Variable ad : bytes.
Implicit Types (s : RatchetState) (w : rng) (p q : packet).

(** The chain a side receives on: its key, its first chain key and the numbers
    received; [total] is the number of messages its sender has sent on it. *)
Definition rx_ok (s : RatchetState) (k : option (key32 * key32 * gset Z)) (total : Z) : Prop :=
  match k with
  | None => receiving_chain_key s = None ∧
            ∀ pk j, remote_ratchet_key s = Some pk → skipped_keys s !! (pk, j) = None
  | Some (pk, ck0, C) => recv_chain s pk ck0 C ∧ recv_message_number s ≤ total
  end.
(** A packet that was delivered: its key is not kept, and if the current chain is
    its chain, its number is among those received. *)
Definition consumed (s : RatchetState) (k : option (key32 * key32 * gset Z)) (p : packet) : Prop :=
  skipped_keys s !! p_id p = None ∧
  (remote_ratchet_key s = Some (ratchet_public_key (p_header p)) →
   ∃ pk ck0 C, k = Some (pk, ck0, C) ∧ message_number (p_header p) ∈ C).
(** A packet whose key is in the cache, and one of the receiving chain. *)
Definition cached (s : RatchetState) (p : packet) : Prop :=
  ∃ mk n, skipped_keys s !! p_id p = Some mk ∧
          p_ct p = array_list n ++ aead_seal (p_msg p) (Some ad) n mk.
Definition on_chain (k : option (key32 * key32 * gset Z)) (total : Z) (p : packet) : Prop :=
  match k with
  | None => False
  | Some (pk, ck0, C) =>
      genuine pk ck0 ad (p_header p) (p_ct p) (message_number (p_header p)) (p_msg p) ∧
      (message_number (p_header p) ∉ C) ∧ 0 ≤ message_number (p_header p) < total
  end.
Definition pkt_ok s k total p : Prop := cached s p ∨ on_chain k total p.

(** The part of a session that receiving on a known chain leaves alone. *)
Record same_tx (s s' : RatchetState) : Prop := {
  tx_root : root_key s' = root_key s;
  tx_sck : sending_chain_key s' = sending_chain_key s;
  tx_kp : sending_keypair s' = sending_keypair s;
  tx_sn : send_message_number s' = send_message_number s;
  tx_pl : previous_chain_length s' = previous_chain_length s;
  tx_remote : remote_ratchet_key s' = remote_ratchet_key s;
}.

(** The same chain with one more number received. *)
Definition mark (n : Z) (pk' : key32) (k : option (key32 * key32 * gset Z)) :
  option (key32 * key32 * gset Z) :=
  match k with
  | Some (pk, ck0, C) => Some (pk, ck0, if bool_decide (pk' = pk) then {[n]} ∪ C else C)
  | None => None
  end.

Lemma on_chain_mark n pk' k total q :
  on_chain k total q → p_id q ≠ (pk', n) → on_chain (mark n pk' k) total q.
Proof.
  destruct k as [[[pk ck0] C]|]; [|done]. simpl. intros (Hg & HC & Ht) Hne.
  split_and!; [done| |lia..]. case_bool_decide as Hpk; [subst|done].
  intros [He%elem_of_singleton|]%elem_of_union; [|done]. apply Hne.
  destruct Hg as (Hg & _). unfold p_id. by rewrite Hg, He.
Qed.

(** A cached packet is delivered from the cache. *)
Lemma rx_deliver_cached s k total p w :
  rx_ok s k total → cached s p →
  ∃ s', decrypt (p_header p) (p_ct p) ad (s, w) = (Ret (p_msg p), (s', w)) ∧
    rx_ok s' (mark (message_number (p_header p)) (ratchet_public_key (p_header p)) k) total ∧
    same_tx s s' ∧ (∀ i, i ≠ p_id p → skipped_keys s' !! i = skipped_keys s !! i) ∧
    skipped_keys s' !! p_id p = None.
Proof.
  intros Hrx (mk & n & Hmk & Hct). eexists. split.
  { rewrite (decrypt_cached _ _ _ _ _ mk Hmk), Hct, decrypt_with_key_sealed. done. }
  split; [|split; [by destruct s|split; destruct s; simpl]].
  2: { intros i Hi. apply lookup_delete_ne. unfold p_id in Hi. congruence. }
  2: { apply lookup_delete_eq. }
  destruct k as [[[pk ck0] C]|]; simpl in *.
  2: { destruct Hrx as [? Hno], s; simpl in *. split; [done|]. intros pk j Hpk.
       rewrite lookup_delete_None. auto. }
  destruct Hrx as [Hrc Htot]. split; [|by destruct s]. case_bool_decide as Hpk.
  - rewrite Hpk. apply recv_chain_delete; [done|].
    pose proof (rc_cache _ _ _ _ Hrc (message_number (p_header p))) as Hc.
    unfold p_id in Hmk. rewrite Hpk, Hc in Hmk. case_bool_decide; naive_solver.
  - destruct Hrc as [? ? ? Hcache ?]; destruct s; split; simpl in *; try done.
    intros j. rewrite lookup_delete_ne by congruence. apply Hcache.
Qed.

(** A packet of the receiving chain that is not in the cache. *)
Lemma rx_deliver_chain s pk ck0 C total p w :
  rx_ok s (Some (pk, ck0, C)) total → on_chain (Some (pk, ck0, C)) total p →
  message_number (p_header p) - recv_message_number s ≤ MAX_SKIP → total < 2 ^ 32 →
  ∃ s', decrypt (p_header p) (p_ct p) ad (s, w) = (Ret (p_msg p), (s', w)) ∧
    rx_ok s' (Some (pk, ck0, {[message_number (p_header p)]} ∪ C)) total ∧ same_tx s s' ∧
    (∀ pk' j, pk' ≠ pk → skipped_keys s' !! (pk', j) = skipped_keys s !! (pk', j)).
Proof.
  intros [Hrc Hrt] (Hg & HC & Ht) Hwin Htot.
  destruct (deliver_genuine (p_header p) (p_ct p) ad s w pk ck0 C _ _ Hrc Hg)
    as (s' & Hd & Hrc' & Hfr & Hn'); [lia|unfold is_u32, in_width; lia|done|done|].
  exists s'. split; [done|]. split; [split; [done|lia]|]. destruct Hfr. split; [|done].
  split; try done. by rewrite (rc_remote _ _ _ _ Hrc), (rc_remote _ _ _ _ Hrc').
Qed.

(** A packet that is cached stays so, and one of the chain stays on it, when
    another number of the chain is received. *)
Lemma pkt_ok_chain s s' pk ck0 C n total q :
  recv_chain s pk ck0 C → rx_ok s' (Some (pk, ck0, {[n]} ∪ C)) total →
  (∀ pk' j, pk' ≠ pk → skipped_keys s' !! (pk', j) = skipped_keys s !! (pk', j)) →
  recv_message_number s ≤ recv_message_number s' →
  p_id q ≠ (pk, n) → pkt_ok s (Some (pk, ck0, C)) total q →
  pkt_ok s' (Some (pk, ck0, {[n]} ∪ C)) total q.
Proof.
  intros Hrc [Hrc' _] Hfr Hle Hid [(mk & nc & Hmk & Hct)|Hq].
  - left. exists mk, nc. split; [|done]. rewrite <-Hmk.
    destruct (p_id q) as [pk' j] eqn:Hpid. destruct (decide (pk' = pk)) as [->|]; [|by apply Hfr].
    rewrite (rc_cache _ _ _ _ Hrc' j), (rc_cache _ _ _ _ Hrc j).
    rewrite (rc_cache _ _ _ _ Hrc j) in Hmk.
    case_bool_decide as Hj; [|done]. destruct Hj as [Hj HjC].
    rewrite bool_decide_true; [done|]. split; [lia|]. assert (j ≠ n) by congruence. set_solver.
  - right. pose proof (on_chain_mark n pk (Some (pk, ck0, C)) total q Hq Hid) as Hm.
    simpl in Hm. by rewrite bool_decide_true in Hm.
Qed.

(** What is delivered is consumed, and stays so. *)
Lemma consumed_mark s s' k q n pk :
  same_tx s s' → skipped_keys s' !! p_id q = None → consumed s k q → consumed s' (mark n pk k) q.
Proof.
  intros Htx Hno [_ Hq]. split; [done|]. intros Hrem. rewrite (tx_remote _ _ Htx) in Hrem.
  destruct (Hq Hrem) as (pk' & ck0 & C & -> & HC). simpl. eexists _, _, _. split; [done|].
  case_bool_decide; set_solver.
Qed.
Lemma consumed_delivered s s' k total p :
  rx_ok s k total → pkt_ok s k total p → same_tx s s' → skipped_keys s' !! p_id p = None →
  consumed s' (mark (message_number (p_header p)) (ratchet_public_key (p_header p)) k) p.
Proof.
  intros Hrx Hp Htx Hno. split; [done|]. intros Hrem. rewrite (tx_remote _ _ Htx) in Hrem.
  destruct k as [[[pk ck0] C]|].
  - destruct Hrx as [Hrc _]. rewrite (rc_remote _ _ _ _ Hrc) in Hrem. injection Hrem as ->.
    simpl. rewrite bool_decide_true by done. eexists _, _, _. split; [done|set_solver].
  - destruct Hrx as [_ Hno'], Hp as [(mk & nc & Hmk & _)|[]].
    unfold p_id in Hmk. by rewrite Hno' in Hmk.
Qed.
(** The key of a consumed packet is not derived again. *)
Lemma consumed_chain s s' pk ck0 C C' q :
  recv_chain s pk ck0 C → recv_chain s' pk ck0 C' → C ⊆ C' →
  (∀ pk' j, pk' ≠ pk → skipped_keys s' !! (pk', j) = skipped_keys s !! (pk', j)) →
  consumed s (Some (pk, ck0, C)) q → skipped_keys s' !! p_id q = None.
Proof.
  intros Hrc Hrc' HCC Hfr [Hno Hq]. unfold p_id in *.
  destruct (decide (ratchet_public_key (p_header q) = pk)) as [Hpk|]; [|by rewrite Hfr].
  destruct Hq as (pk' & ck' & C2 & [= <- <- <-] & HC).
  { by rewrite (rc_remote _ _ _ _ Hrc), Hpk. }
  rewrite Hpk, (rc_cache _ _ _ _ Hrc'), bool_decide_false; [done|]. set_solver.
Qed.

Lemma rx_deliver s k total p w :
  rx_ok s k total → pkt_ok s k total p → in_window s (p_header p) = true → total < 2 ^ 32 →
  ∃ s', decrypt (p_header p) (p_ct p) ad (s, w) = (Ret (p_msg p), (s', w)) ∧
    same_tx s s' ∧
    rx_ok s' (mark (message_number (p_header p)) (ratchet_public_key (p_header p)) k) total ∧
    (∀ q, p_id q ≠ p_id p → pkt_ok s k total q →
       pkt_ok s' (mark (message_number (p_header p)) (ratchet_public_key (p_header p)) k) total q) ∧
    (∀ pk' j, skipped_keys s !! (pk', j) = None → remote_ratchet_key s ≠ Some pk' →
       skipped_keys s' !! (pk', j) = None) ∧
    skipped_keys s' !! p_id p = None ∧
    (∀ q, consumed s k q → skipped_keys s' !! p_id q = None).
Proof.
  intros Hrx Hp Hwin Htot. destruct (skipped_keys s !! p_id p) as [mk|] eqn:Hmk.
  - assert (cached s p) as Hc.
    { destruct Hp as [|Hp]; [done|]. destruct k as [[[pk ck0] C]|]; [|done].
      destruct Hp as ((Hpk & _ & nc & Hct) & HC & Ht). destruct Hrx as [Hrc _].
      exists mk, nc. split; [done|]. unfold p_id in Hmk.
      rewrite Hpk, (rc_cache _ _ _ _ Hrc) in Hmk. case_bool_decide; [|done]. by injection Hmk as <-. }
    destruct (rx_deliver_cached s k total p w Hrx Hc) as (s' & Hd & Hrx' & Htx & Hsk & Hnone).
    exists s'. split_and!; [done..| | |done|].
    + intros q Hne [(mk' & nc & Hmk' & Hct)|Hq].
      * left. exists mk', nc. by rewrite Hsk.
      * right. by apply on_chain_mark.
    + intros pk' j Hj _. destruct (decide ((pk', j) = p_id p)) as [->|]; [done|by rewrite Hsk].
    + intros q [Hq _]. destruct (decide (p_id q = p_id p)) as [->|]; [done|by rewrite Hsk].
  - destruct Hp as [(mk & nc & Hmk' & _)|Hp]; [congruence|].
    destruct k as [[[pk ck0] C]|]; [|done]. pose proof Hrx as [Hrc _].
    pose proof Hp as ((Hpk & _) & _).
    assert (message_number (p_header p) - recv_message_number s ≤ MAX_SKIP) as Hw.
    { unfold in_window in Hwin. unfold p_id in Hmk. rewrite Hmk in Hwin.
      rewrite bool_decide_true in Hwin by (by rewrite (rc_remote _ _ _ _ Hrc), Hpk).
      by apply Z.leb_le. }
    destruct (rx_deliver_chain s pk ck0 C total p w Hrx Hp Hw Htot) as (s' & Hd & Hrx' & Htx & Hfr).
    exists s'. unfold mark. rewrite bool_decide_true by done.
    split_and!; [done..| | | |].
    + intros q Hne Hq. apply (pkt_ok_chain s s'); try done.
      * destruct (deliver_genuine (p_header p) (p_ct p) ad s w pk ck0 C _ _ Hrc (proj1 Hp))
          as (s2 & Hd2 & _ & _ & Hn2); [apply Hp| |apply Hp|done|].
        { unfold is_u32, in_width. destruct Hp as (_ & _ & ?). lia. }
        rewrite Hd in Hd2. injection Hd2 as <-. lia.
      * intros He. apply Hne. by rewrite He, <-Hpk.
    + intros pk' j Hj Hne. rewrite Hfr; [done|]. intros ->. by rewrite (rc_remote _ _ _ _ Hrc) in Hne.
    + unfold p_id. destruct Hrx' as [Hrc' _]. rewrite Hpk, (rc_cache _ _ _ _ Hrc'), bool_decide_false;
        [done|set_solver].
    + intros q. apply (consumed_chain s s' pk ck0 C ({[message_number (p_header p)]} ∪ C)); try done.
      * by destruct Hrx'.
      * set_solver.
Qed.

(** A packet of the receiving chain outside the window is refused before any key
    is derived. *)
Lemma rx_refuse s k total p w :
  rx_ok s k total → pkt_ok s k total p → in_window s (p_header p) = false → total < 2 ^ 32 →
  decrypt (p_header p) (p_ct p) ad (s, w)
  = (Throw (RatchetError (bstr "too many skipped messages")), (s, w)).
Proof.
  intros Hrx Hp Hwin Htot. unfold in_window in Hwin.
  destruct (skipped_keys s !! _) as [mk|] eqn:Hmk; [done|].
  destruct Hp as [(mk & nc & Hmk' & _)|Hp]; [unfold p_id in Hmk'; congruence|].
  destruct k as [[[pk ck0] C]|]; [|done]. destruct Hp as ((Hpk & _) & _ & Hn).
  destruct Hrx as [[Hrem Hck Hnum _ _] _]. rewrite bool_decide_true in Hwin by congruence.
  apply Z.leb_gt in Hwin. apply decrypt_far; [done|congruence|done| |done].
  unfold is_u32, in_width. lia.
Qed.

(** A consumed packet of the current chain changes nothing when it comes again. *)
Lemma consumed_again s k total p w :
  rx_ok s k total → consumed s k p → on_current_chain s p = true →
  decrypt (p_header p) (p_ct p) ad (s, w) =
    (Throw (RatchetError (bstr "message number already consumed")), (s, w)).
Proof.
  intros Hrx [_ Hc] Hrem%bool_decide_eq_true. destruct (Hc Hrem) as (pk & ck0 & C & -> & HC).
  destruct Hrx as [Hrc _]. rewrite (rc_remote _ _ _ _ Hrc) in Hrem. injection Hrem as ->.
  by eapply deliver_replay.
Qed.

(** The ratchet key of a packet for a side is one that was drawn. *)
Lemma pkt_key_used s k total p (U : gset key32) :
  rx_ok s k total → pkt_ok s k total p →
  (∀ pk, remote_ratchet_key s = Some pk → pk ∈ U) →
  (∀ pk j, pk ∉ U → skipped_keys s !! (pk, j) = None) →
  ratchet_public_key (p_header p) ∈ U.
Proof.
  intros Hrx Hp HR Hclean. destruct Hp as [(mk & nc & Hmk & _)|Hp].
  - destruct (decide (ratchet_public_key (p_header p) ∈ U)) as [|Hn]; [done|].
    unfold p_id in Hmk. by rewrite Hclean in Hmk.
  - destruct k as [[[pk ck0] C]|]; [|done]. destruct Hrx as [Hrc _], Hp as ((-> & _) & _).
    apply HR, Hrc.
Qed.

(** Closing the receiving chain at its announced length: every packet still in
    flight on it is cached. *)
Lemma skip_close s k total w :
  rx_ok s k total → is_u32 total →
  (∀ ck, receiving_chain_key s = Some ck → total - recv_message_number s ≤ MAX_SKIP) →
  ∃ s', skip_message_keys_for_current_chain total (s, w) = (Ret tt, (s', w)) ∧
    same_tx s s' ∧ (∀ q, pkt_ok s k total q → cached s' q) ∧
    (∀ pk' j, skipped_keys s !! (pk', j) = None → remote_ratchet_key s ≠ Some pk' →
       skipped_keys s' !! (pk', j) = None) ∧
    (∀ q, consumed s k q → skipped_keys s' !! p_id q = None).
Proof.
  intros Hrx Htot Hskip. destruct k as [[[pk ck0] C]|]; simpl in Hrx.
  2: { exists s. rewrite skip_current_none by tauto. split_and!; [done..| |done|by intros q []]. by intros q [|]. }
  destruct Hrx as [[Hrem Hck Hnum Hcache HC] Hle]. eexists. split.
  { rewrite (skip_current_run total s w _ pk Hck Hrem Hnum Htot Hle).
    by rewrite (proj2 (Z.ltb_ge _ _)) by (by eapply Hskip). }
  destruct s as [rk sck rck kp rem sn rn pl sk]; simpl in *. subst rem.
  unfold is_u32, in_width in *.
  assert (cache_ok (skip_map pk rn (Z.to_nat (total - rn)) (chain_at ck0 (Z.to_nat rn)) sk)
            pk ck0 total C) as Hc' by (apply cache_ok_skip; [done|intros j Hj%HC; lia|lia]).
  split_and!; [done| | |].
  - intros q [(mk & nc & Hmk & Hct)|((Hpk & _ & nc & Hct) & HnC & Hn)].
    + exists mk, nc. split; [|done]. simpl in Hmk |- *. destruct (p_id q) as [pk' j].
      rewrite skip_map_lookup. case_bool_decide as Hj; [|done]. destruct Hj as [-> Hj].
      rewrite (Hcache j), bool_decide_false in Hmk; [done|lia].
    + exists (mk_at ck0 (message_number (p_header q))), nc. split; [|done]. unfold p_id; simpl.
      by rewrite Hpk, (Hc' _), bool_decide_true.
  - intros pk' j Hj Hne. simpl. rewrite skip_map_lookup, bool_decide_false; [done|].
    intros [-> _]. done.
  - intros q [Hno Hq]. unfold p_id in *. simpl in *.
    destruct (decide (ratchet_public_key (p_header q) = pk)) as [Hpk|].
    + destruct Hq as (? & ? & ? & [= <- <- <-] & Hin); [by rewrite Hpk|].
      rewrite Hpk, (Hc' _), bool_decide_false; [done|naive_solver].
    + rewrite skip_map_lookup, bool_decide_false; naive_solver.
Qed.

(** A session [s'] that has closed the chain [k] of [s] at [pl] and taken a DH
    ratchet step to the chain of [pk], of which the numbers [C] were received. *)
Record opened s (k : option (key32 * key32 * gset Z)) (pl : Z) (pk ck0 : key32) (C : gset Z)
  (d d2 : key32) (kp : key32 * key32) s' : Prop := {
  op_root : rk_step (rk_step (root_key s) d).1 d2 = (root_key s', default zero32 (sending_chain_key s'));
  op_sck : is_Some (sending_chain_key s');
  op_kp : sending_keypair s' = Some kp;
  op_sn : send_message_number s' = 0;
  op_pl : previous_chain_length s' = send_message_number s;
  op_rc : recv_chain s' pk ck0 C;
  op_closed q : pkt_ok s k pl q → cached s' q;
  op_frame pk' j : skipped_keys s !! (pk', j) = None → remote_ratchet_key s ≠ Some pk' → pk' ≠ pk →
    skipped_keys s' !! (pk', j) = None;
  op_cons q : consumed s k q → ratchet_public_key (p_header q) ≠ pk → skipped_keys s' !! p_id q = None;
}.

(** The DH ratchet step. *)
Lemma rx_open s k pl pk ck0 pkF skF d d2 kp w :
  rx_ok s k pl → is_u32 pl →
  (∀ ck, receiving_chain_key s = Some ck → pl - recv_message_number s ≤ MAX_SKIP) →
  sending_keypair s = Some (pkF, skF) → (rk_step (root_key s) d).2 = ck0 →
  remote_ratchet_key s ≠ Some pk → (∀ j, skipped_keys s !! (pk, j) = None) →
  ∃ s1, skip_message_keys_for_current_chain pl (s, w) = (Ret tt, (s1, w)) ∧
    sending_keypair s1 = Some (pkF, skF) ∧ root_key s1 = root_key s ∧
    opened s k pl pk ck0 ∅ d d2 kp (ratcheted pk d d2 kp s1) ∧
    recv_message_number (ratcheted pk d d2 kp s1) = 0.
Proof.
  intros Hrx Hpl Hskip Hkp Hck Hrem Hunseen.
  destruct (skip_close s k pl w Hrx Hpl Hskip) as (s1 & Hs1 & [Hroot _ Hkp1 Hsn _ _] & Hcl & Hfr & Hcons).
  exists s1. split_and!; [done|by rewrite Hkp1|done| |]; unfold ratcheted; rewrite Hroot;
    destruct (rk_step (root_key s) d) as [r1 ck1] eqn:Hr1; simpl in Hck; subst ck1;
    destruct (rk_step r1 d2) as [r2 ck2] eqn:Hr2; [|done].
  split; simpl; try done; [by rewrite Hr1|..].
  - apply recv_chain_open; simpl; try done. intros j. by apply Hfr.
  - intros pk' j Hj Hr _. by apply Hfr.
  - intros q Hq _. by apply Hcons.
Qed.
Lemma opened_receive s k pl pk ck0 d d2 kp s2 n :
  opened s k pl pk ck0 ∅ d d2 kp s2 → recv_message_number s2 = 0 → 0 ≤ n → is_u32 (n + 1) →
  opened s k pl pk ck0 {[n]} d d2 kp (receive_at pk ck0 n s2).
Proof.
  intros [Hroot Hsck Hkp Hsn Hpl Hrc Hcl Hfr Hcons] H0 Hn Hu.
  pose proof (frame_receive_at pk ck0 n s2) as [Froot Fsck Fkp Fsn Fpl Fcache].
  assert (∀ j, skipped_keys s2 !! (pk, j) = None) as Hno.
  { intros j. rewrite (rc_cache _ _ _ _ Hrc), bool_decide_false; [done|]. rewrite H0. lia. }
  split; try congruence.
  - apply recv_chain_first; [apply Hrc| |done..]. rewrite (rc_ck _ _ _ _ Hrc). by rewrite H0.
  - intros q Hq. destruct (Hcl q Hq) as (mk & nc & Hmk & Hct). exists mk, nc. split; [|done].
    unfold p_id in *. rewrite Fcache; [done|]. intros He. by rewrite He, Hno in Hmk.
  - intros pk' j Hj Hr Hne. rewrite Fcache by done. by apply Hfr.
  - intros q Hq Hne. unfold p_id in *. rewrite Fcache by done. by apply Hcons.
Qed.

(** The first packet of a chain that this side has not seen: a DH ratchet step
    that closes the old chain and opens the new one. *)
Lemma rx_ratchet s k p w pk ck0 pkF skF d d2 kp w' :
  rx_ok s k (h_previous_chain_length (p_header p)) →
  is_u32 (h_previous_chain_length (p_header p)) →
  sending_keypair s = Some (pkF, skF) → scalarmult skF pk = Some d →
  (rk_step (root_key s) d).2 = ck0 → box_gen_keypair w = (kp, w') →
  scalarmult kp.2 pk = Some d2 →
  genuine pk ck0 ad (p_header p) (p_ct p) (message_number (p_header p)) (p_msg p) →
  0 ≤ message_number (p_header p) → in_window s (p_header p) = true →
  remote_ratchet_key s ≠ Some pk → (∀ j, skipped_keys s !! (pk, j) = None) →
  ∃ s', decrypt (p_header p) (p_ct p) ad (s, w) = (Ret (p_msg p), (s', w')) ∧
    opened s k (h_previous_chain_length (p_header p)) pk ck0 {[message_number (p_header p)]} d d2 kp s' ∧
    recv_message_number s' = message_number (p_header p) + 1.
Proof.
  intros Hrx Hpl Hkp Hd Hck Hgen Hd2 (Hpk & _ & nc & Hct) Hn0 Hwin Hrem Hunseen.
  unfold in_window in Hwin. rewrite Hpk, Hunseen, bool_decide_false in Hwin by done.
  apply andb_prop in Hwin as [Hw1 Hw2]. apply Z.leb_le in Hw2.
  destruct (rx_open s k _ pk ck0 pkF skF d d2 kp w Hrx Hpl) as (s1 & Hskip & Hkp1 & Hroot & Hop & H0); try done.
  { intros ck Hrck. rewrite Hrck in Hw1. by apply Z.leb_le. }
  assert (is_u32 (message_number (p_header p) + 1)) as Hu by (unfold is_u32, in_width, MAX_SKIP in *; lia).
  exists (receive_at pk ck0 (message_number (p_header p)) (ratcheted pk d d2 kp s1)). split.
  { rewrite (decrypt_new_key _ _ ad s w s1 pkF skF d kp d2 w'); try done; rewrite ?Hpk; try done.
    rewrite Hroot, Hck, Hct. by rewrite decrypt_with_key_sealed. }
  split; [by apply opened_receive|]. by destruct (ratcheted pk d d2 kp s1).
Qed.

(** The same for a packet outside the window: the session refuses it before or
    after the DH ratchet step. *)
Lemma rx_refuse_new s k p w pk ck0 pkF skF d d2 kp w' :
  rx_ok s k (h_previous_chain_length (p_header p)) →
  is_u32 (h_previous_chain_length (p_header p)) →
  sending_keypair s = Some (pkF, skF) → scalarmult skF pk = Some d →
  (rk_step (root_key s) d).2 = ck0 → box_gen_keypair w = (kp, w') →
  scalarmult kp.2 pk = Some d2 → ratchet_public_key (p_header p) = pk →
  is_u32 (message_number (p_header p)) → in_window s (p_header p) = false →
  remote_ratchet_key s ≠ Some pk → (∀ j, skipped_keys s !! (pk, j) = None) →
  ∃ s' w2, decrypt (p_header p) (p_ct p) ad (s, w)
           = (Throw (RatchetError (bstr "too many skipped messages")), (s', w2)) ∧
    ((s' = s ∧ w2 = w) ∨
     (w2 = w' ∧ opened s k (h_previous_chain_length (p_header p)) pk ck0 ∅ d d2 kp s' ∧
      recv_message_number s' = 0)).
Proof.
  intros Hrx Hpl Hkp Hd Hck Hgen Hd2 Hpk Hn Hwin Hrem Hunseen.
  unfold in_window in Hwin. rewrite Hpk, Hunseen, bool_decide_false in Hwin by done.
  destruct (match receiving_chain_key s with Some _ => _ | None => true end) eqn:Hw1; simpl in Hwin.
  - destruct (rx_open s k _ pk ck0 pkF skF d d2 kp w Hrx Hpl) as (s1 & Hs1 & Hkp1 & Hroot & Hop & H0); try done.
    { intros ck Hrck. rewrite Hrck in Hw1. by apply Z.leb_le. }
    exists (ratcheted pk d d2 kp s1), w'. split; [|by right]. apply Z.leb_gt in Hwin.
    rewrite (decrypt_new_key_far _ _ ad s w s1 pkF skF d kp d2 w'); try done; rewrite ?Hpk; done.
  - destruct (receiving_chain_key s) as [ck|] eqn:Hck'; [|done]. apply Z.leb_gt in Hw1.
    destruct k as [[[pk1 ck1] C]|]; [|destruct Hrx; congruence]. destruct Hrx as [[Hrem1 _ Hnum _ _] Hle].
    exists s, w. split; [|by left]. apply decrypt_unclosed; rewrite ?Hpk; try done.
    rewrite (skip_current_run _ s w ck pk1) by done. by rewrite (proj2 (Z.ltb_lt _ _)).
Qed.
End receiving.
