(* ===== verification/RatchetSession.v ===== *)
(** * The Double Ratchet between two parties: the invariant and what follows

    The invariant says how the two sessions fit together: one side, the leader, has
    ratcheted with the other's current key, and the root keys agree one [kdf_rk]
    apart. It holds in every reachable configuration, and the properties of the
    session follow. At the end, schedules compute concrete runs. *)

From S2P Require Import Prelude RustStr Errors Sodium Instances AesGcm DoubleRatchet.
From S2P Require Import RatchetFacts RatchetChain RatchetProps RatchetNetwork RatchetReceive.
Local Open Scope rust_scope.

(** ** The invariant *)
Section invariant.
Context {BP : BuildProfile} {SO : Sodium} {HA : Hashes}.
Context {L : SodiumLaws SO} {LA : AeadLaws SO} {LH : HashLaws HA} {LK : KeyLaws SO}.
Variable ad : bytes.
Implicit Types (s sL sF : RatchetState) (w : rng) (p q : packet).

(** A packet of the leader's sending chain, which the follower has not seen. *)
Definition on_fresh (sL : RatchetState) (pkL ckL : key32) (p : packet) : Prop :=
  genuine pkL ckL ad (p_header p) (p_ct p) (message_number (p_header p)) (p_msg p) ∧
  0 ≤ message_number (p_header p) < send_message_number sL ∧
  h_previous_chain_length (p_header p) = previous_chain_length sL.

(** Leader [sL], follower [sF], with [flL] and [flF] in flight to them and [zL]
    and [zF] delivered. *)
Record linked (sL sF : RatchetState) (flL flF zL zF : list packet) (w : rng) (U : gset key32)
  (pkL skL pkF skF d ckL : key32) (kL kF : option (key32 * key32 * gset Z)) : Prop := {
  ln_ready : ready w;
  ln_kpL : sending_keypair sL = Some (pkL, skL);
  ln_boxL : box_pair pkL skL;
  ln_kpF : sending_keypair sF = Some (pkF, skF);
  ln_boxF : box_pair pkF skF;
  ln_remL : remote_ratchet_key sL = Some pkF;
  ln_remF : remote_ratchet_key sF ≠ Some pkL;
  ln_dh : scalarmult skF pkL = Some d;
  ln_root : rk_step (root_key sF) d = (root_key sL, ckL);
  ln_txL : send_chain sL pkL ckL;
  ln_pl : is_u32 (previous_chain_length sL);
  ln_snF : is_u32 (send_message_number sF);
  ln_unseen j : skipped_keys sF !! (pkL, j) = None;
  ln_rxL : rx_ok sL kL (send_message_number sF);
  ln_link :
    match kL with
    | Some (pk, ck0, _) => pk = pkF ∧ send_chain sF pkF ck0
    | None => sending_chain_key sF = None
    end;
  ln_rxF : rx_ok sF kF (previous_chain_length sL);
  ln_usedL : pkL ∈ U;
  ln_usedF : pkF ∈ U;
  ln_usedR pk : remote_ratchet_key sF = Some pk → pk ∈ U;
  ln_cleanL pk j : pk ∉ U → skipped_keys sL !! (pk, j) = None;
  ln_cleanF pk j : pk ∉ U → skipped_keys sF !! (pk, j) = None;
  ln_flL : Forall (pkt_ok ad sL kL (send_message_number sF)) flL;
  ln_flF : Forall (λ p, pkt_ok ad sF kF (previous_chain_length sL) p ∨ on_fresh sL pkL ckL p) flF;
  ln_seenL : Forall (λ p, consumed sL kL p ∧ ratchet_public_key (p_header p) ∈ U) zL;
  ln_seenF : Forall (λ p, consumed sF kF p ∧ ratchet_public_key (p_header p) ∈ U ∧
                          ratchet_public_key (p_header p) ≠ pkL) zF;
  ln_ndL : NoDup (p_id <$> flL);
  ln_ndF : NoDup (p_id <$> flF);
}.

Definition in_sync (sL sF : RatchetState) (flL flF zL zF : list packet) (w : rng) (U : gset key32) : Prop :=
  ∃ pkL skL pkF skF d ckL kL kF, linked sL sF flL flF zL zF w U pkL skL pkF skF d ckL kL kF.

Definition inv (c : config) : Prop :=
  ∃ ldr, in_sync (st c ldr) (st c (other ldr)) (fl c ldr) (fl c (other ldr))
    (seen c ldr) (seen c (other ldr)) (wd c) (used c).

Lemma pkt_ok_more s k total total' p :
  total ≤ total' → pkt_ok ad s k total p → pkt_ok ad s k total' p.
Proof.
  intros Ht [Hc|Hc]; [by left|right]. destruct k as [[[pk ck0] C]|]; [|done].
  simpl in *. destruct Hc as (? & ? & ?). split_and!; [done|done|lia..].
Qed.
Lemma rx_ok_more s k total total' : total ≤ total' → rx_ok s k total → rx_ok s k total'.
Proof. intros Ht. destruct k as [[[pk ck0] C]|]; simpl; [|done]. intros [? ?]. split; [done|lia]. Qed.

(** No packet in flight carries the next number of the sender's chain. *)
Lemma next_id_L sL sF flF pkL ckL kF :
  (∀ j, skipped_keys sF !! (pkL, j) = None) → remote_ratchet_key sF ≠ Some pkL →
  rx_ok sF kF (previous_chain_length sL) →
  Forall (λ p, pkt_ok ad sF kF (previous_chain_length sL) p ∨ on_fresh sL pkL ckL p) flF →
  (pkL, send_message_number sL) ∉ p_id <$> flF.
Proof.
  intros Hun Hrem Hrx Hfl Hin. apply list_elem_of_fmap in Hin as (q & Hq & Hin).
  rewrite Forall_forall in Hfl. destruct (Hfl q Hin) as [[(mk & nc & Hmk & _)|Hc]|(_ & Hn & _)].
  - by rewrite <-Hq, Hun in Hmk.
  - destruct kF as [[[pk ck0] C]|]; [|done]. destruct Hc as ((Hpk & _) & _).
    destruct Hrx as [Hrc _]. unfold p_id in Hq. injection Hq as Hq _.
    apply Hrem. by rewrite (rc_remote _ _ _ _ Hrc), Hq, Hpk.
  - unfold p_id in Hq. injection Hq as _ Hq. lia.
Qed.
Lemma next_id_F sL pk ck0 C total flL :
  rx_ok sL (Some (pk, ck0, C)) total →
  Forall (pkt_ok ad sL (Some (pk, ck0, C)) total) flL → (pk, total) ∉ p_id <$> flL.
Proof.
  intros [Hrc Hle] Hfl Hin. apply list_elem_of_fmap in Hin as (q & Hq & Hin).
  rewrite Forall_forall in Hfl. destruct (Hfl q Hin) as [(mk & nc & Hmk & _)|(_ & _ & Hn)].
  - rewrite <-Hq, (rc_cache _ _ _ _ Hrc), bool_decide_false in Hmk; [done|lia].
  - unfold p_id in Hq. injection Hq as _ Hq. lia.
Qed.
Lemma encrypt_no_chain s w m :
  sending_chain_key s = None →
  encrypt m ad (s, w) = (Throw (RatchetError (bstr "no sending chain key")), (s, w)).
Proof. intros H. unfold encrypt. mred. by rewrite H. Qed.

Lemma linked_send_L sL sF flL flF zL zF w U pkL skL pkF skF d ckL kL kF m h ct s' w' :
  linked sL sF flL flF zL zF w U pkL skL pkF skF d ckL kL kF →
  is_u32 (send_message_number sL + 1) → blen m + 40 ≤ isize_max →
  encrypt m ad (sL, w) = (Ret (h, ct), (s', w')) →
  linked s' sF flL (mkPacket h ct m :: flF) zL zF w' U pkL skL pkF skF d ckL kL kF.
Proof.
  intros Hl Hn Hm He. destruct Hl.
  destruct (encrypt_chain sL w pkL ckL m ad) as (h' & ct' & s'' & w'' & He' & Hh & Hg & Htx & Hs & Hw);
    [done..|].
  rewrite He in He'. injection He' as <- <- <- <-.
  pose proof (next_id_L sL sF flF pkL ckL kF) as Hnid.
  destruct sL as [rk sck rck kp rem sn rn pl sk]; simpl in *; subst s' h. simpl.
  pose proof (sc_num _ _ _ ln_txL0) as Hnum. simpl in Hnum. unfold is_u32, in_width in Hnum.
  split; try done.
  - destruct kL as [[[pk ck0] C]|]; simpl in *; [|done]. destruct ln_rxL0 as [[] ?]. by split; [split|].
  - constructor.
    + right. split; [exact Hg|]. split; [simpl; lia|done].
    + eapply Forall_impl; [exact ln_flF0|]. intros q [Hq|(Hq & Hr & Hp)]; [by left|right].
      simpl in *. split; [done|]. split; [simpl; lia|done].
  - rewrite fmap_cons. constructor; [|done]. unfold p_id at 1. simpl. by apply Hnid.
Qed.

Lemma linked_send_F sL sF flL flF zL zF w U pkL skL pkF skF d ckL kL kF m h ct s' w' :
  linked sL sF flL flF zL zF w U pkL skL pkF skF d ckL kL kF →
  is_u32 (send_message_number sF + 1) → blen m + 40 ≤ isize_max →
  encrypt m ad (sF, w) = (Ret (h, ct), (s', w')) →
  linked sL s' (mkPacket h ct m :: flL) flF zL zF w' U pkL skL pkF skF d ckL kL kF.
Proof.
  intros Hl Hn Hm He. destruct Hl.
  destruct kL as [[[pk ck0] C]|]; [|by rewrite encrypt_no_chain in He].
  destruct ln_link0 as [-> Hsc].
  destruct (encrypt_chain sF w pkF ck0 m ad) as (h' & ct' & s'' & w'' & He' & Hh & Hg & Htx & Hs & Hw);
    [done..|].
  rewrite He in He'. injection He' as <- <- <- <-.
  pose proof (next_id_F sL pkF ck0 C _ flL ln_rxL0 ln_flL0) as Hnid.
  destruct sF as [rk sck rck kp rem sn rn pl sk]; simpl in *; subst s' h. simpl.
  unfold is_u32, in_width in ln_snF0. destruct ln_rxL0 as [Hrc Hle].
  split; try done.
  - split; [done|simpl; lia].
  - destruct kF as [[[pk ckf] Cf]|]; simpl in *; [|done].
    destruct ln_rxF0 as [[] ?]. by split; [split|].
  - constructor.
    + right. split; [exact Hg|]. split; [|simpl; lia]. simpl. intros Hin%(rc_consumed _ _ _ _ Hrc). lia.
    + eapply Forall_impl; [exact ln_flL0|]. intros q. apply pkt_ok_more. simpl. lia.
  - rewrite fmap_cons. constructor; [exact Hnid|done].
Qed.

(** Taking one packet out of the flight. *)
Lemma flight_remove (P Q : packet → Prop) l1 p l2 :
  NoDup (p_id <$> l1 ++ p :: l2) → Forall P (l1 ++ p :: l2) →
  (∀ q, p_id q ≠ p_id p → P q → Q q) →
  P p ∧ Forall Q (l1 ++ l2) ∧ NoDup (p_id <$> l1 ++ l2).
Proof.
  rewrite !fmap_app, fmap_cons, <-Permutation_middle. intros [Hnin Hnd]%NoDup_cons HP HPQ.
  rewrite <-Permutation_middle in HP. apply Forall_cons in HP as [Hp HP].
  split_and!; [done| |done]. rewrite Forall_forall in HP |- *. intros q Hq.
  apply HPQ; [|by apply HP]. intros He. apply Hnin. rewrite <-He, <-fmap_app.
  by apply list_elem_of_fmap_2.
Qed.

Lemma linked_deliver_L sL sF l1 p l2 flF zL zF w U pkL skL pkF skF d ckL kL kF :
  linked sL sF (l1 ++ p :: l2) flF zL zF w U pkL skL pkF skF d ckL kL kF →
  in_window sL (p_header p) = true →
  ∃ s' kL', decrypt (p_header p) (p_ct p) ad (sL, w) = (Ret (p_msg p), (s', w)) ∧
    own_key s' ⊆ U ∧ linked s' sF (l1 ++ l2) flF (p :: zL) zF w U pkL skL pkF skF d ckL kL' kF.
Proof.
  intros Hl Hwin. destruct Hl.
  assert (pkt_ok ad sL kL (send_message_number sF) p) as Hp
    by (rewrite Forall_forall in ln_flL0; apply ln_flL0, elem_of_app; right; by left).
  destruct (rx_deliver ad sL kL _ p w ln_rxL0 Hp Hwin) as (s' & Hd & Htx & Hrx & Hpk & Hno & Hnp & Hcons);
    [by destruct ln_snF0|].
  exists s', (mark (message_number (p_header p)) (ratchet_public_key (p_header p)) kL).
  destruct (flight_remove _ _ l1 p l2 ln_ndL0 ln_flL0 Hpk) as (_ & Hfl & Hnd).
  pose proof Htx as [Hroot Hsck Hkp Hsn Hpl Hrem]. split; [done|]. split.
  { unfold own_key. rewrite Hkp, ln_kpL0. by intros ? ->%elem_of_singleton. }
  split; try done; try congruence.
  - destruct ln_txL0 as [? ? ?]. split; [by rewrite Hkp|by rewrite Hsck, Hsn|by rewrite Hsn].
  - destruct kL as [[[pk ck0] C]|]; done.
  - intros pk j Hpk'. apply Hno; [by apply ln_cleanL0|]. rewrite ln_remL0. congruence.
  - unfold on_fresh in *. by rewrite Hpl, Hsn.
  - constructor.
    + split; [by eapply (consumed_delivered ad sL)|].
      apply (pkt_key_used ad sL kL _ p U ln_rxL0 Hp); [|done].
      rewrite ln_remL0. by intros ? [= <-].
    + eapply Forall_impl; [exact ln_seenL0|]. intros q [Hq ?].
      split; [by apply (consumed_mark sL); auto|done].
Qed.

Lemma linked_deliver_F sL sF flL l1 p l2 zL zF w U pkL skL pkF skF d ckL kL kF :
  linked sL sF flL (l1 ++ p :: l2) zL zF w U pkL skL pkF skF d ckL kL kF →
  in_window sF (p_header p) = true → pkt_ok ad sF kF (previous_chain_length sL) p →
  ∃ s' kF', decrypt (p_header p) (p_ct p) ad (sF, w) = (Ret (p_msg p), (s', w)) ∧
    own_key s' ⊆ U ∧ linked sL s' flL (l1 ++ l2) zL (p :: zF) w U pkL skL pkF skF d ckL kL kF'.
Proof.
  intros Hl Hwin Hp. destruct Hl.
  destruct (rx_deliver ad sF kF _ p w ln_rxF0 Hp Hwin) as (s' & Hd & Htx & Hrx & Hpk & Hno & Hnp & Hcons);
    [by destruct ln_pl0|].
  exists s', (mark (message_number (p_header p)) (ratchet_public_key (p_header p)) kF).
  destruct (flight_remove _ (λ q, pkt_ok ad s' (mark (message_number (p_header p))
    (ratchet_public_key (p_header p)) kF) (previous_chain_length sL) q ∨ on_fresh sL pkL ckL q)
    l1 p l2 ln_ndF0 ln_flF0) as (_ & Hfl & Hnd).
  { intros q Hne [Hq|Hq]; [left; by apply Hpk|by right]. }
  pose proof Htx as [Hroot Hsck Hkp Hsn Hpl Hrem]. split; [done|]. split.
  { unfold own_key. rewrite Hkp, ln_kpF0. by intros ? ->%elem_of_singleton. }
  split; try done; try (rewrite ?Hkp, ?Hroot, ?Hsn, ?Hrem; done).
  - intros j. by apply Hno.
  - destruct kL as [[[pk ck0] C]|]; [|by rewrite Hsck]. destruct ln_link0 as [? [? ? ?]].
    split; [done|]. split; [by rewrite Hkp|by rewrite Hsck, Hsn|by rewrite Hsn].
  - intros pk j Hpk'. apply Hno; [by apply ln_cleanF0|]. intros Hr. by apply Hpk', ln_usedR0.
  - constructor.
    + split; [by eapply (consumed_delivered ad sF)|].
      split; [by apply (pkt_key_used ad sF kF _ p U ln_rxF0 Hp)|].
      intros He. destruct Hp as [(mk & nc & Hmk & _)|Hp].
      * unfold p_id in Hmk. by rewrite He, ln_unseen0 in Hmk.
      * destruct kF as [[[pk ck0] C]|]; [|done]. destruct Hp as ((Hpk' & _) & _), ln_rxF0 as [Hrc _].
        apply ln_remF0. by rewrite (rc_remote _ _ _ _ Hrc), <-Hpk', He.
    + eapply Forall_impl; [exact ln_seenF0|]. intros q (Hq & ?).
      split; [by apply (consumed_mark sF); auto|done].
Qed.

(** The follower opens the leader's new chain: it becomes the leader. *)
Lemma linked_turn sL sF flL flF flF' zL zF zF' w w' U pkL skL pkF skF d ckL kL kF npk nsk d2 C s' :
  linked sL sF flL flF zL zF w U pkL skL pkF skF d ckL kL kF →
  ready w' → box_pair npk nsk → npk ∉ U → scalarmult skL npk = Some d2 →
  opened ad sF kF (previous_chain_length sL) pkL ckL C d d2 (npk, nsk) s' →
  recv_message_number s' ≤ send_message_number sL →
  Forall (pkt_ok ad s' (Some (pkL, ckL, C)) (send_message_number sL)) flF' → NoDup (p_id <$> flF') →
  Forall (λ q, consumed s' (Some (pkL, ckL, C)) q ∧ ratchet_public_key (p_header q) ∈ U) zF' →
  in_sync s' sL flF' flL zF' zL w' ({[npk]} ∪ U).
Proof.
  intros Hl Hw' Hbox Hfresh Hd2 Hop Hrn HflF HndF HzF. destruct Hl.
  destruct Hop as [Hr [sck Hsck] Hkp Hsn Hpls Hrc Hcl Hno Hcons].
  rewrite ln_root0, Hsck in Hr. simpl in Hr.
  exists npk, nsk, pkL, skL, d2, sck, (Some (pkL, ckL, C)), kL.
  assert (∀ x, x ∈ U → x ∈ ({[npk]} ∪ U : gset key32)) as Hsub by (clear; set_solver).
  assert (∀ x, x ∉ ({[npk]} ∪ U : gset key32) → x ∉ U) as Hout by (clear; set_solver).
  assert (∀ x, x ∈ U → x ≠ npk) as Hnew by (intros x ? ->; done).
  split; try done.
  - apply Hrc.
  - rewrite ln_remL0. congruence.
  - split; [by exists nsk|by rewrite Hsck, Hsn|by rewrite Hsn].
  - by rewrite Hpls.
  - by destruct ln_txL0.
  - intros j. by apply ln_cleanL0.
  - by rewrite Hpls.
  - by apply elem_of_union_l, elem_of_singleton.
  - by apply Hsub.
  - intros pk Hpk. rewrite ln_remL0 in Hpk. injection Hpk as <-. by apply Hsub.
  - intros pk j Hpk%Hout. apply Hno; [by apply ln_cleanF0|by intros ?%ln_usedR0|by intros ->].
  - intros pk j Hpk%Hout. by apply ln_cleanL0.
  - rewrite Hpls. eapply Forall_impl; [exact ln_flL0|]. by left.
  - eapply Forall_impl; [exact HzF|]. intros q (? & ?). split; [done|by apply Hsub].
  - eapply Forall_impl; [exact ln_seenL0|]. intros q (? & ?). split_and!; [done|by apply Hsub|by apply Hnew].
Qed.
(** What was delivered stays consumed when the chain changes. *)
Lemma opened_consumed s k pl pk ck0 C d d2 kp s' q :
  opened ad s k pl pk ck0 C d d2 kp s' → consumed s k q → ratchet_public_key (p_header q) ≠ pk →
  consumed s' (Some (pk, ck0, C)) q.
Proof.
  intros Hop Hq Hne. split; [by eapply op_cons|]. intros Hr.
  rewrite (rc_remote _ _ _ _ (op_rc _ _ _ _ _ _ _ _ _ _ _ Hop)) in Hr. congruence.
Qed.
Lemma linked_deliver_fresh sL sF flL l1 p l2 zL zF w U pkL skL pkF skF d ckL kL kF :
  linked sL sF flL (l1 ++ p :: l2) zL zF w U pkL skL pkF skF d ckL kL kF →
  in_window sF (p_header p) = true → on_fresh sL pkL ckL p →
  (box_gen_keypair w).1.1 ∉ U →
  ∃ s' w', decrypt (p_header p) (p_ct p) ad (sF, w) = (Ret (p_msg p), (s', w')) ∧
    in_sync s' sL (l1 ++ l2) flL (p :: zF) zL w' (own_key s' ∪ U).
Proof.
  intros Hl Hwin (Hg & Hn & Hpl) Hfresh. pose proof Hl as Hl'. destruct Hl'.
  pose proof (box_gen_pair w) as Hbox. pose proof (ready_box_gen_keypair w ln_ready0) as Hw'.
  destruct (box_gen_keypair w) as [[npk nsk] w'] eqn:Hgen. simpl in *.
  destruct (scalarmult_comm npk nsk pkL skL Hbox ln_boxL0) as (d2 & Hd2 & Hd2').
  destruct (rx_ratchet ad sF kF p w pkL ckL pkF skF d d2 (npk, nsk) w') as (s' & Hd & Hop & Hrn);
    try done; try (by rewrite Hpl); [by rewrite ln_root0|lia|].
  exists s', w'. split; [done|]. unfold own_key. rewrite (op_kp _ _ _ _ _ _ _ _ _ _ _ Hop).
  rewrite Hpl in Hop.
  destruct (flight_remove _ (pkt_ok ad s' (Some (pkL, ckL, {[message_number (p_header p)]}))
    (send_message_number sL)) l1 p l2 ln_ndF0 ln_flF0) as (_ & Hfl & Hnd).
  { intros q Hne [Hq|(Hq & Hqn & _)]; [left; by apply Hop|right]. split; [done|].
    split; [|lia]. intros He%elem_of_singleton. apply Hne. unfold p_id.
    by rewrite He, (proj1 Hq), (proj1 Hg). }
  eapply linked_turn; [exact Hl|done|done|done|done|exact Hop|lia|done|done|]. constructor.
  - split; [|by rewrite (proj1 Hg)]. split.
    + unfold p_id. rewrite (proj1 Hg), (rc_cache _ _ _ _ (op_rc _ _ _ _ _ _ _ _ _ _ _ Hop)), bool_decide_false;
        [done|]. intros [_ []]. by apply elem_of_singleton.
    + intros _. eexists _, _, _. split; [done|by apply elem_of_singleton].
  - eapply Forall_impl; [exact ln_seenF0|]. intros q (Hq & ? & Hne). split; [|done].
    by eapply opened_consumed.
Qed.
(** The same when the packet is refused: the chain is open, and nothing received. *)
Lemma linked_refuse_fresh sL sF flL flF p zL zF w U pkL skL pkF skF d ckL kL kF :
  linked sL sF flL flF zL zF w U pkL skL pkF skF d ckL kL kF →
  in_window sF (p_header p) = false → on_fresh sL pkL ckL p →
  (box_gen_keypair w).1.1 ∉ U →
  ∃ s' w', decrypt (p_header p) (p_ct p) ad (sF, w)
           = (Throw (RatchetError (bstr "too many skipped messages")), (s', w')) ∧
    ((s' = sF ∧ w' = w) ∨ in_sync s' sL flF flL zF zL w' (own_key s' ∪ U)).
Proof.
  intros Hl Hwin (Hg & Hn & Hpl) Hfresh. pose proof Hl as Hl'. destruct Hl'.
  pose proof (box_gen_pair w) as Hbox. pose proof (ready_box_gen_keypair w ln_ready0) as Hw'.
  destruct (box_gen_keypair w) as [[npk nsk] w'] eqn:Hgen. simpl in *.
  destruct (scalarmult_comm npk nsk pkL skL Hbox ln_boxL0) as (d2 & Hd2 & Hd2').
  pose proof (sc_num _ _ _ ln_txL0) as Hsn.
  destruct (rx_refuse_new ad sF kF p w pkL ckL pkF skF d d2 (npk, nsk) w') as (s' & w2 & Hd & Hcase);
    try done; try (by rewrite Hpl); [by rewrite ln_root0|apply Hg|unfold is_u32, in_width in *; lia|].
  exists s', w2. split; [done|]. destruct Hcase as [?|(-> & Hop & Hrn)]; [by left|right].
  unfold own_key. rewrite (op_kp _ _ _ _ _ _ _ _ _ _ _ Hop). rewrite Hpl in Hop.
  eapply linked_turn; [exact Hl|done|done|done|done|exact Hop|destruct Hsn; lia| |done|].
  - eapply Forall_impl; [exact ln_flF0|]. intros q [Hq|(Hq & Hqn & _)]; [left; by apply Hop|right].
    split; [done|]. split; [set_solver|lia].
  - eapply Forall_impl; [exact ln_seenF0|]. intros q (Hq & ? & Hne). split; [|done].
    by eapply opened_consumed.
Qed.

Lemma linked_mono sL sF flL flF zL zF w U U' pkL skL pkF skF d ckL kL kF :
  U ⊆ U' → linked sL sF flL flF zL zF w U pkL skL pkF skF d ckL kL kF →
  linked sL sF flL flF zL zF w U' pkL skL pkF skF d ckL kL kF.
Proof.
  intros HU Hl. destruct Hl. split; try done; try (by apply HU).
  - intros pk Hpk. by apply HU, ln_usedR0.
  - intros pk j Hpk. apply ln_cleanL0. intros ?%HU. done.
  - intros pk j Hpk. apply ln_cleanF0. intros ?%HU. done.
  - eapply Forall_impl; [exact ln_seenL0|]. intros q (? & ?). split; [done|by apply HU].
  - eapply Forall_impl; [exact ln_seenF0|]. intros q (? & ? & ?). split_and!; [done|by apply HU|done].
Qed.

(** Delivery, whichever side the packet is for. *)
Lemma in_sync_deliver_L sL sF l1 p l2 flF zL zF w U :
  in_sync sL sF (l1 ++ p :: l2) flF zL zF w U → in_window sL (p_header p) = true →
  ∃ s' w', decrypt (p_header p) (p_ct p) ad (sL, w) = (Ret (p_msg p), (s', w')) ∧
           in_sync s' sF (l1 ++ l2) flF (p :: zL) zF w' (own_key s' ∪ U).
Proof.
  intros (pkL & skL & pkF & skF & d & ckL & kL & kF & Hl) Hwin.
  destruct (linked_deliver_L _ _ _ _ _ _ _ _ _ _ _ _ _ _ _ _ _ _ Hl Hwin) as (s' & kL' & Hd & HU & Hl').
  exists s', w. split; [done|]. exists pkL, skL, pkF, skF, d, ckL, kL', kF.
  by apply (linked_mono _ _ _ _ _ _ _ U); [set_solver|].
Qed.
Lemma in_sync_deliver_F sL sF flL l1 p l2 zL zF w U :
  in_sync sL sF flL (l1 ++ p :: l2) zL zF w U → in_window sF (p_header p) = true →
  (box_gen_keypair w).1.1 ∉ U →
  ∃ s' w', decrypt (p_header p) (p_ct p) ad (sF, w) = (Ret (p_msg p), (s', w')) ∧
           (in_sync sL s' flL (l1 ++ l2) zL (p :: zF) w' (own_key s' ∪ U) ∨
            in_sync s' sL (l1 ++ l2) flL (p :: zF) zL w' (own_key s' ∪ U)).
Proof.
  intros (pkL & skL & pkF & skF & d & ckL & kL & kF & Hl) Hwin Hfresh.
  assert (pkt_ok ad sF kF (previous_chain_length sL) p ∨ on_fresh sL pkL ckL p) as [Hp|Hp].
  { pose proof (ln_flF _ _ _ _ _ _ _ _ _ _ _ _ _ _ _ _ Hl) as Hfl.
    rewrite Forall_forall in Hfl. apply Hfl, elem_of_app. right. by left. }
  - destruct (linked_deliver_F _ _ _ _ _ _ _ _ _ _ _ _ _ _ _ _ _ _ Hl Hwin Hp)
      as (s' & kF' & Hd & HU & Hl').
    exists s', w. split; [done|left]. exists pkL, skL, pkF, skF, d, ckL, kL, kF'.
    by apply (linked_mono _ _ _ _ _ _ _ U); [set_solver|].
  - destruct (linked_deliver_fresh _ _ _ _ _ _ _ _ _ _ _ _ _ _ _ _ _ _ Hl Hwin Hp Hfresh)
      as (s' & w' & Hd & Hs). exists s', w'. split; [done|by right].
Qed.

Lemma inv_deliver c b l1 p l2 :
  inv c → fl c b = l1 ++ p :: l2 → in_window (st c b) (p_header p) = true → next_key_fresh c →
  ∃ s' w', decrypt (p_header p) (p_ct p) ad (st c b, wd c) = (Ret (p_msg p), (s', w')) ∧
    inv (mkConfig (upd (st c) b s') (upd (fl c) b (l1 ++ l2)) (upd (seen c) b (p :: seen c b)) w'
           (own_key s' ∪ used c)).
Proof.
  intros [ldr Hs] Hfl Hwin Hfresh. destruct (decide (b = ldr)) as [->|Hb].
  - rewrite Hfl in Hs. destruct (in_sync_deliver_L _ _ _ _ _ _ _ _ _ _ Hs Hwin) as (s' & w' & Hd & Hs').
    exists s', w'. split; [done|]. exists ldr. simpl. by rewrite !upd_eq, !upd_other.
  - assert (ldr = other b) as -> by (by destruct ldr, b). rewrite other_other, Hfl in Hs.
    destruct (in_sync_deliver_F _ _ _ _ _ _ _ _ _ _ Hs Hwin Hfresh) as (s' & w' & Hd & [Hs'|Hs']);
      exists s', w'; (split; [done|]); [exists (other b)|exists b]; simpl;
      by rewrite ?other_other, !upd_eq, !upd_other.
Qed.

(** Changes that leave the sessions and the flights as they are. *)
Lemma inv_idle c b U :
  inv c → used c ⊆ U →
  inv (mkConfig (upd (st c) b (st c b)) (fl c) (seen c) (wd c) U).
Proof.
  intros (ldr & pkL & skL & pkF & skF & d & ckL & kL & kF & Hl) HU.
  exists ldr, pkL, skL, pkF, skF, d, ckL, kL, kF. simpl. rewrite !upd_same.
  by apply (linked_mono _ _ _ _ _ _ _ (used c)).
Qed.
(** A packet in flight that is outside the window is refused, and the sessions
    stay in step. *)
Lemma inv_refuse c b p :
  inv c → p ∈ fl c b → in_window (st c b) (p_header p) = false → next_key_fresh c →
  ∃ s' w', decrypt (p_header p) (p_ct p) ad (st c b, wd c)
           = (Throw (RatchetError (bstr "too many skipped messages")), (s', w')) ∧
    inv (mkConfig (upd (st c) b s') (fl c) (seen c) w' (own_key s' ∪ used c)).
Proof.
  intros Hi Hin Hwin Hfresh.
  assert (inv (mkConfig (upd (st c) b (st c b)) (fl c) (seen c) (wd c) (own_key (st c b) ∪ used c))) as Hsame
    by (apply inv_idle; [done|set_solver]).
  destruct Hi as (ldr & pkL & skL & pkF & skF & d & ckL & kL & kF & Hl). pose proof Hl as [].
  rewrite Forall_forall in ln_flL0, ln_flF0. destruct (decide (b = ldr)) as [->|Hb].
  { exists (st c ldr), (wd c). split; [|done].
    eapply rx_refuse; [done|by apply ln_flL0|done|by destruct ln_snF0]. }
  assert (ldr = other b) as -> by (by destruct ldr, b). rewrite other_other in *.
  destruct (ln_flF0 p Hin) as [Hp|Hp].
  { exists (st c b), (wd c). split; [|done]. eapply rx_refuse; [done|done|done|by destruct ln_pl0]. }
  destruct (linked_refuse_fresh _ _ _ _ p _ _ _ _ _ _ _ _ _ _ _ _ Hl Hwin Hp Hfresh)
    as (s' & w' & Hd & [[-> ->]|Hs]); eexists _, _; (split; [exact Hd|]); [done|].
  exists b. simpl. by rewrite upd_eq, upd_other.
Qed.

Lemma inv_send c b m h ct s' w' :
  inv c → is_u32 (send_message_number (st c b) + 1) → blen m + 40 ≤ isize_max →
  encrypt m ad (st c b, wd c) = (Ret (h, ct), (s', w')) →
  inv (mkConfig (upd (st c) b s')
         (upd (fl c) (other b) (mkPacket h ct m :: fl c (other b))) (seen c) w' (used c)).
Proof.
  intros (ldr & pkL & skL & pkF & skF & d & ckL & kL & kF & Hl) Hn Hm He.
  exists ldr, pkL, skL, pkF, skF, d, ckL, kL, kF. simpl. destruct (decide (b = ldr)) as [->|Hb].
  - rewrite !upd_eq, !upd_other, upd_other_eq. by eapply linked_send_L.
  - assert (ldr = other b) as -> by (by destruct ldr, b). rewrite other_other in *.
    rewrite !upd_eq, !upd_other, upd_other_eq. by eapply linked_send_F.
Qed.

Lemma inv_lose c b l1 p l2 :
  inv c → fl c b = l1 ++ p :: l2 →
  inv (mkConfig (st c) (upd (fl c) b (l1 ++ l2)) (seen c) (wd c) (used c)).
Proof.
  intros (ldr & pkL & skL & pkF & skF & d & ckL & kL & kF & Hl) Hfl.
  exists ldr, pkL, skL, pkF, skF, d, ckL, kL, kF. simpl. destruct (decide (b = ldr)) as [->|Hb].
  - rewrite upd_eq, upd_other. destruct Hl. rewrite Hfl in *. split; try done.
    + by eapply (flight_remove _ (pkt_ok _ _ _ _)).
    + by eapply (flight_remove _ (λ _, True)).
  - assert (ldr = other b) as -> by (by destruct ldr, b). rewrite other_other in *.
    rewrite upd_eq, upd_other. destruct Hl. rewrite Hfl in *. split; try done.
    + by eapply (flight_remove _ (λ p, pkt_ok _ _ _ _ p ∨ on_fresh _ _ _ p)).
    + by eapply (flight_remove _ (λ _, True)).
Qed.

Lemma inv_start c : start c → inv c.
Proof.
  destruct 1 as [ss bpk bsk alice w w' Hw Hb Hi].
  destruct (init_sender_run ss bpk bsk w Hw Hb)
    as (pk & sk & d & w1 & Hg & Hp & Hw1 & _ & Hd & Hi').
  rewrite Hi in Hi'. injection Hi' as -> ->. exists Alice. simpl.
  exists pk, sk, bpk, bsk, d, (rk_step ss d).2, None, None. rewrite Hg. simpl.
  split; simpl; try done; try set_solver.
  - by destruct (rk_step ss d).
  - split; [by exists sk|done|done].
  - constructor.
  - constructor.
Qed.

(** The receiving chain of a side, and what it holds of the delivered packets. *)
Lemma inv_seen c b :
  inv c → ∃ k total, rx_ok (st c b) k total ∧ Forall (consumed (st c b) k) (seen c b) ∧
                     Forall (λ p, ratchet_public_key (p_header p) ∈ used c) (seen c b).
Proof.
  intros (ldr & pkL & skL & pkF & skF & d & ckL & kL & kF & Hl). destruct Hl.
  destruct (decide (b = ldr)) as [->|Hb].
  - exists kL, (send_message_number (st c (other ldr))). split; [done|].
    split; (eapply Forall_impl; [exact ln_seenL0|]; by intros q []).
  - assert (ldr = other b) as -> by (by destruct ldr, b). rewrite other_other in *.
    exists kF, (previous_chain_length (st c (other b))). split; [done|].
    split; (eapply Forall_impl; [exact ln_seenF0|]; by intros q (? & ? & ?)).
Qed.
(** Each side holds a ratchet key pair. *)
Lemma inv_keypair c b :
  inv c → ∃ pk sk, sending_keypair (st c b) = Some (pk, sk) ∧ box_pair pk sk.
Proof.
  intros (ldr & pkL & skL & pkF & skF & d & ckL & kL & kF & Hl). destruct Hl.
  destruct (decide (b = ldr)) as [->|Hb]; [by exists pkL, skL|].
  assert (ldr = other b) as -> by (by destruct ldr, b). rewrite other_other in *. by exists pkF, skF.
Qed.

Lemma inv_replay c b p :
  inv c → p ∈ seen c b → on_current_chain (st c b) p = true →
  decrypt (p_header p) (p_ct p) ad (st c b, wd c) =
    (Throw (RatchetError (bstr "message number already consumed")), (st c b, wd c)).
Proof.
  intros (k & total & Hrx & Hall & _)%(λ H, inv_seen c b H) Hin Hcur.
  rewrite Forall_forall in Hall. eapply consumed_again; [exact Hrx|by apply Hall|done].
Qed.
Lemma short_chain_in_window s k total p :
  rx_ok s k total → pkt_ok ad s k total p → total ≤ MAX_SKIP → 
  in_window s (p_header p) = true.
Proof.
  intros Hrx Hp Ht. unfold in_window.
  destruct (skipped_keys s !! _) as [mk|] eqn:Hmk; [done|].
  destruct Hp as [(mk & nc & Hmk' & _)|Hp]; [unfold p_id in Hmk'; congruence|].
  destruct k as [[[pk ck0] C]|]; [|done]. destruct Hrx as [[Hrem _ Hnum _ _] _].
  destruct Hp as ((Hpk & _) & _ & Hn). rewrite bool_decide_true by congruence.
  apply Z.leb_le. destruct Hnum. lia.
Qed.

Lemma inv_short_window c b p :
  inv c → p ∈ fl c b →
  (∀ b', send_message_number (st c b') ≤ MAX_SKIP ∧ previous_chain_length (st c b') ≤ MAX_SKIP) →
  in_window (st c b) (p_header p) = true.
Proof.
  intros Hinv Hin Hshort.
  destruct Hinv as (ldr & pkL & skL & pkF & skF & d & ckL & kL & kF & Hl). destruct Hl.
  rewrite Forall_forall in ln_flL0, ln_flF0. destruct (decide (b = ldr)) as [->|Hb].
  - eapply short_chain_in_window; [done|by apply ln_flL0|apply Hshort].
  - assert (ldr = other b) as -> by (by destruct ldr, b). rewrite other_other in *.
    destruct (ln_flF0 p Hin) as [Hp|(Hg & Hn & Hpl)].
    { eapply short_chain_in_window; [done|done|apply Hshort]. }
    pose proof (Hshort (other b)) as [Hs1 Hs2]. unfold in_window.
    rewrite (proj1 Hg), ln_unseen0, bool_decide_false by done.
    apply andb_true_intro. split; [|apply Z.leb_le; lia].
    destruct kF as [[[pk ck0] C]|]; [|by rewrite (proj1 ln_rxF0)].
    destruct ln_rxF0 as [[_ Hck [Hnum _] _ _] _]. rewrite Hck. apply Z.leb_le. lia.
Qed.
End invariant.

Section reachability.
Context {BP : BuildProfile} {SO : Sodium} {HA : Hashes}.
Context {SJ : SerdeJson RatchetStateSer} {HI : HashMapIter (key32 * Z) key32}.
Context {L : SodiumLaws SO} {LA : AeadLaws SO} {LH : HashLaws HA} {LK : KeyLaws SO}.
Context {LS : SerdeLaws RatchetStateSer SJ} {LI : HashMapIterLaws (key32 * Z) key32 HI}.
Variable ad : bytes.

Lemma restored_session s v s' : to_bytes s = Ret v → from_bytes v = Ret s' → s' = s.
Proof.
  intros Hv Hs. destruct (state_restored s) as (v' & Hv' & Hs').
  rewrite Hv in Hv'. injection Hv' as <-. rewrite Hs in Hs'. by injection Hs'.
Qed.

Lemma inv_reachable c : reachable ad c → inv ad c.
Proof.
  induction 1 as [c Hc|c c' _ IH Hstep]; [by apply inv_start|].
  destruct Hstep as [b m h ct s' w' Hn Hm He|b l1 p l2 o s' w' Hfl Hwin Hfresh Hd
                    |b p o s' w' Hin Hwin Hfresh Hd|b l1 p l2 Hfl|b p o s' w' Hin Hcur Hd|b v s' Hv Hs].
  - by apply inv_send.
  - destruct (inv_deliver ad c b l1 p l2 IH Hfl Hwin Hfresh) as (s2 & w2 & Hd2 & Hi).
    rewrite Hd in Hd2. injection Hd2 as -> -> ->. done.
  - destruct (inv_refuse ad c b p IH Hin Hwin Hfresh) as (s2 & w2 & Hd2 & Hi).
    rewrite Hd in Hd2. by injection Hd2 as -> -> ->.
  - by eapply inv_lose.
  - rewrite (inv_replay ad c b p IH Hin Hcur) in Hd. injection Hd as _ <- <-.
    apply inv_idle; [done|set_solver].
  - rewrite (restored_session _ _ _ Hv Hs). by apply inv_idle.
Qed.

(** Every ratchet key drawn in a session has a secret key. *)
Lemma used_paired c pk : reachable ad c → pk ∈ used c → ∃ sk, box_pair pk sk.
Proof.
  intros Hr. revert pk. induction Hr as [c Hc|c c' Hr IH Hstep].
  { destruct Hc as [ss bpk bsk alice w w' Hw Hb Hi]. simpl.
    intros pk [->%elem_of_singleton| ->%elem_of_singleton]%elem_of_union; [by eexists|].
    eexists. apply box_gen_pair. }
  assert (∀ b s, s = st c' b → ∀ pk, pk ∈ own_key s → ∃ sk, box_pair pk sk) as Hown.
  { intros b s -> pk. destruct (inv_keypair ad c' b) as (pk' & sk & Hkp & Hbox).
    { apply inv_reachable. by eapply reachable_step. }
    unfold own_key. rewrite Hkp. intros ->%elem_of_singleton. by exists sk. }
  destruct Hstep as [| b l1 p l2 o s' w'|b p o s' w'| |b p o s' w'|]; simpl in *; try exact IH;
    intros pk [Hpk|]%elem_of_union; try by apply IH.
  all: apply (Hown b s'); [by rewrite upd_eq|done].
Qed.
End reachability.

(** ** Properties *)
Section session_properties.
Context {BP : BuildProfile} {SO : Sodium} {HA : Hashes}.
Context {SJ : SerdeJson RatchetStateSer} {HI : HashMapIter (key32 * Z) key32}.
Context {L : SodiumLaws SO} {LA : AeadLaws SO} {LH : HashLaws HA} {LK : KeyLaws SO}.
Context {LS : SerdeLaws RatchetStateSer SJ} {LI : HashMapIterLaws (key32 * Z) key32 HI}.

(** C1: end-to-end correctness of the Double Ratchet. In every configuration
    that the two sides and the network can reach from the handshake, by encrypting
    in any order, delivering any packet in flight in any order (across DH ratchet
    steps in both directions), losing packets, offering packets that are too far
    ahead, delivering packets of the current chain again, and storing and restoring
    sessions, [decrypt] on any packet in flight returns its plaintext if the packet
    is inside the [MAX_SKIP] window, and otherwise the error that too many messages
    were skipped, and nothing else. *)
Theorem session_window_exact ad c b p :
  reachable ad c → p ∈ fl c b → next_key_fresh c →
  ∃ s' w', decrypt (p_header p) (p_ct p) ad (st c b, wd c)
    = (if in_window (st c b) (p_header p) then Ret (p_msg p)
       else Throw (RatchetError (bstr "too many skipped messages")), (s', w')).
Proof.
  intros Hr Hin Hfresh. pose proof (inv_reachable ad c Hr) as Hi.
  destruct (in_window _ _) eqn:Hwin.
  - pose proof Hin as (l1 & l2 & Hfl)%list_elem_of_split.
    destruct (inv_deliver ad c b l1 p l2 Hi Hfl Hwin Hfresh) as (s' & w' & Hd & _). by exists s', w'.
  - destruct (inv_refuse ad c b p Hi Hin Hwin Hfresh) as (s' & w' & Hd & _). by exists s', w'.
Qed.

(** The packets of the window on their own. *)
Theorem session_decrypts_in_flight ad c b p :
  reachable ad c → p ∈ fl c b → in_window (st c b) (p_header p) = true → next_key_fresh c →
  ∃ s' w', decrypt (p_header p) (p_ct p) ad (st c b, wd c) = (Ret (p_msg p), (s', w')).
Proof.
  intros Hr (l1 & l2 & Hfl)%list_elem_of_split Hwin Hfresh.
  destruct (inv_deliver ad c b l1 p l2 (inv_reachable ad c Hr) Hfl Hwin Hfresh) as (s' & w' & Hd & _).
  by exists s', w'.
Qed.

(** C4: chains of at most [MAX_SKIP] messages never leave the window: as long
    as no side has sent more than [MAX_SKIP] messages on its current or previous
    chain, every packet in flight decrypts to its plaintext, with no condition on
    the order of delivery. *)
Theorem short_chains_always_deliver ad c b p :
  reachable ad c → p ∈ fl c b → next_key_fresh c →
  (∀ b', send_message_number (st c b') ≤ MAX_SKIP ∧ previous_chain_length (st c b') ≤ MAX_SKIP) →
  ∃ s' w', decrypt (p_header p) (p_ct p) ad (st c b, wd c) = (Ret (p_msg p), (s', w')).
Proof.
  intros Hr Hin Hfresh Hshort. pose proof Hin as (l1 & l2 & Hfl)%list_elem_of_split.
  pose proof (inv_reachable ad c Hr) as Hinv.
  assert (in_window (st c b) (p_header p) = true) as Hwin by (by apply (inv_short_window ad c)).
  destruct (inv_deliver ad c b l1 p l2 Hinv Hfl Hwin Hfresh) as (s' & w' & Hd & _).
  by exists s', w'.
Qed.

(** C5: the invariant that keeps the two sessions in step: in every reachable
    configuration one side is one DH ratchet step ahead of the other. It has
    ratcheted with the other's current public key, the Diffie-Hellman secret
    exists on the other's side, and one [kdf_rk] of the other's root key yields its
    root key. *)
Theorem session_roots_in_step ad c :
  reachable ad c →
  ∃ ldr pkL skL pkF skF d,
    sending_keypair (st c ldr) = Some (pkL, skL) ∧
    sending_keypair (st c (other ldr)) = Some (pkF, skF) ∧
    remote_ratchet_key (st c ldr) = Some pkF ∧
    dh_exchange skF pkL = Ret d ∧
    ∃ ck, kdf_rk (root_key (st c (other ldr))) d = Ret (root_key (st c ldr), ck).
Proof.
  intros Hr. destruct (inv_reachable ad c Hr) as (ldr & pkL & skL & pkF & skF & d & ckL & kL & kF & Hl).
  destruct Hl. exists ldr, pkL, skL, pkF, skF, d. split_and!; try done.
  - by rewrite dh_exchange_eq, ln_dh0.
  - exists ckL. by rewrite kdf_rk_total, ln_root0.
Qed.

(** C16: a packet delivered a second time is harmless while its chain is the
    current one: in every reachable configuration, a packet that was delivered to a
    side and carries the ratchet key that the side receives under is refused as
    already consumed, and neither the session nor the generator changes. *)
Theorem session_replay_harmless ad c b p :
  reachable ad c → p ∈ seen c b → on_current_chain (st c b) p = true →
  decrypt (p_header p) (p_ct p) ad (st c b, wd c) =
    (Throw (RatchetError (bstr "message number already consumed")), (st c b, wd c)).
Proof. intros Hr. apply inv_replay. by apply inv_reachable. Qed.

(** C7: the keys of delivered messages are not kept: in every reachable
    configuration, whatever the order of delivery and however many ratchet steps
    ago, the cache of a side holds no key for a packet that was delivered to it, and
    if the packet belongs to the current receiving chain, the chain key kept is that
    of a later number. *)
Theorem session_keys_erased ad c b p :
  reachable ad c → p ∈ seen c b →
  skipped_keys (st c b) !! p_id p = None ∧
  (on_current_chain (st c b) p = true →
   ∃ ck0, receiving_chain_key (st c b)
          = Some (chain_at ck0 (Z.to_nat (recv_message_number (st c b)))) ∧
          0 ≤ message_number (p_header p) < recv_message_number (st c b)).
Proof.
  intros Hr Hin. destruct (inv_seen ad c b (inv_reachable ad c Hr)) as (k & total & Hrx & Hall & _).
  rewrite Forall_forall in Hall. destruct (Hall p Hin) as [Hno Hk]. split; [done|].
  intros Hcur%bool_decide_eq_true. destruct (Hk Hcur) as (pk & ck0 & C & -> & HC).
  destruct Hrx as [[_ Hck _ _ Hcons] _]. exists ck0. split; [done|]. by apply Hcons.
Qed.

(** A side that has a sending chain can always send: in a reachable
    configuration [encrypt] succeeds as long as the counter is below its maximum
    and the plaintext fits in memory.*)
Theorem session_encrypt_succeeds ad c b m :
  reachable ad c → sending_chain_key (st c b) ≠ None →
  is_u32 (send_message_number (st c b) + 1) → blen m + 40 ≤ isize_max →
  ∃ h ct s' w', encrypt m ad (st c b, wd c) = (Ret (h, ct), (s', w')) ∧
                message_number h = send_message_number (st c b).
Proof.
  intros Hr Hck Hn Hm.
  destruct (inv_reachable ad c Hr) as (ldr & pkL & skL & pkF & skF & d & ckL & kL & kF & Hl).
  destruct Hl. assert (∃ pk ck0, send_chain (st c b) pk ck0) as (pk & ck0 & Hsc).
  { destruct (decide (b = ldr)) as [->|Hb]; [by eexists _, _|].
    assert (ldr = other b) as -> by (by destruct ldr, b). rewrite other_other in *.
    destruct kL as [[[pk ck0] C]|]; [|done]. destruct ln_link0 as [_ ?]. by eexists _, _. }
  destruct (encrypt_chain (st c b) (wd c) pk ck0 m ad ln_ready0 Hsc Hn Hm)
    as (h & ct & s' & w' & He & -> & _). by eexists _, _, _, _.
Qed.
End session_properties.

(** ** Executable runs

    A schedule is a list of actions; [exec] performs one, checking the guards of
    [step], so that concrete runs are computed. *)
Inductive action :=
| Send (b : side) (m : bytes)
| Deliver (b : side) (i : nat)
| Refuse (b : side) (i : nat)
| Lose (b : side) (i : nat)
| Replay (b : side) (i : nat)
| Restart (b : side).

#[export] Instance is_u32_dec z : Decision (is_u32 z).
Proof. unfold is_u32, in_width. apply _. Defined.
#[export] Instance next_key_fresh_dec {SO : Sodium} (c : config) : Decision (next_key_fresh c).
Proof. unfold next_key_fresh. apply _. Defined.

Section exec.
Context {BP : BuildProfile} {SO : Sodium} {HA : Hashes} {LK : KeyLaws SO}.
Context {SJ : SerdeJson RatchetStateSer} {HI : HashMapIter (key32 * Z) key32}.
Variable ad : bytes.

Definition exec (a : action) (c : config) : option config :=
  match a with
  | Send b m =>
      if decide (is_u32 (send_message_number (st c b) + 1) ∧ blen m + 40 ≤ isize_max) then
        match encrypt m ad (st c b, wd c) with
        | (Ret (h, ct), (s', w')) =>
            Some (mkConfig (upd (st c) b s')
                    (upd (fl c) (other b) (mkPacket h ct m :: fl c (other b))) (seen c) w' (used c))
        | _ => None
        end
      else None
  | Deliver b i =>
      p ← fl c b !! i;
      if decide (in_window (st c b) (p_header p) = true ∧ next_key_fresh c) then
        let '(_, (s', w')) := decrypt (p_header p) (p_ct p) ad (st c b, wd c) in
        Some (mkConfig (upd (st c) b s') (upd (fl c) b (take i (fl c b) ++ drop (S i) (fl c b)))
                (upd (seen c) b (p :: seen c b)) w' (own_key s' ∪ used c))
      else None
  | Refuse b i =>
      p ← fl c b !! i;
      if decide (in_window (st c b) (p_header p) = false ∧ next_key_fresh c) then
        let '(_, (s', w')) := decrypt (p_header p) (p_ct p) ad (st c b, wd c) in
        Some (mkConfig (upd (st c) b s') (fl c) (seen c) w' (own_key s' ∪ used c))
      else None
  | Lose b i =>
      p ← fl c b !! i;
      Some (mkConfig (st c) (upd (fl c) b (take i (fl c b) ++ drop (S i) (fl c b))) (seen c)
              (wd c) (used c))
  | Replay b i =>
      p ← seen c b !! i;
      if on_current_chain (st c b) p then
        let '(_, (s', w')) := decrypt (p_header p) (p_ct p) ad (st c b, wd c) in
        Some (mkConfig (upd (st c) b s') (fl c) (seen c) w' (own_key s' ∪ used c))
      else None
  | Restart b =>
      match to_bytes (st c b) with
      | Ret v => match from_bytes v with
                 | Ret s' => Some (mkConfig (upd (st c) b s') (fl c) (seen c) (wd c) (used c))
                 | _ => None
                 end
      | _ => None
      end
  end.
Fixpoint exec_all (l : list action) (c : config) : option config :=
  match l with [] => Some c | a :: l => c' ← exec a c; exec_all l c' end.

Lemma exec_step a c c' : exec a c = Some c' → step ad c c'.
Proof.
  destruct a as [b m|b i|b i|b i|b i|b]; cbn -[encrypt decrypt]; intros H.
  - case_decide as Hg; [|done]. destruct Hg as [Hu Hm].
    destruct (encrypt _ _ _) as [[[h ct]|e|] [s' w']] eqn:He; [|done..].
    injection H as <-. by eapply step_send.
  - apply bind_Some in H as (p & Hp & H). case_decide as Hg; [|done]. destruct Hg as [Hw Hf].
    destruct (decrypt _ _ _ _) as [o [s' w']] eqn:Hd. injection H as <-.
    eapply step_deliver; [|done..|exact Hd]. by rewrite take_drop_middle.
  - apply bind_Some in H as (p & Hp & H). case_decide as Hg; [|done]. destruct Hg as [Hw Hf].
    destruct (decrypt _ _ _ _) as [o [s' w']] eqn:Hd. injection H as <-.
    eapply step_refuse; [by eapply list_elem_of_lookup_2|done|done|exact Hd].
  - apply bind_Some in H as (p & Hp & H). injection H as <-.
    apply (step_lose _ _ _ _ p). by rewrite take_drop_middle.
  - apply bind_Some in H as (p & Hp & H). destruct (on_current_chain _ p) eqn:Hc; [|done].
    destruct (decrypt _ _ _ _) as [o [s' w']] eqn:Hd. injection H as <-.
    eapply step_replay; [by eapply list_elem_of_lookup_2|done|exact Hd].
  - destruct (to_bytes _) as [v| |] eqn:Hv; [|done..].
    destruct (from_bytes v) as [s'| |] eqn:Hs; [|done..].
    injection H as <-. by eapply step_restart.
Qed.
Lemma exec_all_reachable l c c' : reachable ad c → exec_all l c = Some c' → reachable ad c'.
Proof.
  revert c. induction l as [|a l IH]; intros c Hr H; simpl in H; [by injection H as <-|].
  apply bind_Some in H as (c1 & Hc1 & H). eapply IH; [|exact H].
  eapply reachable_step; [exact Hr|]. by eapply exec_step.
Qed.
End exec.

(** ** Witnesses: concrete runs *)
Abbreviation toy_decrypt := (@decrypt debug_profile toy_sodium toy_hashes).
Abbreviation toy_serde := (countable_serde RatchetStateSer).
Abbreviation toy_reachable :=
  (@reachable debug_profile toy_sodium toy_hashes toy_key_laws toy_serde map_iter wit_ad).
Definition toy_exec (l : list action) (c : config) : option config :=
  @exec_all debug_profile toy_sodium toy_hashes toy_serde map_iter wit_ad l c.

(** The configuration after the handshake. *)
Definition toy_start : @config toy_sodium :=
  match @init_sender toy_sodium toy_hashes wit_ss wit_pk 5 with
  | (Ret alice, w) =>
      mkConfig (λ b, match b with Alice => alice | Bob => init_receiver wit_ss (wit_pk, wit_pk) end)
        (λ _, []) (λ _, []) w ({[wit_pk; (@box_gen_keypair toy_sodium 5).1.1]})
  | (_, w) => mkConfig (λ _, init_receiver wit_ss (wit_pk, wit_pk)) (λ _, []) (λ _, []) w ∅
  end.
Lemma toy_start_reachable : toy_reachable toy_start.
Proof.
  apply reachable_start. unfold toy_start.
  destruct (@init_sender_run toy_sodium toy_hashes _ _ toy_key_laws wit_ss wit_pk wit_pk 5)
    as (pk & sk & d & w1 & _ & _ & _ & _ & _ & Hi); [done..|].
  rewrite Hi. by apply start_intro.
Qed.
Lemma toy_exec_reachable l c : toy_exec l toy_start = Some c → toy_reachable c.
Proof. intros H. eapply exec_all_reachable; [exact toy_start_reachable|exact H]. Qed.

(** The configuration at the end of a schedule. *)
Definition toy_conf (l : list action) : @config toy_sodium := default toy_start (toy_exec l toy_start).
Lemma toy_conf_reachable l : toy_reachable (toy_conf l).
Proof.
  unfold toy_conf. destruct (toy_exec l toy_start) as [c|] eqn:H; [|exact toy_start_reachable].
  eapply exec_all_reachable; [exact toy_start_reachable|exact H].
Qed.

(** Alice's first message in flight; and the same after it was delivered. *)
Definition wit_sent : config := toy_conf [Send Alice (bstr "hi")].
Definition wit_delivered : config := toy_conf [Send Alice (bstr "hi"); Deliver Bob 0].
Definition wit_packet : packet :=
  default (mkPacket (wit_header 0) [] []) (head (fl wit_sent Bob)).
Lemma wit_in_flight : wit_packet ∈ fl wit_sent Bob.
Proof. apply (list_elem_of_lookup_2 _ 0%nat). by vm_compute. Qed.
Lemma wit_in_window : in_window (st wit_sent Bob) (p_header wit_packet) = true.
Proof. by vm_compute. Qed.
Lemma wit_fresh : next_key_fresh wit_sent.
Proof. apply (bool_decide_unpack _). by vm_compute. Qed.
Lemma wit_short b :
  send_message_number (st wit_sent b) ≤ MAX_SKIP ∧ previous_chain_length (st wit_sent b) ≤ MAX_SKIP.
Proof. destruct b; split; apply Z.leb_le; by vm_compute. Qed.

Lemma session_window_exact_witness :
  ∃ s' w', toy_decrypt (p_header wit_packet) (p_ct wit_packet) wit_ad (st wit_sent Bob, wd wit_sent)
    = (if in_window (st wit_sent Bob) (p_header wit_packet) then Ret (p_msg wit_packet)
       else Throw (RatchetError (bstr "too many skipped messages")), (s', w')).
Proof.
  exact (@session_window_exact debug_profile toy_sodium toy_hashes _ map_iter _ _ _ _
           (countable_serde_laws _) map_iter_laws wit_ad wit_sent Bob wit_packet
           (toy_conf_reachable _) wit_in_flight wit_fresh).
Defined.
Lemma session_decrypts_in_flight_witness :
  ∃ s' w', toy_decrypt (p_header wit_packet) (p_ct wit_packet) wit_ad (st wit_sent Bob, wd wit_sent)
           = (Ret (p_msg wit_packet), (s', w')).
Proof.
  exact (@session_decrypts_in_flight debug_profile toy_sodium toy_hashes _ map_iter _ _ _ _
           (countable_serde_laws _) map_iter_laws wit_ad wit_sent Bob wit_packet
           (toy_conf_reachable _) wit_in_flight wit_in_window wit_fresh).
Defined.
Lemma short_chains_always_deliver_witness :
  ∃ s' w', toy_decrypt (p_header wit_packet) (p_ct wit_packet) wit_ad (st wit_sent Bob, wd wit_sent)
           = (Ret (p_msg wit_packet), (s', w')).
Proof.
  exact (@short_chains_always_deliver debug_profile toy_sodium toy_hashes _ map_iter _ _ _ _
           (countable_serde_laws _) map_iter_laws wit_ad wit_sent Bob wit_packet
           (toy_conf_reachable _) wit_in_flight wit_fresh wit_short).
Defined.
Lemma session_roots_in_step_witness :
  ∃ ldr pkL skL pkF skF d,
    sending_keypair (st wit_sent ldr) = Some (pkL, skL) ∧
    sending_keypair (st wit_sent (other ldr)) = Some (pkF, skF) ∧
    remote_ratchet_key (st wit_sent ldr) = Some pkF ∧ @dh_exchange toy_sodium skF pkL = Ret d ∧
    ∃ ck, @kdf_rk toy_hashes (root_key (st wit_sent (other ldr))) d
          = Ret (root_key (st wit_sent ldr), ck).
Proof.
  exact (@session_roots_in_step debug_profile toy_sodium toy_hashes _ map_iter _ _ _ _
           (countable_serde_laws _) map_iter_laws wit_ad wit_sent (toy_conf_reachable _)).
Defined.
Lemma session_replay_harmless_witness :
  toy_decrypt (p_header wit_packet) (p_ct wit_packet) wit_ad (st wit_delivered Bob, wd wit_delivered) =
    (Throw (RatchetError (bstr "message number already consumed")),
     (st wit_delivered Bob, wd wit_delivered)).
Proof.
  assert (wit_packet ∈ seen wit_delivered Bob) as Hin
    by (apply (list_elem_of_lookup_2 _ 0%nat); by vm_compute).
  assert (on_current_chain (st wit_delivered Bob) wit_packet = true) as Hcur by (by vm_compute).
  exact (@session_replay_harmless debug_profile toy_sodium toy_hashes _ map_iter _ _ _ _
           (countable_serde_laws _) map_iter_laws wit_ad wit_delivered Bob wit_packet
           (toy_conf_reachable _) Hin Hcur).
Defined.
Lemma session_keys_erased_witness :
  skipped_keys (st wit_delivered Bob) !! p_id wit_packet = None ∧
  0 ≤ message_number (p_header wit_packet) < recv_message_number (st wit_delivered Bob).
Proof.
  assert (wit_packet ∈ seen wit_delivered Bob) as Hin
    by (apply (list_elem_of_lookup_2 _ 0%nat); by vm_compute).
  assert (on_current_chain (st wit_delivered Bob) wit_packet = true) as Hcur by (by vm_compute).
  destruct (@session_keys_erased debug_profile toy_sodium toy_hashes _ map_iter _ _ _ _
              (countable_serde_laws _) map_iter_laws wit_ad wit_delivered Bob wit_packet
              (toy_conf_reachable _) Hin) as [H1 H2].
  destruct (H2 Hcur) as (ck0 & _ & H3). split; [exact H1|exact H3].
Defined.
Lemma session_encrypt_succeeds_witness :
  ∃ h ct s' w',
    @encrypt debug_profile toy_sodium toy_hashes (bstr "yo") wit_ad (st wit_sent Alice, wd wit_sent)
    = (Ret (h, ct), (s', w')) ∧ message_number h = send_message_number (st wit_sent Alice).
Proof.
  assert (sending_chain_key (st wit_sent Alice) ≠ None) as Hck by (by vm_compute).
  assert (is_u32 (send_message_number (st wit_sent Alice) + 1)) as Hn by (by vm_compute).
  exact (@session_encrypt_succeeds debug_profile toy_sodium toy_hashes _ map_iter _ _ _ _
           (countable_serde_laws _) map_iter_laws wit_ad wit_sent Alice (bstr "yo")
           (toy_conf_reachable _) Hck Hn ltac:(done)).
Defined.
