(* ===== verification/RatchetRuns.v ===== *)
(** * Runs of the two sessions: draining the network

    [drain] is a run of deliveries only. It ends after as many steps as there are
    packets in flight, and with short chains it hands over every plaintext. *)

From S2P Require Import Prelude RustStr Errors Sodium Instances AesGcm DoubleRatchet.
From S2P Require Import RatchetFacts RatchetChain RatchetProps SignalSpec RatchetFrame.
From S2P Require Import RatchetNetwork RatchetReceive RatchetSession.
Local Open Scope rust_scope.

(** ** Draining the network *)
Section drain.
Context {BP : BuildProfile} {SO : Sodium} {HA : Hashes} {LK : KeyLaws SO}.
Variable ad : bytes.

(** One delivery to [b], of any packet in flight to it. *)
Inductive delivery (c : config) (b : side) : outcome CryptoError bytes → config → Prop :=
| delivery_intro l1 p l2 o s' w' :
    fl c b = l1 ++ p :: l2 → next_key_fresh c →
    decrypt (p_header p) (p_ct p) ad (st c b, wd c) = (o, (s', w')) →
    delivery c b o (mkConfig (upd (st c) b s') (upd (fl c) b (l1 ++ l2))
                      (upd (seen c) b (p :: seen c b)) w' (own_key s' ∪ used c)).

(** A run of deliveries, with the side and the result of each. *)
Inductive drain : config → list (side * outcome CryptoError bytes) → config → Prop :=
| drain_nil c : drain c [] c
| drain_cons c b o c1 os c2 : delivery c b o c1 → drain c1 os c2 → drain c ((b, o) :: os) c2.

Definition in_flight (c : config) : nat := length (fl c Alice) + length (fl c Bob).
(** The chains in use are short enough that no packet leaves the window. *)
Definition short (c : config) : Prop :=
  ∀ b, send_message_number (st c b) ≤ MAX_SKIP ∧ previous_chain_length (st c b) ≤ MAX_SKIP.
(** What a run handed to [b]; the plaintexts in flight to it. *)
Definition handed (b : side) (os : list (side * outcome CryptoError bytes)) :
  list (outcome CryptoError bytes) := (filter (λ x, x.1 = b) os).*2.
Definition pending (b : side) (c : config) : list (outcome CryptoError bytes) :=
  (λ p, Ret (p_msg p)) <$> fl c b.

(** Each delivery takes one packet out of flight. *)
Lemma delivery_in_flight c b o c' : delivery c b o c' → in_flight c = S (in_flight c').
Proof.
  destruct 1 as [l1 p l2 o s' w' Hfl _ _]. unfold in_flight. simpl.
  destruct b; rewrite ?upd_eq; unfold upd; simpl; rewrite Hfl, !length_app; simpl; lia.
Qed.
Lemma delivery_possible c b :
  fl c b ≠ [] → next_key_fresh c → ∃ o c', delivery c b o c'.
Proof.
  intros Hfl Hf. destruct (fl c b) as [|p l] eqn:He; [done|].
  destruct (decrypt (p_header p) (p_ct p) ad (st c b, wd c)) as [o [s' w']] eqn:Hd.
  eexists o, _. by apply (delivery_intro c b [] p l o s' w').
Qed.
End drain.

Section draining.
Context {BP : BuildProfile} {SO : Sodium} {HA : Hashes}.
Context {L : SodiumLaws SO} {LA : AeadLaws SO} {LH : HashLaws HA} {LK : KeyLaws SO}.
Variable ad : bytes.

(** Short chains stay short: a ratchet step restarts the counters. *)
Lemma delivery_short c b o c' : short c → delivery ad c b o c' → short c'.
Proof.
  intros Hs Hd b'. destruct Hd as [l1 p l2 o s' w' _ _ Hd]. simpl.
  unfold upd. case_decide as Hb; [subst b'|apply Hs].
  pose proof (decrypt_counters (p_header p) (p_ct p) ad (st c b) (wd c)) as Hc.
  rewrite Hd in Hc. simpl in Hc. destruct (Hs b), Hc as [[-> ->]|[-> ->]]; by split.
Qed.

Lemma delivery_delivers c b o c' :
  inv ad c → short c → delivery ad c b o c' →
  inv ad c' ∧ (∀ b', (if decide (b = b') then [o] else []) ++ pending b' c' ≡ₚ pending b' c).
Proof.
  intros Hi Hs Hd. destruct Hd as [l1 p l2 o s' w' Hfl Hf Hd].
  assert (in_window (st c b) (p_header p) = true) as Hw.
  { apply (inv_short_window ad c b p); [done| |exact Hs]. rewrite Hfl. set_solver. }
  destruct (inv_deliver ad c b l1 p l2 Hi Hfl Hw Hf) as (s2 & w2 & Hd2 & Hi2).
  rewrite Hd in Hd2. injection Hd2 as -> -> ->. split; [done|].
  intros b'. unfold pending. simpl. unfold upd. destruct (decide (b = b')) as [<-|Hb].
  - rewrite decide_True by done. rewrite Hfl, !fmap_app, fmap_cons. simpl. apply Permutation_middle.
  - by rewrite decide_False by congruence.
Qed.

Lemma drain_delivers c os c' :
  inv ad c → short c → drain ad c os c' →
  ∀ b, handed b os ++ pending b c' ≡ₚ pending b c.
Proof.
  intros Hi Hs Hd. induction Hd as [c|c b o c1 os c2 Hd1 Hd IH]; intros b'; [done|].
  destruct (delivery_delivers _ _ _ _ Hi Hs Hd1) as [Hi1 Hp].
  pose proof (delivery_short _ _ _ _ Hs Hd1) as Hs1.
  rewrite <-(Hp b'), <-(IH Hi1 Hs1 b'). unfold handed. rewrite filter_cons. simpl.
  destruct (decide (b = b')); done.
Qed.
Lemma drain_in_flight c os c' : drain ad c os c' → in_flight c = (length os + in_flight c')%nat.
Proof.
  induction 1 as [|c b o c1 os c2 Hd1 Hd IH]; [done|].
  rewrite (delivery_in_flight _ _ _ _ _ Hd1), IH. done.
Qed.
End draining.

Section drain_properties.
Context {BP : BuildProfile} {SO : Sodium} {HA : Hashes}.
Context {SJ : SerdeJson RatchetStateSer} {HI : HashMapIter (key32 * Z) key32}.
Context {L : SodiumLaws SO} {LA : AeadLaws SO} {LH : HashLaws HA} {LK : KeyLaws SO}.
Context {LS : SerdeLaws RatchetStateSer SJ} {LI : HashMapIterLaws (key32 * Z) key32 HI}.

(** C6: the network drains, and draining hands over every message. From a
    reachable configuration with short chains, a run of deliveries in any order,
    to either side, has at most as many steps as there are packets in flight; as
    long as packets remain and the next ratchet key is fresh it can be continued;
    and when none remain, each side has been handed, as results of [decrypt], the
    plaintexts that were in flight to it, each once. *)
Theorem draining_delivers_everything ad c os c' :
  reachable ad c → short c → drain ad c os c' →
  (length os ≤ in_flight c)%nat ∧
  (in_flight c' ≠ O → next_key_fresh c' → ∃ b o c'', drain ad c' [(b, o)] c'') ∧
  (in_flight c' = O →
   length os = in_flight c ∧ ∀ b, handed b os ≡ₚ (λ p, Ret (p_msg p)) <$> fl c b).
Proof.
  intros Hr Hs Hd. pose proof (drain_in_flight _ _ _ _ Hd) as Hn. split; [lia|]. split.
  - intros Hne Hf. assert (∃ b, fl c' b ≠ []) as [b Hb].
    { unfold in_flight in Hne. destruct (fl c' Alice) eqn:HA'; [|by exists Alice; rewrite HA'].
      destruct (fl c' Bob) eqn:HB'; [done|by exists Bob; rewrite HB']. }
    destruct (delivery_possible ad c' b Hb Hf) as (o & c'' & Hdel).
    exists b, o, c''. eapply drain_cons; [done|constructor].
  - intros H0. split; [lia|]. intros b.
    pose proof (drain_delivers ad c os c' (inv_reachable ad c Hr) Hs Hd b) as Hp.
    assert (pending b c' = []) as He.
    { unfold pending, in_flight in *.
      destruct (fl c' Alice) eqn:HA', (fl c' Bob) eqn:HB'; try done. destruct b; by rewrite ?HA', ?HB'. }
    by rewrite He, app_nil_r in Hp.
Qed.
End drain_properties.

(** A schedule of deliveries is a run. *)
Lemma exec_drain {BP : BuildProfile} {SO : Sodium} {HA : Hashes} {LK : KeyLaws SO}
  {SJ : SerdeJson RatchetStateSer} {HI : HashMapIter (key32 * Z) key32} ad
  (l : list (side * nat)) c c' :
  exec_all ad ((λ x, Deliver x.1 x.2) <$> l) c = Some c' → ∃ os, drain ad c os c'.
Proof.
  revert c. induction l as [|[b i] l IH]; intros c H.
  { injection H as <-. exists []. constructor. }
  cbn -[decrypt] in H. apply bind_Some in H as (c1 & Hc1 & H). apply bind_Some in Hc1 as (p & Hp & Hc1).
  case_decide as Hg; [|done]. destruct (decrypt _ _ _ _) as [o [s' w']] eqn:Hd. injection Hc1 as <-.
  destruct (IH _ H) as [os Hos]. exists ((b, o) :: os). eapply drain_cons; [|exact Hos].
  eapply delivery_intro; [|apply Hg|exact Hd]. by rewrite take_drop_middle.
Qed.

(** Three packets in flight, two to Bob and one to Alice, drained out of order. *)
Definition wit_busy : config :=
  toy_conf [Send Alice (bstr "hi"); Deliver Bob 0; Send Alice (bstr "there"); Send Alice (bstr "Bob");
            Send Bob (bstr "hey")].
Lemma wit_busy_short : short wit_busy.
Proof. intros []; split; apply Z.leb_le; by vm_compute. Qed.
Lemma wit_busy_in_flight : in_flight wit_busy = 3%nat.
Proof. by vm_compute. Qed.
Lemma wit_busy_pending b :
  (λ p, Ret (E:=CryptoError) (p_msg p)) <$> fl wit_busy b =
  match b with Alice => [Ret (bstr "hey")] | Bob => [Ret (bstr "Bob"); Ret (bstr "there")] end.
Proof. destruct b; by vm_compute. Qed.
Definition wit_schedule : list action :=
  (λ x : side * nat, Deliver x.1 x.2) <$> [(Alice, 0%nat); (Bob, 0%nat); (Bob, 0%nat)].
Lemma toy_exec_drain c c' : toy_exec wit_schedule c = Some c' →
  ∃ os, @drain debug_profile toy_sodium toy_hashes wit_ad c os c'.
Proof. apply exec_drain. Qed.
Lemma wit_busy_drains :
  ∃ os c', @drain debug_profile toy_sodium toy_hashes wit_ad wit_busy os c' ∧ in_flight c' = O.
Proof.
  assert (match toy_exec wit_schedule wit_busy with
          | Some c => bool_decide (in_flight c = O) | None => false end = true) as Hrun by (by vm_compute).
  destruct (toy_exec wit_schedule wit_busy) as [c'|] eqn:He; [|done].
  apply bool_decide_eq_true in Hrun.
  destruct (toy_exec_drain _ _ He) as [os Hos]. exists os, c'. split; [exact Hos|exact Hrun].
Qed.
Lemma draining_delivers_everything_witness :
  ∃ os c', @drain debug_profile toy_sodium toy_hashes wit_ad wit_busy os c' ∧
           length os = 3%nat ∧ handed Bob os ≡ₚ [Ret (bstr "Bob"); Ret (bstr "there")] ∧
           handed Alice os ≡ₚ [Ret (bstr "hey")].
Proof.
  destruct wit_busy_drains as (os & c' & Hos & H0). exists os, c'. split; [exact Hos|].
  destruct (@draining_delivers_everything debug_profile toy_sodium toy_hashes _ map_iter _ _ _ _
              (countable_serde_laws _) map_iter_laws wit_ad wit_busy os c' (toy_conf_reachable _)
              wit_busy_short Hos) as (_ & _ & Hall).
  destruct (Hall H0) as [Hn Hh]. rewrite wit_busy_in_flight in Hn.
  pose proof (Hh Alice) as HA'. pose proof (Hh Bob) as HB'. rewrite wit_busy_pending in HA', HB'.
  split; [exact Hn|]. split; [exact HB'|exact HA'].
Defined.
