(* ===== verification/RatchetScripts.v ===== *)
(** * Scripts of a conversation

    A script says in which order the two users encrypt messages and read packets,
    in any interleaving; [run_script] is the client code that does so, with the
    assertion of the tests after every read. [plausible] is the reference: a bag of
    packets that are waiting, with no cryptography. The theorem is that the program
    passes every plausible script. *)

From S2P Require Import Prelude RustStr Errors Sodium Instances Harness AesGcm DoubleRatchet.
From S2P Require Import RatchetFacts RatchetChain RatchetProps RatchetFrame RatchetNetwork.
From S2P Require Import RatchetReceive RatchetSession RatchetRuns.
Local Open Scope rust_scope.

(** [Says b text]: [b] encrypts [text]; the packets are numbered from 0 in the
    order of these calls. [Reads i]: the addressee decrypts packet [i]. *)
Inductive op :=
| Says (b : side) (text : bytes)
| Reads (i : nat).

Section scripts.
Context {BP : BuildProfile} {SO : Sodium} {HA : Hashes}.

(** The two sessions, and the packets with their addressees. *)
Definition table : Type := (side → RatchetState) * list (side * packet).

Definition run_op (ad : bytes) (o : op) (t : table) : M rng CryptoError table :=
  let '(st, log) := t in
  match o with
  | Says b text =>
      '((h, ct), s) ← unwrap (with_session (encrypt text ad) (st b));
      mret (upd st b s, log ++ [(other b, mkPacket h ct text)])
  | Reads i =>
      '(b, p) ← lift (index log (Z.of_nat i));
      '(pt, s) ← unwrap (with_session (decrypt (p_header p) (p_ct p) ad) (st b));
      assert_that (bool_decide (pt = p_msg p));;
      mret (upd st b s, log)
  end.
Fixpoint run_script (ad : bytes) (script : list op) (t : table) : M rng CryptoError table :=
  match script with
  | [] => mret t
  | o :: script => t ← run_op ad o t; run_script ad script t
  end.

(** No DH ratchet step of the script draws a ratchet key that was used before. *)
Fixpoint fresh_keys (ad : bytes) (script : list op) (U : gset key32) (t : table) (w : rng) : Prop :=
  match script with
  | [] => True
  | o :: script =>
      match o with Says _ _ => True | Reads _ => (box_gen_keypair w).1.1 ∉ U end ∧
      match run_op ad o t w with
      | (Ret t', w') =>
          fresh_keys ad script (own_key (t'.1 Alice) ∪ own_key (t'.1 Bob) ∪ U) t' w'
      | _ => True
      end
  end.
End scripts.

(** ** The reference

    [log] holds the addressees of the packets, [waiting] the numbers not yet read,
    [started] whether Bob has read something. *)
Definition plausible_op (o : op) (log : list side) (waiting : gset nat) (started : bool) :
  option (list side * gset nat * bool) :=
  match o with
  | Says b _ =>
      if decide (b = Alice ∨ started = true)
      then Some (log ++ [other b], {[length log]} ∪ waiting, started) else None
  | Reads i =>
      b ← log !! i;
      if decide (i ∈ waiting)
      then Some (log, waiting ∖ {[i]}, started || bool_decide (b = Bob)) else None
  end.
Fixpoint plausible (script : list op) (log : list side) (waiting : gset nat) (started : bool) : bool :=
  match script with
  | [] => true
  | o :: script =>
      match plausible_op o log waiting started with
      | Some (log, waiting, started) => plausible script log waiting started
      | None => false
      end
  end.
Definition op_fits (o : op) : Prop :=
  match o with Says _ text => blen text + 40 ≤ isize_max | Reads _ => True end.

(** ** The simulation *)
Section simulation.
Context {BP : BuildProfile} {SO : Sodium} {HA : Hashes}.
Context {L : SodiumLaws SO} {LA : AeadLaws SO} {LH : HashLaws HA} {LK : KeyLaws SO}.
Variable ad : bytes.

Definition packet_for (b : side) (log : list (side * packet)) (i : nat) : option packet :=
  '(b', p) ← log !! i; if decide (b' = b) then Some p else None.
Definition packets_for (b : side) (log : list (side * packet)) (waiting : gset nat) : list packet :=
  omap (packet_for b log) (elements waiting).

(** The sessions are those of a configuration of the network, and the packets in
    flight are those that wait; [N] bounds the counters. *)
Record simulates (N : Z) (st : side → RatchetState) (log : list (side * packet))
  (waiting : gset nat) (started : bool) (w : rng) (U : gset key32) : Prop := {
  sim_net : ∃ fl seen, inv ad (mkConfig st fl seen w U) ∧ ∀ b, fl b ≡ₚ packets_for b log waiting;
  sim_log i : i ∈ waiting → (i < length log)%nat;
  sim_short b : 0 ≤ send_message_number (st b) ≤ N ∧ 0 ≤ previous_chain_length (st b) ≤ N;
  sim_alice : sending_chain_key (st Alice) ≠ None;
  sim_bob : if started then sending_chain_key (st Bob) ≠ None
            else ∃ ss kp, st Bob = init_receiver ss kp;
}.

Lemma packets_for_add b log waiting b' p :
  (∀ i, i ∈ waiting → (i < length log)%nat) →
  packets_for b (log ++ [(b', p)]) ({[length log]} ∪ waiting) ≡ₚ
    (if decide (b' = b) then [p] else []) ++ packets_for b log waiting.
Proof.
  intros Hlog. unfold packets_for.
  rewrite elements_union_singleton by (intros H%Hlog; lia). simpl.
  assert (packet_for b (log ++ [(b', p)]) (length log) = if decide (b' = b) then Some p else None) as ->
    by (unfold packet_for; rewrite lookup_app_r, Nat.sub_diag by lia; done).
  assert (omap (packet_for b (log ++ [(b', p)])) (elements waiting)
          = omap (packet_for b log) (elements waiting)) as He.
  { apply list_omap_ext, Forall_Forall2_diag, Forall_forall. intros i Hi%elem_of_elements%Hlog.
    unfold packet_for. by rewrite lookup_app_l. }
  case_decide; simpl; by rewrite <-He.
Qed.
Lemma packets_for_take b log waiting i b' p :
  i ∈ waiting → log !! i = Some (b', p) →
  packets_for b log waiting ≡ₚ
    (if decide (b' = b) then [p] else []) ++ packets_for b log (waiting ∖ {[i]}).
Proof.
  intros Hi Hp. unfold packets_for.
  rewrite (union_difference_L {[i]} waiting) at 1 by set_solver.
  rewrite elements_union_singleton by set_solver. simpl.
  assert (packet_for b log i = if decide (b' = b) then Some p else None) as ->
    by (unfold packet_for; by rewrite Hp).
  by case_decide.
Qed.

Lemma inv_more c U : inv ad c → used c ⊆ U → inv ad (mkConfig (st c) (fl c) (seen c) (wd c) U).
Proof.
  intros (ldr & pkL & skL & pkF & skF & d & ckL & kL & kF & Hl) HU.
  exists ldr, pkL, skL, pkF, skF, d, ckL, kL, kF. by apply (linked_mono _ _ _ _ _ _ _ _ (used c)).
Qed.
(** A side with a sending chain encrypts. *)
Lemma inv_encrypts c b m :
  inv ad c → sending_chain_key (st c b) ≠ None → is_u32 (send_message_number (st c b) + 1) →
  blen m + 40 ≤ isize_max →
  ∃ h ct s' w', encrypt m ad (st c b, wd c) = (Ret (h, ct), (s', w')) ∧
    send_message_number s' = send_message_number (st c b) + 1 ∧
    previous_chain_length s' = previous_chain_length (st c b) ∧ sending_chain_key s' ≠ None.
Proof.
  intros (ldr & pkL & skL & pkF & skF & d & ckL & kL & kF & Hl) Hck Hn Hm.
  destruct Hl. assert (∃ pk ck0, send_chain (st c b) pk ck0) as (pk & ck0 & Hsc).
  { destruct (decide (b = ldr)) as [->|Hb]; [by eexists _, _|].
    assert (ldr = other b) as -> by (by destruct ldr, b). rewrite other_other in *.
    destruct kL as [[[pk ck0] C]|]; [|done]. destruct ln_link as [_ ?]. by eexists _, _. }
  destruct (encrypt_chain (st c b) (wd c) pk ck0 m ad ln_ready Hsc Hn Hm)
    as (h & ct & s' & w' & He & _ & _ & _ & -> & _). eexists _, _, _, _. split; [exact He|].
  by destruct (st c b).
Qed.

Lemma run_op_says N st log waiting started w U b m :
  simulates N st log waiting started w U → b = Alice ∨ started = true →
  N + 1 < 2 ^ 32 → blen m + 40 ≤ isize_max →
  ∃ st' p w', run_op ad (Says b m) (st, log) w = (Ret (st', log ++ [(other b, p)]), w') ∧
    ∀ U', U ⊆ U' →
    simulates (N + 1) st' (log ++ [(other b, p)]) ({[length log]} ∪ waiting) started w' U'.
Proof.
  intros [(fl & seen & Hi & Hfl) Hlog Hs Ha Hb] Hcan HN Hm.
  destruct (inv_encrypts _ b m Hi) as (h & ct & s' & w' & He & Hsn & Hpl & Hck); try done; simpl.
  { destruct b; [done|]. destruct Hcan as [|Hst]; [done|]. by rewrite Hst in Hb. }
  { destruct (Hs b). unfold is_u32, in_width. lia. }
  simpl in *. eexists _, _, w'. split.
  { unfold run_op. by mstep (unwrap_Ret _ _ _ _ (with_session_Ret _ _ _ _ _ _ He)). }
  intros U' HU. assert (is_u32 (send_message_number (st b) + 1)) as Hu
    by (destruct (Hs b); unfold is_u32, in_width; lia).
  pose proof (inv_send ad (mkConfig st fl seen w U) b m h ct s' w' Hi Hu Hm He) as Hi'. simpl in Hi'.
  split.
  - eexists _, _. split; [exact (inv_more _ _ Hi' HU)|]. intros b'. rewrite packets_for_add by done.
    simpl. destruct (decide (other b = b')) as [<-|Hne]; [rewrite upd_eq; simpl; by rewrite Hfl|].
    unfold upd. rewrite decide_False by congruence. apply Hfl.
  - intros i [->%elem_of_singleton|Hin%Hlog]%elem_of_union; rewrite length_app; simpl; lia.
  - intros b'. unfold upd. case_decide as Hd; [subst b'|destruct (Hs b'); lia].
    destruct (Hs b). lia.
  - unfold upd. by case_decide.
  - destruct started; unfold upd; case_decide as Hd; try done. subst b. by destruct Hcan.
Qed.

Lemma run_op_reads N st log waiting started w U i b p :
  simulates N st log waiting started w U → log !! i = Some (b, p) → i ∈ waiting → N ≤ MAX_SKIP →
  (box_gen_keypair w).1.1 ∉ U →
  ∃ st' w', run_op ad (Reads i) (st, log) w = (Ret (st', log), w') ∧
    ∀ U', own_key (st' b) ∪ U ⊆ U' →
    simulates N st' log (waiting ∖ {[i]}) (started || bool_decide (b = Bob)) w' U'.
Proof.
  intros [(fl & seen & Hi & Hfl) Hlog Hs Ha Hb] Hp Hin HN Hfresh.
  set (c := mkConfig st fl seen w U) in Hi.
  pose proof (Hfl b) as Hperm. rewrite (packets_for_take b log waiting i b p) in Hperm by done.
  rewrite decide_True in Hperm by done. simpl in Hperm.
  assert (p ∈ fl b) as Hpin by (rewrite Hperm; left).
  assert (in_window (st b) (p_header p) = true) as Hwin.
  { apply (inv_short_window ad c b p Hi Hpin). intros b'. simpl. destruct (Hs b'). lia. }
  apply list_elem_of_split in Hpin as (l1 & l2 & Hsplit).
  destruct (inv_deliver ad c b l1 p l2 Hi Hsplit Hwin Hfresh) as (s' & w' & Hd & Hi'). simpl in Hd, Hi'.
  exists (upd st b s'), w'. split.
  { unfold run_op. rewrite (bind_Ret (lift (index log (Z.of_nat i))) _ w (b, p) w)
      by (unfold lift; rewrite (index_ok log (Z.of_nat i) (b, p)); [done|lia|by rewrite Nat2Z.id]).
    cbn beta iota. mstep (unwrap_Ret _ _ _ _ (with_session_Ret _ _ _ _ _ _ Hd)).
    by mstep (assert_that_true (S:=rng) (E:=CryptoError) _ w' (bool_decide_eq_true_2 _ (eq_refl (p_msg p)))). }
  intros U' HU. rewrite upd_eq in HU. split.
  - eexists _, _. split; [exact (inv_more _ _ Hi' HU)|]. intros b'. simpl. unfold upd. case_decide as Hd'.
    + subst b'. apply (Permutation_cons_inv (a:=p)). rewrite <-Hperm, Hsplit. apply Permutation_middle.
    + rewrite (Hfl b'). rewrite (packets_for_take b' log waiting i b p) by done.
      by rewrite decide_False by congruence.
  - intros j [Hj _]%elem_of_difference. by apply Hlog.
  - intros b'. unfold upd. case_decide as Hd'; [subst b'|apply Hs].
    pose proof (decrypt_counters (p_header p) (p_ct p) ad (st b) w) as Hc. rewrite Hd in Hc. simpl in Hc.
    destruct (Hs b), Hc as [[-> ->]|[-> ->]]; lia.
  - unfold upd. case_decide as Hd'; [subst b|done].
    pose proof (decrypt_still_sends (p_header p) (p_ct p) ad (st Alice) w) as Hc. rewrite Hd in Hc. by apply Hc.
  - destruct b; simpl; [rewrite orb_false_r; unfold upd; by rewrite decide_False|].
    rewrite orb_true_r, upd_eq. destruct started.
    + pose proof (decrypt_still_sends (p_header p) (p_ct p) ad (st Bob) w) as Hc. rewrite Hd in Hc. by apply Hc.
    + destruct Hb as (ss & kp & Hb). rewrite Hb in Hd. by apply first_decrypt_opens in Hd.
Qed.

Lemma script_runs script N st log waiting started w U :
  simulates N st log waiting started w U → N + blen script ≤ MAX_SKIP →
  plausible script (log.*1) waiting started = true → Forall op_fits script →
  fresh_keys ad script U (st, log) w →
  ∃ t w', run_script ad script (st, log) w = (Ret t, w').
Proof.
  revert N st log waiting started w U.
  induction script as [|o script IH]; intros N st log waiting started w U Hsim HN Hpl Hfit Hf.
  { by eexists _, w. }
  rewrite blen_cons in HN. pose proof (blen_nonneg script). simpl in Hpl.
  destruct (plausible_op _ _ _ _) as [[[log' waiting'] started']|] eqn:Ho; [|done].
  inversion_clear Hfit as [|?? Hfo Hfs]. destruct Hf as [Hf1 Hf2].
  assert (∃ N' st' log' w', N' ≤ N + 1 ∧ run_op ad o (st, log) w = (Ret (st', log'), w') ∧
    ∃ waiting' started', plausible script (log'.*1) waiting' started' = true ∧
    ∀ U', own_key (st' Alice) ∪ own_key (st' Bob) ∪ U ⊆ U' →
          simulates N' st' log' waiting' started' w' U') as (N' & st' & log2 & w' & HN' & Hr & wt & sd & Hpl' & Hsim').
  { destruct o as [b m|i]; simpl in Ho.
    - case_decide as Hcan; [|done]. injection Ho as <- <- <-.
      destruct (run_op_says N st log waiting started w U b m Hsim Hcan) as (st' & p & w' & Hr & Hsim');
        [unfold MAX_SKIP in *; lia|done|].
      exists (N + 1), st', (log ++ [(other b, p)]), w'. split; [lia|]. split; [exact Hr|].
      eexists _, _. split; [rewrite fmap_app; rewrite length_fmap in Hpl; exact Hpl|].
      intros U' HU. apply Hsim'. set_solver.
    - apply bind_Some in Ho as (b & Hb & Ho). case_decide as Hin; [|done]. injection Ho as <- <- <-.
      rewrite list_lookup_fmap in Hb. apply fmap_Some in Hb as ([b' p] & Hp & ->).
      destruct (run_op_reads N st log waiting started w U i b' p Hsim Hp Hin) as (st' & w' & Hr & Hsim');
        [lia|done|].
      exists N, st', log, w'. split; [lia|]. split; [exact Hr|]. eexists _, _. split; [exact Hpl|].
      intros U' HU. apply Hsim'. destruct b'; set_solver. }
  rewrite Hr in Hf2.
  destruct (IH N' st' log2 wt sd w' _ (Hsim' _ (reflexivity _))) as (t & w2 & Hrs); [lia|done..|].
  exists t, w2. simpl. by mstep Hr.
Qed.

(** The sessions after the set-up. *)
Lemma simulates_start ss bpk bsk w alice w1 :
  ready w → box_pair bpk bsk → init_sender ss bpk w = (Ret alice, w1) →
  simulates 0 (λ b, match b with Alice => alice | Bob => init_receiver ss (bpk, bsk) end) [] ∅ false w1
    {[bpk; (box_gen_keypair w).1.1]}.
Proof.
  intros Hw Hb Hi. pose proof (start_intro ss bpk bsk alice w w1 Hw Hb Hi) as Hstart.
  destruct (init_sender_run ss bpk bsk w Hw Hb) as (pk & sk & d & w' & _ & _ & _ & _ & _ & Hi').
  rewrite Hi in Hi'. injection Hi' as Ha _. split.
  - eexists _, _. split; [apply (inv_start ad); exact Hstart|]. done.
  - set_solver.
  - intros []; subst alice; by vm_compute.
  - by subst alice.
  - by eexists _, _.
Qed.
End simulation.
