(* ===== verification/RatchetTests.v ===== *)
(** * The tests of double_ratchet.rs

    Each test is the program that the source has, over any implementation of the
    cryptography. The tests that only encrypt, decrypt and compare are scripts of
    RatchetScripts.v; those that look into the cache or expect an error are written
    out. The theorems say that they pass whatever the generator draws.
    [test_ratchet_wrong_key_fails] is left out: it passes because of the strength of
    the AEAD, which is not a law of the interface. *)

From S2P Require Import Prelude RustStr Errors Sodium Instances Harness AesGcm DoubleRatchet.
From S2P Require Import RatchetFacts RatchetChain RatchetProps RatchetFrame RatchetNetwork.
From S2P Require Import RatchetReceive RatchetSession RatchetRuns.
From S2P Require Import RatchetScripts.
Local Open Scope rust_scope.

Section tests.
Context {BP : BuildProfile} {SO : Sodium} {HA : Hashes}.

(** How every test starts. *)
Definition new_session (secret : byte) : M rng CryptoError (RatchetState * RatchetState) :=
  unwrap init_sodium;;
  let shared_secret := array_repeat 32 secret in
  '(bob_pk, bob_sk) ← draw box_gen_keypair;
  alice ← unwrap (init_sender shared_secret bob_pk);
  let bob := init_receiver shared_secret (bob_pk, bob_sk) in
  mret (alice, bob).

Definition both (alice bob : RatchetState) : side → RatchetState :=
  λ b, match b with Alice => alice | Bob => bob end.
(** A test that follows a script. *)
Definition script_test (secret : byte) (ad : bytes) (script : list op) : M rng CryptoError unit :=
  '(alice, bob) ← new_session secret;
  run_script ad script (both alice bob, []);;
  mret tt.

Definition encrypt_decrypt_script : list op := [Says Alice (bstr "hello bob"); Reads 0].
Definition bidirectional_script : list op :=
  [Says Alice (bstr "msg1"); Reads 0; Says Bob (bstr "reply1"); Reads 1;
   Says Alice (bstr "msg2"); Reads 2].
Definition skip_first_script : list op :=
  [Says Alice (bstr "first"); Says Alice (bstr "second"); Reads 1; Reads 0].
Definition across_ratchet_script : list op :=
  [Says Alice (bstr "old chain 0"); Says Alice (bstr "old chain 1"); Reads 0;
   Says Bob (bstr "bob reply"); Reads 2; Says Alice (bstr "new chain 0"); Reads 3; Reads 1].

Definition test_ratchet_encrypt_decrypt : M rng CryptoError unit :=
  script_test Byte.x42 (bstr "session-id") encrypt_decrypt_script.
Definition test_ratchet_bidirectional : M rng CryptoError unit :=
  script_test Byte.x55 (bstr "test") bidirectional_script.
Definition test_out_of_order_skip_first_message : M rng CryptoError unit :=
  script_test Byte.x77 (bstr "skip") skip_first_script.
Definition test_out_of_order_across_ratchet_steps : M rng CryptoError unit :=
  script_test Byte.x99 (bstr "cross-ratchet") across_ratchet_script.
(** The key, the associated data and the script of these tests. *)
Definition scripts_of_tests : list (byte * bytes * list op) :=
  [(Byte.x42, bstr "session-id", encrypt_decrypt_script); (Byte.x55, bstr "test", bidirectional_script);
   (Byte.x77, bstr "skip", skip_first_script); (Byte.x99, bstr "cross-ratchet", across_ratchet_script)].

(** [let pt = bob.decrypt(&h, &ct, ad).unwrap(); assert_eq!(&pt, expected)]. *)
Definition reads (ad : bytes) (p : MessageHeader * bytes) (expected : bytes) (s : RatchetState) :
  M rng CryptoError RatchetState :=
  '(pt, s) ← unwrap (with_session (decrypt p.1 p.2 ad) s);
  assert_that (bool_decide (pt = expected));;
  mret s.
(** [assert_eq!(bob.skipped_keys.len(), n)]. *)
Definition assert_cached (s : RatchetState) (n : nat) : M rng CryptoError unit :=
  assert_that (bool_decide (size (skipped_keys s) = n)).

Definition test_out_of_order_same_chain : M rng CryptoError unit :=
  '(alice, bob) ← new_session Byte.x42;
  let ad := bstr "ooo-test" in
  '(p0, alice) ← unwrap (with_session (encrypt (bstr "message 0") ad) alice);
  '(p1, alice) ← unwrap (with_session (encrypt (bstr "message 1") ad) alice);
  '(p2, alice) ← unwrap (with_session (encrypt (bstr "message 2") ad) alice);
  bob ← reads ad p2 (bstr "message 2") bob;
  assert_cached bob 2;;
  bob ← reads ad p0 (bstr "message 0") bob;
  assert_cached bob 1;;
  bob ← reads ad p1 (bstr "message 1") bob;
  assert_cached bob 0.

Definition test_skipped_key_consumed_once : M rng CryptoError unit :=
  '(alice, bob) ← new_session Byte.xaa;
  let ad := bstr "replay" in
  '(p0, alice) ← unwrap (with_session (encrypt (bstr "unreplayed") ad) alice);
  '(p1, alice) ← unwrap (with_session (encrypt (bstr "target") ad) alice);
  bob ← reads ad p1 (bstr "target") bob;
  bob ← reads ad p0 (bstr "unreplayed") bob;
  '(result, bob) ← try_session (decrypt p0.1 p0.2 ad) bob;
  assert_that (is_err result).

(** The body of the loop of [test_in_order_still_works], and the loop. *)
Definition in_order_round (i : Z) (alice bob : RatchetState) :
  M rng CryptoError (RatchetState * RatchetState) :=
  let ad := bstr "in-order" in
  let msg := bstr "message " ++ to_string_uint i in
  '(p, alice) ← unwrap (with_session (encrypt msg ad) alice);
  bob ← reads ad p msg bob;
  assert_cached bob 0;;
  mret (alice, bob).
Fixpoint in_order_rounds (i : Z) (count : nat) (alice bob : RatchetState) : M rng CryptoError unit :=
  match count with
  | O => mret tt
  | S count =>
      '(alice, bob) ← in_order_round i alice bob;
      in_order_rounds (i + 1) count alice bob
  end.
Definition test_in_order_still_works : M rng CryptoError unit :=
  '(alice, bob) ← new_session Byte.xbb;
  in_order_rounds 0 10 alice bob.

Definition double_ratchet_tests : list (M rng CryptoError unit) :=
  [test_ratchet_encrypt_decrypt; test_ratchet_bidirectional; test_out_of_order_same_chain;
   test_out_of_order_skip_first_message; test_out_of_order_across_ratchet_steps;
   test_skipped_key_consumed_once; test_in_order_still_works].
End tests.

(** ** One chain, with the size of the cache *)
Section listening.
Context {BP : BuildProfile} {SO : Sodium} {HA : Hashes}.
Context {L : SodiumLaws SO} {LA : AeadLaws SO} {LH : HashLaws HA} {LK : KeyLaws SO}.

(** A receiver that has read the numbers [C] of the chain of [pk], the highest of
    them [N - 1], and nothing else. *)
Inductive listens (s : RatchetState) (pk ck0 : key32) (C : gset Z) (N : Z) : Prop :=
| listens_start ss bpk bsk sk d :
    s = init_receiver ss (bpk, bsk) → box_pair bpk bsk → box_pair pk sk →
    scalarmult bsk pk = Some d → ck0 = (rk_step ss d).2 → C = ∅ → N = 0 → listens s pk ck0 C N
| listens_chain :
    recv_chain s pk ck0 C → recv_message_number s = N →
    (∀ pk' k, pk' ≠ pk → skipped_keys s !! (pk', k) = None) → listens s pk ck0 C N.

(** The cache has one key per gap. *)
Lemma listens_cached s pk ck0 C N :
  listens s pk ck0 C N → Z.of_nat (size (skipped_keys s)) = N - Z.of_nat (size C).
Proof.
  intros [ss bpk bsk sk d -> _ _ _ _ -> ->|[_ _ [Hn _] Hcache HC] <- Honly]; [done|].
  set (gaps := list_to_set (C:=gset Z) (seqZ 0 (recv_message_number s))).
  assert (dom (skipped_keys s) = set_map (C:=gset Z) (D:=gset (key32 * Z)) (pair pk) (gaps ∖ C)) as Hdom.
  { apply set_eq. intros [pk' k]. rewrite elem_of_dom, elem_of_map. split.
    - intros [mk Hmk]. destruct (decide (pk' = pk)) as [->|Hne]; [|by rewrite Honly in Hmk].
      rewrite Hcache in Hmk. case_bool_decide as Hk; [|done]. exists k. split; [done|].
      apply elem_of_difference. split; [|apply Hk]. apply elem_of_list_to_set, elem_of_seqZ. lia.
    - intros (j & [= -> ->] & [Hj%elem_of_list_to_set%elem_of_seqZ Hnj]%elem_of_difference).
      rewrite Hcache, bool_decide_true by (split; [lia|done]). done. }
  rewrite <-size_dom, Hdom.
  assert (size (set_map (C:=gset Z) (D:=gset (key32 * Z)) (pair pk) (gaps ∖ C)) = size (gaps ∖ C)) as ->
    by (unfold set_map; rewrite size_list_to_set by (apply NoDup_fmap_2; [intros ?? [=]; done|apply NoDup_elements]);
        apply length_fmap).
  assert (C ⊆ gaps) as Hsub.
  { intros k Hk%HC. apply elem_of_list_to_set, elem_of_seqZ. lia. }
  rewrite size_difference by done.
  assert (size gaps = Z.to_nat (recv_message_number s)) as ->.
  { unfold gaps. rewrite size_list_to_set by apply NoDup_seqZ. by rewrite length_seqZ. }
  pose proof (subseteq_size _ _ Hsub) as Hle. unfold gaps in Hle.
  rewrite size_list_to_set, length_seqZ in Hle by apply NoDup_seqZ. lia.
Qed.

(** The step of a receiver. *)
Lemma listens_decrypts s pk ck0 C N h c ad n m w :
  listens s pk ck0 C N → genuine pk ck0 ad h c n m → 0 ≤ n ≤ MAX_SKIP → n ∉ C → ready w →
  ∃ s' w', decrypt h c ad (s, w) = (Ret m, (s', w')) ∧ ready w' ∧
           listens s' pk ck0 ({[n]} ∪ C) (Z.max N (n + 1)).
Proof.
  intros [ss bpk bsk sk d -> Hb Hp Hd -> -> ->|Hrc <- Honly] Hg Hn HC Hw.
  - destruct (first_delivery ss bpk bsk pk sk d w h c n m ad Hb Hp Hd Hg Hn)
      as (s' & w' & Hdec & Hrc & Hn' & Honly & Hw'). exists s', w'. split_and!; [done|by apply Hw'|].
    apply listens_chain; [by replace ({[n]} ∪ ∅) with ({[n]} : gset Z) by set_solver|lia|done].
  - pose proof (rc_num _ _ _ _ Hrc) as [H0 _].
    destruct (deliver_genuine h c ad s w pk ck0 C n m Hrc Hg) as (s' & Hdec & Hrc' & Hfr & Hn'); try done;
      [lia|unfold is_u32, in_width, MAX_SKIP in *; lia|lia|].
    exists s', w. split_and!; [done..|]. apply listens_chain; [done|done|].
    intros pk' k Hne. rewrite (fr_cache _ _ _ Hfr) by done. by apply Honly.
Qed.
(** A number that was read is refused. *)
Lemma listens_refuses s pk ck0 C N h c ad w :
  listens s pk ck0 C N → ratchet_public_key h = pk → message_number h ∈ C →
  decrypt h c ad (s, w) = (Throw (RatchetError (bstr "message number already consumed")), (s, w)).
Proof.
  intros [ss bpk bsk sk d -> _ _ _ _ -> ->|Hrc _ _] Hpk HC; [set_solver|].
  by apply (deliver_replay h c ad s w pk ck0 C).
Qed.

Lemma listens_reads s pk ck0 C N h c ad n m w :
  listens s pk ck0 C N → genuine pk ck0 ad h c n m → 0 ≤ n ≤ MAX_SKIP → n ∉ C → ready w →
  ∃ s' w', reads ad (h, c) m s w = (Ret s', w') ∧ ready w' ∧
           listens s' pk ck0 ({[n]} ∪ C) (Z.max N (n + 1)).
Proof.
  intros Hl Hg Hn HC Hw. destruct (listens_decrypts s pk ck0 C N h c ad n m w) as (s' & w' & Hd & Hw' & Hl');
    [done..|]. exists s', w'. split; [|done]. unfold reads.
  mstep (unwrap_Ret _ _ _ _ (with_session_Ret _ _ _ _ _ _ Hd)).
  by mstep (assert_that_true (S:=rng) (E:=CryptoError) _ w' (bool_decide_eq_true_2 _ (eq_refl m))).
Qed.
(** The sender's step. *)
Lemma speaks s pk ck0 n m ad w :
  send_chain s pk ck0 → send_message_number s = n → n ≤ MAX_SKIP → blen m + 40 ≤ isize_max → ready w →
  ∃ h c s' w', unwrap (with_session (encrypt m ad) s) w = (Ret ((h, c), s'), w') ∧ ready w' ∧
    genuine pk ck0 ad h c n m ∧ send_chain s' pk ck0 ∧ send_message_number s' = n + 1.
Proof.
  intros Hs <- Hn Hm Hw. pose proof (sc_num _ _ _ Hs) as [H0 _].
  destruct (encrypt_chain s w pk ck0 m ad Hw Hs) as (h & c & s' & w' & He & _ & Hg & Hs' & -> & Hw');
    [unfold is_u32, in_width, MAX_SKIP in *; lia|done|].
  eexists h, c, _, w'. split; [by apply unwrap_Ret, with_session_Ret|]. split_and!; try done.
  by destruct s.
Qed.
(** The two ends that the set-up leaves. *)
Lemma chain_start ss bpk bsk w alice w1 :
  ready w → box_pair bpk bsk → init_sender ss bpk w = (Ret alice, w1) →
  ∃ pk ck0, ready w1 ∧ send_chain alice pk ck0 ∧ send_message_number alice = 0 ∧
    listens (init_receiver ss (bpk, bsk)) pk ck0 ∅ 0.
Proof.
  intros Hw Hb Hi.
  destruct (init_sender_run ss bpk bsk w Hw Hb) as (pk & sk & d & w2 & _ & Hp & Hw2 & _ & Hd & Hi').
  rewrite Hi in Hi'. injection Hi' as -> ->. exists pk, (rk_step ss d).2.
  split_and!; [done|split; [by exists sk|done..]|done|]. by eapply listens_start.
Qed.
Lemma new_session_run secret w :
  ready w →
  ∃ bpk bsk alice w1 w2, new_session secret w
    = (Ret (alice, init_receiver (array_repeat 32 secret) (bpk, bsk)), w2) ∧
    ready w1 ∧ box_pair bpk bsk ∧ init_sender (array_repeat 32 secret) bpk w1 = (Ret alice, w2).
Proof.
  intros Hw. pose proof (box_gen_pair w) as Hb. pose proof (ready_box_gen_keypair w Hw) as Hw1.
  destruct (box_gen_keypair w) as [[bpk bsk] w1] eqn:Hg. simpl in *.
  destruct (init_sender_run (array_repeat 32 secret) bpk bsk w1 Hw1 Hb)
    as (pk & sk & d & w2 & _ & _ & _ & _ & _ & Hi).
  eexists bpk, bsk, _, w1, w2. split; [|by split_and!].
  unfold new_session. mstep (unwrap_Ret _ _ _ _ (init_sodium_ready w Hw)).
  rewrite (bind_Ret (draw box_gen_keypair) _ w (bpk, bsk) w1) by (unfold draw; by rewrite Hg).
  mstep (unwrap_Ret _ _ _ _ Hi). reflexivity.
Qed.
Lemma new_session_chain secret w :
  ready w →
  ∃ alice bob pk ck0 w', new_session secret w = (Ret (alice, bob), w') ∧ ready w' ∧
    send_chain alice pk ck0 ∧ send_message_number alice = 0 ∧ listens bob pk ck0 ∅ 0.
Proof.
  intros Hw. destruct (new_session_run secret w Hw) as (bpk & bsk & alice & w1 & w2 & Hs & Hw1 & Hb & Hi).
  destruct (chain_start _ bpk bsk w1 alice w2 Hw1 Hb Hi) as (pk & ck0 & H). by eexists alice, _, pk, ck0, w2.
Qed.
Lemma assert_cached_ok s pk ck0 C N k w :
  listens s pk ck0 C N → N - Z.of_nat (size C) = Z.of_nat k → assert_cached s k w = (Ret tt, w).
Proof.
  intros Hl Hk. pose proof (listens_cached _ _ _ _ _ Hl). apply assert_that_true, bool_decide_eq_true. lia.
Qed.

(** The calls of a test on one chain. *)
Lemma speak_step s pk ck0 n m ad (k : (MessageHeader * bytes) * RatchetState → M rng CryptoError unit) w :
  send_chain s pk ck0 → send_message_number s = n → n ≤ MAX_SKIP → blen m + 40 ≤ isize_max → ready w →
  (∀ h c s' w', ready w' → genuine pk ck0 ad h c n m → send_chain s' pk ck0 →
     send_message_number s' = n + 1 → passes (k ((h, c), s')) w') →
  passes (unwrap (with_session (encrypt m ad) s) ≫= k) w.
Proof.
  intros Hs Hn Hmax Hm Hw Hk.
  destruct (speaks s pk ck0 n m ad w Hs Hn Hmax Hm Hw) as (h & c & s' & w' & He & Hw' & Hg & Hs' & Hn').
  tstep He. by apply Hk.
Qed.
Lemma read_step s pk ck0 C N h c ad n m (k : RatchetState → M rng CryptoError unit) w :
  listens s pk ck0 C N → genuine pk ck0 ad h c n m → 0 ≤ n ≤ MAX_SKIP → n ∉ C → ready w →
  (∀ s' w', ready w' → listens s' pk ck0 ({[n]} ∪ C) (Z.max N (n + 1)) → passes (k s') w') →
  passes (reads ad (h, c) m s ≫= k) w.
Proof.
  intros Hl Hg Hn HC Hw Hk.
  destruct (listens_reads s pk ck0 C N h c ad n m w Hl Hg Hn HC Hw) as (s' & w' & Hr & Hw' & Hl').
  tstep Hr. by apply Hk.
Qed.
Lemma replay_step s pk ck0 C N h c ad n m (k : outcome CryptoError bytes * RatchetState → M rng CryptoError unit) w :
  listens s pk ck0 C N → genuine pk ck0 ad h c n m → n ∈ C →
  passes (k (Throw (RatchetError (bstr "message number already consumed")), s)) w →
  passes (try_session (decrypt h c ad) s ≫= k) w.
Proof.
  intros Hl (Hpk & Hnum & _) HC Hk. eapply passes_bind; [|exact Hk].
  apply try_session_run; [|done]. apply (listens_refuses s pk ck0 C N); [done..|by rewrite Hnum].
Qed.
End listening.
(** [speak], [read] and [cached]: the next call of a test, with the hypotheses on the
    two ends of the chain found in the context. *)
Ltac speak :=
  match goal with Ha : send_chain ?s ?pk ?ck, Hn : send_message_number ?s = ?n, Hw : ready ?w |- passes _ ?w =>
    eapply (speak_step s pk ck n _ _ _ w Ha Hn); [by vm_compute|by vm_compute|exact Hw|]; clear Ha Hn;
    let h := fresh "h" in let c := fresh "c" in let s' := fresh "alice" in let w' := fresh "w" in
    intros h c s' w' ? ? ? ?; cbn beta iota
  end.
Ltac read :=
  match goal with
    Hl : listens ?s ?pk ?ck ?C ?N, Hw : ready ?w, Hg : genuine ?pk ?ck _ ?h ?c ?n _
    |- passes (reads _ (?h, ?c) _ ?s ≫= _) ?w =>
    eapply (read_step s pk ck C N h c _ n _ _ w Hl Hg);
      [by vm_compute|by apply (bool_decide_unpack _); vm_compute|exact Hw|]; clear Hl;
    let s' := fresh "bob" in let w' := fresh "w" in intros s' w' ? ?; cbn beta iota
  end.
Ltac replayed :=
  match goal with
    Hl : listens ?s ?pk ?ck ?C ?N, Hg : genuine ?pk ?ck _ ?h ?c ?n _
    |- passes (try_session (decrypt ?h ?c _) ?s ≫= _) ?w =>
    eapply (replay_step s pk ck C N h c _ n _ _ w Hl Hg);
      [by apply (bool_decide_unpack _); vm_compute|]; cbn beta iota
  end.
Ltac cached :=
  match goal with Hl : listens ?s ?pk ?ck ?C ?N |- passes (assert_cached ?s ?k ≫= _) ?w =>
    eapply passes_bind; [apply (assert_cached_ok s pk ck C N k w Hl); by vm_compute|]; cbn beta iota
  | Hl : listens ?s ?pk ?ck ?C ?N |- passes (assert_cached ?s ?k) ?w =>
    exists w; apply (assert_cached_ok s pk ck C N k w Hl); by vm_compute
  end.


(** ** The tests pass *)
Section passing.
Context {BP : BuildProfile} {SO : Sodium} {HA : Hashes}.
Context {L : SodiumLaws SO} {LA : AeadLaws SO} {LH : HashLaws HA} {LK : KeyLaws SO}.

Lemma out_of_order_same_chain_passes w :
  ready w → passes test_out_of_order_same_chain w.
Proof.
  intros Hw. destruct (new_session_chain Byte.x42 w Hw) as (alice & bob & pk & ck0 & w0 & Hs & Hw0 & Ha & Hn & Hb).
  unfold test_out_of_order_same_chain. tstep Hs. do 3 speak. do 3 (read; cached).
Qed.

Lemma skipped_key_consumed_once_passes w :
  ready w → passes test_skipped_key_consumed_once w.
Proof.
  intros Hw. destruct (new_session_chain Byte.xaa w Hw) as (alice & bob & pk & ck0 & w0 & Hs & Hw0 & Ha & Hn & Hb).
  unfold test_skipped_key_consumed_once. tstep Hs. do 2 speak. do 2 read.
  cbn [fst snd]. replayed. by tassert.
Qed.

Lemma in_order_round_passes i pk ck0 alice bob C w :
  ready w → send_chain alice pk ck0 → send_message_number alice = i → listens bob pk ck0 C i →
  (∀ k, k ∈ C → k < i) → i - Z.of_nat (size C) = 0 → 0 ≤ i ≤ MAX_SKIP →
  blen (bstr "message " ++ to_string_uint i) + 40 ≤ isize_max →
  ∃ alice' bob' w', in_order_round i alice bob w = (Ret (alice', bob'), w') ∧ ready w' ∧
    send_chain alice' pk ck0 ∧ send_message_number alice' = i + 1 ∧
    listens bob' pk ck0 ({[i]} ∪ C) (i + 1).
Proof.
  intros Hw Ha Hn Hb HC Hsize Hi Hm. unfold in_order_round.
  destruct (speaks alice pk ck0 i _ (bstr "in-order") w Ha Hn (proj2 Hi) Hm Hw)
    as (h & c & a' & w1 & He & Hw1 & Hg & Ha' & Hn'). mstep He.
  destruct (listens_reads bob pk ck0 C i h c (bstr "in-order") i _ w1 Hb Hg Hi)
    as (b' & w2 & Hr & Hw2 & Hb'); [intros H%HC; lia|done|]. mstep Hr.
  rewrite Z.max_r in Hb' by lia. assert (i ∉ C) by (intros H%HC; lia).
  mstep (assert_cached_ok b' pk ck0 _ _ 0 w2 Hb' ltac:(rewrite size_union, size_singleton by set_solver; lia)).
  by exists a', b', w2.
Qed.
Lemma in_order_rounds_pass count : ∀ i pk ck0 alice bob C w,
  ready w → send_chain alice pk ck0 → send_message_number alice = i → listens bob pk ck0 C i →
  (∀ k, k ∈ C → k < i) → i - Z.of_nat (size C) = 0 → 0 ≤ i → i + Z.of_nat count ≤ MAX_SKIP →
  (∀ k, i ≤ k < i + Z.of_nat count → blen (bstr "message " ++ to_string_uint k) + 40 ≤ isize_max) →
  passes (in_order_rounds i count alice bob) w.
Proof.
  induction count as [|count IH]; intros i pk ck0 alice bob C w Hw Ha Hn Hb HC Hsize Hi Hmax Hm.
  { by exists w. }
  destruct (in_order_round_passes i pk ck0 alice bob C w)
    as (a' & b' & w1 & Hr & Hw1 & Ha' & Hn' & Hb'); try done; [lia|apply Hm; lia|].
  unfold passes. cbn [in_order_rounds]. mstep Hr. assert (i ∉ C) by (intros H%HC; lia).
  apply (IH (i + 1) pk ck0 a' b' ({[i]} ∪ C) w1); try done; try lia.
  - intros k [->%elem_of_singleton|Hk%HC]%elem_of_union; lia.
  - rewrite size_union, size_singleton by set_solver. lia.
  - intros k Hk. apply Hm. lia.
Qed.
Lemma in_order_still_works_passes w :
  ready w → passes test_in_order_still_works w.
Proof.
  intros Hw. unfold passes, test_in_order_still_works.
  destruct (new_session_chain Byte.xbb w Hw) as (alice & bob & pk & ck0 & w0 & Hs & Hw0 & Ha & Hn & Hb).
  mstep Hs. apply (in_order_rounds_pass 10 0 pk ck0 alice bob ∅ w0); try done.
  intros k Hk. assert (∃ n, k = Z.of_nat n ∧ (n < 10)%nat) as (n & -> & Hn') by (exists (Z.to_nat k); lia).
  do 10 (destruct n as [|n]; [by vm_compute|]). lia.
Qed.

(** The ratchet keys that a test draws are new. *)
Definition test_fresh (secret : byte) (ad : bytes) (script : list op) (w : rng) : Prop :=
  match new_session secret w with
  | (Ret (alice, bob), w) =>
      fresh_keys ad script (own_key bob ∪ own_key alice) (both alice bob, []) w
  | _ => True
  end.
(** A plausible script after any set-up. *)
Lemma script_after_setup ad script ss bpk bsk w alice w1 :
  ready w → box_pair bpk bsk → init_sender ss bpk w = (Ret alice, w1) →
  plausible script [] ∅ false = true → blen script ≤ MAX_SKIP → Forall op_fits script →
  fresh_keys ad script (own_key (init_receiver ss (bpk, bsk)) ∪ own_key alice)
    (both alice (init_receiver ss (bpk, bsk)), []) w1 →
  passes (run_script ad script (both alice (init_receiver ss (bpk, bsk)), []);; mret tt) w1.
Proof.
  intros Hw Hb Hi Hpl Hlen Hfit Hf.
  pose proof (simulates_start ad ss bpk bsk w alice w1 Hw Hb Hi) as Hsim.
  destruct (init_sender_run ss bpk bsk w Hw Hb) as (pk & sk & d & w2 & Hg & _ & _ & _ & _ & Hi').
  rewrite Hi in Hi'. injection Hi' as Halice _. rewrite Hg in Hsim. simpl in Hsim.
  destruct (script_runs ad script 0 (both alice (init_receiver ss (bpk, bsk))) [] ∅ false w1 _ Hsim)
    as (t & w' & Hr); try done.
  { rewrite Halice in Hf |- *. exact Hf. }
  tstep Hr. by exists w'.
Qed.
Lemma script_test_runs secret ad script w :
  ready w → plausible script [] ∅ false = true → blen script ≤ MAX_SKIP → Forall op_fits script →
  test_fresh secret ad script w → passes (script_test secret ad script) w.
Proof.
  intros Hw Hpl Hlen Hfit Hf. unfold script_test, test_fresh in *.
  destruct (new_session_run secret w Hw) as (bpk & bsk & alice & w1 & w2 & Hs & Hw1 & Hb & Hi).
  rewrite Hs in Hf. tstep Hs. by eapply script_after_setup.
Qed.

(** C8: the program passes every plausible script. After the set-up of the tests,
    the two users encrypt and read packets in the order of a script of at most
    [MAX_SKIP] calls, across any number of DH ratchet steps. If the script reads
    only packets that were sent and not yet read, and Bob speaks only after he
    has read something, then no call fails or panics and every assertion that a
    packet decrypts to the text it was made from holds. *)
Theorem plausible_scripts_pass secret ad script w :
  ready w → plausible script [] ∅ false = true → blen script ≤ MAX_SKIP → Forall op_fits script →
  test_fresh secret ad script w → passes (script_test secret ad script) w.
Proof. apply script_test_runs. Qed.

Lemma scripts_of_tests_ok :
  Forall (λ x, plausible x.2 [] ∅ false = true ∧ blen x.2 ≤ MAX_SKIP ∧ Forall op_fits x.2) scripts_of_tests.
Proof. repeat constructor; by vm_compute. Qed.

(** The tests of double_ratchet.rs run to their end, provided that the scripts draw
    new ratchet keys: the plaintexts are right, also across DH ratchet steps and out
    of order; the cache holds 2, 1 and 0 keys as the messages arrive in the order
    2, 0, 1, and none in order; and a replayed packet is refused. *)
Lemma double_ratchet_tests_pass w :
  ready w → Forall (λ x, test_fresh x.1.1 x.1.2 x.2 w) scripts_of_tests →
  Forall (λ t, passes t w) double_ratchet_tests.
Proof.
  intros Hw Hf.
  assert (∀ x, x ∈ scripts_of_tests → passes (script_test x.1.1 x.1.2 x.2) w) as Hs.
  { intros x Hx. rewrite Forall_forall in Hf. pose proof scripts_of_tests_ok as Hok.
    rewrite Forall_forall in Hok. destruct (Hok x Hx) as (? & ? & ?).
    apply script_test_runs; [done..|by apply Hf]. }
  each_case.
  - apply (Hs (_, _, _)). set_solver.
  - apply (Hs (_, _, _)). set_solver.
  - by apply out_of_order_same_chain_passes.
  - apply (Hs (_, _, _)). set_solver.
  - apply (Hs (_, _, _)). set_solver.
  - by apply skipped_key_consumed_once_passes.
  - by apply in_order_still_works_passes.
Qed.
End passing.

#[export] Instance fresh_keys_dec {BP : BuildProfile} {SO : Sodium} {HA : Hashes} ad script U t w :
  Decision (fresh_keys ad script U t w).
Proof.
  revert U t w. induction script as [|o script IH]; intros U t w; simpl; [apply _|].
  apply and_dec; [destruct o; apply _|].
  destruct (run_op ad o t w) as [[t'|e|] w']; apply _.
Defined.
#[export] Instance test_fresh_dec {BP : BuildProfile} {SO : Sodium} {HA : Hashes} secret ad script w :
  Decision (test_fresh secret ad script w).
Proof. unfold test_fresh. destruct (new_session secret w) as [[[a b]|e|] w']; apply _. Defined.

Lemma wit_scripts_fresh :
  Forall (λ x, @test_fresh debug_profile toy_sodium toy_hashes x.1.1 x.1.2 x.2 9) scripts_of_tests.
Proof. apply (bool_decide_unpack _). by vm_compute. Qed.
Definition wit_script_ops : list op :=
  [Says Alice (bstr "m0"); Says Alice (bstr "m1"); Reads 1; Says Bob (bstr "r0"); Says Bob (bstr "r1");
   Reads 3; Says Alice (bstr "m2"); Reads 4; Reads 0; Says Bob (bstr "r2"); Reads 5].
Lemma wit_script_ops_fresh :
  @test_fresh debug_profile toy_sodium toy_hashes Byte.x42 (bstr "ad") wit_script_ops 9.
Proof. apply (bool_decide_unpack _). by vm_compute. Qed.
Lemma wit_script_ops_fit : Forall op_fits wit_script_ops.
Proof. repeat constructor; by vm_compute. Qed.

Lemma plausible_scripts_pass_witness :
  passes (@script_test debug_profile toy_sodium toy_hashes Byte.x42 (bstr "ad") wit_script_ops) 9.
Proof.
  assert (blen wit_script_ops ≤ MAX_SKIP) as H by done.
  exact (@plausible_scripts_pass debug_profile toy_sodium toy_hashes _ _ _ toy_key_laws Byte.x42 (bstr "ad")
           wit_script_ops 9 eq_refl eq_refl H wit_script_ops_fit wit_script_ops_fresh).
Defined.
