(* ===== verification/RatchetStale.v ===== *)
(** * What a session does not protect against

    [decrypt] changes the session before it authenticates anything, and the
    header is not authenticated at all. The theorems here say exactly what follows:
    the new state does not depend on the ciphertext, a packet of an earlier chain
    that arrives again takes a ratchet step to a key its sender no longer uses, and
    the header's chain length can be changed without detection. *)

From S2P Require Import Prelude RustStr Errors Sodium Instances AesGcm DoubleRatchet.
From S2P Require Import RatchetFacts RatchetChain RatchetProps SignalSpec RatchetFrame.
From S2P Require Import RatchetNetwork RatchetReceive RatchetSession.
Local Open Scope rust_scope.

Section state.
Context {BP : BuildProfile} {SO : Sodium} {HA : Hashes}.

Lemma bind_state_ext {S E A B C} (m : M S E A) (f : A → M S E B) (g : A → M S E C) σ :
  (∀ a σ', m σ = (Ret a, σ') → (f a σ').2 = (g a σ').2) → ((m ≫= f) σ).2 = ((m ≫= g) σ).2.
Proof.
  intros H. unfold mbind, M_bind. destruct (m σ) as [[a|e|] σ'] eqn:Hm; simpl; [|done..]. by apply H.
Qed.

(** C19: authentication has no influence on the state. For every session, header and
    generator, the session and the generator that [decrypt] leaves are the same
    whatever the ciphertext and the associated data are: a forged ciphertext, which
    is reported as an error, moves the session exactly as a genuine one does. *)
Theorem decrypt_state_ignores_ciphertext h c c' ad ad' s w :
  (decrypt h c ad (s, w)).2 = (decrypt h c' ad' (s, w)).2.
Proof.
  unfold decrypt. apply bind_state_ext. intros self σ _.
  destruct (skipped_keys self !! _).
  { apply bind_state_ext. by intros. }
  apply bind_state_ext. intros their_pk σ1 _. apply bind_state_ext. intros _ σ2 _.
  apply bind_state_ext. intros _ σ3 _. apply bind_state_ext. intros self' σ4 _.
  apply bind_state_ext. intros ck σ5 _. apply bind_state_ext. intros [new_ck mk] σ6 _.
  apply bind_state_ext. intros _ σ7 _. apply bind_state_ext. intros n σ8 _.
  apply bind_state_ext. by intros.
Qed.
End state.

(** ** A packet of an earlier chain arrives again *)
Section stale.
Context {BP : BuildProfile} {SO : Sodium} {HA : Hashes}.
Context {SJ : SerdeJson RatchetStateSer} {HI : HashMapIter (key32 * Z) key32}.
Context {L : SodiumLaws SO} {LA : AeadLaws SO} {LH : HashLaws HA} {LK : KeyLaws SO}.
Context {LS : SerdeLaws RatchetStateSer SJ} {LI : HashMapIterLaws (key32 * Z) key32 HI}.

(** C17: a packet of an earlier chain that the network delivers again breaks the
    session. In every reachable configuration, let a packet that was already delivered
    to a side, and whose ratchet key is no longer the current one, arrive again (within
    the [MAX_SKIP] window). Its ciphertext was sealed on its own chain; let it not be a
    sealing under the key that a DH ratchet step towards its old ratchet key gives.
    Then [decrypt] takes that step and fails: the remote key becomes the old one, the
    side's key pair is replaced and its sending counter restarts, and the error does
    not undo it. The peer has no such step to match. *)
Theorem stale_replay_ratchets ad c b p :
  reachable ad c → p ∈ seen c b → on_current_chain (st c b) p = false →
  is_u32 (recv_message_number (st c b)) → is_u32 (h_previous_chain_length (p_header p)) →
  h_previous_chain_length (p_header p) - recv_message_number (st c b) ≤ MAX_SKIP →
  0 ≤ message_number (p_header p) ≤ MAX_SKIP →
  (∀ ck, new_chain_key (st c b) (ratchet_public_key (p_header p)) = Some ck →
     no_sealing (mk_at ck (message_number (p_header p))) ad (p_ct p)) →
  ∃ s', decrypt (p_header p) (p_ct p) ad (st c b, wd c)
        = (Throw DecryptionFailed, (s', (box_gen_keypair (wd c)).2)) ∧
    remote_ratchet_key s' = Some (ratchet_public_key (p_header p)) ∧
    sending_keypair s' = Some (box_gen_keypair (wd c)).1 ∧
    send_message_number s' = 0 ∧ recv_message_number s' = message_number (p_header p) + 1.
Proof.
  intros Hr Hin Hcur%bool_decide_eq_false Hrn Hpl Hwin Hn Hno. pose proof (inv_reachable ad c Hr) as Hinv.
  destruct (inv_seen ad c b Hinv) as (k & total & _ & Hcons & Hused).
  rewrite Forall_forall in Hcons, Hused. destruct (Hcons p Hin) as [Hnone _].
  destruct (used_paired ad c _ Hr (Hused p Hin)) as [sk Hbox].
  destruct (inv_keypair ad c b Hinv) as (opk & osk & Hkp & Hobox).
  destruct (box_gen_keypair (wd c)) as [kp w'] eqn:Hg. pose proof (box_gen_pair (wd c)) as Hnew.
  rewrite Hg in Hnew. simpl in Hnew.
  destruct (scalarmult_comm _ _ _ _ Hobox Hbox) as (d1 & Hd1 & _).
  destruct (scalarmult_comm _ _ _ _ Hnew Hbox) as (d2 & Hd2 & _).
  destruct (close_chain _ (st c b) (wd c) Hrn Hpl Hwin) as (s1 & Hskip & Hroot & Hkp1 & _).
  eexists. split.
  - rewrite (decrypt_new_key (p_header p) (p_ct p) ad (st c b) (wd c) s1 opk osk d1 kp d2 w');
      [|done|done|done|by rewrite Hkp1|done|done|done| |done].
    + rewrite (proj2 (decrypt_with_key_refuses _ _ _)); [done|]. apply Hno.
      unfold new_chain_key. rewrite Hkp, Hroot. simpl. by rewrite Hd1.
    + unfold is_u32, in_width, MAX_SKIP in *. lia.
  - unfold ratcheted. destruct (rk_step (root_key s1) d1) as [r1 c1].
    by destruct (rk_step r1 d2) as [r2 c2].
Qed.
End stale.

(** Alice's first packet [p] arrives again after both sides have ratcheted, while
    her packet [q] is in flight. *)
Definition wit_stale : config :=
  toy_conf [Send Alice (bstr "one"); Deliver Bob 0; Send Bob (bstr "two"); Deliver Alice 0;
            Send Alice (bstr "three"); Deliver Bob 0; Send Alice (bstr "four")].
Definition wit_p : packet := default wit_packet (seen wit_stale Bob !! 1%nat).
Definition wit_q : packet := default wit_packet (fl wit_stale Bob !! 0%nat).
Lemma wit_p_seen : wit_p ∈ seen wit_stale Bob.
Proof. apply (list_elem_of_lookup_2 _ 1%nat). by vm_compute. Qed.
Lemma wit_q_in_flight : wit_q ∈ fl wit_stale Bob.
Proof. apply (list_elem_of_lookup_2 _ 0%nat). by vm_compute. Qed.

(** The message in flight decrypts before the stale packet, and no longer after it. *)
Lemma stale_replay_desynchronises :
  (toy_decrypt (p_header wit_q) (p_ct wit_q) wit_ad (st wit_stale Bob, wd wit_stale)).1
    = Ret (bstr "four") ∧
  (toy_decrypt (p_header wit_p) (p_ct wit_p) wit_ad (st wit_stale Bob, wd wit_stale)).1
    = Throw DecryptionFailed ∧
  (toy_decrypt (p_header wit_q) (p_ct wit_q) wit_ad
     (toy_decrypt (p_header wit_p) (p_ct wit_p) wit_ad (st wit_stale Bob, wd wit_stale)).2).1
    = Throw DecryptionFailed.
Proof. split_and!; by vm_compute. Qed.

Lemma fmap_value {A B} (f : A → B) (o : option A) a b : f <$> o = Some b → o = Some a → f a = b.
Proof. intros H ->. by injection H. Qed.
(** The stale ciphertext does not open under the key of the step. *)
Lemma wit_stale_unsealed ck :
  @new_chain_key toy_sodium toy_hashes (st wit_stale Bob) (ratchet_public_key (p_header wit_p)) = Some ck →
  @no_sealing toy_sodium (@mk_at toy_hashes ck (message_number (p_header wit_p))) wit_ad (p_ct wit_p).
Proof.
  intros Hck. apply decrypt_with_key_refuses.
  assert ((λ ck, @decrypt_with_key toy_sodium (@mk_at toy_hashes ck (message_number (p_header wit_p))) (p_ct wit_p) wit_ad)
    <$> @new_chain_key toy_sodium toy_hashes (st wit_stale Bob) (ratchet_public_key (p_header wit_p))
    = Some (Throw DecryptionFailed)) as H by (by vm_compute).
  exact (fmap_value _ _ _ _ H Hck).
Qed.
Lemma stale_replay_ratchets_witness :
  ∃ s' w', toy_decrypt (p_header wit_p) (p_ct wit_p) wit_ad (st wit_stale Bob, wd wit_stale)
           = (Throw DecryptionFailed, (s', w')) ∧
  remote_ratchet_key s' = Some (ratchet_public_key (p_header wit_p)) ∧
  (toy_decrypt (p_header wit_q) (p_ct wit_q) wit_ad (s', w')).1 = Throw DecryptionFailed.
Proof.
  assert (on_current_chain (st wit_stale Bob) wit_p = false) as Hcur by (by vm_compute).
  assert (is_u32 (recv_message_number (st wit_stale Bob))) as H1
    by (apply (bool_decide_unpack _); by vm_compute).
  assert (is_u32 (h_previous_chain_length (p_header wit_p))) as H2
    by (apply (bool_decide_unpack _); by vm_compute).
  assert (h_previous_chain_length (p_header wit_p) - recv_message_number (st wit_stale Bob) ≤ MAX_SKIP)
    as H3 by (apply Z.leb_le; by vm_compute).
  assert (0 ≤ message_number (p_header wit_p) ≤ MAX_SKIP) as H4
    by (split; apply Z.leb_le; by vm_compute).
  destruct (@stale_replay_ratchets debug_profile toy_sodium toy_hashes _ map_iter _ _ _ _
              (countable_serde_laws _) map_iter_laws wit_ad wit_stale Bob wit_p
              (toy_conf_reachable _) wit_p_seen Hcur H1 H2 H3 H4 wit_stale_unsealed) as (s' & Hd & Hrem & _).
  exists s', (@box_gen_keypair toy_sodium (wd wit_stale)).2.
  destruct stale_replay_desynchronises as (_ & _ & Hq). rewrite Hd in Hq |- *.
  split; [reflexivity|]. split; [exact Hrem|exact Hq].
Defined.

(** ** A header that was changed on the way *)
Section header.
Context {BP : BuildProfile} {SO : Sodium} {HA : Hashes}.
Context {L : SodiumLaws SO} {LA : AeadLaws SO} {LH : HashLaws HA}.
Implicit Types (s : RatchetState) (w : rng).

(** The ratchet step reads the sending side only. *)
Lemma signal_dh_ratchet_keeps pk s s0 w :
  keeps_sending s0 s →
  signal_dh_ratchet pk s w =
    '(s', w') ← signal_dh_ratchet pk s0 w; Some (set_skipped_keys (skipped_keys s) s', w').
Proof.
  intros (Hroot & _ & Hkp & Hsn & _). unfold signal_dh_ratchet. rewrite Hroot, Hkp, Hsn.
  destruct (sending_keypair s0) as [[opk osk]|]; [|done]. cbn.
  destruct (scalarmult osk pk) as [d1|]; [|done]. cbn. destruct (rk_step _ d1) as [r1 c1].
  destruct (box_gen_keypair w) as [[npk nsk] w1]. destruct (scalarmult nsk pk) as [d2|]; [|done].
  cbn. by destruct (rk_step r1 d2).
Qed.
Lemma signal_skip_keeps until s s' ck pk :
  receiving_chain_key s = Some ck → remote_ratchet_key s = Some pk →
  signal_skip until s = Some s' →
  let n := Z.to_nat (until - recv_message_number s) in
  s' = set_recv_message_number (recv_message_number s + Z.of_nat n)
         (set_receiving_chain_key (Some (chain_at ck n))
           (set_skipped_keys (skip_map pk (recv_message_number s) n ck (skipped_keys s)) s)).
Proof.
  intros Hck Hpk H. unfold signal_skip in H. case_match; [done|]. injection H as <-.
  by apply iter_skip_one.
Qed.
Lemma signal_dh_ratchet_fresh pk s w s' w' :
  signal_dh_ratchet pk s w = Some (s', w') →
  is_Some (receiving_chain_key s') ∧ remote_ratchet_key s' = Some pk ∧ recv_message_number s' = 0 ∧
  skipped_keys s' = skipped_keys s.
Proof.
  intros H. unfold signal_dh_ratchet in H.
  destruct (sending_keypair s) as [[opk osk]|]; [|done]. cbn in H.
  destruct (scalarmult osk pk) as [d1|]; [|done]. cbn in H. destruct (rk_step _ d1) as [r1 c1].
  destruct (box_gen_keypair w) as [[npk nsk] w1]. destruct (scalarmult nsk pk) as [d2|]; [|done].
  cbn in H. destruct (rk_step r1 d2) as [r2 c2]. injection H as <- <-. by split_and!.
Qed.

(** The specification with a CONCAT that leaves out the header, as the callers do.
    On the first packet of a new chain, given the length [n'] of the old one, only the
    stored keys depend on [n']. *)
Definition plain_ad (ad : bytes) (_ : MessageHeader) : bytes := ad.
Lemma decrypt_signal_plain h c ad s w :
  wf s → wf_header h → is_u32 (message_number h + 1) → conforming s h →
  committed (decrypt h c ad (s, w)) = signal_decrypt plain_ad h c ad s w.
Proof. exact (decrypt_signal_eq plain_ad h c ad s w). Qed.
Lemma signal_new_chain h c ad s w m s1 w1 ck pk :
  skipped_keys s !! (ratchet_public_key h, message_number h) = None →
  receiving_chain_key s = Some ck → remote_ratchet_key s = Some pk → pk ≠ ratchet_public_key h →
  signal_decrypt plain_ad h c ad s w = Some (m, s1, w1) →
  ∃ f : gmap (key32 * Z) key32 → gmap (key32 * Z) key32,
    (∀ sk j, f sk !! (pk, j) = sk !! (pk, j)) ∧
    ∀ n', n' - recv_message_number s ≤ MAX_SKIP →
      signal_decrypt plain_ad (mkMessageHeader (ratchet_public_key h) n' (message_number h)) c ad s w =
        Some (m, set_skipped_keys (f (skip_map pk (recv_message_number s)
                   (Z.to_nat (n' - recv_message_number s)) ck (skipped_keys s))) s1, w1).
Proof.
  intros Hnone Hck Hrem Hne Hd. unfold signal_decrypt in *. cbn [ratchet_public_key message_number
    h_previous_chain_length] in *. rewrite Hnone in Hd |- *.
  rewrite bool_decide_false in Hd |- * by congruence.
  apply bind_Some in Hd as ([sb wb] & Hb & Hd). apply bind_Some in Hb as (sa & Ha & Hb).
  pose proof (signal_skip_keeps _ _ _ _ _ Hck Hrem Ha) as Hsa. cbn zeta in Hsa.
  assert (keeps_sending s sa) as Hka by (subst sa; by destruct s).
  rewrite (signal_dh_ratchet_keeps _ sa s w Hka) in Hb.
  apply bind_Some in Hb as ([s0 w0] & H0 & [= <- <-]).
  destruct (signal_dh_ratchet_fresh _ _ _ _ _ H0) as ([ck0 Hck0] & Hrem0 & Hrn0 & _).
  apply bind_Some in Hd as (sc & Hc & Hd).
  set (K := Z.to_nat (message_number h)).
  assert (∀ sk, Nat.iter K skip_one (set_skipped_keys sk s0) =
            set_recv_message_number (Z.of_nat K) (set_receiving_chain_key (Some (chain_at ck0 K))
              (set_skipped_keys (skip_map (ratchet_public_key h) 0 K ck0 sk) s0))) as Hiter.
  { intros sk. rewrite (iter_skip_one K _ ck0 (ratchet_public_key h)).
    - destruct s0; simpl in *; subst. done.
    - by destruct s0.
    - by destruct s0. }
  assert (∀ sk, recv_message_number (set_skipped_keys sk s0) = 0) as Hrn by (intros; by destruct s0).
  unfold signal_skip in Hc. rewrite Hrn in Hc. destruct (0 + MAX_SKIP <? message_number h) eqn:Hmax;
    [done|]. rewrite Z.sub_0_r in Hc. fold K in Hc. rewrite Hiter in Hc. injection Hc as <-.
  exists (λ sk, skip_map (ratchet_public_key h) 0 K ck0 sk). split.
  { intros sk j. rewrite skip_map_lookup, bool_decide_false; [done|]. intros [-> _]. done. }
  intros n' Hn'.
  assert (signal_skip n' s = Some (Nat.iter (Z.to_nat (n' - recv_message_number s)) skip_one s)) as ->
    by (unfold signal_skip; by rewrite (proj2 (Z.ltb_ge _ _)) by lia).
  rewrite (iter_skip_one _ s ck pk Hck Hrem). cbn [mbind option_bind].
  erewrite (signal_dh_ratchet_keeps _ _ s w); [|by destruct s]. rewrite H0. cbn [mbind option_bind].
  unfold signal_skip. rewrite Hrn, Hmax, Z.sub_0_r. fold K. rewrite Hiter. cbn [mbind option_bind].
  destruct s as [rk sck rck kp rem sn rn pl sk0], s0 as [rk' sck' rck' kp' rem' sn' rn' pl' sk'].
  simpl in *. destruct (value _) as [m'|]; [|done]. cbn in Hd |- *. by injection Hd as <- <- <-.
Qed.

(** C18: the length of the previous chain in a header is not authenticated. Let
    [decrypt] accept the first packet of a new chain. Then it accepts the same
    ciphertext under a header that announces any other length [n'] not beyond what
    was received on the old chain, with the same plaintext and the same session, but
    without the keys of the messages of the old chain that are still under way:
    these are lost, and nothing reports it. *)
Theorem header_length_not_authenticated h c ad s w m s1 w1 ck pk n' :
  wf s → wf_header h → is_u32 (message_number h + 1) →
  skipped_keys s !! (ratchet_public_key h, message_number h) = None →
  receiving_chain_key s = Some ck → remote_ratchet_key s = Some pk → pk ≠ ratchet_public_key h →
  0 ≤ n' ≤ recv_message_number s →
  decrypt h c ad (s, w) = (Ret m, (s1, w1)) →
  ∃ s2, decrypt (mkMessageHeader (ratchet_public_key h) n' (message_number h)) c ad (s, w)
        = (Ret m, (s2, w1)) ∧ keeps_sending s1 s2 ∧
    receiving_chain_key s2 = receiving_chain_key s1 ∧
    recv_message_number s2 = recv_message_number s1 ∧
    ∀ j, recv_message_number s ≤ j < h_previous_chain_length h →
      is_Some (skipped_keys s1 !! (pk, j)) ∧ skipped_keys s2 !! (pk, j) = skipped_keys s !! (pk, j).
Proof.
  intros Hw [Hpl Hn] Hn1 Hnone Hck Hrem Hne Hn' Hd.
  assert (∀ n, conforming s (mkMessageHeader (ratchet_public_key h) n (message_number h))) as Hc.
  { intros n _. simpl. rewrite bool_decide_false by congruence. intros [|]; congruence. }
  assert (h = mkMessageHeader (ratchet_public_key h) (h_previous_chain_length h) (message_number h))
    as Hh by (by destruct h).
  assert (∀ n, is_u32 n → wf_header (mkMessageHeader (ratchet_public_key h) n (message_number h)))
    as Hwh by (by intros; split).
  assert (signal_decrypt plain_ad h c ad s w = Some (m, s1, w1)) as Hs.
  { rewrite <-(decrypt_signal_plain h c ad s w); [by rewrite Hd|done|by split|done|].
    rewrite Hh. apply Hc. }
  destruct (signal_new_chain h c ad s w m s1 w1 ck pk Hnone Hck Hrem Hne Hs) as (f & Hf & Hall).
  assert (h_previous_chain_length h - recv_message_number s ≤ MAX_SKIP) as Hwin.
  { unfold signal_decrypt, signal_skip in Hs. rewrite Hnone, bool_decide_false in Hs by congruence.
    destruct (Z.ltb_spec (recv_message_number s + MAX_SKIP) (h_previous_chain_length h)); [done|lia]. }
  pose proof (Hall _ Hwin) as H1. rewrite <-Hh, Hs in H1. injection H1 as H1.
  assert (committed (decrypt (mkMessageHeader (ratchet_public_key h) n' (message_number h)) c ad (s, w))
          = Some (m, set_skipped_keys (f (skipped_keys s)) s1, w1)) as H2.
  { rewrite decrypt_signal_plain; [|done|apply Hwh|done|apply Hc].
    - rewrite Hall by (unfold MAX_SKIP; lia).
      by replace (Z.to_nat (n' - recv_message_number s)) with O by lia.
    - destruct Hw. unfold is_u32, in_width in *. lia. }
  destruct (decrypt (mkMessageHeader _ n' _) c ad (s, w)) as [[m'|e|] [s2 w2]] eqn:He; [|done..].
  cbn in H2. injection H2 as -> -> ->.
  eexists. split; [done|]. split; [by destruct s1|]. split; [by destruct s1|]. split; [by destruct s1|].
  intros j Hj. split; [|destruct s1; simpl; by rewrite Hf].
  rewrite H1. destruct s1; simpl. rewrite Hf, skip_map_lookup, bool_decide_true; [by eexists|].
  split; [done|lia].
Qed.
End header.

(** Bob has received the first of two messages of Alice's old chain, and the first
    message of her new chain is announced to close the old one at length 0. *)
Definition wit_closing : config :=
  toy_conf [Send Alice (bstr "one"); Send Alice (bstr "lost"); Deliver Bob 1; Send Bob (bstr "two");
            Deliver Alice 0; Send Alice (bstr "three")].
Definition wit_three : packet := default wit_packet (fl wit_closing Bob !! 0%nat).
Definition wit_old_key : key32 := default wit_pk (remote_ratchet_key (st wit_closing Bob)).
Definition wit_old_ck : key32 := default wit_pk (receiving_chain_key (st wit_closing Bob)).
Lemma wf_wit_closing : wf (st wit_closing Bob).
Proof.
  split; apply (bool_decide_unpack _); by vm_compute.
Qed.
Lemma wit_three_delivered :
  (toy_decrypt (p_header wit_three) (p_ct wit_three) wit_ad (st wit_closing Bob, wd wit_closing)).1
  = Ret (bstr "three").
Proof. by vm_compute. Qed.

Lemma header_length_not_authenticated_witness :
  ∃ s2 w2,
    toy_decrypt (mkMessageHeader (ratchet_public_key (p_header wit_three)) 0
                   (message_number (p_header wit_three)))
      (p_ct wit_three) wit_ad (st wit_closing Bob, wd wit_closing) = (Ret (bstr "three"), (s2, w2)) ∧
    skipped_keys s2 !! (wit_old_key, 1) = None.
Proof.
  destruct (toy_decrypt (p_header wit_three) (p_ct wit_three) wit_ad
              (st wit_closing Bob, wd wit_closing)) as [o [s1 w1]] eqn:Hd.
  pose proof wit_three_delivered as Ho. rewrite Hd in Ho. simpl in Ho. subst o.
  assert (wf_header (p_header wit_three)) as H1
    by (split; apply (bool_decide_unpack _); by vm_compute).
  assert (is_u32 (message_number (p_header wit_three) + 1)) as H2
    by (apply (bool_decide_unpack _); by vm_compute).
  assert (skipped_keys (st wit_closing Bob) !!
            (ratchet_public_key (p_header wit_three), message_number (p_header wit_three)) = None)
    as H3 by (by vm_compute).
  assert (receiving_chain_key (st wit_closing Bob) = Some wit_old_ck) as H4 by (by vm_compute).
  assert (remote_ratchet_key (st wit_closing Bob) = Some wit_old_key) as H5 by (by vm_compute).
  assert (wit_old_key ≠ ratchet_public_key (p_header wit_three)) as H6
    by (apply (bool_decide_unpack _); by vm_compute).
  assert (0 ≤ 0 ≤ recv_message_number (st wit_closing Bob)) as H7
    by (split; apply Z.leb_le; by vm_compute).
  destruct (@header_length_not_authenticated debug_profile toy_sodium toy_hashes _ _
              (p_header wit_three) (p_ct wit_three) wit_ad (st wit_closing Bob) (wd wit_closing)
              (bstr "three") s1 w1 wit_old_ck wit_old_key 0 wf_wit_closing H1 H2 H3 H4 H5 H6 H7 Hd)
    as (s2 & Hd2 & _ & _ & _ & Hlost).
  exists s2, w1. split; [exact Hd2|].
  assert (recv_message_number (st wit_closing Bob) ≤ 1 < h_previous_chain_length (p_header wit_three))
    as H8 by (split; [apply Z.leb_le|apply Z.ltb_lt]; by vm_compute).
  assert (skipped_keys (st wit_closing Bob) !! (wit_old_key, 1) = None) as H9 by (by vm_compute).
  rewrite <-H9. exact (proj2 (Hlost 1 H8)).
Defined.
