(* ===== verification/Identity.v ===== *)
(** * identity.rs: Ed25519 identity keys

    [IdentityKeyPair] with its zeroizing wrapper, key generation with the
    debug assertions, reconstruction from bytes, signing and the fingerprint. *)

From S2P Require Import Prelude RustStr Errors Sodium Instances.

Record SecretKeyWrapper := mkSecretKeyWrapper { inner : array 64 }.
Record IdentityKeyPair := mkIdentityKeyPair {
  public_key : key32;
  secret_key_wrapper : SecretKeyWrapper;
}.

Definition SecretKeyWrapper_zeroize (_ : SecretKeyWrapper) : SecretKeyWrapper :=
  mkSecretKeyWrapper (array_repeat 64 Byte.x00).
Definition SecretKeyWrapper_drop (self : SecretKeyWrapper) : SecretKeyWrapper :=
  SecretKeyWrapper_zeroize self.

(** [.iter().any(|&b| b != 0)]. *)
Definition any_nonzero (l : bytes) : bool :=
  existsb (λ b, negb (bool_decide (b = Byte.x00))) l.

(** [slice.chunks(n)]; the fuel is the length of the slice. *)
Fixpoint chunks_go {A} (fuel n : nat) (l : list A) : list (list A) :=
  match fuel, l with
  | S fuel, _ :: _ => take n l :: chunks_go fuel n (drop n l)
  | _, _ => []
  end.
Definition chunks {A} (n : nat) (l : list A) : list (list A) := chunks_go (length l) n l.

(** U+00B7 in UTF-8. *)
Definition middle_dot : bytes := [Byte.xc2; Byte.xb7].

Section identity.
Context {BP : BuildProfile} {SO : Sodium}.

Definition generate : M rng CryptoError IdentityKeyPair :=
  init_sodium;;
  '(pk, sk) ← draw sign_gen_keypair;
  lift (debug_assert (any_nonzero (array_list pk)));;
  lift (debug_assert (any_nonzero (array_list sk)));;
  mret (mkIdentityKeyPair pk (mkSecretKeyWrapper sk)).

Definition from_bytes (public_key secret_key : bytes) : Result IdentityKeyPair :=
  pk ← ok_or (from_slice 32 public_key) (InvalidKeyLength 32 (blen public_key));
  sk ← ok_or (from_slice 64 secret_key) (InvalidKeyLength 64 (blen secret_key));
  mret (mkIdentityKeyPair pk (mkSecretKeyWrapper sk)).

Definition secret_key (self : IdentityKeyPair) : array 64 := inner (secret_key_wrapper self).
Definition secret_key_bytes (self : IdentityKeyPair) : array 64 := inner (secret_key_wrapper self).
Definition sign (self : IdentityKeyPair) (message : bytes) : Signature :=
  sign_detached message (secret_key self).
Definition verify (public_key : key32) (message : bytes) (signature : Signature) : bool :=
  verify_detached signature message public_key.

Definition public_key_fingerprint (self : IdentityKeyPair) : Result bytes :=
  let bytes := array_list (public_key self) in
  first ← slice_to bytes 8;
  groups ← mapM (M := outcome CryptoError)
             (λ chunk, c0 ← index chunk 0; c1 ← index chunk 1;
                       mret (format_02X c0 ++ format_02X c1)) (chunks 2 first);
  mret (join middle_dot groups).
End identity.

(** ** Facts *)
Section identity_facts.
Context {BP : BuildProfile} {SO : Sodium} {L : SodiumLaws SO}.

Lemma from_bytes_arrays (pk : key32) (sk : array 64) :
  from_bytes (array_list pk) (array_list sk)
  = Ret (mkIdentityKeyPair pk (mkSecretKeyWrapper sk)).
Proof. unfold from_bytes. by rewrite !from_slice_array. Qed.

(** [generate] up to its debug assertions. *)
Lemma generate_run w :
  ready w →
  (debug_assertions = true → any_nonzero (array_list (sign_gen_keypair w).1.1) = true ∧
                             any_nonzero (array_list (sign_gen_keypair w).1.2) = true) →
  ∃ pk sk w', sign_gen_keypair w = ((pk, sk), w') ∧ ready w' ∧
    generate w = (Ret (mkIdentityKeyPair pk (mkSecretKeyWrapper sk)), w').
Proof.
  intros Hw Hdbg. pose proof (ready_sign_gen_keypair w Hw) as Hw'.
  destruct (sign_gen_keypair w) as [[pk sk] w'] eqn:Hg. simpl in *.
  exists pk, sk, w'. split_and!; [done..|]. unfold generate. mstep (init_sodium_ready w Hw).
  mred. rewrite Hg. mred. unfold debug_assert.
  destruct debug_assertions; [|done]. by destruct Hdbg as [-> ->].
Qed.

(** The generator does not trip the debug assertions. *)
Definition sign_keys_nonzero : Prop :=
  debug_assertions = true → ∀ w, any_nonzero (array_list (sign_gen_keypair w).1.1) = true ∧
                                 any_nonzero (array_list (sign_gen_keypair w).1.2) = true.
Lemma identity_generate_pair {LK : KeyLaws SO} w :
  ready w → sign_keys_nonzero →
  ∃ id w', generate w = (Ret id, w') ∧ ready w' ∧ sign_pair (public_key id) (secret_key id).
Proof.
  intros Hw Hnz. destruct (generate_run w Hw (λ H, Hnz H w)) as (pk & sk & w' & Hg & Hw' & Hrun).
  pose proof (sign_gen_pair w) as Hp. rewrite Hg in Hp. by eexists _, w'.
Qed.

(** The identity of a drawn key pair. *)
Definition identity_of (kp : key32 * array 64) : IdentityKeyPair :=
  mkIdentityKeyPair kp.1 (mkSecretKeyWrapper kp.2).
Lemma generate_drawn w :
  ready w → sign_keys_nonzero →
  generate w = (Ret (identity_of (sign_gen_keypair w).1), (sign_gen_keypair w).2).
Proof.
  intros Hw Hnz. destruct (generate_run w Hw (λ H, Hnz H w)) as (pk & sk & w' & Hg & _ & Hrun).
  by rewrite Hg.
Qed.

Lemma format_02X_length b : length (format_02X b) = 2%nat.
Proof. done. Qed.
Lemma byte_ind (P : byte → Prop) : (∀ n, (n < 256)%nat → P (byte_of_Z (Z.of_nat n))) → ∀ b, P b.
Proof.
  intros H b. rewrite <-(byte_of_to_Z b). pose proof (byte_to_Z_range b).
  rewrite <-(Z2Nat.id (byte_to_Z b)) by lia. apply H. lia.
Qed.
(** The two digits can be read back. *)
Definition hex_digit_value (c : byte) : Z :=
  if byte_to_Z c <? 58 then byte_to_Z c - 48 else byte_to_Z c - 55.
Definition read_02X (s : bytes) : byte :=
  match s with [h; l] => byte_of_Z (16 * hex_digit_value h + hex_digit_value l) | _ => Byte.x00 end.
Lemma read_format_02X b : read_02X (format_02X b) = b.
Proof.
  apply (byte_ind (λ b, read_02X (format_02X b) = b)).
  assert (forallb (λ n, bool_decide (read_02X (format_02X (byte_of_Z (Z.of_nat n))) = byte_of_Z (Z.of_nat n)))
            (seq 0 256) = true) as Hall by (by vm_compute).
  rewrite forallb_forall in Hall. intros n Hn. specialize (Hall n ltac:(apply in_seq; lia)).
  by apply bool_decide_eq_true in Hall.
Qed.
Lemma format_02X_inj b c : format_02X b = format_02X c → b = c.
Proof. intros H. by rewrite <-(read_format_02X b), H, read_format_02X. Qed.

(** The fingerprint in closed form. *)
Definition fingerprint_of (l : bytes) : bytes :=
  match l with
  | [b0; b1; b2; b3; b4; b5; b6; b7] =>
      (format_02X b0 ++ format_02X b1) ++ middle_dot ++ (format_02X b2 ++ format_02X b3)
      ++ middle_dot ++ (format_02X b4 ++ format_02X b5) ++ middle_dot
      ++ (format_02X b6 ++ format_02X b7)
  | _ => []
  end.
Lemma length_8 (l : bytes) :
  length l = 8%nat → ∃ b0 b1 b2 b3 b4 b5 b6 b7, l = [b0; b1; b2; b3; b4; b5; b6; b7].
Proof.
  destruct l as [|b0 [|b1 [|b2 [|b3 [|b4 [|b5 [|b6 [|b7 []]]]]]]]]; try done.
  intros _. by exists b0, b1, b2, b3, b4, b5, b6, b7.
Qed.
Lemma fingerprint_run self :
  public_key_fingerprint self = Ret (fingerprint_of (take 8 (array_list (public_key self)))).
Proof.
  unfold public_key_fingerprint.
  assert (length (take 8 (array_list (public_key self))) = 8%nat) as Hl.
  { rewrite length_take, array_length. done. }
  rewrite slice_to_ok by (rewrite array_blen; lia). change (Z.to_nat 8) with 8%nat.
  destruct (length_8 _ Hl) as (b0 & b1 & b2 & b3 & b4 & b5 & b6 & b7 & ->). reflexivity.
Qed.
Lemma fingerprint_of_inj l k :
  length l = 8%nat → length k = 8%nat → fingerprint_of l = fingerprint_of k → l = k.
Proof.
  intros Hl Hk. destruct (length_8 _ Hl) as (b0 & b1 & b2 & b3 & b4 & b5 & b6 & b7 & ->).
  destruct (length_8 _ Hk) as (c0 & c1 & c2 & c3 & c4 & c5 & c6 & c7 & ->).
  unfold fingerprint_of. intros H.
  repeat (rewrite <-?(assoc_L (++)) in H; apply app_inj_1 in H as [?%format_02X_inj H]; [|done];
          try (apply (inj (app middle_dot)) in H)).
  by apply format_02X_inj in H; subst.
Qed.
End identity_facts.

(** ** Properties *)
Section identity_properties.
Context {BP : BuildProfile} {SO : Sodium} {L : SodiumLaws SO} {LK : KeyLaws SO}.

(** A generated identity works and can be stored: what it signs verifies
    under its public key, for every message, and [from_bytes] on the stored public
    key and [secret_key_bytes] restores the same identity.*)
Theorem identity_generate_usable w :
  ready w →
  (debug_assertions = true → any_nonzero (array_list (sign_gen_keypair w).1.1) = true ∧
                             any_nonzero (array_list (sign_gen_keypair w).1.2) = true) →
  ∃ id w', generate w = (Ret id, w') ∧
    (∀ m, verify (public_key id) m (sign id m) = true) ∧
    from_bytes (array_list (public_key id)) (array_list (secret_key_bytes id)) = Ret id.
Proof.
  intros Hw Hdbg. destruct (generate_run w Hw Hdbg) as (pk & sk & w' & Hg & _ & Hrun).
  pose proof (sign_gen_pair w) as Hp. rewrite Hg in Hp. simpl in Hp.
  eexists _, w'. split; [exact Hrun|]. split; [|apply from_bytes_arrays].
  intros m. by apply verify_sign.
Qed.

(** [from_bytes] checks both lengths and reports the first that is wrong;
    otherwise the identity holds exactly the given bytes.*)
Theorem identity_from_bytes_exact pk sk :
  from_bytes pk sk =
    if decide (length pk = 32%nat) then
      if decide (length sk = 64%nat) then
        match array_of_list 32 pk, array_of_list 64 sk with
        | Some pk, Some sk => Ret (mkIdentityKeyPair pk (mkSecretKeyWrapper sk))
        | _, _ => Panic
        end
      else Throw (InvalidKeyLength 64 (blen sk))
    else Throw (InvalidKeyLength 32 (blen pk)).
Proof.
  unfold from_bytes. rewrite !from_slice_spec.
  destruct (decide (length pk = 32%nat)) as [Hp|Hp]; [|by rewrite (array_of_list_None 32 pk)].
  destruct (array_of_list_Some _ _ Hp) as (a & -> & _). mred.
  destruct (decide (length sk = 64%nat)) as [Hs|Hs]; [|by rewrite (array_of_list_None 64 sk)].
  by destruct (array_of_list_Some _ _ Hs) as (b & -> & _).
Qed.

(** The fingerprint never fails, takes 22 bytes, and identifies the first
    eight bytes of the public key: two identities show the same one exactly when
    those agree. *)
Theorem fingerprint_identifies_prefix a b :
  ∃ fa fb, public_key_fingerprint a = Ret fa ∧ public_key_fingerprint b = Ret fb ∧
    length fa = 22%nat ∧
    (fa = fb ↔ take 8 (array_list (public_key a)) = take 8 (array_list (public_key b))).
Proof.
  eexists _, _. split_and!; [apply fingerprint_run..| |].
  - destruct (length_8 (take 8 (array_list (public_key a))))
      as (b0 & b1 & b2 & b3 & b4 & b5 & b6 & b7 & ->); [|reflexivity].
    by rewrite length_take, array_length.
  - split; [|by intros ->]. apply fingerprint_of_inj; by rewrite length_take, array_length.
Qed.
End identity_properties.

Lemma toy_sign_keys_nonzero_release : @sign_keys_nonzero release_profile toy_sodium.
Proof. intros H. discriminate H. Qed.
Lemma identity_generate_usable_witness :
  @ready toy_sodium 77 ∧
  ∃ id w', @generate debug_profile toy_sodium 77 = (Ret id, w') ∧
    (∀ m, @verify toy_sodium (public_key id) m (@sign toy_sodium id m) = true) ∧
    @from_bytes toy_sodium (array_list (public_key id)) (array_list (secret_key_bytes id)) = Ret id.
Proof.
  assert (any_nonzero (array_list (@sign_gen_keypair toy_sodium 77).1.1) = true ∧
          any_nonzero (array_list (@sign_gen_keypair toy_sodium 77).1.2) = true) as H
    by (split; by vm_compute).
  split; [done|].
  exact (@identity_generate_usable debug_profile toy_sodium _ toy_key_laws 77 eq_refl (λ _, H)).
Defined.
Lemma identity_from_bytes_exact_witness :
  @from_bytes toy_sodium (replicate 32 Byte.x01) (replicate 63 Byte.x01)
  = Throw (InvalidKeyLength 64 63).
Proof.
  exact (@identity_from_bytes_exact toy_sodium _ (replicate 32 Byte.x01) (replicate 63 Byte.x01)).
Defined.
Lemma fingerprint_identifies_prefix_witness :
  ∃ fa fb,
    public_key_fingerprint (mkIdentityKeyPair (array_repeat 32 Byte.x7f) (mkSecretKeyWrapper (array_repeat 64 Byte.x00))) = Ret fa ∧
    public_key_fingerprint (mkIdentityKeyPair (array_repeat 32 Byte.x80) (mkSecretKeyWrapper (array_repeat 64 Byte.x00))) = Ret fb ∧
    length fa = 22%nat ∧
    (fa = fb ↔ take 8 (replicate 32 Byte.x7f) = take 8 (replicate 32 Byte.x80)).
Proof.
  exact (fingerprint_identifies_prefix
    (mkIdentityKeyPair (array_repeat 32 Byte.x7f) (mkSecretKeyWrapper (array_repeat 64 Byte.x00)))
    (mkIdentityKeyPair (array_repeat 32 Byte.x80) (mkSecretKeyWrapper (array_repeat 64 Byte.x00)))).
Defined.
