(* ===== verification/X3dh.v ===== *)
(** * x3dh.rs: the X3DH handshake

    The initiator's and the responder's computations over libsodium's key
    conversions and X25519, with every early return. [agreed_secret] is the
    specification both sides refine: the KDF of the three or four
    Diffie-Hellman values of a handshake. *)

From S2P Require Import Prelude RustStr Errors Sodium Instances Identity.

Definition X3DH_INFO : bytes := bstr "VAULTEX_X3DH".

Section records.
Context {SO : Sodium}.
Record RecipientPreKeyBundle := mkRecipientPreKeyBundle {
  identity_key : key32;
  signed_prekey : key32;
  signed_prekey_signature : Signature;
  one_time_prekey : option (Z * key32);
}.
End records.

Record X3DHInitResult := mkX3DHInitResult {
  shared_secret : key32;
  ephemeral_public_key : key32;
  used_one_time_prekey_id : option Z;
}.
Definition X3DHInitResult_drop (self : X3DHInitResult) : X3DHInitResult :=
  mkX3DHInitResult (array_repeat 32 Byte.x00) (ephemeral_public_key self)
    (used_one_time_prekey_id self).

Section x3dh.
Context {SO : Sodium} {HA : Hashes}.

Definition ed25519_pk_to_curve25519 (pk : key32) : Result key32 :=
  let '(ret, curve_pk) := Sodium.ed25519_pk_to_curve25519 pk in
  if negb (ret =? 0) then Throw (InvalidKeyLength 32 0)
  else ok_or (from_slice 32 (array_list curve_pk))
             (InvalidKeyLength 32 (blen (array_list curve_pk))).

Definition ed25519_sk_to_curve25519 (sk : array 64) : Result key32 :=
  let '(ret, curve_sk) := Sodium.ed25519_sk_to_curve25519 sk in
  if negb (ret =? 0) then Throw (InvalidKeyLength 32 0)
  else ok_or (from_slice 32 (array_list curve_sk))
             (InvalidKeyLength 32 (blen (array_list curve_sk))).

Definition dh (our_secret their_public : key32) : Result key32 :=
  ok_or (scalarmult our_secret their_public) HkdfExpandFailed.

Definition kdf (dh_concat : bytes) : Result key32 :=
  output ← ok_or (hkdf_sha256 None dh_concat X3DH_INFO 32) HkdfExpandFailed;
  copy_from_slice 32 output.

Definition initiate_x3dh (sender_identity : IdentityKeyPair) (bundle : RecipientPreKeyBundle) :
  M rng CryptoError X3DHInitResult :=
  init_sodium;;
  let spk_bytes := array_list (signed_prekey bundle) in
  if negb (verify_detached (signed_prekey_signature bundle) spk_bytes (identity_key bundle))
  then throw InvalidPreKeySignature
  else
    ik_a_curve_sk ← lift (ed25519_sk_to_curve25519 (secret_key sender_identity));
    ik_b_curve_pk ← lift (ed25519_pk_to_curve25519 (identity_key bundle));
    '(ek_pk, ek_sk) ← draw box_gen_keypair;
    ek ← lift (slice_to (array_list ek_sk) 32);
    ek_scalar ← lift (ok_or (from_slice 32 ek) (InvalidKeyLength 32 32));
    spk_ge ← lift (ok_or (from_slice 32 (array_list (signed_prekey bundle)))
                         (InvalidKeyLength 32 32));
    dh1 ← lift (dh ik_a_curve_sk spk_ge);
    dh2 ← lift (dh ek_scalar ik_b_curve_pk);
    dh3 ← lift (dh ek_scalar spk_ge);
    let dh_concat := array_list dh1 ++ array_list dh2 ++ array_list dh3 in
    '(dh_concat, used_otpk_id) ←
      match one_time_prekey bundle with
      | Some (otpk_id, otpk_pk) =>
          otpk_ge ← lift (ok_or (from_slice 32 (array_list otpk_pk)) (InvalidKeyLength 32 32));
          dh4 ← lift (dh ek_scalar otpk_ge);
          mret (dh_concat ++ array_list dh4, Some otpk_id)
      | None => mret (dh_concat, None)
      end;
    shared_secret ← lift (kdf dh_concat);
    mret (mkX3DHInitResult shared_secret ek_pk used_otpk_id).

Definition accept_x3dh (receiver_identity : IdentityKeyPair) (signed_prekey_secret : key32)
  (one_time_prekey_secret : option key32) (sender_identity_key sender_ephemeral_key : key32) :
  M rng CryptoError key32 :=
  init_sodium;;
  ik_b_curve_sk ← lift (ed25519_sk_to_curve25519 (secret_key receiver_identity));
  ik_a_curve_pk ← lift (ed25519_pk_to_curve25519 sender_identity_key);
  spk ← lift (slice_to (array_list signed_prekey_secret) 32);
  spk_scalar ← lift (ok_or (from_slice 32 spk) (InvalidKeyLength 32 32));
  ek_ge ← lift (ok_or (from_slice 32 (array_list sender_ephemeral_key))
                      (InvalidKeyLength 32 32));
  dh1 ← lift (dh spk_scalar ik_a_curve_pk);
  dh2 ← lift (dh ik_b_curve_sk ek_ge);
  dh3 ← lift (dh spk_scalar ek_ge);
  let dh_concat := array_list dh1 ++ array_list dh2 ++ array_list dh3 in
  dh_concat ←
    match one_time_prekey_secret with
    | Some otpk_sk =>
        otpk ← lift (slice_to (array_list otpk_sk) 32);
        otpk_scalar ← lift (ok_or (from_slice 32 otpk) (InvalidKeyLength 32 32));
        dh4 ← lift (dh otpk_scalar ek_ge);
        mret (dh_concat ++ array_list dh4)
    | None => mret dh_concat
    end;
  lift (kdf dh_concat).
End x3dh.

(** ** The specification: the secret of a handshake *)
Section spec.
Context {SO : Sodium} {HA : Hashes}.

(** The secrets of the four exchanges, and the key they give. *)
Definition x3dh_concat (d1 d2 d3 : key32) (d4 : option key32) : bytes :=
  (array_list d1 ++ array_list d2 ++ array_list d3)
  ++ match d4 with Some d4 => array_list d4 | None => [] end.
Definition agreed_secret (d1 d2 d3 : key32) (d4 : option key32) : key32 :=
  match kdf (x3dh_concat d1 d2 d3 d4) with Ret k => k | _ => d1 end.

Context {L : SodiumLaws SO} {LH : HashLaws HA}.

Lemma kdf_total c : ∃ k, kdf c = Ret k.
Proof.
  unfold kdf. destruct (hkdf_length None c X3DH_INFO 32) as (okm & -> & Hl); [lia|]. mred.
  unfold copy_from_slice. destruct (array_of_list_Some 32 okm Hl) as (a & -> & _). by exists a.
Qed.
Lemma kdf_agreed d1 d2 d3 d4 :
  kdf (x3dh_concat d1 d2 d3 d4) = Ret (agreed_secret d1 d2 d3 d4).
Proof. unfold agreed_secret. by destruct (kdf_total (x3dh_concat d1 d2 d3 d4)) as [k ->]. Qed.
Lemma pk_to_curve_run pk c :
  Sodium.ed25519_pk_to_curve25519 pk = (0, c) → ed25519_pk_to_curve25519 pk = Ret c.
Proof. intros H. unfold ed25519_pk_to_curve25519. rewrite H. simpl. by rewrite from_slice_array. Qed.
Lemma sk_to_curve_run sk c :
  Sodium.ed25519_sk_to_curve25519 sk = (0, c) → ed25519_sk_to_curve25519 sk = Ret c.
Proof. intros H. unfold ed25519_sk_to_curve25519. rewrite H. simpl. by rewrite from_slice_array. Qed.

(** The initiator computes the secret of its four exchanges. *)
Lemma initiate_run a b ska pkb w ek w' d1 d2 d3 opk d4 :
  ready w →
  verify_detached (signed_prekey_signature b) (array_list (signed_prekey b)) (identity_key b) = true →
  Sodium.ed25519_sk_to_curve25519 (secret_key a) = (0, ska) →
  Sodium.ed25519_pk_to_curve25519 (identity_key b) = (0, pkb) →
  box_gen_keypair w = (ek, w') →
  scalarmult ska (signed_prekey b) = Some d1 →
  scalarmult ek.2 pkb = Some d2 →
  scalarmult ek.2 (signed_prekey b) = Some d3 →
  one_time_prekey b = opk →
  match opk with Some (_, pk) => scalarmult ek.2 pk = d4 ∧ is_Some d4 | None => d4 = None end →
  initiate_x3dh a b w =
    (Ret (mkX3DHInitResult (agreed_secret d1 d2 d3 d4) ek.1 (fst <$> opk)), w').
Proof.
  intros Hw Hv Hsk Hpk Hg H1 H2 H3 Ho H4. unfold initiate_x3dh. mstep (init_sodium_ready w Hw).
  rewrite Hv. cbn [negb]. mred. rewrite (sk_to_curve_run _ _ Hsk). mred.
  rewrite (pk_to_curve_run _ _ Hpk). mred. rewrite Hg. destruct ek as [epk esk]. simpl in *. mred.
  rewrite slice_to_full by (by rewrite array_blen). mred. rewrite !from_slice_array. mred.
  unfold dh. rewrite H1, H2, H3. mred. rewrite Ho.
  destruct opk as [[i pk]|]; mred.
  - destruct H4 as [H4 [x ->]]. rewrite from_slice_array. mred. rewrite H4. mred.
    pose proof (kdf_agreed d1 d2 d3 (Some x)) as Hk. unfold x3dh_concat in Hk. by rewrite Hk.
  - subst d4. pose proof (kdf_agreed d1 d2 d3 None) as Hk. unfold x3dh_concat in Hk.
    rewrite app_nil_r in Hk. by rewrite Hk.
Qed.

(** The responder computes the secret of its own. *)
Lemma accept_run b spk_sk otpk_sk ika skb pka ek w d1 d2 d3 d4 :
  ready w →
  Sodium.ed25519_sk_to_curve25519 (secret_key b) = (0, skb) →
  Sodium.ed25519_pk_to_curve25519 ika = (0, pka) →
  scalarmult spk_sk pka = Some d1 →
  scalarmult skb ek = Some d2 →
  scalarmult spk_sk ek = Some d3 →
  match otpk_sk with Some sk => scalarmult sk ek = d4 ∧ is_Some d4 | None => d4 = None end →
  accept_x3dh b spk_sk otpk_sk ika ek w = (Ret (agreed_secret d1 d2 d3 d4), w).
Proof.
  intros Hw Hsk Hpk H1 H2 H3 H4. unfold accept_x3dh. mstep (init_sodium_ready w Hw). mred.
  rewrite (sk_to_curve_run _ _ Hsk). mred. rewrite (pk_to_curve_run _ _ Hpk). mred.
  rewrite slice_to_full by (by rewrite array_blen). mred. rewrite !from_slice_array. mred.
  unfold dh. rewrite H1, H2, H3. mred. destruct otpk_sk as [sk|]; mred.
  - destruct H4 as [H4 [x ->]]. rewrite slice_to_full by (by rewrite array_blen). mred.
    rewrite from_slice_array. mred. rewrite H4. mred.
    pose proof (kdf_agreed d1 d2 d3 (Some x)) as Hk. unfold x3dh_concat in Hk. by rewrite Hk.
  - subst d4. pose proof (kdf_agreed d1 d2 d3 None) as Hk. unfold x3dh_concat in Hk.
    rewrite app_nil_r in Hk. by rewrite Hk.
Qed.
End spec.

(** ** Properties *)
Section x3dh_properties.
Context {SO : Sodium} {HA : Hashes}.
Context {L : SodiumLaws SO} {LH : HashLaws HA} {LK : KeyLaws SO}.

(** The Curve25519 pair of an identity. *)
Lemma identity_curve_pair pk sk :
  sign_pair pk sk →
  ∃ cpk csk, Sodium.ed25519_pk_to_curve25519 pk = (0, cpk) ∧
             Sodium.ed25519_sk_to_curve25519 sk = (0, csk) ∧ box_pair cpk csk.
Proof.
  intros H. destruct (ed25519_to_curve25519 _ _ H) as (Hp & Hs & Hc).
  destruct (Sodium.ed25519_pk_to_curve25519 pk) as [r1 cpk].
  destruct (Sodium.ed25519_sk_to_curve25519 sk) as [r2 csk]. simpl in *. subst. by exists cpk, csk.
Qed.

(** The bundle that an identity publishes for a signed prekey and, possibly, a
    one-time prekey. *)
Definition bundle_of (id : IdentityKeyPair) (spk : key32) (otpk : option (Z * (key32 * key32))) :
  RecipientPreKeyBundle :=
  mkRecipientPreKeyBundle (public_key id) spk (sign id (array_list spk))
    ((λ o, (o.1, o.2.1)) <$> otpk).

(** Both sides' runs, for any signature that verifies. *)
Lemma x3dh_agree_signed a b spk_pk spk_sk sig otpk w :
  ready w →
  sign_pair (public_key a) (secret_key a) → sign_pair (public_key b) (secret_key b) →
  box_pair spk_pk spk_sk → (∀ i pk sk, otpk = Some (i, (pk, sk)) → box_pair pk sk) →
  verify_detached sig (array_list spk_pk) (public_key b) = true →
  ∃ r w', initiate_x3dh a (mkRecipientPreKeyBundle (public_key b) spk_pk sig ((λ o, (o.1, o.2.1)) <$> otpk)) w
          = (Ret r, w') ∧
    ready w' ∧ used_one_time_prekey_id r = fst <$> otpk ∧
    ∀ wb, ready wb → accept_x3dh b spk_sk ((λ o, o.2.2) <$> otpk) (public_key a) (ephemeral_public_key r) wb
    = (Ret (shared_secret r), wb).
Proof.
  intros Hw Ha Hb Hspk Hotpk Hsig.
  destruct (identity_curve_pair _ _ Ha) as (pka & ska & Hap & Has & Hac).
  destruct (identity_curve_pair _ _ Hb) as (pkb & skb & Hbp & Hbs & Hbc).
  pose proof (box_gen_pair w) as Hek.
  pose proof (ready_box_gen_keypair w Hw) as Hw'. destruct (box_gen_keypair w) as [ek w'] eqn:Hg. simpl in Hek, Hw'.
  destruct (scalarmult_comm _ _ _ _ Hac Hspk) as (d1 & H1 & H1').
  destruct (scalarmult_comm _ _ _ _ Hek Hbc) as (d2 & H2 & H2').
  destruct (scalarmult_comm _ _ _ _ Hek Hspk) as (d3 & H3 & H3').
  assert (∃ d4,
    match (λ o : Z * (key32 * key32), (o.1, o.2.1)) <$> otpk with
    | Some (_, pk) => scalarmult ek.2 pk = d4 ∧ is_Some d4 | None => d4 = None end ∧
    match (λ o : Z * (key32 * key32), o.2.2) <$> otpk with
    | Some sk => scalarmult sk ek.1 = d4 ∧ is_Some d4 | None => d4 = None end) as (d4 & H4 & H4').
  { destruct otpk as [[i [pk sk]]|]; simpl; [|by exists None].
    destruct (scalarmult_comm _ _ _ _ Hek (Hotpk _ _ _ eq_refl)) as (x & Hx & Hx'). by exists (Some x). }
  eexists _, w'. split.
  { by eapply (initiate_run a (mkRecipientPreKeyBundle _ _ _ _) ska pkb w ek w' d1 d2 d3). }
  split; [done|]. split; simpl; [by destruct otpk as [[]|]|].
  intros wb Hwb. by apply (accept_run _ _ _ _ skb pka).
Qed.
Lemma x3dh_agree a b spk_pk spk_sk otpk w :
  ready w →
  sign_pair (public_key a) (secret_key a) → sign_pair (public_key b) (secret_key b) →
  box_pair spk_pk spk_sk → (∀ i pk sk, otpk = Some (i, (pk, sk)) → box_pair pk sk) →
  ∃ r w', initiate_x3dh a (bundle_of b spk_pk otpk) w = (Ret r, w') ∧
    ready w' ∧ used_one_time_prekey_id r = fst <$> otpk ∧
    ∀ wb, ready wb → accept_x3dh b spk_sk ((λ o, o.2.2) <$> otpk) (public_key a) (ephemeral_public_key r) wb
    = (Ret (shared_secret r), wb).
Proof. intros. apply x3dh_agree_signed; [done..|by apply verify_sign]. Qed.

(** C11: key agreement. With genuine identity keys, signed prekey and one-time
    prekey (or none), the initiator succeeds on the recipient's bundle, reports the
    one-time prekey it used, and the responder, from the initiator's identity and
    ephemeral keys, computes the same shared secret. *)
Theorem x3dh_agreement a b spk_pk spk_sk otpk w wb :
  ready w → ready wb →
  sign_pair (public_key a) (secret_key a) → sign_pair (public_key b) (secret_key b) →
  box_pair spk_pk spk_sk → (∀ i pk sk, otpk = Some (i, (pk, sk)) → box_pair pk sk) →
  ∃ r w', initiate_x3dh a (bundle_of b spk_pk otpk) w = (Ret r, w') ∧
    used_one_time_prekey_id r = fst <$> otpk ∧
    accept_x3dh b spk_sk ((λ o, o.2.2) <$> otpk) (public_key a) (ephemeral_public_key r) wb
    = (Ret (shared_secret r), wb).
Proof.
  intros Hw Hwb Ha Hb Hspk Hotpk.
  destruct (x3dh_agree a b spk_pk spk_sk otpk w) as (r & w' & Hi & _ & Hu & Hacc); [done..|].
  exists r, w'. split_and!; [done..|by apply Hacc].
Qed.

Lemma initiate_bad_signature a b w :
  ready w →
  verify_detached (signed_prekey_signature b) (array_list (signed_prekey b)) (identity_key b) = false →
  initiate_x3dh a b w = (Throw InvalidPreKeySignature, w).
Proof.
  intros Hw Hv. unfold initiate_x3dh. mstep (init_sodium_ready w Hw). by rewrite Hv.
Qed.
(** C32: a bundle whose signature does not verify is rejected before anything
    else happens: no ephemeral key is generated, and whatever the rest of the
    bundle holds does not matter. *)
Theorem x3dh_rejects_bad_signature a b w :
  ready w →
  verify_detached (signed_prekey_signature b) (array_list (signed_prekey b)) (identity_key b) = false →
  initiate_x3dh a b w = (Throw InvalidPreKeySignature, w).
Proof. apply initiate_bad_signature. Qed.
End x3dh_properties.

(** ** Witnesses *)
Definition wit_sk64 (b : byte) : array 64 := array_repeat 64 b.
Definition wit_identity (b : byte) : IdentityKeyPair :=
  mkIdentityKeyPair (toy_sign_pk (wit_sk64 b)) (mkSecretKeyWrapper (wit_sk64 b)).

Lemma x3dh_agreement_witness :
  let otpk := Some (3, (array_repeat 32 Byte.x0a, array_repeat 32 Byte.x0a)) in
  ∃ r w', @initiate_x3dh toy_sodium toy_hashes (wit_identity Byte.x01)
            (@bundle_of toy_sodium (wit_identity Byte.x02) (array_repeat 32 Byte.x05) otpk) 9
          = (Ret r, w') ∧
    used_one_time_prekey_id r = Some 3 ∧
    @accept_x3dh toy_sodium toy_hashes (wit_identity Byte.x02) (array_repeat 32 Byte.x05)
      (Some (array_repeat 32 Byte.x0a)) (public_key (wit_identity Byte.x01))
      (ephemeral_public_key r) 4 = (Ret (shared_secret r), 4).
Proof.
  intros otpk.
  assert (∀ i pk sk, otpk = Some (i, (pk, sk)) → @box_pair toy_sodium toy_key_laws pk sk) as H
    by (by intros i pk sk [= _ <- <-]).
  exact (@x3dh_agreement toy_sodium toy_hashes _ _ toy_key_laws (wit_identity Byte.x01)
           (wit_identity Byte.x02) (array_repeat 32 Byte.x05) (array_repeat 32 Byte.x05) otpk 9 4
           eq_refl eq_refl eq_refl eq_refl eq_refl H).
Defined.

(** A bundle signed by the wrong identity. *)
Definition wit_bad_bundle : @RecipientPreKeyBundle toy_sodium :=
  @mkRecipientPreKeyBundle toy_sodium (public_key (wit_identity Byte.x02))
    (array_repeat 32 Byte.x05)
    (@sign toy_sodium (wit_identity Byte.x01) (array_list (array_repeat 32 Byte.x05))) None.
Lemma wit_bad_bundle_fails :
  @verify_detached toy_sodium (signed_prekey_signature wit_bad_bundle)
    (array_list (signed_prekey wit_bad_bundle)) (identity_key wit_bad_bundle) = false.
Proof. apply bool_decide_eq_false. intros H%(f_equal array_list). vm_compute in H. discriminate. Qed.
Lemma x3dh_rejects_bad_signature_witness :
  @initiate_x3dh toy_sodium toy_hashes (wit_identity Byte.x01) wit_bad_bundle 9
  = (Throw InvalidPreKeySignature, 9).
Proof.
  exact (@x3dh_rejects_bad_signature toy_sodium toy_hashes (wit_identity Byte.x01) wit_bad_bundle 9
           eq_refl wit_bad_bundle_fails).
Defined.
