(* ===== verification/Prekeys.v ===== *)
(** * prekeys.rs: signed and one-time prekeys

    Generation, verification, reconstruction and rotation. The system clock is
    an argument: [Some t] for [t] seconds after the epoch, [None] for a clock set
    before it, on which [expect] panics. *)

From S2P Require Import Prelude RustStr Errors Sodium Instances Identity X3dh.
Local Open Scope rust_scope.

Definition SIGNED_PREKEY_ROTATION_INTERVAL : Z := 7 * 24 * 60 * 60.
Definition SIGNED_PREKEY_GRACE_PERIOD : Z := 24 * 60 * 60.
Definition MIN_ONE_TIME_PREKEYS : Z := 10.
Definition ONE_TIME_PREKEY_BATCH_SIZE : Z := 50.

(** [u64::saturating_sub]. *)
Definition saturating_sub (a b : Z) : Z := if a <? b then 0 else a - b.

Definition needs_rotation (clock : option Z) (created_at max_age_secs : Z) : Result bool :=
  now ← expect clock;
  mret (max_age_secs <=? saturating_sub now created_at).
Definition current_timestamp (clock : option Z) : Result Z := expect clock.

Module SignedPreKey.
Section signed.
Context {BP : BuildProfile} {SO : Sodium}.

Record t := mk {
  prekey_id : Z;
  public_key : key32;
  secret_key_field : key32;
  signature : Signature;
}.
Definition generate (identity : IdentityKeyPair) (prekey_id : Z) : M rng CryptoError t :=
  init_sodium;;
  '(pk, sk) ← draw box_gen_keypair;
  lift (debug_assert (any_nonzero (array_list pk)));;
  let signature := Identity.sign identity (array_list pk) in
  mret (mk prekey_id pk sk signature).
Definition secret_key (self : t) : key32 := secret_key_field self.
Definition verify (self : t) (identity_key : key32) : bool :=
  verify_detached (signature self) (array_list (public_key self)) identity_key.
Definition public_key_hex {HX : Hex} (self : t) : bytes := hex_encode (array_list (public_key self)).
Definition signature_hex {HX : Hex} (self : t) : bytes := hex_encode (signature_as_ref (signature self)).
Definition from_bytes (prekey_id : Z) (public_key secret_key signature : bytes) : Result t :=
  pk ← ok_or (from_slice 32 public_key) (InvalidKeyLength 32 (blen public_key));
  sk ← ok_or (from_slice 32 secret_key) (InvalidKeyLength 32 (blen secret_key));
  sig ← ok_or (signature_from_bytes signature) (InvalidKeyLength 64 (blen signature));
  mret (mk prekey_id pk sk sig).
Definition drop (self : t) : t :=
  mk (prekey_id self) (public_key self) (array_repeat 32 Byte.x00) (signature self).
End signed.
End SignedPreKey.

Module OneTimePreKey.
Section one_time.
Context {BP : BuildProfile} {SO : Sodium}.

Record t := mk {
  prekey_id : Z;
  public_key : key32;
  secret_key_field : key32;
}.
Definition generate (prekey_id : Z) : M rng CryptoError t :=
  init_sodium;;
  '(pk, sk) ← draw box_gen_keypair;
  lift (debug_assert (any_nonzero (array_list pk)));;
  mret (mk prekey_id pk sk).
Definition secret_key (self : t) : key32 := secret_key_field self.
Definition public_key_hex {HX : Hex} (self : t) : bytes := hex_encode (array_list (public_key self)).
Definition from_bytes (prekey_id : Z) (public_key secret_key : bytes) : Result t :=
  pk ← ok_or (from_slice 32 public_key) (InvalidKeyLength 32 (blen public_key));
  sk ← ok_or (from_slice 32 secret_key) (InvalidKeyLength 32 (blen secret_key));
  mret (mk prekey_id pk sk).
Definition drop (self : t) : t := mk (prekey_id self) (public_key self) (array_repeat 32 Byte.x00).
End one_time.
End OneTimePreKey.

Section batch.
Context {BP : BuildProfile} {SO : Sodium}.

(** The loop [for i in i..count], [n] iterations, after [acc]. *)
Fixpoint generate_loop (starting_id i : Z) (n : nat) (acc : list OneTimePreKey.t) :
  M rng CryptoError (list OneTimePreKey.t) :=
  match n with
  | O => mret acc
  | S n =>
      id ← lift (starting_id +u32 i);
      k ← OneTimePreKey.generate id;
      generate_loop starting_id (i + 1) n (acc ++ [k])
  end.
Definition generate_one_time_prekeys (count starting_id : Z) :
  M rng CryptoError (list OneTimePreKey.t) :=
  lift (with_capacity count);;
  generate_loop starting_id 0 (Z.to_nat count) [].
End batch.

(** ** Facts *)
Section prekey_facts.
Context {BP : BuildProfile} {SO : Sodium} {L : SodiumLaws SO}.

(** The generator does not trip the debug assertions. *)
Definition keys_nonzero : Prop :=
  debug_assertions = true → ∀ w, any_nonzero (array_list (box_gen_keypair w).1.1) = true.

Lemma otpk_generate_run id w :
  ready w → keys_nonzero →
  OneTimePreKey.generate id w =
    (Ret (OneTimePreKey.mk id (box_gen_keypair w).1.1 (box_gen_keypair w).1.2),
     (box_gen_keypair w).2) ∧ ready (box_gen_keypair w).2.
Proof.
  intros Hw Hnz. pose proof (ready_box_gen_keypair w Hw) as Hw'. split; [|done].
  unfold OneTimePreKey.generate. mstep (init_sodium_ready w Hw). mred.
  assert (debug_assert (E:=CryptoError) (any_nonzero (array_list (box_gen_keypair w).1.1)) = Ret tt) as Hd.
  { unfold debug_assert. destruct debug_assertions eqn:Hda; [|done]. by rewrite (Hnz Hda w). }
  destruct (box_gen_keypair w) as [[pk sk] w'] eqn:Hg. simpl in *. mred. by rewrite Hd.
Qed.

Lemma generate_loop_run starting n : ∀ i acc w,
  ready w → keys_nonzero → 0 ≤ starting + i → starting + i + Z.of_nat n ≤ 2 ^ 32 →
  ∃ ks w', generate_loop starting i n acc w = (Ret (acc ++ ks), w') ∧ ready w' ∧
    OneTimePreKey.prekey_id <$> ks = seqZ (starting + i) (Z.of_nat n) ∧
    Forall (λ k, ∃ w, (OneTimePreKey.public_key k, OneTimePreKey.secret_key k)
                      = (box_gen_keypair w).1) ks.
Proof.
  induction n as [|n IH]; intros i acc w Hw Hnz H0 Hmax; simpl.
  { exists [], w. rewrite app_nil_r. by split_and!. }
  mred. rewrite add_w_ok by (unfold in_width; lia). mred.
  destruct (otpk_generate_run (starting + i) w Hw Hnz) as [-> Hw'].
  destruct (IH (i + 1) (acc ++ [OneTimePreKey.mk (starting + i) (box_gen_keypair w).1.1
    (box_gen_keypair w).1.2]) _ Hw' Hnz) as (ks & w' & -> & Hw2 & Hids & Hks); [lia..|].
  eexists (_ :: ks), w'. rewrite <-app_assoc. split_and!; [done..| |].
  - change (Z.pos (Pos.of_succ_nat n)) with (Z.of_nat (S n)). csimpl. rewrite Hids, (seqZ_cons (starting + i)) by lia.
    f_equal. f_equal; lia.
  - constructor; [|done]. exists w. simpl. by destruct (box_gen_keypair w) as [[] ?].
Qed.

Lemma otpks_run count starting_id w :
  ready w → keys_nonzero → 0 ≤ starting_id → 0 ≤ count → starting_id + count ≤ 2 ^ 32 →
  ∃ ks w', generate_one_time_prekeys count starting_id w = (Ret ks, w') ∧ ready w' ∧
    OneTimePreKey.prekey_id <$> ks = seqZ starting_id count ∧
    Forall (λ k, ∃ w, (OneTimePreKey.public_key k, OneTimePreKey.secret_key k)
                      = (box_gen_keypair w).1) ks.
Proof.
  intros Hw Hnz Hs Hc Hmax.
  destruct (generate_loop_run starting_id (Z.to_nat count) 0 [] w Hw Hnz)
    as (ks & w' & Hrun & Hw' & Hids & Hks); [lia..|].
  rewrite Z2Nat.id, Z.add_0_r in Hids by done. exists ks, w'. split_and!; [|done..].
  unfold generate_one_time_prekeys. mred. rewrite with_capacity_ok by (unfold isize_max; lia).
  mred. by rewrite Hrun.
Qed.

Lemma spk_generate_run id n w :
  ready w → keys_nonzero →
  SignedPreKey.generate id n w =
    (Ret (SignedPreKey.mk n (box_gen_keypair w).1.1 (box_gen_keypair w).1.2
            (sign id (array_list (box_gen_keypair w).1.1))), (box_gen_keypair w).2) ∧
  ready (box_gen_keypair w).2.
Proof.
  intros Hw Hnz. pose proof (ready_box_gen_keypair w Hw) as Hw'. split; [|done].
  unfold SignedPreKey.generate. mstep (init_sodium_ready w Hw). mred.
  assert (debug_assert (E:=CryptoError) (any_nonzero (array_list (box_gen_keypair w).1.1)) = Ret tt) as Hd.
  { unfold debug_assert. destruct debug_assertions eqn:Hda; [|done]. by rewrite (Hnz Hda w). }
  destruct (box_gen_keypair w) as [[pk sk] w'] eqn:Hg. simpl in *. mred. by rewrite Hd.
Qed.
End prekey_facts.

(** ** Properties *)
Section prekey_properties.
Context {BP : BuildProfile} {SO : Sodium} {L : SodiumLaws SO} {LK : KeyLaws SO}.

(** A generated signed prekey is a genuine key pair, verifies under its
    identity, and is restored from its stored bytes by [from_bytes]; the bundle
    made of its fields is accepted by the initiator's signature check. *)
Theorem signed_prekey_usable id n w :
  ready w → keys_nonzero → sign_pair (public_key id) (secret_key id) →
  ∃ k w', SignedPreKey.generate id n w = (Ret k, w') ∧
    SignedPreKey.prekey_id k = n ∧ box_pair (SignedPreKey.public_key k) (SignedPreKey.secret_key k) ∧
    SignedPreKey.verify k (public_key id) = true ∧
    SignedPreKey.from_bytes n (array_list (SignedPreKey.public_key k))
      (array_list (SignedPreKey.secret_key k)) (signature_as_ref (SignedPreKey.signature k)) = Ret k.
Proof.
  intros Hw Hnz Hp. destruct (spk_generate_run id n w Hw Hnz) as [Hg _].
  eexists _, _. split; [exact Hg|]. split_and!; [done|apply box_gen_pair|by apply verify_sign|].
  unfold SignedPreKey.from_bytes; simpl. rewrite !from_slice_array, signature_roundtrip. done.
Qed.

(** A batch of one-time prekeys whose numbers fit in [u32] has exactly
    [count] genuine key pairs, numbered consecutively from [starting_id] and hence
    all different. *)
Theorem one_time_prekeys_batch count starting_id w :
  ready w → keys_nonzero → is_u32 starting_id → 0 ≤ count → starting_id + count ≤ 2 ^ 32 →
  ∃ ks w', generate_one_time_prekeys count starting_id w = (Ret ks, w') ∧
    OneTimePreKey.prekey_id <$> ks = seqZ starting_id count ∧
    NoDup (OneTimePreKey.prekey_id <$> ks) ∧
    Forall (λ k, box_pair (OneTimePreKey.public_key k) (OneTimePreKey.secret_key k)) ks.
Proof.
  intros Hw Hnz [Hs _] Hc Hmax.
  destruct (otpks_run count starting_id w Hw Hnz Hs Hc Hmax) as (ks & w' & Hrun & _ & Hids & Hks).
  exists ks, w'. split_and!; [done..|rewrite Hids; apply NoDup_seqZ|].
  eapply Forall_impl; [exact Hks|]. intros k [wk Hk]. pose proof (box_gen_pair wk) as Hb.
  by rewrite <-Hk in Hb.
Qed.

(** Rotation is due exactly when the key is at least [max_age_secs] old;
    the subtraction saturates, so a creation time in the future never asks for a
    rotation, except for a maximum age of zero. *)
Theorem needs_rotation_spec now created max :
  0 ≤ created → 0 ≤ max →
  (needs_rotation (Some now) created max = Ret true ↔ max = 0 ∨ created + max ≤ now) ∧
  (now < created → 0 < max → needs_rotation (Some now) created max = Ret false) ∧
  needs_rotation None created max = Panic.
Proof.
  intros Hc Hm. unfold needs_rotation, saturating_sub. mred. split_and!; [split| |done].
  - intros [= H%Z.leb_le]. destruct (Z.ltb_spec now created); lia.
  - intros H. f_equal. apply Z.leb_le. destruct (Z.ltb_spec now created); lia.
  - intros H H'. rewrite (proj2 (Z.ltb_lt _ _)) by done. f_equal. apply Z.leb_gt. done.
Qed.
End prekey_properties.

Lemma toy_keys_nonzero_release : @keys_nonzero release_profile toy_sodium.
Proof. intros H. discriminate H. Qed.
Lemma signed_prekey_usable_witness :
  ∃ k w', @SignedPreKey.generate release_profile toy_sodium (wit_identity Byte.x01) 4 9 = (Ret k, w') ∧
    SignedPreKey.prekey_id k = 4 ∧
    @box_pair toy_sodium toy_key_laws (SignedPreKey.public_key k) (SignedPreKey.secret_key k) ∧
    SignedPreKey.verify k (public_key (wit_identity Byte.x01)) = true ∧
    @SignedPreKey.from_bytes toy_sodium 4 (array_list (SignedPreKey.public_key k))
      (array_list (SignedPreKey.secret_key k))
      (@signature_as_ref toy_sodium (SignedPreKey.signature k)) = Ret k.
Proof.
  exact (@signed_prekey_usable release_profile toy_sodium _ toy_key_laws (wit_identity Byte.x01) 4 9
           eq_refl toy_keys_nonzero_release eq_refl).
Defined.
Lemma one_time_prekeys_batch_witness :
  ∃ ks w', @generate_one_time_prekeys release_profile toy_sodium 50 100 9 = (Ret ks, w') ∧
    OneTimePreKey.prekey_id <$> ks = seqZ 100 50 ∧ NoDup (OneTimePreKey.prekey_id <$> ks) ∧
    Forall (λ k, @box_pair toy_sodium toy_key_laws (OneTimePreKey.public_key k)
                   (OneTimePreKey.secret_key k)) ks.
Proof.
  assert (is_u32 100) as H by done.
  assert (100 + 50 ≤ 2 ^ 32) as H' by done. assert (0 ≤ 50) as H'' by done.
  exact (@one_time_prekeys_batch release_profile toy_sodium _ toy_key_laws 50 100 9 eq_refl
           toy_keys_nonzero_release H H'' H').
Defined.
Lemma needs_rotation_spec_witness :
  needs_rotation (Some 700000) 0 SIGNED_PREKEY_ROTATION_INTERVAL = Ret true.
Proof.
  assert (0 ≤ 0) as H by done. assert (0 ≤ SIGNED_PREKEY_ROTATION_INTERVAL) as H' by done.
  exact (proj2 (proj1 (needs_rotation_spec 700000 0 SIGNED_PREKEY_ROTATION_INTERVAL H H'))
           (or_intror ltac:(done))).
Defined.
