(* ===== verification/Auth.v ===== *)
(** * auth.rs: signed HTTP requests, the client's side

    The canonical message [METHOD:PATH:TIMESTAMP:BODY_SHA256_HEX] and the
    header made of its signature. The system clock is an argument, [None] for a
    clock set before the epoch. The message is shown to parse in one way. *)

From S2P Require Import Prelude RustStr Errors Sodium Instances Identity X3dh.

Record AuthHeader := mkAuthHeader {
  account_id : bytes;
  timestamp : Z;
  signature_hex : bytes;
}.

Section auth.
Context {SO : Sodium} {HA : Hashes} {HX : Hex}.

(** The bytes of [format!("{}:{}:{}:{}", a, b, n, c)]. *)
Definition format_colons (a b : bytes) (n : Z) (c : bytes) : bytes :=
  a ++ bstr ":" ++ b ++ bstr ":" ++ to_string_uint n ++ bstr ":" ++ c.

Definition build_signed_message (method path : bytes) (timestamp : Z) (body : bytes) : bytes :=
  let body_hash := hex_encode (array_list (sha256 body)) in
  format_colons method path timestamp body_hash.

Definition sign_request_with_timestamp (identity : IdentityKeyPair)
  (account_id method path body : bytes) (timestamp : Z) : AuthHeader :=
  let message := build_signed_message method path timestamp body in
  let signature := sign identity message in
  mkAuthHeader account_id timestamp (hex_encode (signature_as_ref signature)).

(** [unwrap_or_default]: the epoch for a clock before it. *)
Definition sign_request (clock : option Z) (identity : IdentityKeyPair)
  (account_id method path body : bytes) : AuthHeader :=
  sign_request_with_timestamp identity account_id method path body (default 0 clock).
End auth.

(** ** Splitting at a separator *)
Lemma app_sep_inj_l {A} (c : A) a a' b b' :
  c ∉ a → c ∉ a' → a ++ c :: b = a' ++ c :: b' → a = a' ∧ b = b'.
Proof.
  revert a'. induction a as [|x a IH]; intros [|x' a'] H1 H2 H; simplify_eq/=; try done.
  - by destruct H2; left.
  - by destruct H1; left.
  - destruct (IH a') as [-> ->]; try done; [by intros ?; apply H1; right|by intros ?; apply H2; right].
Qed.
Lemma app_sep_inj_r {A} (c : A) a a' b b' :
  c ∉ b → c ∉ b' → a ++ c :: b = a' ++ c :: b' → a = a' ∧ b = b'.
Proof.
  intros H1 H2 H. apply (f_equal reverse) in H.
  rewrite !reverse_app, !reverse_cons, <-!(assoc_L (++)) in H.
  apply (app_sep_inj_l c) in H as [Hb Ha]; [|by rewrite elem_of_reverse..].
  split; by apply (inj reverse).
Qed.

(** No colon among decimal digits. *)
Definition colon : byte := Byte.x3a.
Lemma colon_not_in_decimal n : 0 ≤ n → colon ∉ to_string_uint n.
Proof.
  intros Hn Hin. destruct (to_string_uint_spec n Hn) as (_ & Hd & _).
  rewrite forallb_forall in Hd. apply list_elem_of_In, Hd in Hin. by vm_compute in Hin.
Qed.

(** ** Properties *)
Section auth_properties.
Context {SO : Sodium} {HA : Hashes} {HX : Hex} {LX : HexLaws HX}.

Lemma colon_not_in_hex b : colon ∉ hex_encode b.
Proof.
  intros Hin. pose proof (hex_encode_lower b) as Hd. rewrite forallb_forall in Hd.
  apply list_elem_of_In, Hd in Hin. by vm_compute in Hin.
Qed.

(** Its separators can be found again. *)
Lemma signed_message_inj m p t b m' p' t' b' :
  colon ∉ m → colon ∉ m' → 0 ≤ t → 0 ≤ t' →
  build_signed_message m p t b = build_signed_message m' p' t' b' →
  m = m' ∧ p = p' ∧ t = t' ∧ sha256 b = sha256 b'.
Proof.
  intros Hm Hm' Ht Ht' H. apply app_sep_inj_l in H as [-> H]; [|done..].
  assert (∀ p n h, p ++ bstr ":" ++ to_string_uint n ++ bstr ":" ++ h
                   = (p ++ colon :: to_string_uint n) ++ colon :: h) as Hsplit
    by (intros; by rewrite <-app_assoc).
  change (p ++ bstr ":" ++ to_string_uint t ++ bstr ":" ++ hex_encode (array_list (sha256 b))
          = p' ++ bstr ":" ++ to_string_uint t' ++ bstr ":" ++ hex_encode (array_list (sha256 b')))
    in H.
  rewrite !Hsplit in H. apply app_sep_inj_r in H as [H Hh]; [|apply colon_not_in_hex..].
  apply (inj hex_encode) in Hh.
  apply app_sep_inj_r in H as [-> H]; [|by apply colon_not_in_decimal..].
  split_and!; [done..|by apply to_string_uint_inj|by apply array_eq].
Qed.

(** C31: the canonical message is unambiguous: for methods without a colon (all
    HTTP methods) two requests have the same message only if they agree in
    method, path, timestamp and SHA-256 of the body, even when paths contain
    colons. *)
Theorem signed_message_unambiguous m p t b m' p' t' b' :
  colon ∉ m → colon ∉ m' → 0 ≤ t → 0 ≤ t' →
  build_signed_message m p t b = build_signed_message m' p' t' b' →
  m = m' ∧ p = p' ∧ t = t' ∧ sha256 b = sha256 b'.
Proof. apply signed_message_inj. Qed.

Context {LK : KeyLaws SO}.

(** The header of a signed request carries the account, the time and, in
    lower-case hexadecimal, a signature that verifies under the identity's public
    key over the request's canonical message; [sign_request] stamps the clock's
    reading, or zero for a clock before the epoch. *)
Theorem sign_request_verifies clock id acc m p b :
  sign_pair (public_key id) (secret_key id) →
  let h := sign_request clock id acc m p b in
  account_id h = acc ∧ timestamp h = default 0 clock ∧
  ∃ sig, (hex_decode (signature_hex h) ≫= signature_from_bytes) = Some sig ∧
    verify (public_key id) (build_signed_message m p (timestamp h) b) sig = true ∧
    blen (signature_hex h) = 128 ∧ forallb is_lower_hexdigit (signature_hex h) = true.
Proof.
  intros Hp h. split_and!; [done..|]. exists (sign id (build_signed_message m p (timestamp h) b)).
  unfold h, sign_request, sign_request_with_timestamp; simpl.
  rewrite hex_decode_encode, hex_encode_blen, hex_encode_lower. simpl.
  rewrite signature_roundtrip. split_and!; [done|by apply verify_sign| |done].
  unfold blen. by rewrite signature_length.
Qed.
End auth_properties.

Lemma signed_message_unambiguous_witness :
  let msg := @build_signed_message toy_hashes toy_hex (bstr "GET") (bstr "/a:1") 7 [] in
  (colon ∉ bstr "GET") ∧ msg = msg ∧ bstr "/a:1" = bstr "/a:1".
Proof.
  assert (colon ∉ bstr "GET") as H by (rewrite list_elem_of_In; simpl; intuition discriminate).
  assert (0 ≤ 7) as H7 by done. intros msg. split; [exact H|]. split; [done|].
  exact (proj1 (proj2 (@signed_message_unambiguous toy_hashes toy_hex _ (bstr "GET") (bstr "/a:1") 7 []
           (bstr "GET") (bstr "/a:1") 7 [] H H H7 H7 eq_refl))).
Defined.
Lemma sign_request_verifies_witness :
  let h := @sign_request toy_sodium toy_hashes toy_hex (Some 1700000000) (wit_identity Byte.x01)
             (bstr "acc") (bstr "GET") (bstr "/x") [] in
  account_id h = bstr "acc" ∧ timestamp h = 1700000000 ∧
  ∃ sig, (hex_decode (signature_hex h) ≫= @signature_from_bytes toy_sodium) = Some sig ∧
    @verify toy_sodium (public_key (wit_identity Byte.x01))
      (build_signed_message (bstr "GET") (bstr "/x") (timestamp h) []) sig = true ∧
    blen (signature_hex h) = 128 ∧ forallb is_lower_hexdigit (signature_hex h) = true.
Proof.
  exact (@sign_request_verifies toy_sodium toy_hashes toy_hex _ toy_key_laws (Some 1700000000)
           (wit_identity Byte.x01) (bstr "acc") (bstr "GET") (bstr "/x") [] eq_refl).
Defined.
