(* ===== verification/ServerAuth.v ===== *)
(** * extracted/server-middleware/auth.rs: authentication on the server

    The axum middleware that checks a signed request. The HTTP library, the
    account database, the UUID parser, [crate::crypto::verify] and the downstream
    handler are not part of the repository: the class [Server] holds the functions
    the middleware calls. The clock is an argument. *)

From S2P Require Import Prelude RustStr Errors Sodium Instances Identity X3dh Auth.

Inductive StatusCode := UNAUTHORIZED | BAD_REQUEST | INTERNAL_SERVER_ERROR.
#[export] Instance StatusCode_eq_decision : EqDecision StatusCode.
Proof. solve_decision. Defined.

Record AuthenticatedUser (Uuid : Type) := mkAuthenticatedUser {
  user_account_id : Uuid;
  user_identity_key_hex : bytes;
}.
Arguments mkAuthenticatedUser {Uuid} _ _.

(** The functions of axum, uuid, the database layer and the signature check. *)
Class Server := {
  HeaderMap : Type;
  HeaderValue : Type;
  header_get : HeaderMap → bytes → option HeaderValue;
  to_str : HeaderValue → option bytes;
  Uuid : Type;
  parse_str : bytes → option Uuid;
  AppState : Type;
  Account : Type;
  identity_key_hex : Account → bytes;
  get_account_by_id : AppState → Uuid → outcome bytes (option Account);
  Request : Type;
  Parts : Type;
  Body : Type;
  request_method : Request → bytes;
  request_path : Request → bytes;
  request_headers : Request → HeaderMap;
  into_parts : Request → Parts * Body;
  (** [axum::body::to_bytes(body, limit)]. *)
  body_to_bytes : Body → Z → option bytes;
  from_parts : Parts → bytes → Request;
  (** [extensions_mut().insert(user)]. *)
  insert_user : Request → AuthenticatedUser Uuid → Request;
  Response : Type;
  next_run : Request → Response;
  verify_signature : bytes → bytes → bytes → outcome bytes unit;
}.

Definition MAX_TIMESTAMP_DRIFT_SECS : Z := 300.

Definition is_unauthenticated_route (method path : bytes) : bool :=
  if bool_decide (method = bstr "POST") && bool_decide (path = bstr "/api/v1/accounts/register")
  then true else
  if bool_decide (method = bstr "GET") && bool_decide (path = bstr "/api/v1/health")
  then true else
  if bool_decide (method = bstr "GET") && bool_decide (path = bstr "/api/v1/ping")
  then true else
  if bool_decide (path = bstr "/ws") then true else
  if bool_decide (method = bstr "GET") && starts_with path (bstr "/api/v1/accounts/by-key/")
  then true else
  if bool_decide (method = bstr "GET") && contains path (bstr "/prekey_bundle")
  then true else
  if bool_decide (method = bstr "POST") && bool_decide (path = bstr "/api/v1/messages/send")
  then true else
  if bool_decide (method = bstr "POST") && bool_decide (path = bstr "/api/v1/messages/sealed")
  then true else
  if bool_decide (path = bstr "/api/v1/stats/visits")
     && (bool_decide (method = bstr "GET") || bool_decide (method = bstr "POST"))
  then true else false.

(** [u64::abs_diff]. *)
Definition abs_diff (a b : Z) : Z := Z.abs (a - b).

Section middleware.
Context {SV : Server} {HA : Hashes} {HX : Hex}.

(** [headers.get(name).ok_or(UNAUTHORIZED)?.to_str().map_err(|_| BAD_REQUEST)?]. *)
Definition header_str (headers : HeaderMap) (name : bytes) : outcome StatusCode bytes :=
  v ← ok_or (header_get headers name) UNAUTHORIZED;
  ok_or (to_str v) BAD_REQUEST.

Definition auth_middleware (clock : option Z) (state : AppState) (request : Request) :
  outcome StatusCode Response :=
  let method := to_uppercase (request_method request) in
  let path := request_path request in
  if is_unauthenticated_route method path then Ret (next_run request)
  else
    let headers := request_headers request in
    account_id_str ← header_str headers (bstr "X-Account-Id");
    account_id ← ok_or (parse_str account_id_str) BAD_REQUEST;
    timestamp_str ← header_str headers (bstr "X-Timestamp");
    timestamp ← ok_or (parse_u64 timestamp_str) BAD_REQUEST;
    signature_hex ← header_str headers (bstr "X-Signature");
    signature_bytes ← ok_or (hex_decode signature_hex) BAD_REQUEST;
    let now := default 0 clock in
    let drift := abs_diff now timestamp in
    if MAX_TIMESTAMP_DRIFT_SECS <? drift then Throw UNAUTHORIZED
    else
      found ← map_err (λ _, INTERNAL_SERVER_ERROR) (get_account_by_id state account_id);
      account ← ok_or found UNAUTHORIZED;
      identity_key_bytes ← ok_or (hex_decode (trim (identity_key_hex account)))
                                 INTERNAL_SERVER_ERROR;
      let '(parts, body) := into_parts request in
      let body_limit := if starts_with path (bstr "/api/v1/media/")
                        then 100 * 1024 * 1024 else 1024 * 1024 in
      body_bytes ← ok_or (body_to_bytes body body_limit) BAD_REQUEST;
      let body_hash := hex_encode (array_list (sha256 body_bytes)) in
      let signed_message := format_colons method path timestamp body_hash in
      map_err (λ _, UNAUTHORIZED)
              (verify_signature identity_key_bytes signed_message signature_bytes);;
      let request := insert_user (from_parts parts body_bytes)
                       (mkAuthenticatedUser account_id (trim (identity_key_hex account))) in
      Ret (next_run request).

Definition extract_account_id (headers : HeaderMap) : outcome StatusCode Uuid :=
  header_value ← header_str headers (bstr "X-Account-Id");
  ok_or (parse_str header_value) BAD_REQUEST.
End middleware.

(** ** Facts *)
Definition printable (c : byte) : bool := (33 <=? byte_to_Z c) && (byte_to_Z c <=? 126).

Lemma strip_prefixes_printable ps fuel s :
  forallb printable s = true →
  forallb (λ p, match p with d :: _ => negb (printable d) | [] => false end) ps = true →
  strip_prefixes ps fuel s = s.
Proof.
  intros Hs Hps. destruct fuel as [|fuel]; [done|]. simpl.
  assert (List.find (starts_with s) ps = None) as ->; [|done].
  induction ps as [|p ps IH]; [done|]. simpl in *. apply andb_prop in Hps as [Hp Hps].
  rewrite IH by done. destruct p as [|d p]; [done|]. destruct s as [|c s]; [done|]. simpl in *.
  apply andb_prop in Hs as [Hc _]. rewrite bool_decide_false; [done|]. intros ->. by rewrite Hc in Hp.
Qed.
(** Text without white space is not changed by [trim]. *)
Lemma trim_printable s : forallb printable s = true → trim s = s.
Proof.
  intros Hs. unfold trim, trim_start, trim_end.
  rewrite (strip_prefixes_printable white_space) by (done || by vm_compute).
  rewrite (strip_prefixes_printable (map reverse white_space));
    [apply reverse_involutive| |by vm_compute].
  rewrite forallb_forall in Hs |- *. intros c Hc. apply Hs.
  apply list_elem_of_In. by apply elem_of_reverse, list_elem_of_In.
Qed.

Section middleware_facts.
Context {SV : Server} {HA : Hashes} {HX : Hex}.

Definition body_limit (path : bytes) : Z :=
  if starts_with path (bstr "/api/v1/media/") then 100 * 1024 * 1024 else 1024 * 1024.

(** The specification of the exemptions: a table of methods and path patterns. *)
Inductive path_pattern := Exactly (p : bytes) | Under (p : bytes) | Mentioning (p : bytes).
Definition path_matches (pattern : path_pattern) (path : bytes) : Prop :=
  match pattern with
  | Exactly p => path = p
  | Under p => ∃ rest, path = p ++ rest
  | Mentioning p => ∃ before after, path = before ++ p ++ after
  end.
(** Without a method, any method. *)
Definition exemptions : list (option bytes * path_pattern) :=
  [(Some (bstr "POST"), Exactly (bstr "/api/v1/accounts/register"));
   (Some (bstr "GET"), Exactly (bstr "/api/v1/health"));
   (Some (bstr "GET"), Exactly (bstr "/api/v1/ping"));
   (None, Exactly (bstr "/ws"));
   (Some (bstr "GET"), Under (bstr "/api/v1/accounts/by-key/"));
   (Some (bstr "GET"), Mentioning (bstr "/prekey_bundle"));
   (Some (bstr "POST"), Exactly (bstr "/api/v1/messages/send"));
   (Some (bstr "POST"), Exactly (bstr "/api/v1/messages/sealed"));
   (Some (bstr "GET"), Exactly (bstr "/api/v1/stats/visits"));
   (Some (bstr "POST"), Exactly (bstr "/api/v1/stats/visits"))].
Definition exempt (method path : bytes) : Prop :=
  Exists (λ e, match e.1 with Some m => method = m | None => True end ∧ path_matches e.2 path) exemptions.

(** What a header says: it is there and is text; or why it says nothing. *)
Definition header_reads (request : Request) (name : string) (s : bytes) : Prop :=
  ∃ v, header_get (request_headers request) (bstr name) = Some v ∧ to_str v = Some s.
Inductive header_fails (request : Request) (name : string) : StatusCode → Prop :=
| header_absent :
    header_get (request_headers request) (bstr name) = None → header_fails request name UNAUTHORIZED
| header_not_text v :
    header_get (request_headers request) (bstr name) = Some v → to_str v = None →
    header_fails request name BAD_REQUEST.

(** The specification: what makes a request for a protected route genuine. *)
Record authenticated (clock : option Z) (state : AppState) (request : Request)
  (uuid : Uuid) (account : Account) (ts : Z) (key sig body : bytes) : Prop := {
  au_uuid : ∃ s, header_reads request "X-Account-Id" s ∧
                 parse_str s = Some uuid;
  au_ts : ∃ s, header_reads request "X-Timestamp" s ∧
               parse_u64 s = Some ts;
  au_sig : ∃ s, header_reads request "X-Signature" s ∧
                hex_decode s = Some sig;
  au_fresh : abs_diff (default 0 clock) ts ≤ MAX_TIMESTAMP_DRIFT_SECS;
  au_account : get_account_by_id state uuid = Ret (Some account);
  au_key : hex_decode (trim (identity_key_hex account)) = Some key;
  au_body : body_to_bytes (into_parts request).2 (body_limit (request_path request)) = Some body;
  au_verified :
    verify_signature key
      (build_signed_message (to_uppercase (request_method request)) (request_path request) ts body)
      sig = Ret tt;
}.
(** The credentials in the three headers. *)
Record credentials (request : Request) (uuid : Uuid) (ts : Z) (sig : bytes) : Prop := {
  cr_uuid : ∃ s, header_reads request "X-Account-Id" s ∧
                 parse_str s = Some uuid;
  cr_ts : ∃ s, header_reads request "X-Timestamp" s ∧
               parse_u64 s = Some ts;
  cr_sig : ∃ s, header_reads request "X-Signature" s ∧
                hex_decode s = Some sig;
}.
(** The specification of the refusals: the first check that fails decides the status
    code. The headers are read in order, then the time, the account, its key, the
    body and the signature are checked. *)
Inductive refused (clock : option Z) (state : AppState) (request : Request) : StatusCode → Prop :=
| refused_account_header e :
    header_fails request "X-Account-Id" e →
    refused clock state request e
| refused_account_syntax s :
    header_reads request "X-Account-Id" s → parse_str s = None →
    refused clock state request BAD_REQUEST
| refused_time_header s uuid e :
    header_reads request "X-Account-Id" s → parse_str s = Some uuid →
    header_fails request "X-Timestamp" e →
    refused clock state request e
| refused_time_syntax s uuid s' :
    header_reads request "X-Account-Id" s → parse_str s = Some uuid →
    header_reads request "X-Timestamp" s' → parse_u64 s' = None →
    refused clock state request BAD_REQUEST
| refused_signature_header s uuid s' ts e :
    header_reads request "X-Account-Id" s → parse_str s = Some uuid →
    header_reads request "X-Timestamp" s' → parse_u64 s' = Some ts →
    header_fails request "X-Signature" e →
    refused clock state request e
| refused_signature_syntax s uuid s' ts s2 :
    header_reads request "X-Account-Id" s → parse_str s = Some uuid →
    header_reads request "X-Timestamp" s' → parse_u64 s' = Some ts →
    header_reads request "X-Signature" s2 → hex_decode s2 = None →
    refused clock state request BAD_REQUEST
| refused_stale uuid ts sig :
    credentials request uuid ts sig → MAX_TIMESTAMP_DRIFT_SECS < abs_diff (default 0 clock) ts →
    refused clock state request UNAUTHORIZED
| refused_database uuid ts sig e :
    credentials request uuid ts sig → abs_diff (default 0 clock) ts ≤ MAX_TIMESTAMP_DRIFT_SECS →
    get_account_by_id state uuid = Throw e → refused clock state request INTERNAL_SERVER_ERROR
| refused_unknown uuid ts sig :
    credentials request uuid ts sig → abs_diff (default 0 clock) ts ≤ MAX_TIMESTAMP_DRIFT_SECS →
    get_account_by_id state uuid = Ret None → refused clock state request UNAUTHORIZED
| refused_key uuid ts sig account :
    credentials request uuid ts sig → abs_diff (default 0 clock) ts ≤ MAX_TIMESTAMP_DRIFT_SECS →
    get_account_by_id state uuid = Ret (Some account) →
    hex_decode (trim (identity_key_hex account)) = None →
    refused clock state request INTERNAL_SERVER_ERROR
| refused_body uuid ts sig account key :
    credentials request uuid ts sig → abs_diff (default 0 clock) ts ≤ MAX_TIMESTAMP_DRIFT_SECS →
    get_account_by_id state uuid = Ret (Some account) →
    hex_decode (trim (identity_key_hex account)) = Some key →
    body_to_bytes (into_parts request).2 (body_limit (request_path request)) = None →
    refused clock state request BAD_REQUEST
| refused_forged uuid ts sig account key body e :
    credentials request uuid ts sig → abs_diff (default 0 clock) ts ≤ MAX_TIMESTAMP_DRIFT_SECS →
    get_account_by_id state uuid = Ret (Some account) →
    hex_decode (trim (identity_key_hex account)) = Some key →
    body_to_bytes (into_parts request).2 (body_limit (request_path request)) = Some body →
    verify_signature key
      (build_signed_message (to_uppercase (request_method request)) (request_path request) ts body)
      sig = Throw e →
    refused clock state request UNAUTHORIZED.
Definition forwarded (request : Request) (uuid : Uuid) (account : Account) (body : bytes) : Request :=
  insert_user (from_parts (into_parts request).1 body)
    (mkAuthenticatedUser uuid (trim (identity_key_hex account))).
Definition public_route (request : Request) : bool :=
  is_unauthenticated_route (to_uppercase (request_method request)) (request_path request).

Lemma ok_or_Ret {E A} (o : option A) (e : E) a : ok_or o e = Ret a ↔ o = Some a.
Proof. destruct o; simpl; split; congruence. Qed.
Lemma obind_Ret {E A B} (m : outcome E A) (f : A → outcome E B) b :
  m ≫= f = Ret b ↔ ∃ a, m = Ret a ∧ f a = Ret b.
Proof. destruct m; unfold mbind, outcome_bind; naive_solver. Qed.
Lemma ok_or_Throw {E A} (o : option A) (e e' : E) : ok_or o e = Throw e' ↔ o = None ∧ e' = e.
Proof. destruct o; simpl; naive_solver. Qed.
Lemma obind_Throw {E A B} (m : outcome E A) (f : A → outcome E B) e :
  m ≫= f = Throw e ↔ m = Throw e ∨ ∃ a, m = Ret a ∧ f a = Throw e.
Proof. destruct m; unfold mbind, outcome_bind; naive_solver. Qed.
Lemma map_err_Throw {E F A} (f : E → F) (o : outcome E A) e :
  map_err f o = Throw e ↔ ∃ e', o = Throw e' ∧ e = f e'.
Proof. destruct o; simpl; naive_solver. Qed.
Lemma map_err_Ret {E F A} (f : E → F) (o : outcome E A) a : map_err f o = Ret a ↔ o = Ret a.
Proof. destruct o; simpl; split; congruence. Qed.
Lemma header_str_reads request name s :
  header_str (request_headers request) (bstr name) = Ret s ↔ header_reads request name s.
Proof. unfold header_str, header_reads. rewrite obind_Ret. setoid_rewrite ok_or_Ret. done. Qed.
Lemma header_str_fails request name e :
  header_str (request_headers request) (bstr name) = Throw e ↔ header_fails request name e.
Proof.
  unfold header_str. rewrite obind_Throw. setoid_rewrite ok_or_Throw. setoid_rewrite ok_or_Ret.
  split; [intros [[? ->]|(? & ? & ? & ->)]; by econstructor|]. destruct 1; naive_solver.
Qed.
End middleware_facts.

Lemma starts_with_spec s p : starts_with s p = true ↔ ∃ rest, s = p ++ rest.
Proof.
  split; [|intros [rest ->]; apply starts_with_app].
  revert s. induction p as [|c p IH]; intros s H; [by exists s|]. destruct s as [|d s]; [done|].
  simpl in H. apply andb_prop in H as [->%bool_decide_eq_true H].
  destruct (IH s H) as [rest ->]. by exists rest.
Qed.
Lemma str_contains_spec s p : contains s p = true ↔ ∃ before after, s = before ++ p ++ after.
Proof.
  split.
  - induction s as [|c s IH]; cbn [contains]; intros [H|H]%orb_prop.
    + apply starts_with_spec in H as [rest ->]. by exists [], rest.
    + done.
    + apply starts_with_spec in H as [rest ->]. by exists [], rest.
    + destruct (IH H) as (b & a & ->). by exists (c :: b), a.
  - intros (b & a & ->). induction b as [|c b IH]; cbn [app].
    + destruct (p ++ a) eqn:E; cbn [contains]; rewrite <-E, starts_with_app; done.
    + cbn [contains]. by rewrite IH, orb_true_r.
Qed.
Lemma if_true_or (a b : bool) : (if a then true else b) = true ↔ a = true ∨ b = true.
Proof. destruct a; naive_solver. Qed.
(** The chain of conditions is the table. *)
Lemma exempt_spec method path : is_unauthenticated_route method path = true ↔ exempt method path.
Proof.
  unfold exempt, exemptions. rewrite !Exists_cons, Exists_nil. cbn [fst snd path_matches].
  unfold is_unauthenticated_route. rewrite !if_true_or, !andb_true_iff, !orb_true_iff, !bool_decide_eq_true.
  rewrite starts_with_spec, str_contains_spec. assert (false = true ↔ False) as -> by done. tauto.
Qed.

Lemma parse_u64_range s n : parse_u64 s = Some n → 0 ≤ n < 2 ^ 64.
Proof.
  assert (∀ l, parse_digits_u64 l = Some n → 0 ≤ n < 2 ^ 64) as Hd.
  { intros l. unfold parse_digits_u64. destruct (forallb is_ascii_digit l) eqn:Hl; [|done].
    simpl. destruct (Z.ltb_spec (dec_value l) (2 ^ 64)); [|done]. intros [= <-].
    split; [by apply dec_value_range|done]. }
  unfold parse_u64. destruct s as [|c s]; [done|]. case_bool_decide; [destruct s; [done|]|]; apply Hd.
Qed.
Lemma lower_hexdigit_printable c : is_lower_hexdigit c = true → printable c = true.
Proof. unfold is_lower_hexdigit, printable. lia. Qed.
Lemma trim_hex {HX : Hex} {LX : HexLaws HX} b : trim (hex_encode b) = hex_encode b.
Proof.
  apply trim_printable. pose proof (hex_encode_lower b) as H.
  rewrite forallb_forall in H |- *. intros c Hc. by apply lower_hexdigit_printable, H.
Qed.

(** ** Properties *)
Section server_properties.
Context {SV : Server} {HA : Hashes} {HX : Hex}.

(** A request that got through passed every check, *)
Lemma middleware_sound clock state request resp :
  auth_middleware clock state request = Ret resp → public_route request = false →
  ∃ uuid account ts key sig body,
    authenticated clock state request uuid account ts key sig body ∧
    resp = next_run (forwarded request uuid account body).
Proof.
  unfold auth_middleware. fold (public_route request). intros H Hpub. rewrite Hpub in H.
  fold (body_limit (request_path request)) in H. unfold forwarded.
  destruct (into_parts request) as [parts bd] eqn:Hparts.
  apply obind_Ret in H as (s1 & H1 & H). apply obind_Ret in H as (uuid & H2 & H).
  apply obind_Ret in H as (s2 & H3 & H). apply obind_Ret in H as (ts & H4 & H).
  apply obind_Ret in H as (s3 & H5 & H). apply obind_Ret in H as (sig & H6 & H).
  destruct (Z.ltb_spec MAX_TIMESTAMP_DRIFT_SECS (abs_diff (default 0 clock) ts)); [done|].
  apply obind_Ret in H as (found & H7 & H). apply obind_Ret in H as (account & H8 & H).
  apply obind_Ret in H as (key & H9 & H). apply obind_Ret in H as (body & H10 & H).
  apply obind_Ret in H as ([] & H11 & [= <-]).
  apply header_str_reads in H1. apply header_str_reads in H3. apply header_str_reads in H5.
  apply ok_or_Ret in H2. apply ok_or_Ret in H4. apply ok_or_Ret in H6. apply ok_or_Ret in H8.
  apply ok_or_Ret in H9. apply ok_or_Ret in H10. apply map_err_Ret in H7.
  apply map_err_Ret in H11. subst found.
  exists uuid, account, ts, key, sig, body. split; [|done].
  split; rewrite ?Hparts; eauto.
Qed.
(** and one that passes every check gets through. *)
Lemma middleware_complete clock state request uuid account ts key sig body :
  public_route request = false →
  authenticated clock state request uuid account ts key sig body →
  auth_middleware clock state request = Ret (next_run (forwarded request uuid account body)).
Proof.
  intros Hpub Hau. unfold auth_middleware. fold (public_route request). rewrite Hpub.
  fold (body_limit (request_path request)). unfold forwarded.
  destruct (into_parts request) as [parts bd] eqn:Hparts. destruct Hau.
  destruct au_uuid0 as (s1 & ->%header_str_reads & H1), au_ts0 as (s2 & ->%header_str_reads & H2),
    au_sig0 as (s3 & ->%header_str_reads & H3).
  rewrite Hparts in au_body0. simpl in au_body0. mred. rewrite H1, H2, H3.
  rewrite (proj2 (Z.ltb_ge _ _)) by done.
  rewrite au_account0. cbn [map_err]. rewrite au_key0, au_body0.
  unfold build_signed_message in au_verified0. by rewrite au_verified0.
Qed.

(** C12: the middleware is exact. It runs the downstream handler in two cases
    only: on the request as it came, for a public route; and otherwise on the
    request with its body put back and the caller's identity attached, when the
    three headers are well formed, the timestamp is within 300 seconds of the clock,
    the account exists and the signature verifies under the account's key over the
    request's own method, path, timestamp and body. *)
Theorem middleware_exact clock state request resp :
  auth_middleware clock state request = Ret resp ↔
    (public_route request = true ∧ resp = next_run request) ∨
    (public_route request = false ∧
     ∃ uuid account ts key sig body,
       authenticated clock state request uuid account ts key sig body ∧
       resp = next_run (forwarded request uuid account body)).
Proof.
  destruct (public_route request) eqn:Hpub.
  - unfold auth_middleware. fold (public_route request). rewrite Hpub. naive_solver.
  - split; [intros H; right; split; [done|by apply (middleware_sound clock)]|].
    intros [[]|(_ & uuid & account & ts & key & sig & body & Hau & ->)]; [done|].
    by apply (middleware_complete _ _ _ _ _ ts key sig).
Qed.

(** A request that was refused failed a check after all those before had passed. *)
Lemma middleware_refuses clock state request e :
  auth_middleware clock state request = Throw e →
  public_route request = false ∧ refused clock state request e.
Proof.
  unfold auth_middleware. fold (public_route request). destruct (public_route request) eqn:Hpub; [done|].
  fold (body_limit (request_path request)). destruct (into_parts request) as [parts bd] eqn:Hparts.
  intros H. split; [done|].
  apply obind_Throw in H as [H%header_str_fails|(s1 & H1%header_str_reads & H)]; [by eapply refused_account_header|].
  apply obind_Throw in H as [[H ->]%ok_or_Throw|(uuid & H2%ok_or_Ret & H)]; [by eapply refused_account_syntax|].
  apply obind_Throw in H as [H%header_str_fails|(s2 & H3%header_str_reads & H)]; [by eapply refused_time_header|].
  apply obind_Throw in H as [[H ->]%ok_or_Throw|(ts & H4%ok_or_Ret & H)]; [by eapply refused_time_syntax|].
  apply obind_Throw in H as [H%header_str_fails|(s3 & H5%header_str_reads & H)]; [by eapply refused_signature_header|].
  apply obind_Throw in H as [[H ->]%ok_or_Throw|(sig & H6%ok_or_Ret & H)];
    [by eapply refused_signature_syntax|].
  assert (credentials request uuid ts sig) as Hc by (split; eauto).
  destruct (Z.ltb_spec MAX_TIMESTAMP_DRIFT_SECS (abs_diff (default 0 clock) ts)).
  { injection H as <-. by eapply refused_stale. }
  apply obind_Throw in H as [(e' & H & ->)%map_err_Throw|(found & H7%map_err_Ret & H)];
    [by eapply refused_database|].
  apply obind_Throw in H as [[-> ->]%ok_or_Throw|(account & ->%ok_or_Ret & H)]; [by eapply refused_unknown|].
  apply obind_Throw in H as [[H ->]%ok_or_Throw|(key & H9%ok_or_Ret & H)]; [by eapply refused_key|].
  apply obind_Throw in H as [[H ->]%ok_or_Throw|(body & H10%ok_or_Ret & H)];
    [eapply refused_body; eauto; by rewrite Hparts|].
  apply obind_Throw in H as [(e' & H & ->)%map_err_Throw|([] & _ & H)]; [|done].
  eapply refused_forged; eauto. by rewrite Hparts.
Qed.
(** C13: the refusals. On a protected route the middleware answers with a status code
    exactly when the first check that fails has that code: 401 for a header that is
    missing, a timestamp more than 300 seconds off, an unknown account and a
    signature that does not verify; 400 for a header that is not text or does not
    parse and a body that is too long; 500 when the database fails or the stored key
    is not hexadecimal. A public route is never refused. *)
Theorem middleware_refuses_exact clock state request e :
  auth_middleware clock state request = Throw e ↔
    public_route request = false ∧ refused clock state request e.
Proof.
  split; [by apply middleware_refuses|]. intros [Hpub Href].
  unfold auth_middleware. fold (public_route request). rewrite Hpub.
  fold (body_limit (request_path request)).
  destruct (into_parts request) as [parts bd] eqn:Hparts.
  destruct Href as [e H|s H1 H2|s uuid e H1 H2 H|s uuid s' H1 H2 H3 H|s uuid s' ts e H1 H2 H3 H4 H
    |s uuid s' ts s2 H1 H2 H3 H4 H5 H|uuid ts sig Hc Hd|uuid ts sig e Hc Hd Ha|uuid ts sig Hc Hd Ha
    |uuid ts sig account Hc Hd Ha Hk|uuid ts sig account key Hc Hd Ha Hk Hb
    |uuid ts sig account key body e Hc Hd Ha Hk Hb Hv];
    try (destruct Hc as [(? & H1 & H2) (? & H3 & H4) (? & H5 & H6)]);
    try apply header_str_fails in H; try apply header_str_reads in H1;
    try apply header_str_reads in H3; try apply header_str_reads in H5; mred;
    rewrite ?H; try done; rewrite ?H1, ?H2; try done; rewrite ?H, ?H3; try done; rewrite ?H4, ?H; try done;
    rewrite ?H5, ?H; try done; rewrite ?H6.
  - by rewrite (proj2 (Z.ltb_lt _ _)).
  - by rewrite (proj2 (Z.ltb_ge _ _)), Ha.
  - by rewrite (proj2 (Z.ltb_ge _ _)), Ha.
  - rewrite (proj2 (Z.ltb_ge _ _)), Ha by done. cbn [map_err]. by rewrite Hk.
  - rewrite (proj2 (Z.ltb_ge _ _)), Ha by done. cbn [map_err]. rewrite Hparts in Hb. simpl in Hb. by rewrite Hk, Hb.
  - rewrite (proj2 (Z.ltb_ge _ _)), Ha by done. cbn [map_err]. rewrite Hparts in Hb. simpl in Hb.
    rewrite Hk, Hb. unfold build_signed_message in Hv. by rewrite Hv.
Qed.

(** C15: what an accepted signature covers. Suppose the client's signature [sig]
    verifies under its key for one message only, the canonical message of the
    request it signed. Then every request for a protected route that carries [sig],
    names that account and is accepted has the same method, path, timestamp and body
    hash, and arrives within 300 seconds of that timestamp. *)
Theorem accepted_request_is_the_signed_one {LX : HexLaws HX} clock state request resp
  uuid account key sig m p t b :
  auth_middleware clock state request = Ret resp → public_route request = false →
  (∃ s, header_reads request "X-Account-Id" s ∧
        parse_str s = Some uuid) →
  (∃ s, header_reads request "X-Signature" s ∧
        hex_decode s = Some sig) →
  get_account_by_id state uuid = Ret (Some account) →
  hex_decode (trim (identity_key_hex account)) = Some key →
  (∀ msg, verify_signature key msg sig = Ret tt → msg = build_signed_message m p t b) →
  (colon ∉ m) → (colon ∉ to_uppercase (request_method request)) → 0 ≤ t →
  to_uppercase (request_method request) = m ∧ request_path request = p ∧
  Z.abs (default 0 clock - t) ≤ 300 ∧
  ∃ body, body_to_bytes (into_parts request).2 (body_limit p) = Some body ∧ sha256 body = sha256 b.
Proof.
  intros Hok Hpub (s1 & Hs1 & Hu) (s3 & Hs3 & Hsig) Hacc Hkey Honly Hm Hm' Ht.
  apply middleware_sound in Hok as (uuid' & account' & ts & key' & sig' & body & Hau & _); [|done].
  destruct Hau as [(? & Hx1 & Hx2) (s2 & Hts1 & Hts2) (? & Hx5 & Hx6) Hfresh Hx7 Hx8 Hbody Hver].
  apply header_str_reads in Hs1, Hx1, Hs3, Hx5.
  rewrite Hs1 in Hx1. injection Hx1 as <-. rewrite Hs3 in Hx5. injection Hx5 as <-.
  rewrite Hu in Hx2. injection Hx2 as <-. rewrite Hsig in Hx6. injection Hx6 as <-.
  rewrite Hacc in Hx7. injection Hx7 as <-. rewrite Hkey in Hx8. injection Hx8 as <-.
  apply Honly in Hver. apply parse_u64_range in Hts2.
  apply signed_message_inj in Hver as (-> & Hp & -> & Hb); try done; [|apply Hts2].
  rewrite Hp in *.
  split_and!; [done..|exact Hfresh|]. by exists body.
Qed.

(** C33: requests without credentials. A request whose method, in upper case, and path
    match an entry of [exemptions] goes to the handler as it came, whatever its headers
    are; every other request that has no [X-Account-Id] header is answered with 401. *)
Theorem anonymous_requests_exact clock state request :
  let method := to_uppercase (request_method request) in
  (exempt method (request_path request) →
     auth_middleware clock state request = Ret (next_run request)) ∧
  (¬ exempt method (request_path request) →
     header_get (request_headers request) (bstr "X-Account-Id") = None →
     auth_middleware clock state request = Throw UNAUTHORIZED).
Proof.
  intros method. unfold method. rewrite <-exempt_spec. unfold auth_middleware. split.
  - by intros ->.
  - intros ->%not_true_is_false Hnone. unfold header_str. by rewrite Hnone.
Qed.

(** C14: a request that the client signs is accepted. The headers of
    [sign_request_with_timestamp] on a protected route, for an account whose stored
    key is the hexadecimal public key, with a body under the route's limit, pass the
    middleware at every server time within 300 seconds of the timestamp, as often as
    the request is sent; the handler receives the body and the caller's identity. *)
Theorem signed_request_accepted {SO : Sodium} {LX : HexLaws HX} {LK : KeyLaws SO}
  id acc uuid m p body ts clock state request account :
  sign_pair (public_key id) (secret_key id) →
  (∀ pk msg s, verify_detached s msg pk = true →
     verify_signature (array_list pk) msg (signature_as_ref s) = Ret tt) →
  is_u64 ts →
  to_uppercase (request_method request) = m → request_path request = p →
  public_route request = false →
  let h := sign_request_with_timestamp id acc m p body ts in
  header_reads request "X-Account-Id" (account_id h) →
  header_reads request "X-Timestamp" (to_string_uint (timestamp h)) →
  header_reads request "X-Signature" (signature_hex h) →
  parse_str acc = Some uuid → get_account_by_id state uuid = Ret (Some account) →
  identity_key_hex account = hex_encode (array_list (public_key id)) →
  body_to_bytes (into_parts request).2 (body_limit p) = Some body →
  Z.abs (default 0 clock - ts) ≤ 300 →
  auth_middleware clock state request
  = Ret (next_run (insert_user (from_parts (into_parts request).1 body)
           (mkAuthenticatedUser uuid (hex_encode (array_list (public_key id)))))).
Proof.
  intros Hp Hver Hts Hm Hpath Hpub h H1 H2 H3 Huuid Hacc Hkey Hbody Hdrift.
  assert (trim (identity_key_hex account) = hex_encode (array_list (public_key id))) as Htrim
    by (rewrite Hkey; apply trim_hex).
  rewrite <-Htrim. apply (middleware_complete _ _ _ uuid account ts (array_list (public_key id))
    (signature_as_ref (sign id (build_signed_message m p ts body))) body); [done|]. split.
  - by exists acc.
  - exists (to_string_uint ts). split; [done|by apply parse_to_string_u64].
  - exists (signature_hex h). split; [done|]. apply hex_decode_encode.
  - exact Hdrift.
  - exact Hacc.
  - rewrite Htrim. apply hex_decode_encode.
  - by rewrite Hpath.
  - rewrite Hm, Hpath. apply Hver. by apply verify_sign.
Qed.
End server_properties.

(** ** A concrete server *)
Record toy_request := mkToyRequest {
  tr_method : bytes;
  tr_path : bytes;
  tr_headers : list (bytes * bytes);
  tr_body : bytes;
  tr_user : option (AuthenticatedUser bytes);
}.
Definition assoc (l : list (bytes * bytes)) (k : bytes) : option bytes :=
  snd <$> List.find (λ p, bool_decide (p.1 = k)) l.
(** The signature check is the argument. *)
Definition toy_server_of (parse : bytes → option bytes) (verify : bytes → bytes → bytes → outcome bytes unit) :
  Server := {|
  HeaderMap := list (bytes * bytes);
  HeaderValue := bytes;
  header_get := assoc;
  to_str := Some;
  Uuid := bytes;
  parse_str := parse;
  AppState := list (bytes * bytes);
  Account := bytes;
  identity_key_hex := id;
  get_account_by_id st u := Ret (assoc st u);
  Request := toy_request;
  Parts := bytes * bytes * list (bytes * bytes);
  Body := bytes;
  request_method := tr_method;
  request_path := tr_path;
  request_headers := tr_headers;
  into_parts r := ((tr_method r, tr_path r, tr_headers r), tr_body r);
  body_to_bytes b limit := if blen b <=? limit then Some b else None;
  from_parts p b := mkToyRequest p.1.1 p.1.2 p.2 b None;
  insert_user r u := mkToyRequest (tr_method r) (tr_path r) (tr_headers r) (tr_body r) (Some u);
  Response := toy_request;
  next_run r := r;
  verify_signature := verify;
|}.
Definition toy_server : (bytes → bytes → bytes → outcome bytes unit) → Server := toy_server_of Some.
Definition toy_verify (key msg sig : bytes) : outcome bytes unit :=
  match array_of_list 32 key, array_of_list 64 sig with
  | Some pk, Some s => if @verify_detached toy_sodium s msg pk then Ret tt else Throw []
  | _, _ => Throw []
  end.
Definition verify_only (m key msg sig : bytes) : outcome bytes unit :=
  if bool_decide (msg = m) then Ret tt else Throw [].

Definition wit_id : IdentityKeyPair := wit_identity Byte.x01.
Definition wit_path : bytes := bstr "/api/v1/messages/inbox".
Definition wit_header_of : AuthHeader :=
  @sign_request_with_timestamp toy_sodium toy_hashes toy_hex wit_id (bstr "acc") (bstr "GET")
    wit_path [] 1700000000.
Definition wit_request : toy_request :=
  mkToyRequest (bstr "get") wit_path
    [(bstr "X-Account-Id", account_id wit_header_of);
     (bstr "X-Timestamp", to_string_uint (timestamp wit_header_of));
     (bstr "X-Signature", signature_hex wit_header_of)] [] None.
Definition wit_accounts : list (bytes * bytes) :=
  [(bstr "acc", @hex_encode toy_hex (array_list (public_key wit_id)))].
Definition wit_msg : bytes :=
  @build_signed_message toy_hashes toy_hex (bstr "GET") wit_path 1700000000 [].

Lemma toy_verify_complete (pk : key32) msg (s : array 64) :
  @verify_detached toy_sodium s msg pk = true →
  toy_verify (array_list pk) msg (array_list s) = Ret tt.
Proof. intros H. unfold toy_verify. by rewrite !array_of_list_array, H. Qed.

Lemma signed_request_accepted_witness :
  @auth_middleware (toy_server toy_verify) toy_hashes toy_hex (Some 1700000250) wit_accounts wit_request
  = Ret (@next_run (toy_server toy_verify)
           (@insert_user (toy_server toy_verify)
              (@from_parts (toy_server toy_verify)
                 (@into_parts (toy_server toy_verify) wit_request).1 [])
              (mkAuthenticatedUser (bstr "acc")
                 (@hex_encode toy_hex (array_list (public_key wit_id)))))).
Proof.
  assert (is_u64 1700000000) as Hts by done.
  assert (Z.abs (default 0 (Some 1700000250) - 1700000000) ≤ 300) as Hd by done.
  exact (@signed_request_accepted (toy_server toy_verify) toy_hashes toy_hex toy_sodium _ toy_key_laws
           wit_id (bstr "acc") (bstr "acc") (bstr "GET") wit_path [] 1700000000 (Some 1700000250)
           wit_accounts wit_request (@hex_encode toy_hex (array_list (public_key wit_id)))
           eq_refl (λ pk msg s, toy_verify_complete pk msg s) Hts eq_refl eq_refl eq_refl
           (ex_intro _ _ (conj eq_refl eq_refl)) (ex_intro _ _ (conj eq_refl eq_refl))
           (ex_intro _ _ (conj eq_refl eq_refl)) eq_refl eq_refl eq_refl eq_refl Hd).
Defined.

Lemma no_colon_get : colon ∉ bstr "GET".
Proof. rewrite list_elem_of_In. simpl. intuition discriminate. Qed.
Lemma verify_only_inv m key msg sig : verify_only m key msg sig = Ret tt → msg = m.
Proof. unfold verify_only. by case_bool_decide. Qed.
Definition wit_sig : bytes :=
  @signature_as_ref toy_sodium (@sign toy_sodium wit_id wit_msg).
Lemma wit_request_ok :
  @auth_middleware (toy_server (verify_only wit_msg)) toy_hashes toy_hex (Some 1700000250)
    wit_accounts wit_request
  = Ret (mkToyRequest (bstr "get") wit_path (tr_headers wit_request) []
           (Some (mkAuthenticatedUser (bstr "acc") (hex_encode_list (array_list (public_key wit_id)))))).
Proof. vm_compute. reflexivity. Qed.
Lemma accepted_request_is_the_signed_one_witness :
  to_uppercase (tr_method wit_request) = bstr "GET" ∧ tr_path wit_request = wit_path ∧
  Z.abs (1700000250 - 1700000000) ≤ 300 ∧
  ∃ body, @body_to_bytes (toy_server (verify_only wit_msg)) (tr_body wit_request)
            (@body_limit wit_path) = Some body ∧ @sha256 toy_hashes body = sha256 [].
Proof.
  assert (0 ≤ 1700000000) as Ht by done.
  exact (@accepted_request_is_the_signed_one (toy_server (verify_only wit_msg)) toy_hashes toy_hex _
    (Some 1700000250) wit_accounts wit_request _ (bstr "acc")
    (@hex_encode toy_hex (array_list (public_key wit_id))) (array_list (public_key wit_id)) wit_sig
    (bstr "GET") wit_path 1700000000 []
    wit_request_ok eq_refl (ex_intro _ (bstr "acc") (conj (ex_intro _ _ (conj eq_refl eq_refl)) eq_refl))
    (ex_intro _ (signature_hex wit_header_of)
       (conj (ex_intro _ _ (conj eq_refl eq_refl)) (hex_decode_encode wit_sig)))
    eq_refl eq_refl (λ msg, verify_only_inv wit_msg _ msg _) no_colon_get no_colon_get Ht).
Defined.
(** No credentials at all: a lookup by key, and an inbox. *)
Definition wit_anonymous (path : string) : toy_request :=
  mkToyRequest (bstr "get") (bstr path) [] [] None.
Lemma anonymous_requests_exact_witness :
  let SV := toy_server toy_verify in
  @auth_middleware SV toy_hashes toy_hex None wit_accounts (wit_anonymous "/api/v1/accounts/by-key/ab")
    = Ret (@next_run SV (wit_anonymous "/api/v1/accounts/by-key/ab")) ∧
  @auth_middleware SV toy_hashes toy_hex None wit_accounts (wit_anonymous "/api/v1/messages/inbox")
    = Throw UNAUTHORIZED.
Proof.
  intros SV. split.
  - apply (proj1 (@anonymous_requests_exact SV toy_hashes toy_hex None wit_accounts
                    (wit_anonymous "/api/v1/accounts/by-key/ab"))).
    apply exempt_spec. reflexivity.
  - apply (proj2 (@anonymous_requests_exact SV toy_hashes toy_hex None wit_accounts
                    (wit_anonymous "/api/v1/messages/inbox"))); [|reflexivity].
    intros H%exempt_spec. discriminate H.
Defined.

(** Any GET path that contains [/prekey_bundle] is public, wherever it occurs. *)
Example prekey_bundle_anywhere :
  is_unauthenticated_route (bstr "GET") (bstr "/api/v1/messages/inbox/prekey_bundle") = true.
Proof. reflexivity. Qed.
