(* ===== verification/Group.v ===== *)
(** * group.rs: group conversations

    Group identifiers and the member list. Strings are their bytes; the clock of
    [GroupInfo::new] is an argument, [None] for a clock before the epoch. The
    specification of the member list is the finite set of its members. *)

From S2P Require Import Prelude RustStr Errors Sodium Instances.

Module GroupId.
Record t := mk { id : key32 }.
#[export] Instance t_eq_decision : EqDecision t.
Proof. solve_decision. Defined.

Definition generate {SO : Sodium} : M rng CryptoError t :=
  init_sodium;;
  bytes ← draw (randombytes 32);
  id ← lift (copy_from_slice 32 bytes);
  mret (mk id).
Definition to_hex {HX : Hex} (self : t) : bytes := hex_encode (array_list (id self)).
Definition from_hex {HX : Hex} (hex_str : bytes) : Result t :=
  bytes ← ok_or (hex_decode hex_str) (RatchetError (bstr "invalid hex for group ID"));
  if negb (blen bytes =? 32) then Throw (RatchetError (bstr "group ID must be 32 bytes"))
  else id ← copy_from_slice 32 bytes; mret (mk id).
End GroupId.

Module GroupInfo.
Record t := mk {
  group_id : GroupId.t;
  name : bytes;
  members : list bytes;
  created_at : Z;
  created_by : bytes;
}.
Definition set_members (ms : list bytes) (g : t) : t :=
  mk (group_id g) (name g) ms (created_at g) (created_by g).

(** [Vec<String>::contains]. *)
Definition contains (l : list bytes) (x : bytes) : bool :=
  existsb (λ m, bool_decide (m = x)) l.

Definition new {SO : Sodium} (clock : option Z) (name creator_identity_hex : bytes)
  (member_identity_hexes : list bytes) : M rng CryptoError t :=
  group_id ← GroupId.generate;
  let members := member_identity_hexes in
  let members := if negb (contains members creator_identity_hex)
                 then members ++ [creator_identity_hex] else members in
  let created_at := default 0 clock in
  mret (mk group_id name members created_at creator_identity_hex).

(** The methods with [&mut self] return the flag and the new value. *)
Definition add_member (self : t) (identity_key_hex : bytes) : bool * t :=
  if contains (members self) identity_key_hex then (false, self)
  else (true, set_members (members self ++ [identity_key_hex]) self).
Definition remove_member (self : t) (identity_key_hex : bytes) : bool * t :=
  let before := length (members self) in
  let self := set_members (List.filter (λ m, negb (bool_decide (m = identity_key_hex)))
                             (members self)) self in
  (Nat.ltb (length (members self)) before, self).
Definition is_member (self : t) (identity_key_hex : bytes) : bool :=
  existsb (λ m, bool_decide (m = identity_key_hex)) (members self).
Definition other_members (self : t) (self_identity_hex : bytes) : list bytes :=
  List.filter (λ m, negb (bool_decide (m = self_identity_hex))) (members self).
End GroupInfo.

(** ** Facts *)
Section group_facts.

Lemma contains_spec l x : GroupInfo.contains l x = bool_decide (x ∈ l).
Proof.
  apply eq_iff_eq_true. rewrite bool_decide_eq_true. unfold GroupInfo.contains.
  rewrite existsb_exists. split.
  - intros (y & Hy & ->%bool_decide_eq_true). by apply list_elem_of_In.
  - intros Hx. exists x. split; [by apply list_elem_of_In|by apply bool_decide_eq_true].
Qed.
Lemma filter_ne_spec l x y :
  y ∈ List.filter (λ m : bytes, negb (bool_decide (m = x))) l ↔ y ∈ l ∧ y ≠ x.
Proof.
  rewrite !list_elem_of_In, filter_In, negb_true_iff, bool_decide_eq_false. done.
Qed.
Lemma filter_ne_NoDup l x : NoDup l → NoDup (List.filter (λ m : bytes, negb (bool_decide (m = x))) l).
Proof. rewrite !NoDup_ListNoDup. apply List.NoDup_filter. Qed.
Lemma filter_ne_length l x :
  Nat.ltb (length (List.filter (λ m : bytes, negb (bool_decide (m = x))) l)) (length l)
  = bool_decide (x ∈ l).
Proof.
  assert (∀ l, (length (List.filter (λ m : bytes, negb (bool_decide (m = x))) l) ≤ length l)%nat) as Hle
    by (intros; apply List.filter_length_le).
  induction l as [|y l IH]; [done|]. cbn [List.filter].
  destruct (decide (y = x)) as [->|Hy];
    [rewrite (bool_decide_true (x = x)) by done|rewrite (bool_decide_false (y = x)) by done];
    cbn [negb length].
  - rewrite (bool_decide_true (_ ∈ _ :: _)) by set_solver. apply Nat.ltb_lt.
    apply Nat.lt_succ_r, Hle.
  - assert (∀ a b, Nat.ltb (S a) (S b) = Nat.ltb a b) as -> by done. rewrite IH.
    apply bool_decide_ext. rewrite elem_of_cons. naive_solver.
Qed.

(** The operations on members, and their meaning on sets. *)
Inductive member_op := Add (k : bytes) | Remove (k : bytes).
Definition apply_op (g : GroupInfo.t) (o : member_op) : GroupInfo.t :=
  match o with
  | Add k => (GroupInfo.add_member g k).2
  | Remove k => (GroupInfo.remove_member g k).2
  end.
Definition set_op (s : gset bytes) (o : member_op) : gset bytes :=
  match o with Add k => {[k]} ∪ s | Remove k => s ∖ {[k]} end.
Definition member_set (g : GroupInfo.t) : gset bytes := list_to_set (GroupInfo.members g).

Lemma member_set_op g o : member_set (apply_op g o) = set_op (member_set g) o.
Proof.
  destruct o as [k|k]; simpl; unfold member_set.
  - unfold GroupInfo.add_member. rewrite contains_spec. case_bool_decide; simpl; set_solver.
  - simpl. apply set_eq. intros y. rewrite elem_of_list_to_set, filter_ne_spec. set_solver.
Qed.
Lemma members_NoDup_op g o :
  NoDup (GroupInfo.members g) → NoDup (GroupInfo.members (apply_op g o)).
Proof.
  intros Hg. destruct o as [k|k]; simpl; [|by apply filter_ne_NoDup].
  unfold GroupInfo.add_member. rewrite contains_spec. case_bool_decide; simpl; [done|].
  apply NoDup_app. split_and!; [done|set_solver|apply NoDup_singleton].
Qed.

Context {SO : Sodium} {L : SodiumLaws SO}.
Lemma group_new_run clock name creator ms w :
  ready w →
  ∃ gid w', ready w' ∧ GroupInfo.new clock name creator ms w =
    (Ret (GroupInfo.mk gid name
            (if bool_decide (creator ∈ ms) then ms else ms ++ [creator]) (default 0 clock) creator), w').
Proof.
  intros Hw. pose proof (randombytes_length 32 w) as Hl. pose proof (ready_randombytes 32 w Hw) as Hw'.
  destruct (randombytes 32 w) as [b w'] eqn:Hr. simpl in *.
  destruct (array_of_list_Some 32 b Hl) as (a & Ha & _). exists (GroupId.mk a), w'. split; [done|].
  unfold GroupInfo.new, GroupId.generate.
  assert ((init_sodium ;; b ← draw (randombytes 32); i ← lift (copy_from_slice 32 b); mret (GroupId.mk i))
            w = (Ret (GroupId.mk a), w')) as Hg.
  { mstep (init_sodium_ready w Hw). mred. rewrite Hr. mred. unfold copy_from_slice. by rewrite Ha. }
  mstep Hg. rewrite contains_spec. by case_bool_decide.
Qed.
End group_facts.

(** ** Properties *)
Section group_properties.
Context {SO : Sodium} {L : SodiumLaws SO}.

(** C35: the member list implements a set. After any sequence of [add_member] and
    [remove_member], [is_member] is membership in the set that the sequence
    describes, [other_members] lists exactly the others, and a list without
    duplicates stays without duplicates. *)
Theorem group_members_refine_set g ops :
  let g' := foldl apply_op g ops in
  (∀ k, GroupInfo.is_member g' k = bool_decide (k ∈ foldl set_op (member_set g) ops)) ∧
  (∀ me, (list_to_set (GroupInfo.other_members g' me) : gset bytes)
         = foldl set_op (member_set g) ops ∖ {[me]}) ∧
  (NoDup (GroupInfo.members g) →
   NoDup (GroupInfo.members g') ∧ ∀ me, NoDup (GroupInfo.other_members g' me)).
Proof.
  intros g'. assert (member_set g' = foldl set_op (member_set g) ops) as Hset.
  { unfold g'. clear. revert g. induction ops as [|o ops IH]; intros g; [done|].
    simpl. by rewrite IH, member_set_op. }
  rewrite <-Hset. unfold member_set. split_and!.
  - intros k. unfold GroupInfo.is_member. fold (GroupInfo.contains (GroupInfo.members g') k).
    rewrite contains_spec. apply bool_decide_ext. by rewrite elem_of_list_to_set.
  - intros me. apply set_eq. intros y. unfold GroupInfo.other_members.
    rewrite elem_of_list_to_set, filter_ne_spec. set_solver.
  - intros Hnd. assert (NoDup (GroupInfo.members g')) as Hnd'.
    { unfold g'. clear -Hnd. revert g Hnd. induction ops as [|o ops IH]; intros g Hnd; [done|].
      simpl. by apply IH, members_NoDup_op. }
    split; [done|]. intros me. by apply filter_ne_NoDup.
Qed.

(** The flags of [add_member] and [remove_member] say whether the list
    changed: adding answers [false] exactly for a member and then changes nothing;
    removing answers [true] exactly for a member.*)
Theorem group_flags_exact g k :
  (GroupInfo.add_member g k).1 = negb (GroupInfo.is_member g k) ∧
  (GroupInfo.is_member g k = true → (GroupInfo.add_member g k).2 = g) ∧
  (GroupInfo.remove_member g k).1 = GroupInfo.is_member g k ∧
  GroupInfo.is_member (GroupInfo.remove_member g k).2 k = false ∧
  GroupInfo.is_member (GroupInfo.add_member g k).2 k = true.
Proof.
  assert (∀ g k, GroupInfo.is_member g k = bool_decide (k ∈ GroupInfo.members g)) as Hm
    by (intros; apply contains_spec).
  unfold GroupInfo.add_member. rewrite contains_spec, !Hm. split_and!.
  - by case_bool_decide.
  - by intros ->.
  - unfold GroupInfo.remove_member; simpl. apply filter_ne_length.
  - apply bool_decide_eq_false. unfold GroupInfo.remove_member; simpl. rewrite filter_ne_spec. tauto.
  - apply bool_decide_eq_true. case_bool_decide; simpl; set_solver.
Qed.

(** A new group contains its creator and the given members, in order, and the
    creator only once; the member list has no duplicates exactly when the given
    list has none. *)
Theorem group_new_members clock name creator ms w :
  ready w →
  ∃ g w', GroupInfo.new clock name creator ms w = (Ret g, w') ∧
    GroupInfo.created_by g = creator ∧ GroupInfo.is_member g creator = true ∧
    member_set g = {[creator]} ∪ list_to_set ms ∧ ms `prefix_of` GroupInfo.members g ∧
    (NoDup (GroupInfo.members g) ↔ NoDup ms).
Proof.
  intros Hw. destruct (group_new_run clock name creator ms w Hw) as (gid & w' & _ & Hn).
  eexists _, w'. split; [exact Hn|]. unfold member_set, GroupInfo.is_member. simpl.
  fold (GroupInfo.contains (if bool_decide (creator ∈ ms) then ms else ms ++ [creator]) creator).
  rewrite contains_spec, bool_decide_eq_true. case_bool_decide as Hc.
  - split_and!; [done..|set_solver|done|done].
  - split_and!; [done|set_solver|set_solver|by eexists|]. rewrite NoDup_app. split.
    + tauto.
    + intros H. split_and!; [done|set_solver|apply NoDup_singleton].
Qed.

Context {HX : Hex} {LX : HexLaws HX}.

(** Group identifiers survive their hexadecimal form, and [from_hex] accepts
    a string only if it decodes to 32 bytes.*)
Theorem group_id_hex_roundtrip :
  (∀ g, GroupId.from_hex (GroupId.to_hex g) = Ret g ∧ blen (GroupId.to_hex g) = 64) ∧
  (∀ s g, GroupId.from_hex s = Ret g ↔ hex_decode s = Some (array_list (GroupId.id g))).
Proof.
  assert (∀ s g, GroupId.from_hex s = Ret g ↔ hex_decode s = Some (array_list (GroupId.id g))) as Hd.
  { intros s [a]. unfold GroupId.from_hex. destruct (hex_decode s) as [b|]; mred; [|done]. simpl.
    destruct (Z.eqb_spec (blen b) 32) as [Hb|Hb]; simpl.
    - destruct (array_of_list_Some 32 b) as (a' & Ha & <-); [unfold blen in Hb; lia|].
      unfold copy_from_slice. rewrite Ha. mred. split; [by intros [= ->]|].
      intros [= ->%array_eq]. done.
    - split; [done|]. intros [= ->]. by rewrite array_blen in Hb. }
  split; [|done]. intros g. split; [apply Hd, hex_decode_encode|].
  unfold GroupId.to_hex. by rewrite hex_encode_blen, array_blen.
Qed.
End group_properties.

Definition wit_group : GroupInfo.t :=
  GroupInfo.mk (GroupId.mk (array_repeat 32 Byte.x01)) (bstr "g") [bstr "aa"; bstr "bb"] 0 (bstr "aa").
Lemma group_members_refine_set_witness :
  let g' := foldl apply_op wit_group [Add (bstr "cc"); Remove (bstr "aa")] in
  NoDup (GroupInfo.members g') ∧ ∀ me, NoDup (GroupInfo.other_members g' me).
Proof.
  assert (NoDup (GroupInfo.members wit_group)) as H.
  { apply NoDup_cons. split; [|apply NoDup_singleton]. intros [=]%list_elem_of_singleton. }
  exact (proj2 (proj2 (group_members_refine_set wit_group [Add (bstr "cc"); Remove (bstr "aa")])) H).
Defined.
Lemma group_new_members_witness :
  ∃ g w', @GroupInfo.new toy_sodium (Some 5) (bstr "g") (bstr "aa") [bstr "bb"] 9 = (Ret g, w') ∧
    GroupInfo.created_by g = bstr "aa" ∧ GroupInfo.is_member g (bstr "aa") = true ∧
    member_set g = {[bstr "aa"]} ∪ list_to_set [bstr "bb"] ∧
    [bstr "bb"] `prefix_of` GroupInfo.members g ∧
    (NoDup (GroupInfo.members g) ↔ NoDup [bstr "bb"]).
Proof. exact (@group_new_members toy_sodium _ (Some 5) (bstr "g") (bstr "aa") [bstr "bb"] 9 eq_refl). Defined.
Lemma group_id_hex_roundtrip_witness :
  @GroupId.from_hex toy_hex (@GroupId.to_hex toy_hex (GroupInfo.group_id wit_group))
  = Ret (GroupInfo.group_id wit_group).
Proof.
  exact (proj1 (proj1 (@group_id_hex_roundtrip toy_hex _) (GroupInfo.group_id wit_group))).
Defined.

(** A repeated member is kept twice by [new]. *)
Example group_new_keeps_duplicates :
  GroupInfo.members <$> (@GroupInfo.new toy_sodium None [] (bstr "aa") [bstr "bb"; bstr "bb"] 9).1
  = Ret [bstr "bb"; bstr "bb"; bstr "aa"].
Proof. reflexivity. Qed.
