(* ===== verification/Json.v ===== *)
(** * JSON values and their compact text

    The values without arrays and fractions, which are all that the types of the
    source are written to; the text that [serde_json::to_vec] gives a value, with the
    escaping of strings as the parameter [JsonStrings]; and the members of an object
    as a derived [Deserialize] looks them up: by name, in any order, each at most
    once. [JsonReader] has an executable reader. *)

From S2P Require Import Prelude RustStr.

(** ** Values *)
Unset Elimination Schemes.
Inductive json :=
| JNull
| JBool (b : bool)
| JNumber (n : Z)
| JString (s : bytes)
| JObject (members : list (bytes * json)).
Set Elimination Schemes.

Section json_ind.
Variable P : json → Prop.
Hypothesis (Pnull : P JNull) (Pbool : ∀ b, P (JBool b)) (Pnumber : ∀ n, P (JNumber n)).
Hypothesis Pstring : ∀ s, P (JString s).
Hypothesis Pobject : ∀ ms, Forall (λ m, P m.2) ms → P (JObject ms).
Fixpoint json_ind (j : json) : P j :=
  match j with
  | JNull => Pnull
  | JBool b => Pbool b
  | JNumber n => Pnumber n
  | JString s => Pstring s
  | JObject ms =>
      Pobject ms
        ((fix members_ind ms : Forall (λ m, P m.2) ms :=
            match ms with
            | [] => Forall_nil_2 _
            | m :: ms => Forall_cons_2 _ m ms (json_ind m.2) (members_ind ms)
            end) ms)
  end.
End json_ind.

(** The values that a program can have: strings are UTF-8, numbers are [u64], and
    objects are nested at most [d] deep. *)
Fixpoint json_ok (d : nat) (j : json) : bool :=
  match j, d with
  | JNull, _ | JBool _, _ => true
  | JNumber n, _ => (0 <=? n) && (n <? 2 ^ 64)
  | JString s, _ => utf8_valid s
  | JObject _, O => false
  | JObject ms, S d => forallb (λ m, utf8_valid m.1 && json_ok d m.2) ms
  end.

(** ** The text *)
Definition quote : byte := byte_of_Z 34.
Definition backslash : byte := byte_of_Z 92.

(** How serde_json writes the inside of a string. *)
Class JsonStrings := escape : bytes → bytes.

Definition quoted (esc : bytes → bytes) (s : bytes) : bytes := quote :: esc s ++ [quote].
Definition member_text (key value : bytes) : bytes := key ++ bstr ":" ++ value.
Fixpoint json_text (esc : bytes → bytes) (j : json) : bytes :=
  match j with
  | JNull => bstr "null"
  | JBool b => if b then bstr "true" else bstr "false"
  | JNumber n => to_string_uint n
  | JString s => quoted esc s
  | JObject ms =>
      bstr "{" ++ join (bstr ",") (map (λ m, member_text (quoted esc m.1) (json_text esc m.2)) ms)
      ++ bstr "}"
  end.

(** Printable ASCII characters other than the quote and the backslash are written as
    they are, and no byte needs more than the six characters of [\u00XX]. *)
Definition is_plain (c : byte) : bool :=
  between 32 126 c && negb (bool_decide (c = quote)) && negb (bool_decide (c = backslash)).
Definition plain (s : bytes) : bool := forallb is_plain s.
Class JsonStringLaws (JS : JsonStrings) : Prop := {
  escape_plain s : plain s = true → escape s = s;
  escape_length s : blen (escape s) ≤ 6 * blen s;
}.

(** Values all of whose strings are plain: their text involves no escaping. *)
Fixpoint json_plain (j : json) : bool :=
  match j with
  | JString s => plain s
  | JObject ms => forallb (λ m, plain m.1 && json_plain m.2) ms
  | _ => true
  end.

(** ** Reading an object *)
Definition members (k : bytes) (ms : list (bytes * json)) : list json :=
  snd <$> List.filter (λ m, bool_decide (m.1 = k)) ms.
Definition required {A} (read : json → option A) (k : bytes) (ms : list (bytes * json)) : option A :=
  match members k ms with
  | [v] => read v
  | _ => None
  end.
(** A member of type [Option]: absent and [null] are [None]. *)
Definition optional {A} (read : json → option A) (k : bytes) (ms : list (bytes * json)) :
  option (option A) :=
  match members k ms with
  | [] | [JNull] => Some None
  | [v] => Some <$> read v
  | _ => None
  end.
Definition read_string (j : json) : option bytes :=
  match j with JString s => Some s | _ => None end.
Definition read_uint (w : Z) (j : json) : option Z :=
  match j with JNumber n => if (0 <=? n) && (n <? 2 ^ w) then Some n else None | _ => None end.

(** A field with [skip_serializing_if = "Option::is_none"]. *)
Definition unless_none {A} (k : bytes) (write : A → json) (o : option A) : list (bytes * json) :=
  match o with Some a => [(k, write a)] | None => [] end.

(** ** Facts about reading *)
Lemma members_app k ms ms' : members k (ms ++ ms') = members k ms ++ members k ms'.
Proof. unfold members. by rewrite List.filter_app, fmap_app. Qed.
Lemma members_cons_eq k v ms : members k ((k, v) :: ms) = v :: members k ms.
Proof. unfold members. simpl. by rewrite bool_decide_true. Qed.
Lemma members_cons_ne k k' v ms : k' ≠ k → members k ((k', v) :: ms) = members k ms.
Proof. intros H. unfold members. simpl. by rewrite bool_decide_false. Qed.
Lemma members_unless_eq {A} k (write : A → json) o :
  members k (unless_none k write o) = match o with Some a => [write a] | None => [] end.
Proof. destruct o; [apply members_cons_eq|done]. Qed.
Lemma members_unless_ne {A} k k' (write : A → json) o :
  k' ≠ k → members k (unless_none k' write o) = [].
Proof. destruct o; [by apply members_cons_ne|done]. Qed.
Lemma members_other k ms : Forall (λ m, m.1 ≠ k) ms → members k ms = [].
Proof.
  induction 1 as [|[k' v] ms Hk _ IH]; [done|]. by rewrite members_cons_ne.
Qed.
#[export] Instance members_perm k : Proper (Permutation ==> Permutation) (members k).
Proof.
  intros ms ms' H. induction H as [|m ms ms' _ IH|m m' ms|ms ms' ms'' _ IH1 _ IH2]; unfold members in *; simpl.
  - done.
  - case_bool_decide; simpl; by rewrite ?IH.
  - do 2 case_bool_decide; simpl; try done. apply perm_swap.
  - by rewrite IH1.
Qed.
(** What is read does not depend on the order of the members. *)
#[export] Instance required_perm {A} (read : json → option A) k :
  Proper (Permutation ==> eq) (required read k).
Proof.
  intros ms ms' H. apply (members_perm k) in H. unfold required.
  destruct (members k ms) as [|v [|v2 l]].
  - by apply Permutation_nil in H as ->.
  - by apply Permutation_length_1_inv in H as ->.
  - apply Permutation_length in H. by destruct (members k ms') as [|? [|? ?]].
Qed.
#[export] Instance optional_perm {A} (read : json → option A) k :
  Proper (Permutation ==> eq) (optional read k).
Proof.
  intros ms ms' H. apply (members_perm k) in H. unfold optional.
  destruct (members k ms) as [|v [|v2 l]].
  - by apply Permutation_nil in H as ->.
  - by apply Permutation_length_1_inv in H as ->.
  - apply Permutation_length in H. destruct (members k ms') as [|v' [|? ?]]; try done.
    by destruct v, v'.
Qed.
(** Nor on members with other names. *)
Lemma required_other {A} (read : json → option A) k ms ms' :
  Forall (λ m, m.1 ≠ k) ms' → required read k (ms ++ ms') = required read k ms.
Proof. intros H. unfold required. by rewrite members_app, (members_other k ms'), app_nil_r. Qed.
Lemma optional_other {A} (read : json → option A) k ms ms' :
  Forall (λ m, m.1 ≠ k) ms' → optional read k (ms ++ ms') = optional read k ms.
Proof. intros H. unfold optional. by rewrite members_app, (members_other k ms'), app_nil_r. Qed.
Lemma read_uint_ok w n : 0 ≤ n < 2 ^ w → read_uint w (JNumber n) = Some n.
Proof. intros H. simpl. by rewrite (proj2 (Z.leb_le _ _)), (proj2 (Z.ltb_lt _ _)) by lia. Qed.

(** ** Facts about the text *)
Lemma json_text_plain {JS : JsonStrings} {LJ : JsonStringLaws JS} j :
  json_plain j = true → json_text escape j = json_text id j.
Proof.
  induction j as [| | |s|ms IH]; try done.
  - simpl. intros H. unfold quoted. by rewrite escape_plain.
  - cbn [json_plain json_text]. intros H. do 3 f_equal.
    induction IH as [|[k v] ms Hv _ IHms]; [done|]. cbn [forallb map] in *. simpl in Hv |- *.
    apply andb_prop in H as [[Hk Hp]%andb_prop Hms]. unfold quoted.
    rewrite escape_plain by done. rewrite Hv by done. f_equal. by apply IHms.
Qed.
Lemma is_plain_ascii c : is_plain c = true → between 0 127 c = true.
Proof. unfold is_plain, between. intros [[H _]%andb_prop _]%andb_prop. lia. Qed.
Lemma plain_utf8 s : plain s = true → utf8_valid s = true.
Proof.
  intros H. apply utf8_valid_ascii. unfold plain in H. rewrite forallb_forall in *.
  intros c Hc. by apply is_plain_ascii, H.
Qed.
Lemma hexdigit_plain s : forallb is_ascii_hexdigit s = true → plain s = true.
Proof.
  intros H. unfold plain. rewrite forallb_forall in *. intros c Hc. specialize (H c Hc).
  revert H. clear. by destruct c; vm_compute.
Qed.
Lemma join_cons sep s l : l ≠ [] → join sep (s :: l) = s ++ sep ++ join sep l.
Proof. by destruct l. Qed.
(** A member more, not the first, is a comma and the member. *)
Lemma join_insert sep l s l' :
  l ≠ [] → blen (join sep (l ++ s :: l')) = blen (join sep (l ++ l')) + blen sep + blen s.
Proof.
  induction l as [|a l IH]; [done|]. intros _. destruct l as [|b l].
  - cbn [app]. rewrite join_cons by done. destruct l' as [|c l'].
    + cbn [join]. rewrite !blen_app. lia.
    + rewrite (join_cons sep a (c :: l')), (join_cons sep s (c :: l')) by done. rewrite !blen_app. lia.
  - cbn [app] in *. rewrite (join_cons sep a (b :: l ++ s :: l')), (join_cons sep a (b :: l ++ l')) by done.
    rewrite !blen_app, IH by done. lia.
Qed.
Lemma object_insert esc ms m ms' :
  ms ≠ [] →
  blen (json_text esc (JObject (ms ++ m :: ms')))
  = blen (json_text esc (JObject (ms ++ ms'))) + 1 + blen (member_text (quoted esc m.1) (json_text esc m.2)).
Proof.
  intros Hms. cbn [json_text]. rewrite !map_app, map_cons, !blen_app, join_insert by (by destruct ms).
  change (blen (bstr ",")) with 1. lia.
Qed.
Lemma json_ok_members d ms :
  json_ok (S d) (JObject ms) = true ↔ Forall (λ m, utf8_valid m.1 = true ∧ json_ok d m.2 = true) ms.
Proof.
  cbn [json_ok]. rewrite forallb_forall, Forall_forall. setoid_rewrite list_elem_of_In.
  by setoid_rewrite andb_true_iff.
Qed.
Lemma json_ok_mono d d' j : (d ≤ d')%nat → json_ok d j = true → json_ok d' j = true.
Proof.
  revert d d'. induction j as [| | | |ms IH]; intros d d' Hd Hj; try by destruct d, d'.
  destruct d as [|d], d' as [|d']; [done..|lia|]. cbn [json_ok] in *.
  induction IH as [|[k v] ms Hv _ IHms]; [done|]. cbn [forallb] in *.
  apply andb_prop in Hj as [[Hk Hvok]%andb_prop Hms]. rewrite Hk, (Hv d d'), IHms by (done || lia). done.
Qed.

(** ** The length of the text *)
Fixpoint json_bound (j : json) : Z :=
  match j with
  | JNull => 4
  | JBool _ => 5
  | JNumber _ => 20
  | JString s => 6 * blen s + 2
  | JObject ms => 2 + foldr (λ m n, 6 * blen m.1 + 4 + json_bound m.2 + n) 0 ms
  end.
Lemma dec_go_length k fuel n acc :
  0 ≤ n < 10 ^ Z.of_nat k → (0 < k)%nat → (length (dec_go fuel n acc) ≤ length acc + k)%nat.
Proof.
  revert k n acc. induction fuel as [|fuel IH]; intros k n acc Hn Hk; simpl; [lia|].
  destruct (Z.ltb_spec n 10); [simpl; lia|]. destruct k as [|[|k]]; [lia|change (10 ^ Z.of_nat 1) with 10 in Hn; lia|].
  rewrite Nat2Z.inj_succ, Z.pow_succ_r in Hn by lia.
  etrans; [apply (IH (S k)); [|lia]|simpl; lia].
  split; [apply Z.div_pos; lia|]. apply Z.div_lt_upper_bound; lia.
Qed.
Lemma u64_digits n : 0 ≤ n < 2 ^ 64 → blen (to_string_uint n) ≤ 20.
Proof.
  intros Hn. unfold blen, to_string_uint.
  enough (length (dec_go (S (Z.to_nat (Z.log2 n))) n []) ≤ 20)%nat by lia.
  apply (dec_go_length 20); [|lia]. change (10 ^ Z.of_nat 20) with (10 ^ 20). lia.
Qed.
Lemma quoted_length {JS : JsonStrings} {LJ : JsonStringLaws JS} s :
  blen (quoted escape s) ≤ 6 * blen s + 2.
Proof.
  unfold quoted. rewrite blen_cons, blen_app. pose proof (escape_length s).
  change (blen [quote]) with 1. lia.
Qed.
Lemma json_text_length {JS : JsonStrings} {LJ : JsonStringLaws JS} d j :
  json_ok d j = true → blen (json_text escape j) ≤ json_bound j.
Proof.
  revert d. induction j as [|b|n|s|ms IH]; intros d Hj.
  - done.
  - by destruct b.
  - destruct d; apply andb_prop in Hj as [?%Z.leb_le ?%Z.ltb_lt]; by apply u64_digits.
  - apply quoted_length.
  - destruct d as [|d]; [done|]. cbn [json_ok json_text json_bound] in *. rewrite !blen_app.
    change (blen (bstr "{")) with 1. change (blen (bstr "}")) with 1.
    enough (blen (join (bstr ",") (map (λ m, member_text (quoted escape m.1) (json_text escape m.2)) ms))
      ≤ foldr (λ m n, 6 * blen m.1 + 4 + json_bound m.2 + n) 0 ms) by lia.
    induction IH as [|[k v] ms Hv _ IHms]; [done|].
    cbn [forallb] in Hj. apply andb_prop in Hj as [[_ Hok]%andb_prop Hms].
    specialize (IHms Hms). specialize (Hv d Hok). pose proof (quoted_length k).
    assert (blen (member_text (quoted escape k) (json_text escape v)) ≤ 6 * blen k + 3 + json_bound v).
    { unfold member_text. rewrite !blen_app. change (blen (bstr ":")) with 1. simpl in *. lia. }
    destruct ms as [|m ms].
    { change (blen (member_text (quoted escape k) (json_text escape v)) ≤ 6 * blen k + 4 + json_bound v + 0).
      lia. }
    rewrite map_cons, join_cons by done. cbn [foldr fst snd]. rewrite !blen_app.
    change (blen (bstr ",")) with 1. cbn [foldr fst snd] in IHms. lia.
Qed.
