(* ===== verification/JsonReader.v ===== *)
(** * An executable reader of JSON texts

    The escapes of RFC 8259, a recursive-descent reader for the values of [Json],
    and that it reads back every text that [json_text] writes. It is the stand-in for
    serde_json on which the witnesses run. *)

From S2P Require Import Prelude RustStr Sodium Instances Json.

(** ** Strings *)
Definition esc_byte (c : byte) : bytes :=
  let z := byte_to_Z c in
  if z =? 34 then [backslash; quote] else if z =? 92 then [backslash; backslash]
  else if z =? 8 then backslash :: bstr "b" else if z =? 9 then backslash :: bstr "t"
  else if z =? 10 then backslash :: bstr "n" else if z =? 12 then backslash :: bstr "f"
  else if z =? 13 then backslash :: bstr "r"
  else if z <? 32 then backslash :: bstr "u00" ++ [hex_digit (z / 16); hex_digit (z `mod` 16)]
  else [c].
Definition serde_strings : JsonStrings := λ s, mjoin (esc_byte <$> s).
#[local] Existing Instance serde_strings.

(** One character, [c] being the first byte of what is left. *)
Definition unescape (c : byte) (l : bytes) : option (byte * bytes) :=
  if negb (bool_decide (c = backslash)) then Some (c, l)
  else match l with
       | [] => None
       | e :: l =>
           let z := byte_to_Z e in
           if (z =? 34) || (z =? 92) || (z =? 47) then Some (e, l)
           else if z =? 98 then Some (byte_of_Z 8, l) else if z =? 116 then Some (byte_of_Z 9, l)
           else if z =? 110 then Some (byte_of_Z 10, l) else if z =? 102 then Some (byte_of_Z 12, l)
           else if z =? 114 then Some (byte_of_Z 13, l)
           else if z =? 117 then
             match l with
             | z1 :: z2 :: h1 :: h2 :: l =>
                 if bool_decide ([z1; z2] = bstr "00") then
                   a ← hex_value h1; b ← hex_value h2; Some (byte_of_Z (16 * a + b), l)
                 else None
             | _ => None
             end
           else None
       end.
Fixpoint read_chars (fuel : nat) (l : bytes) : option (bytes * bytes) :=
  match fuel, l with
  | S fuel, c :: l =>
      if bool_decide (c = quote) then Some ([], l)
      else '(b, l) ← unescape c l; '(s, r) ← read_chars fuel l; Some (b :: s, r)
  | _, _ => None
  end.
Definition read_quoted (l : bytes) : option (bytes * bytes) :=
  match l with
  | c :: l' => if bool_decide (c = quote) then read_chars (length l) l' else None
  | [] => None
  end.

(** ** Values *)
Fixpoint read_digits (l : bytes) : bytes * bytes :=
  match l with
  | c :: l' => if is_ascii_digit c then let '(ds, r) := read_digits l' in (c :: ds, r) else ([], l)
  | [] => ([], [])
  end.
Definition literal (word : string) (j : json) (l : bytes) : option (json * bytes) :=
  if starts_with l (bstr word) then Some (j, drop (length (bstr word)) l) else None.
(** [c] at the head of what is left, and passed over. *)
Definition expect (c : Z) (l : bytes) : option bytes :=
  match l with d :: l => if byte_to_Z d =? c then Some l else None | [] => None end.

Fixpoint read_value (fuel : nat) (l : bytes) : option (json * bytes) :=
  match fuel, l with
  | S fuel, c :: l' =>
      if byte_to_Z c =? 34 then '(s, r) ← read_quoted l; Some (JString s, r)
      else if byte_to_Z c =? 123 then
        match expect 125 l' with
        | Some r => Some (JObject [], r)
        | None => '(ms, r) ← read_members fuel l'; Some (JObject ms, r)
        end
      else if is_ascii_digit c then
        let '(ds, r) := read_digits l in n ← parse_u64 ds; Some (JNumber n, r)
      else if byte_to_Z c =? 110 then literal "null" JNull l
      else if byte_to_Z c =? 116 then literal "true" (JBool true) l
      else literal "false" (JBool false) l
  | _, _ => None
  end
with read_members (fuel : nat) (l : bytes) : option (list (bytes * json) * bytes) :=
  match fuel with
  | O => None
  | S fuel =>
      '(k, l) ← read_quoted l;
      l ← expect 58 l;
      '(v, l) ← read_value fuel l;
      match expect 125 l with
      | Some r => Some ([(k, v)], r)
      | None => l ← expect 44 l; '(ms, r) ← read_members fuel l; Some ((k, v) :: ms, r)
      end
  end.
Definition json_of_text (l : bytes) : option json :=
  match read_value (length l) l with Some (j, []) => Some j | _ => None end.

(** ** It reads what was written *)
Lemma unescape_esc c r :
  ∃ c' t, esc_byte c = c' :: t ∧ c' ≠ quote ∧ unescape c' (t ++ r) = Some (c, r).
Proof. destruct c; eexists _, _; (split_and!; [reflexivity|by intros [=]|reflexivity]). Qed.
Lemma read_chars_escape s fuel r :
  (length s < fuel)%nat → read_chars fuel (escape s ++ quote :: r) = Some (s, r).
Proof.
  revert fuel. induction s as [|c s IH]; intros [|fuel] Hf; [lia|done|lia|].
  change (escape (c :: s)) with (esc_byte c ++ escape s). rewrite <-app_assoc.
  destruct (unescape_esc c (escape s ++ quote :: r)) as (c' & t & -> & Hq & Hu).
  cbn [read_chars app]. rewrite bool_decide_false by done. rewrite Hu. cbn [mbind option_bind].
  rewrite IH; [done|simpl in Hf; lia].
Qed.
Lemma length_escape s : (length s ≤ length (escape s))%nat.
Proof.
  induction s as [|c s IH]; [done|]. change (escape (c :: s)) with (esc_byte c ++ escape s).
  rewrite length_app. destruct (unescape_esc c []) as (c' & t & -> & _). simpl. lia.
Qed.
Lemma read_quoted_text s r : read_quoted (quoted escape s ++ r) = Some (s, r).
Proof.
  unfold quoted. cbn [read_quoted app]. rewrite bool_decide_true by done. rewrite <-app_assoc.
  apply read_chars_escape. cbn [app length]. rewrite length_app. pose proof (length_escape s). simpl. lia.
Qed.
Lemma read_digits_stop ds r :
  forallb is_ascii_digit ds = true →
  match r with c :: _ => is_ascii_digit c = false | [] => True end →
  read_digits (ds ++ r) = (ds, r).
Proof.
  intros Hd Hr. induction ds as [|c ds IH]; simpl in *.
  - destruct r as [|c r]; [done|]. simpl. by rewrite Hr.
  - apply andb_prop in Hd as [-> Hd]. by rewrite IH.
Qed.

(** What may follow a value in a text: not a digit. *)
Definition ends (r : bytes) : Prop := match r with c :: _ => is_ascii_digit c = false | [] => True end.
Definition reads_back (j : json) : Prop := ∀ d fuel r,
  json_ok d j = true → ends r → (length (json_text escape j) ≤ fuel)%nat →
  read_value fuel (json_text escape j ++ r) = Some (j, r).

Lemma number_reads_back n : reads_back (JNumber n).
Proof.
  intros d fuel r Hj Hr Hf. assert (0 ≤ n < 2 ^ 64) as Hn.
  { destruct d; apply andb_prop in Hj as [?%Z.leb_le ?%Z.ltb_lt]; done. }
  pose proof (parse_to_string_u64 n Hn) as Hp. destruct (to_string_uint_spec n) as (_ & Hd & Hne); [lia|].
  cbn [json_text] in *. pose proof (read_digits_stop _ r Hd Hr) as Hs.
  destruct (to_string_uint n) as [|c ds]; [done|]. destruct fuel as [|fuel]; [simpl in Hf; lia|].
  cbn [forallb] in Hd. apply andb_prop in Hd as [Hc _]. cbn [read_value app].
  pose proof (is_ascii_digit_value c Hc) as Hv. unfold digit_value in Hv.
  rewrite (proj2 (Z.eqb_neq _ _)) by lia. rewrite (proj2 (Z.eqb_neq _ _)) by lia. rewrite Hc.
  cbn [app] in Hs. rewrite Hs, Hp. done.
Qed.
Lemma string_reads_back s : reads_back (JString s).
Proof.
  intros d fuel r _ _ Hf. destruct fuel as [|fuel]; [simpl in Hf; lia|].
  pose proof (read_quoted_text s r) as H. cbn [json_text]. unfold quoted in *. cbn [app] in *.
  change (read_value (S fuel) (quote :: (escape s ++ [quote]) ++ r)) with
    ('(s, r) ← read_quoted (quote :: (escape s ++ [quote]) ++ r); Some (JString s, r)).
  by rewrite H.
Qed.
Lemma literal_app word j r : literal word j (bstr word ++ r) = Some (j, r).
Proof. unfold literal. by rewrite starts_with_app, drop_app_length. Qed.

Definition members_text (ms : list (bytes * json)) : bytes :=
  join (bstr ",") (map (λ m, member_text (quoted escape m.1) (json_text escape m.2)) ms).
Lemma members_read_back ms d fuel r :
  ms ≠ [] → Forall (λ m, reads_back m.2) ms → forallb (λ m, utf8_valid m.1 && json_ok d m.2) ms = true →
  (length (members_text ms) ≤ fuel)%nat →
  read_members fuel (members_text ms ++ bstr "}" ++ r) = Some (ms, r).
Proof.
  intros Hne Hms. revert Hne fuel. induction Hms as [|[k v] ms Hv _ IH]; [done|]. intros _ fuel Hok Hf.
  cbn [forallb] in Hok. apply andb_prop in Hok as [[_ Hok]%andb_prop Hms]. cbn [fst snd] in *.
  destruct fuel as [|fuel].
  { destruct ms; unfold members_text in Hf; simpl in Hf; rewrite ?length_app in Hf; simpl in Hf; lia. }
  assert (∀ t, (length (json_text escape v) ≤ fuel)%nat → ends t →
    read_members (S fuel) (member_text (quoted escape k) (json_text escape v) ++ t) =
    match expect 125 t with
    | Some r => Some ([(k, v)], r)
    | None => l ← expect 44 t; '(ms, r) ← read_members fuel l; Some ((k, v) :: ms, r)
    end) as Hstep.
  { intros t Hl Ht. unfold member_text. rewrite <-!app_assoc. cbn [read_members].
    rewrite read_quoted_text. cbn [mbind option_bind app bstr]. change (expect 58 (bstr ":" ++ ?l)) with (Some l).
    cbn [mbind option_bind]. by rewrite (Hv d fuel t). }
  assert (length (json_text escape v) ≤ fuel)%nat as Hl.
  { unfold members_text in Hf. cbn [map fst snd] in Hf.
    destruct ms; cbn [map join] in Hf; unfold member_text, quoted in Hf; rewrite !length_app in Hf; simpl in Hf;
      rewrite ?length_app in Hf; lia. }
  destruct ms as [|m ms].
  { change (members_text [(k, v)]) with (member_text (quoted escape k) (json_text escape v)).
    by rewrite Hstep. }
  assert (members_text ((k, v) :: m :: ms) = member_text (quoted escape k) (json_text escape v)
    ++ bstr "," ++ members_text (m :: ms)) as He by done.
  rewrite He in *. rewrite <-!app_assoc, Hstep by done. change (expect 125 (bstr "," ++ ?l)) with (@None bytes).
  change (expect 44 (bstr "," ++ ?l)) with (Some l). cbn [mbind option_bind].
  rewrite IH; [done..|]. rewrite !length_app in Hf. unfold member_text, quoted in Hf. simpl in Hf. lia.
Qed.
Lemma json_reads_back j : reads_back j.
Proof.
  induction j as [|b|n|s|ms IH].
  - intros d [|fuel] r _ _ Hf; [simpl in Hf; lia|]. apply (literal_app "null").
  - intros d [|fuel] r _ _ Hf; [destruct b; simpl in Hf; lia|].
    destruct b; [apply (literal_app "true")|apply (literal_app "false")].
  - apply number_reads_back.
  - apply string_reads_back.
  - intros [|d] fuel r Hok Hr Hf; [done|]. cbn [json_ok json_text] in *. fold (members_text ms) in *.
    rewrite !length_app in Hf. destruct fuel as [|fuel]; [simpl in Hf; lia|]. rewrite <-!app_assoc.
    destruct ms as [|m ms]; [done|].
    assert (∃ t, members_text (m :: ms) = quote :: t) as [t Ht].
    { unfold members_text. destruct ms; by eexists. }
    assert (read_value (S fuel) (bstr "{" ++ members_text (m :: ms) ++ bstr "}" ++ r) =
      '(ms, r) ← read_members fuel (members_text (m :: ms) ++ bstr "}" ++ r); Some (JObject ms, r)) as ->
      by (by rewrite Ht).
    rewrite (members_read_back _ d); [done..|]. simpl in Hf. lia.
Qed.
Theorem json_of_json_text d j : json_ok d j = true → json_of_text (json_text escape j) = Some j.
Proof.
  intros Hj. unfold json_of_text. pose proof (json_reads_back j d _ [] Hj I (le_n _)) as H.
  rewrite app_nil_r in H. by rewrite H.
Qed.

(** The escapes satisfy the laws. *)
Lemma serde_string_laws : JsonStringLaws serde_strings.
Proof.
  split; intros s.
  - unfold plain. induction s as [|c s IH]; [done|]. cbn [forallb]. intros [Hc Hs]%andb_prop.
    change (escape (c :: s)) with (esc_byte c ++ escape s). rewrite IH by done.
    assert (esc_byte c = [c]) as ->; [|done]. revert Hc. clear. destruct c; by vm_compute.
  - induction s as [|c s IH]; [done|]. change (escape (c :: s)) with (esc_byte c ++ escape s).
    rewrite blen_app, blen_cons. enough (blen (esc_byte c) ≤ 6) by lia. clear. destruct c; by vm_compute.
Qed.
