(* ===== verification/MessagePayload.v ===== *)
(** * message_payload.rs: the plaintext of a message on the wire

    The payload, its builders, the padded wire form with the placeholder group
    identifier, and the validation of the group identifier on receipt. Strings are
    their UTF-8 bytes: a string consists of ASCII hexadecimal characters exactly
    when its bytes do. The derived JSON functions are the parameter [SerdeJson];
    [PayloadFormat] says what they write and read. *)

From S2P Require Import Prelude RustStr Errors Sodium Instances Padding.

Definition GROUP_ID_PLACEHOLDER : bytes :=
  bstr "0000000000000000000000000000000000000000000000000000000000000000".
Definition GROUP_ID_LEN : Z := 64.

Record Attachment := mkAttachment {
  media_id : bytes;
  file_name : bytes;
  mime_type : bytes;
  file_size : Z;
  file_key_hex : bytes;
  thumbnail_base64 : option bytes;
}.
Record MessagePayload := mkMessagePayload {
  body : bytes;
  ttl_seconds : option Z;
  group_id : option bytes;
  media_type : option bytes;
  attachment : option Attachment;
}.
Definition set_group_id (g : option bytes) (p : MessagePayload) : MessagePayload :=
  mkMessagePayload (body p) (ttl_seconds p) g (media_type p) (attachment p).

Definition new (body : bytes) : MessagePayload := mkMessagePayload body None None None None.
Definition with_ttl (body : bytes) (ttl_seconds : Z) : MessagePayload :=
  mkMessagePayload body (Some ttl_seconds) None None None.
Definition with_attachment (self : MessagePayload) (media_type : bytes) (attachment : Attachment) :
  MessagePayload :=
  mkMessagePayload (body self) (ttl_seconds self) (group_id self) (Some media_type) (Some attachment).
Definition in_group (self : MessagePayload) (group_id : bytes) : MessagePayload :=
  set_group_id (Some group_id) self.

(** [&mut self]: the result and the new value. *)
Definition normalize_group_id (self : MessagePayload) : Result unit * MessagePayload :=
  match group_id self with
  | None => (Ret tt, self)
  | Some id =>
      if bool_decide (id = GROUP_ID_PLACEHOLDER) then (Ret tt, set_group_id None self)
      else if bool_decide (id = []) then (Ret tt, set_group_id None self)
      else if (blen id =? GROUP_ID_LEN) && forallb is_ascii_hexdigit id then (Ret tt, self)
      else (Throw (SerializationError
              (bstr "invalid group_id: expected " ++ to_string_uint GROUP_ID_LEN
               ++ bstr "-char hex, got " ++ to_string_uint (blen id) ++ bstr " chars")), self)
  end.

Section payload.
Context {BP : BuildProfile} {SO : Sodium} {SJ : SerdeJson MessagePayload}.

Definition to_bytes (self : MessagePayload) : outcome bytes bytes := to_vec self.
Definition from_bytes (b : bytes) : outcome bytes MessagePayload := json_from_slice b.

Definition to_padded_bytes (self : MessagePayload) : M rng CryptoError bytes :=
  let on_wire := match group_id self with
                 | None => set_group_id (Some GROUP_ID_PLACEHOLDER) self
                 | Some _ => self
                 end in
  json ← lift (map_err SerializationError (to_vec on_wire));
  pad_message json.

Definition from_padded_bytes (padded : bytes) : Result MessagePayload :=
  unpadded ← unpad_message padded;
  payload ← map_err SerializationError (json_from_slice unpadded);
  let '(r, payload) := normalize_group_id payload in
  r;; mret payload.
End payload.

(** ** The specification: what a receiver makes of a group identifier *)
Definition real_group_id (g : bytes) : Prop :=
  g ≠ GROUP_ID_PLACEHOLDER ∧ blen g = GROUP_ID_LEN ∧ forallb is_ascii_hexdigit g = true.
Definition sendable (p : MessagePayload) : Prop :=
  match group_id p with None => True | Some g => real_group_id g end.
Definition on_wire (p : MessagePayload) : MessagePayload :=
  match group_id p with None => set_group_id (Some GROUP_ID_PLACEHOLDER) p | Some _ => p end.

Section payload_facts.
Context {BP : BuildProfile} {SO : Sodium} {SJ : SerdeJson MessagePayload}.

Lemma set_group_id_same p : set_group_id (group_id p) p = p.
Proof. by destruct p. Qed.
Lemma normalize_on_wire p : sendable p → normalize_group_id (on_wire p) = (Ret tt, p).
Proof.
  unfold sendable, on_wire, normalize_group_id. destruct (group_id p) as [g|] eqn:Hg;
    cbn [group_id set_group_id].
  - intros (Hne & Hl & Hx). rewrite Hg, bool_decide_false by done.
    rewrite bool_decide_false by (intros ->; done). by rewrite (proj2 (Z.eqb_eq _ _) Hl), Hx.
  - intros _. rewrite bool_decide_true by done. unfold set_group_id; simpl.
    rewrite <-Hg. f_equal. by destruct p.
Qed.
Lemma to_padded_run p w v :
  to_vec (on_wire p) = Ret v → to_padded_bytes p w = pad_message v w.
Proof. intros Hv. unfold to_padded_bytes. fold (on_wire p). mred. rewrite Hv. done. Qed.
End payload_facts.

(** ** Properties *)
(** C37: what a receiver accepts as a group identifier. [normalize_group_id] fails
    exactly on a non-empty identifier that is not 64 hexadecimal characters; on
    success the payload has no group or a genuine identifier, never the placeholder,
    and normalising again changes nothing; the other fields are left alone. *)
Theorem normalize_group_id_exact p :
  let '(r, p') := normalize_group_id p in
  (r = Ret tt ↔
     match group_id p with
     | None => True
     | Some g => g = [] ∨ (blen g = GROUP_ID_LEN ∧ forallb is_ascii_hexdigit g = true)
     end) ∧
  (r = Ret tt → sendable p' ∧ normalize_group_id p' = (Ret tt, p')) ∧
  (r ≠ Ret tt → p' = p) ∧ set_group_id None p' = set_group_id None p.
Proof.
  unfold normalize_group_id at 1. destruct (group_id p) as [g|] eqn:Hg.
  2: { split_and!; try done. intros _. unfold sendable, normalize_group_id. by rewrite Hg. }
  case_bool_decide as H1; [subst; split_and!; try done; split; [by right|done]|].
  case_bool_decide as H2; [subst; split_and!; try done; split; [by left|done]|].
  destruct (Z.eqb_spec (blen g) GROUP_ID_LEN) as [H3|H3]; simpl.
  - destruct (forallb is_ascii_hexdigit g) eqn:H4.
    + split_and!; try done; [split; [by right|done]|]. intros _. split.
      * unfold sendable. rewrite Hg. by split_and!.
      * unfold normalize_group_id. rewrite Hg, !bool_decide_false by done.
        by rewrite (proj2 (Z.eqb_eq _ _) H3), H4.
    + split_and!; try done. split; [done|]. intros [?|[_ ?]]; congruence.
  - split_and!; try done. split; [done|]. intros [?|[? _]]; congruence.
Qed.

#[export] Instance Attachment_eq_decision : EqDecision Attachment.
Proof. solve_decision. Defined.
#[export] Instance MessagePayload_eq_decision : EqDecision MessagePayload.
Proof. solve_decision. Defined.

Definition wit_payload : MessagePayload := with_ttl (bstr "hello") 30.
Definition wit_group_id : bytes := replicate 64 Byte.x61.
Lemma wit_real_group : real_group_id wit_group_id.
Proof. split_and!; [by intros [=]|done|done]. Qed.

Lemma normalize_group_id_exact_witness :
  let p := in_group wit_payload GROUP_ID_PLACEHOLDER in
  let '(r, p') := normalize_group_id p in
  (r = Ret tt ↔
     match group_id p with
     | None => True
     | Some g => g = [] ∨ (blen g = GROUP_ID_LEN ∧ forallb is_ascii_hexdigit g = true)
     end) ∧
  (r = Ret tt → sendable p' ∧ normalize_group_id p' = (Ret tt, p')) ∧
  (r ≠ Ret tt → p' = p) ∧ set_group_id None p' = set_group_id None p.
Proof. exact (normalize_group_id_exact (in_group wit_payload GROUP_ID_PLACEHOLDER)). Defined.
