(* ===== verification/PayloadFormat.v ===== *)
(** * The JSON text of a payload

    What the derived [Serialize] and [Deserialize] of [MessagePayload] and
    [Attachment] mean: the fields in the order of the declaration, under their own
    names, without the optional ones that are [None]; and, on reading, the members
    by name. [PayloadFormat] states that serde_json writes and reads payloads in this
    way. From it follow the round trip of the wire form, that a receiver accepts
    members in any order and passes over those it does not know, and that the wire
    form hides whether a message belongs to a group. *)

From S2P Require Import Prelude RustStr Errors Sodium Instances Padding Json JsonReader MessagePayload.

(** ** The fields *)
Definition attachment_json (a : Attachment) : json := JObject
  ([(bstr "media_id", JString (media_id a)); (bstr "file_name", JString (file_name a));
    (bstr "mime_type", JString (mime_type a)); (bstr "file_size", JNumber (file_size a));
    (bstr "file_key_hex", JString (file_key_hex a))]
   ++ unless_none (bstr "thumbnail_base64") JString (thumbnail_base64 a)).
Definition payload_members (p : MessagePayload) : list (bytes * json) :=
  (bstr "body", JString (body p))
  :: unless_none (bstr "ttl_seconds") JNumber (ttl_seconds p)
  ++ unless_none (bstr "group_id") JString (group_id p)
  ++ unless_none (bstr "media_type") JString (media_type p)
  ++ unless_none (bstr "attachment") attachment_json (attachment p).
Definition payload_json (p : MessagePayload) : json := JObject (payload_members p).

Definition read_attachment (j : json) : option Attachment :=
  match j with
  | JObject ms =>
      media_id ← required read_string (bstr "media_id") ms;
      file_name ← required read_string (bstr "file_name") ms;
      mime_type ← required read_string (bstr "mime_type") ms;
      file_size ← required (read_uint 64) (bstr "file_size") ms;
      file_key_hex ← required read_string (bstr "file_key_hex") ms;
      thumbnail_base64 ← optional read_string (bstr "thumbnail_base64") ms;
      Some (mkAttachment media_id file_name mime_type file_size file_key_hex thumbnail_base64)
  | _ => None
  end.
Definition read_payload (j : json) : option MessagePayload :=
  match j with
  | JObject ms =>
      body ← required read_string (bstr "body") ms;
      ttl_seconds ← optional (read_uint 32) (bstr "ttl_seconds") ms;
      group_id ← optional read_string (bstr "group_id") ms;
      media_type ← optional read_string (bstr "media_type") ms;
      attachment ← optional read_attachment (bstr "attachment") ms;
      Some (mkMessagePayload body ttl_seconds group_id media_type attachment)
  | _ => None
  end.

(** The payloads of the Rust type: strings are UTF-8, [ttl_seconds] is a [u32] and
    [file_size] a [u64]. *)
Definition payload_ok (p : MessagePayload) : bool :=
  json_ok 2 (payload_json p)
  && match ttl_seconds p with Some t => t <? 2 ^ 32 | None => true end.

(** serde_json on payloads. The reader is described on the texts of values nested
    less deep than its recursion limit of 128. *)
Class PayloadFormat {JS : JsonStrings} (SJ : SerdeJson MessagePayload) : Prop := {
  payload_strings :: JsonStringLaws JS;
  payload_written p : payload_ok p = true → to_vec p = Ret (json_text escape (payload_json p));
  payload_read j :
    json_ok 127 j = true →
    match read_payload j with
    | Some p => json_from_slice (json_text escape j) = Ret p
    | None => ∃ e, json_from_slice (json_text escape j) = Throw e
    end;
}.

(** ** The fields are read back *)
Ltac names := by intros [=].
Ltac members_step :=
  repeat first [ rewrite members_cons_eq | rewrite members_cons_ne by names | rewrite members_app
               | rewrite members_unless_eq | rewrite members_unless_ne by names ];
  rewrite ?app_nil_r.
Lemma required_step {A} (read : json → option A) k v ms :
  members k ms = [v] → required read k ms = read v.
Proof. intros H. unfold required. by rewrite H. Qed.
Lemma optional_step {A} (read : json → option A) (write : A → json) k o ms :
  members k ms = match o with Some a => [write a] | None => [] end →
  (∀ a, o = Some a → write a ≠ JNull ∧ read (write a) = Some a) → optional read k ms = Some o.
Proof.
  intros H Ho. unfold optional. rewrite H. destruct o as [a|]; [|done].
  destruct (Ho a eq_refl) as [Hn Hr]. rewrite Hr. by destruct (write a).
Qed.

Lemma read_attachment_json a : 0 ≤ file_size a < 2 ^ 64 → read_attachment (attachment_json a) = Some a.
Proof.
  intros Hs. destruct a as [mid fn mt fs fk th]. cbn [file_size] in Hs. unfold read_attachment, attachment_json.
  cbn [media_id file_name mime_type file_size file_key_hex thumbnail_base64].
  rewrite (required_step read_string (bstr "media_id") (JString mid)) by (by members_step).
  rewrite (required_step read_string (bstr "file_name") (JString fn)) by (by members_step).
  rewrite (required_step read_string (bstr "mime_type") (JString mt)) by (by members_step).
  rewrite (required_step (read_uint 64) (bstr "file_size") (JNumber fs)) by (by members_step).
  rewrite (required_step read_string (bstr "file_key_hex") (JString fk)) by (by members_step).
  rewrite (optional_step read_string JString (bstr "thumbnail_base64") th) by (try by members_step).
  by rewrite read_uint_ok.
Qed.

(** A member of an object of the Rust types has a value of the Rust types. *)
Lemma member_ok d ms k v :
  json_ok (S d) (JObject ms) = true → (k, v) ∈ ms → json_ok d v = true.
Proof. rewrite json_ok_members, Forall_forall. intros H Hin. by apply (H (k, v)). Qed.
Lemma number_ok d n : json_ok d (JNumber n) = true → 0 ≤ n < 2 ^ 64.
Proof. destruct d; by intros [?%Z.leb_le ?%Z.ltb_lt]%andb_prop. Qed.
Lemma payload_ok_ttl p t : payload_ok p = true → ttl_seconds p = Some t → 0 ≤ t < 2 ^ 32.
Proof.
  intros [Hok Ht]%andb_prop Hs. rewrite Hs in Ht. apply Z.ltb_lt in Ht.
  enough (0 ≤ t < 2 ^ 64) by lia. apply (number_ok 1), (member_ok _ _ (bstr "ttl_seconds") _ Hok).
  unfold payload_members. rewrite Hs. set_solver.
Qed.
Lemma payload_ok_size p a : payload_ok p = true → attachment p = Some a → 0 ≤ file_size a < 2 ^ 64.
Proof.
  intros [Hok _]%andb_prop Hs. assert (json_ok 1 (attachment_json a) = true) as Ha.
  { apply (member_ok _ _ (bstr "attachment") _ Hok). unfold payload_members. rewrite Hs. set_solver. }
  apply (number_ok 0), (member_ok _ _ (bstr "file_size") _ Ha). set_solver.
Qed.
(** A payload of the Rust type is read from its own members. *)
Lemma read_payload_json p : payload_ok p = true → read_payload (payload_json p) = Some p.
Proof.
  intros Hok. pose proof (payload_ok_ttl p) as Ht. pose proof (payload_ok_size p) as Ha.
  specialize (λ x, Ht x Hok). specialize (λ x, Ha x Hok). clear Hok.
  destruct p as [b t g m a]. unfold read_payload, payload_json, payload_members.
  cbn [body ttl_seconds group_id media_type attachment] in *.
  rewrite (required_step read_string (bstr "body") (JString b)) by (by members_step).
  rewrite (optional_step (read_uint 32) JNumber (bstr "ttl_seconds") t)
    by first [by members_step|intros x Hx; split; [done|by apply read_uint_ok, Ht]].
  rewrite (optional_step read_string JString (bstr "group_id") g) by (try by members_step).
  rewrite (optional_step read_string JString (bstr "media_type") m) by (try by members_step).
  rewrite (optional_step read_attachment attachment_json (bstr "attachment") a)
    by first [by members_step|intros x Hx; split; [done|by apply read_attachment_json, Ha]].
  done.
Qed.

(** The names that a payload uses. *)
Definition payload_names : list bytes :=
  [bstr "body"; bstr "ttl_seconds"; bstr "group_id"; bstr "media_type"; bstr "attachment"].
(** Neither the order nor members of other names matter. *)
Lemma read_payload_perm ms ms' :
  Permutation ms ms' → read_payload (JObject ms) = read_payload (JObject ms').
Proof. intros H. unfold read_payload. by rewrite (required_perm _ _ _ _ H), !(optional_perm _ _ _ _ H). Qed.
Lemma read_payload_other ms ms' :
  Forall (λ m, m.1 ∉ payload_names) ms' → read_payload (JObject (ms ++ ms')) = read_payload (JObject ms).
Proof.
  intros H. assert (∀ k, k ∈ payload_names → Forall (λ m, m.1 ≠ k) ms') as Hk.
  { intros k Hk. eapply Forall_impl; [exact H|]. intros m Hm Heq. apply Hm. cbn in Heq |- *. by rewrite Heq. }
  unfold read_payload. rewrite required_other, !optional_other by (apply Hk; set_solver). done.
Qed.

(** ** The text of a payload *)
Section text.
Context {JS : JsonStrings} {SJ : SerdeJson MessagePayload} {PF : PayloadFormat SJ}.

(** The text of a payload is never longer than this; the payload fits in memory,
    with the space for padding and encryption. *)
Definition payload_bound (p : MessagePayload) : Z := json_bound (payload_json p).
Definition payload_fits (p : MessagePayload) : Prop := payload_bound p + 2 ^ 21 ≤ isize_max.

Lemma payload_text_read p : payload_ok p = true → json_from_slice (json_text escape (payload_json p)) = Ret p.
Proof.
  intros Hp. pose proof (payload_read (payload_json p)) as H. rewrite read_payload_json in H by done.
  apply H. apply andb_prop in Hp as [Hp _]. apply (json_ok_mono 2); [lia|done].
Qed.
(** A payload with plain strings only: the text needs no escapes. *)
Lemma payload_written_plain p :
  payload_ok p = true → json_plain (payload_json p) = true → to_vec p = Ret (json_text id (payload_json p)).
Proof. intros Hp Hj. by rewrite payload_written, json_text_plain. Qed.
Lemma payload_text_length p :
  payload_ok p = true → blen (json_text escape (payload_json p)) ≤ payload_bound p.
Proof. intros [Hp _]%andb_prop. by apply (json_text_length 2). Qed.
Lemma set_group_id_ok p g :
  payload_ok p = true → utf8_valid g = true → payload_ok (set_group_id (Some g) p) = true.
Proof.
  intros [Hp Ht]%andb_prop Hg. apply andb_true_intro. split; [|exact Ht].
  unfold payload_json, payload_members in *. apply json_ok_members in Hp. apply json_ok_members.
  cbn [body ttl_seconds group_id media_type attachment set_group_id unless_none] in *.
  rewrite Forall_cons, !Forall_app in *. destruct Hp as (? & ? & _ & ?).
  split; [done|split; [done|split; [|done]]]. apply Forall_singleton. by split.
Qed.
Lemma real_group_id_plain g : real_group_id g → plain g = true.
Proof. intros (_ & _ & Hx). by apply hexdigit_plain. Qed.
Lemma on_wire_ok p : payload_ok p = true → payload_ok (on_wire p) = true.
Proof.
  intros Hp. unfold on_wire. destruct (group_id p); [done|]. apply set_group_id_ok; [done|by vm_compute].
Qed.
Lemma on_wire_bound p : payload_bound (on_wire p) ≤ payload_bound p + 2 ^ 10.
Proof.
  unfold on_wire. destruct p as [b t [g|] m a]; cbn [group_id]; [lia|].
  unfold payload_bound, payload_json, payload_members, set_group_id.
  cbn [json_bound body ttl_seconds group_id media_type attachment unless_none foldr fst snd app].
  destruct t; cbn [unless_none foldr fst snd app json_bound];
    change (blen (bstr "group_id")) with 8; change (blen GROUP_ID_PLACEHOLDER) with 64; lia.
Qed.

(** What a group identifier adds to the text: its name, two quotes around each, a
    colon and a comma. *)
Lemma group_text_length p g :
  group_id p = None → blen g = GROUP_ID_LEN → plain g = true →
  blen (json_text escape (payload_json (set_group_id (Some g) p)))
  = blen (json_text escape (payload_json p)) + 78.
Proof.
  intros Hn Hl Hg. destruct p as [b t g' m a]. cbn in Hn. subst g'.
  set (front := (bstr "body", JString b) :: unless_none (bstr "ttl_seconds") JNumber t).
  set (back := unless_none (bstr "media_type") JString m
               ++ unless_none (bstr "attachment") attachment_json a).
  change (payload_json _) with (JObject (front ++ (bstr "group_id", JString g) :: back)) at 1.
  change (payload_json _) with (JObject (front ++ back)). rewrite object_insert by done.
  unfold member_text, quoted. cbn [fst snd json_text]. unfold quoted. rewrite !escape_plain by done.
  rewrite !blen_app, !blen_cons, !blen_app, Hl. change (blen (bstr "group_id")) with 8.
  change (blen (bstr ":")) with 1. change (blen [quote]) with 1. unfold GROUP_ID_LEN. lia.
Qed.
End text.

(** ** The wire form *)
Section wire.
Context {BP : BuildProfile} {SO : Sodium} {JS : JsonStrings} {SJ : SerdeJson MessagePayload}.
Context {L : SodiumLaws SO} {PF : PayloadFormat SJ}.

Lemma wire_text p :
  payload_ok p = true → payload_fits p →
  ∃ v, to_vec (on_wire p) = Ret v ∧ json_from_slice v = Ret (on_wire p) ∧ paddable v ∧
       blen v ≤ payload_bound p + 2 ^ 10.
Proof.
  intros Hp Hf. pose proof (on_wire_ok p Hp) as Hw. exists (json_text escape (payload_json (on_wire p))).
  pose proof (payload_text_length _ Hw). pose proof (on_wire_bound p). split; [by apply payload_written|].
  split; [by apply payload_text_read|]. unfold payload_fits, paddable, PAD_LEN_BYTES, MAX_BUCKET in *. lia.
Qed.
Lemma payload_run p w :
  payload_ok p = true → payload_fits p → sendable p →
  ∃ b w', to_padded_bytes p w = (Ret b, w') ∧ from_padded_bytes b = Ret p ∧
          (ready w → ready w') ∧ blen b + 2 ^ 20 ≤ isize_max.
Proof.
  intros Hp Hf Hs. destruct (wire_text p Hp Hf) as (v & Hv & Hr & Hpad & Hle).
  destruct (pad_unpads v w Hpad) as (b & w2 & Hb & Hu & _ & Hw).
  destruct (pad_message_spec v w Hpad) as (bk & fill & w3 & Hb' & _ & _ & Hl & Hl' & _).
  exists b, w2. split; [by rewrite (to_padded_run p w v Hv)|]. split; [|split; [done|]].
  - unfold from_padded_bytes. rewrite Hu. mred. rewrite Hr. cbn [map_err]. mred. by rewrite normalize_on_wire.
  - rewrite Hb in Hb'. injection Hb' as -> _. autorewrite with vaultex_len.
    unfold payload_fits, PAD_LEN_BYTES, MAX_BUCKET in *. lia.
Qed.

(** C25: the padded wire form is lossless. Every payload of the Rust type that fits
    in memory and is a direct message, or one for a group with a 64-character
    hexadecimal identifier other than the placeholder, is written and padded without
    an error, and [from_padded_bytes] gives it back. *)
Theorem payload_padded_roundtrip p w :
  payload_ok p = true → payload_fits p → sendable p →
  ∃ b w', to_padded_bytes p w = (Ret b, w') ∧ from_padded_bytes b = Ret p.
Proof.
  intros Hp Hf Hs. destruct (payload_run p w Hp Hf Hs) as (b & w' & Hb & Hu & _). by exists b, w'.
Qed.

(** C26: the wire form hides whether a message belongs to a group. A direct message
    and a group message that agree in everything else are padded to the same length,
    although their texts differ by 78 bytes without the placeholder. *)
Theorem dm_and_group_same_size p g w w' :
  payload_ok p = true → payload_fits p → group_id p = None → real_group_id g →
  (∃ b b' w1 w2, to_padded_bytes p w = (Ret b, w1) ∧
     to_padded_bytes (in_group p g) w' = (Ret b', w2) ∧ blen b = blen b') ∧
  (∃ v v', to_bytes p = Ret v ∧ to_bytes (in_group p g) = Ret v' ∧ blen v' = blen v + 78).
Proof.
  intros Hp Hf Hg Hr. pose proof Hr as (_ & Hl & _). pose proof (real_group_id_plain g Hr) as Hx.
  assert (payload_ok (in_group p g) = true) as Hp' by (by apply set_group_id_ok, plain_utf8).
  pose proof (payload_written p Hp) as Hv. pose proof (payload_written _ Hp') as Hv'.
  pose proof (group_text_length p g Hg Hl Hx) as H78. fold (in_group p g) in H78.
  split; [|by eexists _, _]. destruct (wire_text p Hp Hf) as (v & Hw & _ & Hpad & _).
  assert (blen v = blen (json_text escape (payload_json (in_group p g)))) as Hlen.
  { rewrite payload_written in Hw by (by apply on_wire_ok). injection Hw as <-. unfold on_wire. rewrite Hg, H78.
    by apply group_text_length. }
  assert (paddable (json_text escape (payload_json (in_group p g)))) as Hpad'
    by (unfold paddable in *; by rewrite <-Hlen).
  destruct (pad_message_spec v w Hpad) as (bk & fill & w1 & H1 & Hbk & _ & Hfl & _).
  destruct (pad_message_spec _ w' Hpad') as (bk' & fill' & w2 & H2 & Hbk' & _ & Hfl' & _).
  rewrite (to_padded_run p w v Hw), (to_padded_run (in_group p g) w' _ Hv').
  eexists _, _, w1, w2. split_and!; [exact H1|exact H2|].
  rewrite <-Hlen, Hbk in Hbk'. injection Hbk' as <-. autorewrite with vaultex_len. lia.
Qed.

End wire.

(** ** Other versions *)
Section versions.
Context {JS : JsonStrings} {SJ : SerdeJson MessagePayload} {PF : PayloadFormat SJ}.

(** C23: clients of other versions are understood. A payload is read from its members
    in any order and with any further members of other names between them, such as a
    later version may add; the optional members may be missing, as in the messages of
    clients from before they were introduced. *)
Theorem payload_read_any_order p extra ms :
  payload_ok p = true →
  Forall (λ m, m.1 ∉ payload_names ∧ utf8_valid m.1 = true ∧ json_ok 126 m.2 = true) extra →
  Permutation (payload_members p ++ extra) ms →
  from_bytes (json_text escape (JObject ms)) = Ret p.
Proof.
  intros Hp Hex Hms. pose proof (read_payload_json p Hp) as Hr. unfold payload_json in Hr.
  rewrite <-(read_payload_other _ extra), (read_payload_perm _ ms Hms) in Hr
    by (eapply Forall_impl; [exact Hex|by intros m [? _]]).
  unfold from_bytes. pose proof (payload_read (JObject ms)) as H. rewrite Hr in H. apply H.
  apply json_ok_members. rewrite <-Hms. apply Forall_app. split; [|eapply Forall_impl; [exact Hex|by intros m [_ ?]]].
  apply andb_prop in Hp as [Hp _]. apply json_ok_members, (json_ok_mono 2); [lia|done].
Qed.
End versions.

(** ** A concrete serialiser *)
#[local] Existing Instance serde_strings.
Definition serde_payload : SerdeJson MessagePayload := {|
  to_vec p := Ret (json_text escape (payload_json p));
  json_from_slice l :=
    match json_of_text l ≫= read_payload with Some p => Ret p | None => Throw [] end;
|}.
Lemma serde_payload_format : PayloadFormat serde_payload.
Proof.
  split; [exact serde_string_laws|done|]. intros j Hj. cbn [json_from_slice serde_payload].
  rewrite (json_of_json_text 127) by done. cbn [mbind option_bind]. destruct (read_payload j); [done|by eexists].
Qed.
Example payload_text_example :
  to_vec (SerdeJson := serde_payload) (in_group (with_ttl (bstr "a\b") 30) (bstr "c"))
  = Ret (bstr "{" ++ quoted id (bstr "body") ++ bstr ":" ++ quoted id (bstr "a\\b") ++ bstr ","
         ++ quoted id (bstr "ttl_seconds") ++ bstr ":30," ++ quoted id (bstr "group_id") ++ bstr ":"
         ++ quoted id (bstr "c") ++ bstr "}").
Proof. reflexivity. Qed.

Lemma payload_padded_roundtrip_witness :
  ∃ b w', @to_padded_bytes debug_profile toy_sodium serde_payload
            (in_group wit_payload wit_group_id) 3 = (Ret b, w') ∧
    @from_padded_bytes debug_profile serde_payload b = Ret (in_group wit_payload wit_group_id).
Proof.
  assert (payload_fits (in_group wit_payload wit_group_id)) as Hf by (by vm_compute).
  exact (@payload_padded_roundtrip debug_profile toy_sodium serde_strings serde_payload _ serde_payload_format
           (in_group wit_payload wit_group_id) 3 eq_refl Hf wit_real_group).
Defined.
Lemma dm_and_group_same_size_witness :
  (∃ b b' w1 w2, @to_padded_bytes debug_profile toy_sodium serde_payload wit_payload 3 = (Ret b, w1) ∧
     @to_padded_bytes debug_profile toy_sodium serde_payload (in_group wit_payload wit_group_id) 8
     = (Ret b', w2) ∧ blen b = blen b') ∧
  (∃ v v', @to_bytes serde_payload wit_payload = Ret v ∧
     @to_bytes serde_payload (in_group wit_payload wit_group_id) = Ret v' ∧ blen v' = blen v + 78).
Proof.
  assert (payload_fits wit_payload) as Hf by (by vm_compute).
  exact (@dm_and_group_same_size debug_profile toy_sodium serde_strings serde_payload _ serde_payload_format
           wit_payload wit_group_id 3 8 eq_refl Hf eq_refl wit_real_group).
Defined.
Definition wit_extra : list (bytes * json) :=
  [(bstr "reply_to", JObject [(bstr "id", JNumber 7)]); (bstr "edited", JBool true)].
Lemma payload_read_any_order_witness :
  @from_bytes serde_payload
    (json_text (@escape serde_strings) (JObject (reverse (payload_members wit_payload ++ wit_extra))))
  = Ret wit_payload.
Proof.
  assert (Forall (λ m, m.1 ∉ payload_names ∧ utf8_valid m.1 = true ∧ json_ok 126 m.2 = true) wit_extra) as He
    by (apply (bool_decide_unpack _); by vm_compute).
  exact (@payload_read_any_order serde_strings serde_payload serde_payload_format
           wit_payload wit_extra _ eq_refl He (Permutation_sym (reverse_Permutation _))).
Defined.
