(* ===== verification/PayloadTests.v ===== *)
(** * The tests of message_payload.rs

    All of them, over any serialiser of the format [PayloadFormat]. The strings of
    the tests need no escapes, so that their JSON texts are known to the byte. *)

From S2P Require Import Prelude RustStr Errors Sodium Instances Harness Padding PaddingTests AesGcm.
From S2P Require Import DoubleRatchet RatchetFacts RatchetChain RatchetProps RatchetTests.
From S2P Require Import Json JsonReader MessagePayload PayloadFormat.
Local Open Scope rust_scope.

(** [s.repeat(n)]. *)
Fixpoint repeat_str (s : bytes) (n : nat) : bytes :=
  match n with O => [] | S n => s ++ repeat_str s n end.

Section tests.
Context {BP : BuildProfile} {SO : Sodium} {HA : Hashes} {SJ : SerdeJson MessagePayload}.

Definition roundtrip_test (payload : MessagePayload) (body' : bytes) (ttl : option Z) :
  M rng CryptoError unit :=
  b ← lift (unwrapped (to_bytes payload));
  restored ← lift (unwrapped (from_bytes b));
  assert_that (bool_decide (body restored = body'));;
  assert_that (bool_decide (ttl_seconds restored = ttl)).
Definition test_payload_without_ttl_roundtrip : M rng CryptoError unit :=
  roundtrip_test (new (bstr "hello")) (bstr "hello") None.
Definition test_payload_with_ttl_roundtrip : M rng CryptoError unit :=
  roundtrip_test (with_ttl (bstr "secret message") 30) (bstr "secret message") (Some 30).

(** [serde_json::to_string(&payload).unwrap()]: the same bytes as [to_vec]. *)
Definition json_string (payload : MessagePayload) : M rng CryptoError bytes :=
  lift (unwrapped (to_vec payload)).
Definition test_text_message_omits_attachment_fields : M rng CryptoError unit :=
  json ← json_string (new (bstr "hi"));
  assert_that (negb (contains json (bstr "media_type")));;
  assert_that (negb (contains json (bstr "attachment"))).
Definition test_attachment : Attachment :=
  mkAttachment (bstr "11111111-1111-1111-1111-111111111111") (bstr "photo.jpg")
    (bstr "image/jpeg") 12345 (repeat_str (bstr "ab") 32) None.
Definition test_attachment_roundtrip : M rng CryptoError unit :=
  let att := test_attachment in
  let payload := with_attachment (new (bstr "[Image]")) (bstr "image") att in
  json ← json_string payload;
  assert_all (contains json <$>
    [bstr "media_type"; bstr "attachment"; bstr "media_id"; bstr "file_name"; bstr "mime_type";
     bstr "file_size"; bstr "file_key_hex"]);;
  restored ← lift (unwrapped (from_bytes json));
  assert_that (bool_decide (media_type restored = Some (bstr "image")));;
  assert_that (bool_decide (attachment restored = Some att)).
Definition test_payload_without_ttl_omits_field : M rng CryptoError unit :=
  json ← json_string (new (bstr "no ttl"));
  assert_that (negb (contains json (bstr "ttl_seconds"))).
Definition test_payload_with_ttl_includes_field : M rng CryptoError unit :=
  json ← json_string (with_ttl (bstr "has ttl") 60);
  assert_that (contains json (quote :: bstr "ttl_seconds" ++ quote :: bstr ":60")).
Definition test_backward_compat_no_ttl_field : M rng CryptoError unit :=
  let json := bstr "{" ++ quote :: bstr "body" ++ quote :: bstr ":" ++ quote
              :: bstr "old client message" ++ quote :: bstr "}" in
  payload ← lift (unwrapped (json_from_slice json));
  assert_that (bool_decide (body payload = bstr "old client message"));;
  assert_that (bool_decide (ttl_seconds payload = None)).

(** [usize::is_power_of_two]. *)
Definition is_power_of_two (n : Z) : bool := (0 <? n) && (n =? 2 ^ Z.log2 n).
Definition test_padded_roundtrip : M rng CryptoError unit :=
  unwrap init_sodium;;
  let payload := with_ttl (bstr "padded secret") 60 in
  padded ← unwrap (to_padded_bytes payload);
  assert_that (256 <=? blen padded);;
  assert_that (is_power_of_two (blen padded) || (blen padded `mod` 65536 =? 0));;
  recovered ← unwrap (lift (from_padded_bytes padded));
  assert_that (bool_decide (recovered = payload)).

Definition test_padded_hides_length : M rng CryptoError unit :=
  unwrap init_sodium;;
  let short := new (bstr "hi") in
  let longer := new (bstr "a somewhat longer message body") in
  padded_short ← unwrap (to_padded_bytes short);
  padded_longer ← unwrap (to_padded_bytes longer);
  assert_that (blen padded_short =? blen padded_longer).

Definition test_padded_encrypt_decrypt_with_ratchet : M rng CryptoError unit :=
  '(alice, bob) ← new_session Byte.x42;
  let payload := with_ttl (bstr "padded vanishing message") 10 in
  padded_bytes ← unwrap (to_padded_bytes payload);
  let ad := bstr "session-id" in
  '((header, ct), alice) ← unwrap (with_session (encrypt padded_bytes ad) alice);
  '(pt, bob) ← unwrap (with_session (decrypt header ct ad) bob);
  decrypted_payload ← unwrap (lift (from_padded_bytes pt));
  assert_that (bool_decide (body decrypted_payload = bstr "padded vanishing message"));;
  assert_that (bool_decide (ttl_seconds decrypted_payload = Some 10)).

Definition ratchet_test (payload : MessagePayload) (body' : bytes) (ttl : option Z) :
  M rng CryptoError unit :=
  '(alice, bob) ← new_session Byte.x42;
  payload_bytes ← lift (unwrapped (to_bytes payload));
  let ad := bstr "session-id" in
  '((header, ct), alice) ← unwrap (with_session (encrypt payload_bytes ad) alice);
  '(pt, bob) ← unwrap (with_session (decrypt header ct ad) bob);
  decrypted_payload ← lift (unwrapped (from_bytes pt));
  assert_that (bool_decide (body decrypted_payload = body'));;
  assert_that (bool_decide (ttl_seconds decrypted_payload = ttl)).
Definition test_payload_encrypt_decrypt_with_ratchet : M rng CryptoError unit :=
  ratchet_test (with_ttl (bstr "vanishing message") 5) (bstr "vanishing message") (Some 5).
Definition test_payload_no_ttl_encrypt_decrypt_with_ratchet : M rng CryptoError unit :=
  ratchet_test (new (bstr "permanent message")) (bstr "permanent message") None.

Definition test_padded_size_invariant_under_group_id : M rng CryptoError unit :=
  dm ← unwrap (to_padded_bytes (new (bstr "hi")));
  group ← unwrap (to_padded_bytes (in_group (new (bstr "hi")) (repeat_str (bstr "a") 64)));
  assert_that (blen dm =? blen group).

Definition test_padded_roundtrip_dm_recovers_none_group_id : M rng CryptoError unit :=
  dm ← unwrap (to_padded_bytes (new (bstr "hi")));
  decoded ← unwrap (lift (from_padded_bytes dm));
  assert_that (bool_decide (body decoded = bstr "hi"));;
  assert_that (bool_decide (group_id decoded = None)).

Definition test_padded_roundtrip_group_id_preserved : M rng CryptoError unit :=
  let real_id := repeat_str (bstr "0123456789abcdef") 4 in
  group ← unwrap (to_padded_bytes (in_group (new (bstr "hi")) real_id));
  decoded ← unwrap (lift (from_padded_bytes group));
  assert_that (bool_decide (body decoded = bstr "hi"));;
  assert_that (bool_decide (group_id decoded = Some real_id)).

(** [p.group_id = Some(id); assert!(p.normalize_group_id().is_err())]. *)
Definition garbage_group_id (id : bytes) : M rng CryptoError unit :=
  let p := set_group_id (Some id) (new (bstr "x")) in
  assert_that (is_err (normalize_group_id p).1).
Definition test_normalize_group_id_rejects_garbage : M rng CryptoError unit :=
  garbage_group_id (bstr "not-hex");;
  garbage_group_id (bstr "0123");;
  garbage_group_id (repeat_str (bstr "z") 64);;
  let p := set_group_id (Some (repeat_str (bstr "a") 64)) (new (bstr "x")) in
  let '(r, p) := normalize_group_id p in
  assert_that (match r with Ret _ => true | _ => false end);;
  assert_that (bool_decide (group_id p = Some (repeat_str (bstr "a") 64))).

Definition payload_tests : list (M rng CryptoError unit) :=
  [test_text_message_omits_attachment_fields; test_attachment_roundtrip;
   test_payload_without_ttl_roundtrip; test_payload_with_ttl_roundtrip;
   test_payload_without_ttl_omits_field; test_payload_with_ttl_includes_field;
   test_backward_compat_no_ttl_field; test_padded_roundtrip;
   test_padded_hides_length; test_padded_encrypt_decrypt_with_ratchet;
   test_payload_encrypt_decrypt_with_ratchet; test_payload_no_ttl_encrypt_decrypt_with_ratchet;
   test_padded_size_invariant_under_group_id; test_padded_roundtrip_dm_recovers_none_group_id;
   test_padded_roundtrip_group_id_preserved; test_normalize_group_id_rejects_garbage].
End tests.

(** ** They pass *)
Section passing.
Context {BP : BuildProfile} {SO : Sodium} {HA : Hashes} {JS : JsonStrings} {SJ : SerdeJson MessagePayload}.
Context {L : SodiumLaws SO} {LA : AeadLaws SO} {LH : HashLaws HA} {LK : KeyLaws SO}.
Context {PF : PayloadFormat SJ}.

Lemma small_bucket n : 0 ≤ n ≤ 252 → bucket_size n = Ret 256.
Proof.
  intros Hn. unfold bucket_size, PAD_LEN_BYTES, MIN_BUCKET. rewrite add_w_ok by (unfold in_width; lia).
  mred. by rewrite (proj2 (Z.leb_le _ _)) by lia.
Qed.
(** A payload whose text needs no escapes, as all those of the tests; and one whose
    text is at most 252 bytes long besides: what the tests pad or encrypt. *)
Definition plain_payload (p : MessagePayload) : bool := payload_ok p && json_plain (payload_json p).
Definition short_payload (p : MessagePayload) : bool :=
  plain_payload p && (blen (json_text id (payload_json p)) <=? 252).
Lemma plain_payload_written p :
  plain_payload p = true →
  to_vec p = Ret (json_text id (payload_json p)) ∧
  json_from_slice (json_text id (payload_json p)) = Ret p.
Proof.
  intros [Hp Hj]%andb_prop. pose proof (payload_text_read p Hp) as Hr.
  rewrite json_text_plain in Hr by done. split; [by apply payload_written_plain|done].
Qed.
Lemma short_payload_written p :
  short_payload p = true →
  to_vec p = Ret (json_text id (payload_json p)) ∧
  json_from_slice (json_text id (payload_json p)) = Ret p ∧
  0 ≤ blen (json_text id (payload_json p)) ≤ 252.
Proof.
  intros [[? ?]%plain_payload_written Hl%Z.leb_le]%andb_prop. split_and!; [done..|apply blen_nonneg|done].
Qed.
Lemma json_string_step p (k : bytes → M rng CryptoError unit) w :
  plain_payload p = true → passes (k (json_text id (payload_json p))) w → passes (json_string p ≫= k) w.
Proof. intros [Hv _]%plain_payload_written Hk. eapply passes_lift; [by rewrite Hv|exact Hk]. Qed.
Lemma padded_step p (k : bytes → M rng CryptoError unit) w :
  sendable p → short_payload (on_wire p) = true → ready w →
  (∀ b w', ready w' → blen b = 256 → from_padded_bytes b = Ret p → passes (k b) w') →
  passes (unwrap (to_padded_bytes p) ≫= k) w.
Proof.
  intros Hp (Hv & Hr & Hlen)%short_payload_written Hw Hk. set (v := json_text id _) in *.
  destruct (pads v (blen v) 256 w eq_refl ltac:(lia) (small_bucket (blen v) ltac:(lia)) Hw)
    as (q & w' & Hpad & Hw' & _ & _ & Hl & Hu & _).
  pose proof (to_padded_run p w v Hv) as Hrun. rewrite Hpad in Hrun. tstep Hrun. apply Hk; [done..|].
  unfold from_padded_bytes. rewrite Hu. mred. rewrite Hr. cbn [map_err]. mred. by rewrite normalize_on_wire.
Qed.
Lemma roundtrip_passes p w : plain_payload p = true → passes (roundtrip_test p (body p) (ttl_seconds p)) w.
Proof.
  intros [Hv Hr]%plain_payload_written. unfold roundtrip_test.
  eapply passes_lift; [unfold to_bytes; by rewrite Hv|].
  eapply passes_lift; [unfold from_bytes; by rewrite Hr|].
  tassert; [by apply bool_decide_eq_true|]. tassert. by apply bool_decide_eq_true.
Qed.

(** One message from Alice to Bob over a new session. *)
Lemma relay_step (bob : RatchetState) alice pk ck0 m ad w (k : bytes → M rng CryptoError unit) :
  send_chain alice pk ck0 → send_message_number alice = 0 → listens bob pk ck0 ∅ 0 →
  blen m ≤ 256 → ready w → (∀ w', passes (k m) w') →
  passes ('((header, ct), _) ← unwrap (with_session (encrypt m ad) alice);
          '(pt, _) ← unwrap (with_session (decrypt header ct ad) bob); k pt) w.
Proof.
  intros Ha Hn Hb Hm Hw Hk.
  destruct (speaks alice pk ck0 0 m ad w Ha Hn) as (h & c & a' & w1 & He & Hw1 & Hg & _);
    [done|unfold isize_max; lia|done|]. tstep He.
  destruct (listens_decrypts bob pk ck0 ∅ 0 h c ad 0 m w1 Hb Hg) as (b' & w2 & Hd & _);
    [done|set_solver|done|]. tstep (with_session_Ret _ _ _ _ _ _ Hd). apply Hk.
Qed.
Lemma ratchet_passes p w :
  ready w → short_payload p = true → passes (ratchet_test p (body p) (ttl_seconds p)) w.
Proof.
  intros Hw (Hv & Hr & Hlen)%short_payload_written. unfold ratchet_test.
  destruct (new_session_chain Byte.x42 w Hw) as (alice & bob & pk & ck0 & w0 & Hs & Hw0 & Ha & Hn & Hb).
  tstep Hs. eapply passes_lift; [unfold to_bytes; by rewrite Hv|].
  apply (relay_step bob alice pk ck0); try done; [lia|]. intros w'.
  eapply passes_lift; [unfold from_bytes; by rewrite Hr|].
  tassert; [by apply bool_decide_eq_true|]. tassert. by apply bool_decide_eq_true.
Qed.
(** The tests of message_payload.rs pass for every generator and every serialiser of
    the format: the fields that the text has and leaves out, the message of an older
    client, the round trips with and without padding and over a session, equal sizes
    within a bucket and for direct and group messages, and the group identifiers that
    are accepted and refused. *)
Theorem payload_tests_pass w : ready w → Forall (λ t, passes t w) payload_tests.
Proof.
  intros Hw. each_case.
  - apply json_string_step; [done|]. tassert; [by vm_compute|]. tassert. by vm_compute.
  - destruct (plain_payload_written (with_attachment (new (bstr "[Image]")) (bstr "image") test_attachment) eq_refl)
      as [_ Hr].
    apply json_string_step; [done|]. tassert; [by vm_compute|].
    eapply passes_lift; [unfold from_bytes; by rewrite Hr|]. tassert; [done|]. tassert.
    by apply bool_decide_eq_true.
  - by apply (roundtrip_passes (new _)).
  - by apply (roundtrip_passes (with_ttl _ _)).
  - apply json_string_step; [done|]. tassert. by vm_compute.
  - apply json_string_step; [done|]. tassert. by vm_compute.
  - destruct (plain_payload_written (new (bstr "old client message")) eq_refl) as [_ Hr].
    eapply passes_lift; [apply (f_equal (unwrapped (F:=CryptoError))) in Hr; exact Hr|]. tassert; [done|]. by tassert.
  - apply init_step; [done|]. apply padded_step; [done..|]. intros b w1 _ Hl Hr. rewrite Hl.
    do 2 (tassert; [done|]). tstep Hr. tassert. by apply bool_decide_eq_true.
  - apply init_step; [done|]. apply padded_step; [done..|]. intros b w1 Hw1 Hl _.
    apply padded_step; [done..|]. intros b2 w2 _ Hl2 _. rewrite Hl, Hl2. by tassert.
  - unfold test_padded_encrypt_decrypt_with_ratchet.
    destruct (new_session_chain Byte.x42 w Hw) as (alice & bob & pk & ck0 & w0 & Hs & Hw0 & Ha & Hn & Hb).
    tstep Hs. apply padded_step; [done..|]. intros b w1 Hw1 Hl Hr.
    apply (relay_step bob alice pk ck0); try done; [lia|]. intros w'. tstep Hr. tassert; [done|]. by tassert.
  - by apply (ratchet_passes (with_ttl _ _)).
  - by apply (ratchet_passes (new _)).
  - apply padded_step; [done..|]. intros b w1 Hw1 Hl _.
    apply padded_step; [by split_and!|done..|]. intros b2 w2 _ Hl2 _. rewrite Hl, Hl2. by tassert.
  - apply padded_step; [done..|]. intros b w1 _ _ Hr. tstep Hr. tassert; [done|]. by tassert.
  - apply padded_step; [by split_and!|done..|]. intros b w1 _ _ Hr. tstep Hr. tassert; [done|]. by tassert.
  - unfold test_normalize_group_id_rejects_garbage, garbage_group_id.
    do 3 (tassert; [by vm_compute|]). cbn -[assert_that]. tassert; [by vm_compute|]. tassert. by vm_compute.
Qed.
End passing.

Lemma payload_tests_pass_witness :
  Forall (λ t, passes t 9) (@payload_tests debug_profile toy_sodium toy_hashes serde_payload).
Proof.
  exact (@payload_tests_pass debug_profile toy_sodium toy_hashes serde_strings serde_payload _ _ _
           toy_key_laws serde_payload_format 9 eq_refl).
Defined.
