(* ===== verification/Media.v ===== *)
(** * media.rs: encryption of file attachments

    [encrypt_file] draws a key and a nonce and prepends the nonce to the secret
    box; [decrypt_file] checks the length and opens. [FileEncryptionKey] wraps a
    key. *)

From S2P Require Import Prelude RustStr Errors Sodium Instances.
Local Open Scope rust_scope.

Definition MAX_FILE_SIZE : Z := 100 * 1024 * 1024.

Record FileMetadata := mkFileMetadata {
  filename : bytes;
  mime_type : bytes;
  size : Z;
  thumbnail : option bytes;
}.

Section media.
Context {BP : BuildProfile} {SO : Sodium}.

Definition encrypt_file (plaintext : bytes) : M rng CryptoError (bytes * key32) :=
  if MAX_FILE_SIZE <? blen plaintext then throw EncryptionFailed
  else
    init_sodium;;
    key ← draw secretbox_gen_key;
    nonce ← draw secretbox_gen_nonce;
    let ciphertext := secretbox_seal plaintext nonce key in
    cap ← lift (NONCEBYTES +usize blen ciphertext);
    lift (with_capacity cap);;
    let output := array_list nonce ++ ciphertext in
    file_key ← lift (copy_from_slice 32 (array_list key));
    mret (output, file_key).

Definition decrypt_file (ciphertext : bytes) (key : key32) : Result bytes :=
  min_len ← NONCEBYTES +usize MACBYTES;
  if blen ciphertext <? min_len then Throw DecryptionFailed
  else
    n ← slice_to ciphertext NONCEBYTES;
    nonce ← ok_or (from_slice 24 n) DecryptionFailed;
    secret_key ← ok_or (from_slice 32 (array_list key))
                       (InvalidKeyLength 32 (blen (array_list key)));
    ct ← slice_from ciphertext NONCEBYTES;
    plaintext ← ok_or (secretbox_open ct nonce secret_key) DecryptionFailed;
    mret plaintext.
End media.

Module FileEncryptionKey.
Record t := mk { key : key32 }.
Definition new (key : key32) : t := mk key.
Definition as_bytes (self : t) : key32 := key self.
Definition zeroize (self : t) : t := mk (array_repeat 32 Byte.x00).
Definition drop (self : t) : t := zeroize self.
End FileEncryptionKey.

(** ** Facts *)
Section media_facts.
Context {BP : BuildProfile} {SO : Sodium} {L : SodiumLaws SO} {LS : SecretboxLaws SO}.

Lemma encrypt_file_drawn m w :
  ready w → blen m ≤ MAX_FILE_SIZE →
  let '(key, w1) := secretbox_gen_key w in
  let '(nonce, w2) := secretbox_gen_nonce w1 in
  encrypt_file m w = (Ret (array_list nonce ++ secretbox_seal m nonce key, key), w2) ∧ ready w2.
Proof.
  intros Hw Hm. unfold MAX_FILE_SIZE in *. unfold encrypt_file.
  rewrite (proj2 (Z.ltb_ge _ _)) by done. mstep (init_sodium_ready w Hw). mred.
  pose proof (ready_secretbox_gen_key w Hw) as Hw1.
  destruct (secretbox_gen_key w) as [key w1] eqn:Hk. mred. simpl in Hw1.
  pose proof (ready_secretbox_gen_nonce w1 Hw1) as Hw2.
  destruct (secretbox_gen_nonce w1) as [nonce w2] eqn:Hn. mred. simpl in Hw2.
  pose proof (blen_nonneg m). pose proof (secretbox_seal_length m nonce key) as Hl.
  unfold MACBYTES in Hl.
  rewrite add_w_ok by (rewrite Hl; unfold in_width, NONCEBYTES; lia). mred.
  rewrite with_capacity_ok by (rewrite Hl; unfold NONCEBYTES, isize_max; lia). mred.
  unfold copy_from_slice. rewrite array_of_list_array. by mred.
Qed.
Lemma encrypt_file_run m w :
  ready w → blen m ≤ MAX_FILE_SIZE →
  ∃ key nonce w', encrypt_file m w
                  = (Ret (array_list nonce ++ secretbox_seal m nonce key, key), w') ∧ ready w'.
Proof.
  intros Hw Hm. pose proof (encrypt_file_drawn m w Hw Hm) as H.
  destruct (secretbox_gen_key w) as [key w1], (secretbox_gen_nonce w1) as [nonce w2].
  by exists key, nonce, w2.
Qed.
Lemma decrypt_file_short c key :
  blen c < 40 → decrypt_file c key = Throw DecryptionFailed.
Proof.
  intros H. unfold decrypt_file. rewrite add_w_ok by done. mred.
  by rewrite (proj2 (Z.ltb_lt _ _)).
Qed.
Lemma decrypt_file_nonce (nonce : array 24) ct key :
  16 ≤ blen ct →
  decrypt_file (array_list nonce ++ ct) key = ok_or (secretbox_open ct nonce key) DecryptionFailed.
Proof.
  intros H. unfold decrypt_file. rewrite add_w_ok by done. mred.
  rewrite (proj2 (Z.ltb_ge _ _)) by (rewrite blen_app, array_blen; unfold NONCEBYTES, MACBYTES; lia).
  rewrite slice_to_app_eq, slice_from_app_eq by (by rewrite array_blen). mred.
  rewrite !from_slice_array. mred. by destruct (secretbox_open ct nonce key).
Qed.
End media_facts.

(** ** Properties *)
Section media_properties.
Context {BP : BuildProfile} {SO : Sodium} {L : SodiumLaws SO} {LS : SecretboxLaws SO}.

(** A file of at most 100 MiB is encrypted without an error under a fresh key,
    into 40 more bytes, and decrypting with the returned key gives it back; a larger
    file is refused before anything is drawn. *)
Theorem file_roundtrip m w :
  ready w →
  (blen m ≤ MAX_FILE_SIZE →
   ∃ c key w', encrypt_file m w = (Ret (c, key), w') ∧ blen c = blen m + 40 ∧
               decrypt_file c key = Ret m) ∧
  (MAX_FILE_SIZE < blen m → encrypt_file m w = (Throw EncryptionFailed, w)).
Proof.
  intros Hw. split; intros Hm.
  - destruct (encrypt_file_run m w Hw Hm) as (key & nonce & w' & He & _).
    pose proof (secretbox_seal_length m nonce key) as Hl. unfold MACBYTES in Hl.
    pose proof (blen_nonneg m). eexists _, _, _. split; [exact He|].
    rewrite decrypt_file_nonce, secretbox_open_seal by lia.
    rewrite blen_app, array_blen, Hl. split; [lia|done].
  - unfold encrypt_file. by rewrite (proj2 (Z.ltb_lt _ _)).
Qed.

(** C38: [decrypt_file] is exact and total: it returns [m] only on a nonce followed
    by the secret box of [m] under that nonce and key, and reports
    [DecryptionFailed] on every other input, short ones included. *)
Theorem decrypt_file_exact c key :
  (∀ m, decrypt_file c key = Ret m ↔
        ∃ nonce, c = array_list nonce ++ secretbox_seal m nonce key) ∧
  ((∀ m, decrypt_file c key ≠ Ret m) → decrypt_file c key = Throw DecryptionFailed).
Proof.
  destruct (Z.lt_ge_cases (blen c) 40) as [Hs|Hs].
  { rewrite decrypt_file_short by done. split; [|done]. intros m. split; [done|].
    intros (nonce & ->). rewrite blen_app, array_blen, secretbox_seal_length in Hs.
    unfold MACBYTES in Hs. pose proof (blen_nonneg m). lia. }
  destruct (array_of_list_Some 24 (take 24 c)) as (nonce & _ & Hn).
  { unfold blen in Hs. rewrite length_take. lia. }
  assert (c = array_list nonce ++ drop 24 c) as Hc by (rewrite Hn; by rewrite take_drop).
  assert (16 ≤ blen (drop 24 c)) as Hd by (unfold blen in *; rewrite length_drop; lia).
  rewrite Hc, decrypt_file_nonce by done. split.
  - intros m. split.
    + destruct (secretbox_open (drop 24 c) nonce key) eqn:Ho; [|done]. intros [= ->].
      exists nonce. f_equal. by apply secretbox_open_inv.
    + intros (n' & Heq). apply app_inj_1 in Heq as [Hn' ->]; [|by rewrite !array_length].
      apply array_eq in Hn' as ->. by rewrite secretbox_open_seal.
  - intros H. destruct (secretbox_open (drop 24 c) nonce key) as [m|]; [|done]. by destruct (H m).
Qed.
End media_properties.

Lemma file_roundtrip_witness :
  @ready toy_sodium 5 ∧
  ∃ c key w', @encrypt_file debug_profile toy_sodium (bstr "file") 5 = (Ret (c, key), w') ∧
    blen c = blen (bstr "file") + 40 ∧ @decrypt_file debug_profile toy_sodium c key = Ret (bstr "file").
Proof.
  assert (blen (bstr "file") ≤ MAX_FILE_SIZE) as H by done.
  split; [done|].
  exact (proj1 (@file_roundtrip debug_profile toy_sodium _ _ (bstr "file") 5 eq_refl) H).
Defined.
Lemma decrypt_file_exact_witness :
  @decrypt_file debug_profile toy_sodium (bstr "short") (array_repeat 32 Byte.x01)
  = Throw DecryptionFailed.
Proof.
  apply (proj2 (@decrypt_file_exact debug_profile toy_sodium _ _ (bstr "short")
                  (array_repeat 32 Byte.x01))).
  intros m H. discriminate H.
Defined.
