(* ===== verification/Security.v ===== *)
(** * security.rs: comparison, random bytes and wiping *)

From S2P Require Import Prelude RustStr Errors Sodium Instances Identity.

Section security.
Context {BP : BuildProfile} {SO : Sodium}.

Definition constant_time_eq (a b : bytes) : bool :=
  if negb (blen a =? blen b) then false else memcmp a b.

Definition secure_random_bytes (len : Z) : M rng CryptoError bytes :=
  bytes ← draw (randombytes (Z.to_nat len));
  lift (debug_assert ((len =? 0) || any_nonzero bytes));;
  mret bytes.

Definition wipe_memory (data : bytes) : bytes := replicate (length data) Byte.x00.

Context {L : SodiumLaws SO}.

(** [constant_time_eq] decides equality of any two slices, of whatever
    lengths: libsodium's comparison is only called on slices of one length.*)
Theorem constant_time_eq_spec a b : constant_time_eq a b = bool_decide (a = b).
Proof.
  unfold constant_time_eq. destruct (Z.eqb_spec (blen a) (blen b)) as [H|H]; simpl.
  - apply memcmp_spec. unfold blen in H. lia.
  - symmetry. apply bool_decide_eq_false. by intros ->.
Qed.

(** The bytes have the requested length; only an all-zero draw trips the debug
    assertion. *)
Lemma secure_random_bytes_run len w :
  0 ≤ len → (debug_assertions = true → 0 < len → any_nonzero (randombytes (Z.to_nat len) w).1 = true) →
  ∃ b w', secure_random_bytes len w = (Ret b, w') ∧ blen b = len.
Proof.
  intros Hlen Hnz. pose proof (randombytes_length (Z.to_nat len) w) as Hl. unfold secure_random_bytes.
  mred. destruct (randombytes (Z.to_nat len) w) as [b w'] eqn:Hr. simpl in *.
  exists b, w'. split; [|unfold blen; lia]. unfold debug_assert.
  destruct debug_assertions eqn:Hd; [|done]. destruct (Z.eqb_spec len 0); [done|].
  rewrite Hnz by (done || lia). done.
Qed.
Lemma wipe_memory_spec data :
  length (wipe_memory data) = length data ∧ any_nonzero (wipe_memory data) = false.
Proof.
  unfold wipe_memory. split; [apply length_replicate|]. unfold any_nonzero.
  induction (length data) as [|n IH]; [done|]. simpl. by rewrite IH.
Qed.
End security.

Lemma constant_time_eq_spec_witness :
  @constant_time_eq toy_sodium (bstr "abc") (bstr "ab") = false.
Proof. exact (@constant_time_eq_spec toy_sodium _ (bstr "abc") (bstr "ab")). Defined.
