(* ===== verification/SafetyNumber.v ===== *)
(** * safety_number.rs: the number two users compare

    [generate_safety_number] sorts the two keys, hashes them and prints twelve
    groups of five digits; [generate_safety_number_from_hex] checks and decodes its
    arguments first. *)

From S2P Require Import Prelude RustStr Errors Sodium Instances.
Local Open Scope rust_scope.

Definition NUM_GROUPS : Z := 12.
Definition BYTES_PER_GROUP : Z := 2.

(** The lexicographic order on slices of [u8]. *)
Fixpoint slice_le (a b : bytes) : bool :=
  match a, b with
  | [], _ => true
  | _ :: _, [] => false
  | x :: a, y :: b =>
      if byte_to_Z x <? byte_to_Z y then true
      else if byte_to_Z y <? byte_to_Z x then false else slice_le a b
  end.

(** [u16::from_be_bytes]. *)
Definition u16_from_be_bytes (hi lo : byte) : Z := 256 * byte_to_Z hi + byte_to_Z lo.

Section safety.
Context {BP : BuildProfile} {HA : Hashes} {HX : Hex}.

Definition safety_group (hash : key32) (i : Z) : Result bytes :=
  offset ← i *usize BYTES_PER_GROUP;
  b0 ← index (array_list hash) offset;
  o1 ← offset +usize 1;
  b1 ← index (array_list hash) o1;
  let value := u16_from_be_bytes b0 b1 in
  mret (format_pad0 5 (value `mod` 100000)).

Definition generate_safety_number (our_identity_key their_identity_key : bytes) : Result bytes :=
  let '(first, second) := if slice_le our_identity_key their_identity_key
                          then (our_identity_key, their_identity_key)
                          else (their_identity_key, our_identity_key) in
  let hash := sha256 (first ++ second) in
  groups ← mapM (safety_group hash) (seqZ 0 NUM_GROUPS);
  mret (join (bstr " ") groups).

Definition generate_safety_number_from_hex (our_identity_key_hex their_identity_key_hex : bytes) :
  Result bytes :=
  our_key ← ok_or (hex_decode our_identity_key_hex) (InvalidKeyLength 32 0);
  their_key ← ok_or (hex_decode their_identity_key_hex) (InvalidKeyLength 32 0);
  if negb (blen our_key =? 32) then Throw (InvalidKeyLength 32 (blen our_key))
  else if negb (blen their_key =? 32) then Throw (InvalidKeyLength 32 (blen their_key))
  else generate_safety_number our_key their_key.
End safety.

(** ** Facts *)
Lemma slice_le_total a b : slice_le a b = false → slice_le b a = true.
Proof.
  revert b. induction a as [|x a IH]; intros [|y b]; simpl; try done.
  destruct (Z.ltb_spec (byte_to_Z x) (byte_to_Z y)); [done|].
  destruct (Z.ltb_spec (byte_to_Z y) (byte_to_Z x)); [done|]. apply IH.
Qed.
Lemma slice_le_antisym a b : slice_le a b = true → slice_le b a = true → a = b.
Proof.
  revert b. induction a as [|x a IH]; intros [|y b]; simpl; try done.
  destruct (Z.ltb_spec (byte_to_Z x) (byte_to_Z y)).
  - destruct (Z.ltb_spec (byte_to_Z y) (byte_to_Z x)); [lia|]. done.
  - destruct (Z.ltb_spec (byte_to_Z y) (byte_to_Z x)); [done|]. intros H1 H2. f_equal; [|by apply IH].
    apply byte_to_Z_inj. lia.
Qed.

(** The text of a group: always five digits, and it determines the two bytes. *)
Definition group_text (b0 b1 : byte) : bytes := format_pad0 5 (u16_from_be_bytes b0 b1).
Lemma u16_range b0 b1 : 0 ≤ u16_from_be_bytes b0 b1 < 65536.
Proof.
  unfold u16_from_be_bytes. pose proof (byte_to_Z_range b0). pose proof (byte_to_Z_range b1). lia.
Qed.
Lemma to_string_uint_short n : 0 ≤ n < 65536 → (length (to_string_uint n) ≤ 5)%nat.
Proof.
  intros Hn. unfold to_string_uint.
  assert (∀ fuel n acc k, 0 ≤ n < 10 ^ Z.of_nat k → (0 < k)%nat →
            (length (dec_go fuel n acc) ≤ length acc + k)%nat) as Hgo.
  { clear. induction fuel as [|fuel IH]; intros n acc k Hn Hk; [simpl; lia|]. cbn -[Z.div Z.modulo].
    destruct (Z.ltb_spec n 10); [simpl; lia|].
    destruct k as [|[|k]]; [lia|simpl in Hn; lia|].
    specialize (IH (n / 10) (char_of_digit (n `mod` 10) :: acc) (S k)). cbn [length] in IH.
    etrans; [apply IH|lia]; [|lia]. split; [apply Z.div_pos; lia|].
    apply Z.div_lt_upper_bound; [lia|]. rewrite <-Z.pow_succ_r by lia. 
    replace (Z.succ (Z.of_nat (S k))) with (Z.of_nat (S (S k))) by lia. lia. }
  apply (Hgo _ n [] 5%nat); [|lia]. change (10 ^ Z.of_nat 5) with 100000. lia.
Qed.
Lemma format_pad0_length n : 0 ≤ n < 65536 → length (format_pad0 5 n) = 5%nat.
Proof.
  intros Hn. unfold format_pad0. rewrite length_app, length_replicate.
  pose proof (to_string_uint_short n Hn). lia.
Qed.
Lemma dec_value_zeros k s : dec_value (replicate k (char_of_digit 0) ++ s) = dec_value s.
Proof.
  induction k as [|k IH]; [done|]. simpl. rewrite dec_value_cons, digit_value_char by lia. lia.
Qed.
Lemma format_pad0_inj n m : 0 ≤ n → 0 ≤ m → format_pad0 5 n = format_pad0 5 m → n = m.
Proof.
  intros Hn Hm H. apply (f_equal dec_value) in H. unfold format_pad0 in H.
  rewrite !dec_value_zeros in H.
  destruct (to_string_uint_spec n Hn) as [<- _]. by destruct (to_string_uint_spec m Hm) as [<- _].
Qed.
Lemma group_text_inj b0 b1 c0 c1 : group_text b0 b1 = group_text c0 c1 → b0 = c0 ∧ b1 = c1.
Proof.
  intros H. apply format_pad0_inj in H; [|apply u16_range..]. unfold u16_from_be_bytes in H.
  pose proof (byte_to_Z_range b0). pose proof (byte_to_Z_range b1).
  pose proof (byte_to_Z_range c0). pose proof (byte_to_Z_range c1).
  split; apply byte_to_Z_inj; lia.
Qed.

(** The twelve groups of a hash, in closed form. *)
Fixpoint group_texts (l : bytes) : list bytes :=
  match l with b0 :: b1 :: l => group_text b0 b1 :: group_texts l | _ => [] end.

Section safety_facts.
Context {BP : BuildProfile} {HA : Hashes}.

Lemma safety_group_run hash i b0 b1 :
  0 ≤ i < 16 → array_list hash !! Z.to_nat (2 * i) = Some b0 →
  array_list hash !! Z.to_nat (2 * i + 1) = Some b1 →
  safety_group hash i = Ret (group_text b0 b1).
Proof.
  intros Hi H0 H1. unfold safety_group, BYTES_PER_GROUP.
  rewrite mul_w_ok by (unfold in_width; lia). mred. replace (i * 2) with (2 * i) by lia.
  rewrite (index_ok _ _ b0) by (done || lia). mred.
  rewrite add_w_ok by (unfold in_width; lia). mred. rewrite (index_ok _ _ b1) by (done || lia). mred.
  unfold group_text. rewrite Z.mod_small; [done|]. pose proof (u16_range b0 b1). lia.
Qed.
(** The loop over the groups from [i] on. *)
Lemma groups_run hash n : ∀ i, 0 ≤ i → i + Z.of_nat n ≤ 16 →
  mapM (safety_group hash) (seqZ i (Z.of_nat n))
  = Ret (group_texts (take (2 * n) (drop (Z.to_nat (2 * i)) (array_list hash)))).
Proof.
  induction n as [|n IH]; intros i Hi Hn; [by rewrite Nat.mul_0_r, take_0|].
  rewrite seqZ_cons by lia. replace (Z.pred (Z.of_nat (S n))) with (Z.of_nat n) by lia.
  pose proof (array_length hash) as Hl.
  destruct (lookup_lt_is_Some_2 (array_list hash) (Z.to_nat (2 * i))) as [b0 H0]; [lia|].
  destruct (lookup_lt_is_Some_2 (array_list hash) (Z.to_nat (2 * i + 1))) as [b1 H1]; [lia|].
  assert (∀ l, mapM (safety_group hash) (i :: l)
            = (y ← safety_group hash i; k ← mapM (safety_group hash) l; mret (y :: k))) as -> by done.
  rewrite (safety_group_run hash i b0 b1) by (done || lia).
  transitivity (k ← mapM (safety_group hash) (seqZ (Z.succ i) (Z.of_nat n));
                Ret (E:=CryptoError) (group_text b0 b1 :: k)); [done|].
  rewrite (IH (Z.succ i)) by lia. mred. change (Z.succ i) with (i + 1).
  rewrite (drop_S _ b0 _ H0). replace (S (Z.to_nat (2 * i))) with (Z.to_nat (2 * i + 1)) by lia.
  rewrite (drop_S _ b1 _ H1). replace (S (Z.to_nat (2 * i + 1))) with (Z.to_nat (2 * (i + 1))) by lia.
  by replace (2 * S n)%nat with (S (S (2 * n))) by lia.
Qed.
Definition sorted_concat (a b : bytes) : bytes := if slice_le a b then a ++ b else b ++ a.
Lemma safety_run a b :
  generate_safety_number a b
  = Ret (join (bstr " ") (group_texts (take 24 (array_list (sha256 (sorted_concat a b)))))).
Proof.
  unfold generate_safety_number, sorted_concat.
  assert (∀ h, mapM (safety_group h) (seqZ 0 NUM_GROUPS)
               = Ret (group_texts (take 24 (array_list h)))) as H
    by (intros h; apply (groups_run h 12 0); lia).
  destruct (slice_le a b); rewrite H; done.
Qed.
Lemma sorted_concat_comm a b : sorted_concat a b = sorted_concat b a.
Proof.
  unfold sorted_concat. destruct (slice_le a b) eqn:H1, (slice_le b a) eqn:H2; try done.
  - by rewrite (slice_le_antisym a b).
  - apply slice_le_total in H1. congruence.
Qed.
Lemma length_group_texts l n : length l = (2 * n)%nat → length (group_texts l) = n.
Proof.
  revert l. induction n as [|n IH]; intros [|b0 [|b1 l]] Hl; simpl in *; try lia.
  f_equal. apply IH. lia.
Qed.
Lemma group_texts_5 l : Forall (λ s : bytes, length s = 5%nat) (group_texts l).
Proof.
  induction l as [l IH] using (induction_ltof1 _ (@length byte)).
  destruct l as [|b0 [|b1 l]]; simpl; constructor.
  - apply format_pad0_length, u16_range.
  - apply IH. unfold ltof. simpl. lia.
Qed.
Lemma group_texts_inj l l' n :
  length l = (2 * n)%nat → length l' = (2 * n)%nat → group_texts l = group_texts l' → l = l'.
Proof.
  revert l l'. induction n as [|n IH]; intros [|b0 [|b1 l]] [|c0 [|c1 l']] Hl Hl' H; simpl in *;
    try lia; [done|].
  injection H as H0 H. apply group_text_inj in H0 as [-> ->]. f_equal. f_equal.
  apply IH; [lia..|done].
Qed.
End safety_facts.

(** Joining words of one length with one separator can be undone. *)
Lemma join_inj sep k (l l' : list bytes) :
  length l = length l' →
  Forall (λ s : bytes, length s = k) l → Forall (λ s : bytes, length s = k) l' →
  join sep l = join sep l' → l = l'.
Proof.
  revert l'. induction l as [|s l IH]; intros [|s' l'] Hl H1 H2 H; try done.
  inversion_clear H1 as [|?? Hs Hr]. inversion_clear H2 as [|?? Hs' Hr']. simpl in Hl.
  destruct l as [|x l], l' as [|x' l']; try done; [simpl in H; congruence|].
  change (s ++ sep ++ join sep (x :: l) = s' ++ sep ++ join sep (x' :: l')) in H.
  apply app_inj_1 in H as [-> H]; [|congruence]. apply (inj (app sep)) in H.
  f_equal. apply IH; try done. simpl in *. lia.
Qed.
Lemma join_length sep k (l : list bytes) :
  l ≠ [] → Forall (λ s : bytes, length s = k) l →
  length (join sep l) = (k * length l + length sep * (length l - 1))%nat.
Proof.
  induction l as [|s l IH]; [done|]. intros _ H. inversion_clear H as [|?? Hs Hr].
  destruct l as [|x l]; [simpl; lia|].
  change (join sep (s :: x :: l)) with (s ++ sep ++ join sep (x :: l)).
  rewrite !length_app, IH by done. simpl. lia.
Qed.

(** ** Properties *)
Section safety_properties.
Context {BP : BuildProfile} {HA : Hashes} {HX : Hex}.

(** Both users compute the same safety number: it is total and symmetric in
    the two keys, whatever their lengths. *)
Theorem safety_number_symmetric a b :
  generate_safety_number a b = generate_safety_number b a ∧
  ∃ s, generate_safety_number a b = Ret s.
Proof. rewrite !safety_run, sorted_concat_comm. split; [done|by eexists]. Qed.

(** C36: the safety number shows exactly 192 bits of the hash. It always has 71
    characters (twelve groups of five and eleven spaces), and two pairs of keys show
    the same number if and only if the hashes of their sorted concatenations agree in
    the first 24 bytes: the reduction modulo 100000 loses nothing. *)
Theorem safety_number_shows_hash_prefix a b c d :
  ∃ s t, generate_safety_number a b = Ret s ∧ generate_safety_number c d = Ret t ∧
    length s = 71%nat ∧
    (s = t ↔ take 24 (array_list (sha256 (sorted_concat a b)))
             = take 24 (array_list (sha256 (sorted_concat c d)))).
Proof.
  eexists _, _. split_and!; [apply safety_run..| |].
  - assert (length (take 24 (array_list (sha256 (sorted_concat a b)))) = (2 * 12)%nat) as Hl
      by (by rewrite length_take, array_length).
    pose proof (length_group_texts _ 12 Hl) as Hg. rewrite (join_length _ 5), Hg; [done| |].
    + intros He. by rewrite He in Hg.
    + apply group_texts_5.
  - split; [|by intros ->]. intros H.
    assert (∀ h : key32, length (take 24 (array_list h)) = (2 * 12)%nat) as Hl
      by (intros; by rewrite length_take, array_length).
    apply (join_inj _ 5) in H; [|by rewrite !(length_group_texts _ 12)|apply group_texts_5..].
    by apply (group_texts_inj _ _ 12) in H.
Qed.

(** The hexadecimal entry point agrees with the raw one on two encoded 32-byte
    keys, in either order, and rejects every other input: a string that is not
    hexadecimal or does not decode to 32 bytes is reported as a key length error,
    the first argument first.*)
Theorem safety_number_from_hex_exact {LX : HexLaws HX} a b :
  (∀ ka kb, hex_decode a = Some ka → hex_decode b = Some kb → blen ka = 32 → blen kb = 32 →
     generate_safety_number_from_hex a b = generate_safety_number ka kb) ∧
  ((∃ s, generate_safety_number_from_hex a b = Ret s) ↔
   (∃ ka, hex_decode a = Some ka ∧ blen ka = 32) ∧ ∃ kb, hex_decode b = Some kb ∧ blen kb = 32) ∧
  ((∃ s, generate_safety_number_from_hex a b = Ret s) ∨
   ∃ n, generate_safety_number_from_hex a b = Throw (InvalidKeyLength 32 n)).
Proof.
  unfold generate_safety_number_from_hex. split_and!.
  - intros ka kb -> -> Ha Hb. mred. by rewrite (proj2 (Z.eqb_eq _ _) Ha), (proj2 (Z.eqb_eq _ _) Hb).
  - destruct (hex_decode a) as [ka|], (hex_decode b) as [kb|]; mred; try (naive_solver; fail).
    destruct (Z.eqb_spec (blen ka) 32), (Z.eqb_spec (blen kb) 32); cbn [negb];
      rewrite ?safety_run; naive_solver.
  - destruct (hex_decode a) as [ka|], (hex_decode b) as [kb|]; mred; try (by right; eexists).
    destruct (Z.eqb_spec (blen ka) 32), (Z.eqb_spec (blen kb) 32); cbn [negb];
      try (by right; eexists). left. rewrite safety_run. by eexists.
Qed.
End safety_properties.

Lemma safety_number_from_hex_exact_witness :
  @generate_safety_number_from_hex debug_profile toy_hashes toy_hex
    (hex_encode_list (replicate 32 Byte.x01)) (hex_encode_list (replicate 32 Byte.x02))
  = @generate_safety_number debug_profile toy_hashes (replicate 32 Byte.x01) (replicate 32 Byte.x02).
Proof.
  exact (proj1 (@safety_number_from_hex_exact debug_profile toy_hashes toy_hex _
    (hex_encode_list (replicate 32 Byte.x01)) (hex_encode_list (replicate 32 Byte.x02)))
    (replicate 32 Byte.x01) (replicate 32 Byte.x02)
    (@hex_decode_encode toy_hex _ (replicate 32 Byte.x01))
    (@hex_decode_encode toy_hex _ (replicate 32 Byte.x02)) eq_refl eq_refl).
Defined.
