(* ===== verification/SealedSender.v ===== *)
(** * sealed_sender.rs: hiding, and authenticating, the sender

    [seal]/[unseal] put the sender's identity and the message in two anonymous
    sealed boxes; [encrypt_to_identity]/[decrypt_from_identity] use [crypto_box]
    between two Ed25519 identities converted to X25519. *)

From S2P Require Import Prelude RustStr Errors Sodium Instances Identity X3dh.
Local Open Scope rust_scope.

Record SealedSenderEnvelope := mkSealedSenderEnvelope {
  encrypted_sender : bytes;
  encrypted_message : bytes;
}.

Section sealed.
Context {BP : BuildProfile} {SO : Sodium} {SJ : SerdeJson SealedSenderEnvelope}.
(** [e.to_string()] of a [FromUtf8Error]. *)
Variable utf8_error_string : bytes → bytes.

Definition seal (sender_identity_key_hex message : bytes) (recipient_public_key : key32) :
  M rng CryptoError bytes :=
  init_sodium;;
  encrypted_sender ← draw (sealedbox_seal sender_identity_key_hex recipient_public_key);
  encrypted_message ← draw (sealedbox_seal message recipient_public_key);
  let envelope := mkSealedSenderEnvelope encrypted_sender encrypted_message in
  lift (map_err SealedSenderError (to_vec envelope)).

Definition unseal (envelope_bytes : bytes) (recipient_pk recipient_sk : key32) :
  Result (bytes * bytes) :=
  envelope ← map_err SealedSenderError (json_from_slice envelope_bytes);
  sender_bytes ← ok_or (sealedbox_open (encrypted_sender envelope) recipient_pk recipient_sk)
                       (SealedSenderError (bstr "failed to decrypt sender identity"));
  sender_hex ← ok_or (from_utf8 sender_bytes)
                     (SealedSenderError (utf8_error_string sender_bytes));
  message ← ok_or (sealedbox_open (encrypted_message envelope) recipient_pk recipient_sk)
                  (SealedSenderError (bstr "failed to decrypt message"));
  mret (sender_hex, message).

Definition ed25519_pk_to_box (pk : key32) : Result key32 :=
  let '(ret, curve) := Sodium.ed25519_pk_to_curve25519 pk in
  if negb (ret =? 0)
  then Throw (SealedSenderError (bstr "ed25519->x25519 public key conversion failed"))
  else ok_or (from_slice 32 (array_list curve))
             (SealedSenderError (bstr "invalid converted x25519 public key")).
Definition ed25519_sk_to_box (sk : array 64) : Result key32 :=
  let '(ret, curve) := Sodium.ed25519_sk_to_curve25519 sk in
  if negb (ret =? 0)
  then Throw (SealedSenderError (bstr "ed25519->x25519 secret key conversion failed"))
  else ok_or (from_slice 32 (array_list curve))
             (SealedSenderError (bstr "invalid converted x25519 secret key")).

Definition encrypt_to_identity (sender_identity : IdentityKeyPair) (recipient_identity_pk : key32)
  (plaintext : bytes) : M rng CryptoError bytes :=
  init_sodium;;
  sender_sk ← lift (ed25519_sk_to_box (secret_key sender_identity));
  recipient_pk ← lift (ed25519_pk_to_box recipient_identity_pk);
  nonce ← draw box_gen_nonce;
  let ciphertext := box_seal plaintext nonce recipient_pk sender_sk in
  cap ← lift (NONCEBYTES +usize blen ciphertext);
  lift (with_capacity cap);;
  mret (array_list nonce ++ ciphertext).

Definition decrypt_from_identity (recipient_identity : IdentityKeyPair) (sender_identity_pk : key32)
  (sealed : bytes) : M rng CryptoError bytes :=
  init_sodium;;
  if blen sealed <? NONCEBYTES
  then throw (SealedSenderError (bstr "sealed call payload too short for nonce"))
  else
    '(nonce_bytes, ciphertext) ← lift (split_at sealed NONCEBYTES);
    nonce ← lift (ok_or (from_slice 24 nonce_bytes) (SealedSenderError (bstr "invalid nonce")));
    sender_pk ← lift (ed25519_pk_to_box sender_identity_pk);
    recipient_sk ← lift (ed25519_sk_to_box (secret_key recipient_identity));
    lift (ok_or (box_open ciphertext nonce sender_pk recipient_sk)
                (SealedSenderError (bstr "failed to authenticate/decrypt call payload"))).

(** ** Facts *)
Context {L : SodiumLaws SO}.

Lemma pk_to_box_run pk c :
  Sodium.ed25519_pk_to_curve25519 pk = (0, c) → ed25519_pk_to_box pk = Ret c.
Proof. intros H. unfold ed25519_pk_to_box. rewrite H. simpl. by rewrite from_slice_array. Qed.
Lemma sk_to_box_run sk c :
  Sodium.ed25519_sk_to_curve25519 sk = (0, c) → ed25519_sk_to_box sk = Ret c.
Proof. intros H. unfold ed25519_sk_to_box. rewrite H. simpl. by rewrite from_slice_array. Qed.
Lemma decrypt_from_identity_nonce r s (n : array 24) ct pk sk w :
  ready w → Sodium.ed25519_pk_to_curve25519 s = (0, pk) →
  Sodium.ed25519_sk_to_curve25519 (secret_key r) = (0, sk) →
  decrypt_from_identity r s (array_list n ++ ct) w =
    (ok_or (box_open ct n pk sk)
       (SealedSenderError (bstr "failed to authenticate/decrypt call payload")), w).
Proof.
  intros Hw Hpk Hsk. unfold decrypt_from_identity. mstep (init_sodium_ready w Hw).
  rewrite (proj2 (Z.ltb_ge _ _))
    by (rewrite blen_app, array_blen; pose proof (blen_nonneg ct); unfold NONCEBYTES; lia).
  rewrite split_at_app_eq by (by rewrite array_blen). mred. rewrite from_slice_array. mred.
  rewrite (pk_to_box_run _ _ Hpk). mred. by rewrite (sk_to_box_run _ _ Hsk).
Qed.

(** ** Properties *)
Context {LK : KeyLaws SO} {LS : SerdeLaws SealedSenderEnvelope SJ}.

(** What [seal] draws and serialises. *)
Lemma seal_drawn sender m pk w :
  ready w →
  let '(c1, w1) := sealedbox_seal sender pk w in
  let '(c2, w2) := sealedbox_seal m pk w1 in
  ∃ v, to_vec (mkSealedSenderEnvelope c1 c2) = Ret v ∧ seal sender m pk w = (Ret v, w2) ∧ ready w2.
Proof.
  intros Hw. unfold seal. mstep (init_sodium_ready w Hw). mred.
  pose proof (ready_sealedbox_seal sender pk w Hw) as Hw1.
  destruct (sealedbox_seal sender pk w) as [c1 w1]. mred. simpl in Hw1.
  pose proof (ready_sealedbox_seal m pk w1 Hw1) as Hw2.
  destruct (sealedbox_seal m pk w1) as [c2 w2]. mred. simpl in Hw2.
  destruct (to_vec_ok (mkSealedSenderEnvelope c1 c2)) as [v Hv]. exists v. by rewrite Hv.
Qed.
(** What [unseal] makes of it, with any secret key. *)
Lemma unseal_vec c1 c2 v pk sk :
  to_vec (mkSealedSenderEnvelope c1 c2) = Ret v →
  unseal v pk sk =
    match sealedbox_open c1 pk sk with
    | None => Throw (SealedSenderError (bstr "failed to decrypt sender identity"))
    | Some s =>
        if utf8_valid s then
          match sealedbox_open c2 pk sk with
          | None => Throw (SealedSenderError (bstr "failed to decrypt message"))
          | Some m => Ret (s, m)
          end
        else Throw (SealedSenderError (utf8_error_string s))
    end.
Proof.
  intros Hv. unfold unseal. rewrite (json_roundtrip _ _ Hv). cbn [map_err]. mred. simpl.
  destruct (sealedbox_open c1 pk sk) as [s|]; [|done]. mred. unfold from_utf8.
  destruct (utf8_valid s); [|done]. mred. by destruct (sealedbox_open c2 pk sk).
Qed.
Lemma seal_run sender m pk sk w :
  ready w → box_pair pk sk → utf8_valid sender = true →
  ∃ b w', seal sender m pk w = (Ret b, w') ∧ unseal b pk sk = Ret (sender, m) ∧ ready w'.
Proof.
  intros Hw Hp Hu. pose proof (seal_drawn sender m pk w Hw) as H.
  pose proof (sealedbox_open_seal pk sk sender w Hp) as Ho1.
  destruct (sealedbox_seal sender pk w) as [c1 w1].
  pose proof (sealedbox_open_seal pk sk m w1 Hp) as Ho2.
  destruct (sealedbox_seal m pk w1) as [c2 w2]. destruct H as (v & Hv & Hs & Hw2). simpl in Ho1, Ho2.
  exists v, w2. split_and!; [done| |done]. by rewrite (unseal_vec _ _ _ _ _ Hv), Ho1, Hu, Ho2.
Qed.

(** A sealed envelope is opened by its recipient: for a genuine recipient key
    pair and a sender string that is valid UTF-8, [seal] succeeds and [unseal] gives
    back the sender and the message. *)
Theorem seal_unseal_roundtrip sender m pk sk w :
  ready w → box_pair pk sk → utf8_valid sender = true →
  ∃ b w', seal sender m pk w = (Ret b, w') ∧ unseal b pk sk = Ret (sender, m).
Proof.
  intros Hw Hp Hu. destruct (seal_run sender m pk sk w Hw Hp Hu) as (b & w' & Hb & Hu' & _).
  by exists b, w'.
Qed.

Lemma encrypt_to_identity_drawn a r m w ska pkr :
  ready w → blen m + 64 ≤ isize_max →
  (∀ m n pk sk, blen (box_seal m n pk sk) = blen m + MACBYTES) →
  Sodium.ed25519_sk_to_curve25519 (secret_key a) = (0, ska) →
  Sodium.ed25519_pk_to_curve25519 r = (0, pkr) →
  encrypt_to_identity a r m w =
    (Ret (array_list (box_gen_nonce w).1 ++ box_seal m (box_gen_nonce w).1 pkr ska), (box_gen_nonce w).2).
Proof.
  intros Hw Hm Hlen Has Hrp. unfold isize_max in Hm.
  unfold encrypt_to_identity. mstep (init_sodium_ready w Hw). mred.
  rewrite (sk_to_box_run _ _ Has). mred. rewrite (pk_to_box_run _ _ Hrp). mred.
  destruct (box_gen_nonce w) as [n w'] eqn:Hn. mred.
  pose proof (Hlen m n pkr ska) as Hl. unfold MACBYTES in Hl. pose proof (blen_nonneg m).
  rewrite add_w_ok by (rewrite Hl; unfold in_width, NONCEBYTES; lia). mred.
  by rewrite with_capacity_ok by (rewrite Hl; unfold NONCEBYTES, isize_max; lia).
Qed.
Lemma identity_box_run a b m w :
  ready w → blen m + 64 ≤ isize_max →
  (∀ m n pk sk, blen (box_seal m n pk sk) = blen m + MACBYTES) →
  sign_pair (public_key a) (secret_key a) → sign_pair (public_key b) (secret_key b) →
  ∃ c w', encrypt_to_identity a (public_key b) m w = (Ret c, w') ∧ blen c = blen m + 40 ∧ ready w' ∧
    ∀ wb, ready wb → decrypt_from_identity b (public_key a) c wb = (Ret m, wb).
Proof.
  intros Hw Hm Hlen Ha Hb.
  destruct (identity_curve_pair _ _ Ha) as (pka & ska & Hap & Has & Hac).
  destruct (identity_curve_pair _ _ Hb) as (pkb & skb & Hbp & Hbs & Hbc).
  eexists _, _. split; [by apply (encrypt_to_identity_drawn a (public_key b) m w ska pkb)|].
  split; [rewrite blen_app, array_blen, Hlen; unfold MACBYTES; lia|].
  split; [by apply ready_box_gen_nonce|]. intros wb Hwb.
  rewrite (decrypt_from_identity_nonce b (public_key a) _ _ pka skb) by done.
  by rewrite (box_open_seal pka ska pkb skb m _ Hac Hbc).
Qed.

(** The identity-authenticated box: what an identity encrypts to another, the
    other decrypts when it names the true sender, and the output is the nonce and the
    box of the two converted keys. *)
Theorem identity_box_roundtrip a b m w wb :
  ready w → ready wb → blen m + 64 ≤ isize_max →
  (∀ m n pk sk, blen (box_seal m n pk sk) = blen m + MACBYTES) →
  sign_pair (public_key a) (secret_key a) → sign_pair (public_key b) (secret_key b) →
  ∃ c w', encrypt_to_identity a (public_key b) m w = (Ret c, w') ∧ blen c = blen m + 40 ∧
          decrypt_from_identity b (public_key a) c wb = (Ret m, wb).
Proof.
  intros Hw Hwb Hm Hlen Ha Hb.
  destruct (identity_box_run a b m w Hw Hm Hlen Ha Hb) as (c & w' & He & Hl & _ & Hd).
  exists c, w'. split_and!; [done..|by apply Hd].
Qed.

(** C34: only the named sender's box is accepted. If [crypto_box] opens nothing but
    what the two keys sealed, then a payload that [decrypt_from_identity] accepts as
    coming from identity [s] is a nonce and the box, under that nonce and the
    recipient's secret key, of the returned plaintext; it leaves libsodium's state
    alone and never panics. *)
Theorem identity_box_authentic r s pk sk c w m :
  ready w → Sodium.ed25519_pk_to_curve25519 s = (0, pk) →
  Sodium.ed25519_sk_to_curve25519 (secret_key r) = (0, sk) →
  (∀ c n m, box_open c n pk sk = Some m → c = box_seal m n pk sk) →
  decrypt_from_identity r s c w = (Ret m, w) ↔
    ∃ n, c = array_list n ++ box_seal m n pk sk ∧ box_open (box_seal m n pk sk) n pk sk = Some m.
Proof.
  intros Hw Hpk Hsk Hinv. split.
  - destruct (Z.lt_ge_cases (blen c) 24) as [Hc|Hc].
    { unfold decrypt_from_identity. mstep (init_sodium_ready w Hw).
      by rewrite (proj2 (Z.ltb_lt _ _)). }
    destruct (array_of_list_Some 24 (take 24 c)) as (n & _ & Hn).
    { unfold blen in Hc. rewrite length_take. lia. }
    assert (c = array_list n ++ drop 24 c) as Heq by (rewrite Hn; by rewrite take_drop).
    rewrite Heq at 1. rewrite (decrypt_from_identity_nonce r s n _ pk sk w) by done.
    destruct (box_open (drop 24 c) n pk sk) as [x|] eqn:Ho; [|done]. intros [= ->].
    exists n. pose proof (Hinv _ _ _ Ho) as Hd. rewrite <-Hd. done.
  - intros (n & -> & Ho). rewrite (decrypt_from_identity_nonce r s n _ pk sk w) by done. by rewrite Ho.
Qed.
End sealed.

(** ** Witnesses *)
Definition envelope_tuple (e : SealedSenderEnvelope) := (encrypted_sender e, encrypted_message e).
#[export] Instance SealedSenderEnvelope_eq_decision : EqDecision SealedSenderEnvelope.
Proof. solve_decision. Defined.
#[export] Program Instance SealedSenderEnvelope_countable : Countable SealedSenderEnvelope :=
  inj_countable' envelope_tuple (λ '(a, b), mkSealedSenderEnvelope a b) _.
Next Obligation. by intros []. Qed.

Lemma seal_unseal_roundtrip_witness :
  ∃ b w', @seal toy_sodium (countable_serde SealedSenderEnvelope) (bstr "ab12") (bstr "hi")
            (array_repeat 32 Byte.x05) 9 = (Ret b, w') ∧
    @unseal toy_sodium (countable_serde SealedSenderEnvelope) id b (array_repeat 32 Byte.x05)
      (array_repeat 32 Byte.x05) = Ret (bstr "ab12", bstr "hi").
Proof.
  exact (@seal_unseal_roundtrip toy_sodium (countable_serde SealedSenderEnvelope) id _ toy_key_laws
           (countable_serde_laws _) (bstr "ab12") (bstr "hi") (array_repeat 32 Byte.x05)
           (array_repeat 32 Byte.x05) 9 eq_refl eq_refl eq_refl).
Defined.
Lemma identity_box_roundtrip_witness :
  ∃ c w', @encrypt_to_identity debug_profile toy_sodium (wit_identity Byte.x01)
            (public_key (wit_identity Byte.x02)) (bstr "sdp") 9 = (Ret c, w') ∧
    blen c = blen (bstr "sdp") + 40 ∧
    @decrypt_from_identity toy_sodium (wit_identity Byte.x02) (public_key (wit_identity Byte.x01)) c 4
    = (Ret (bstr "sdp"), 4).
Proof.
  assert (blen (bstr "sdp") + 64 ≤ isize_max) as H by done.
  exact (@identity_box_roundtrip debug_profile toy_sodium _ toy_key_laws (wit_identity Byte.x01)
           (wit_identity Byte.x02) (bstr "sdp") 9 4 eq_refl eq_refl H
           (λ m n pk sk, toy_seal_length m None n (toy_sum pk sk)) eq_refl eq_refl).
Defined.
Lemma identity_box_authentic_witness :
  @decrypt_from_identity toy_sodium (wit_identity Byte.x02) (public_key (wit_identity Byte.x01))
    (bstr "forged") 4 = (Ret (bstr "x"), 4) ↔
  ∃ n, bstr "forged" = array_list n ++ @box_seal toy_sodium (bstr "x") n
         (public_key (wit_identity Byte.x01)) (toy_sign_pk (secret_key (wit_identity Byte.x02))) ∧
       @box_open toy_sodium (@box_seal toy_sodium (bstr "x") n
         (public_key (wit_identity Byte.x01)) (toy_sign_pk (secret_key (wit_identity Byte.x02)))) n
         (public_key (wit_identity Byte.x01)) (toy_sign_pk (secret_key (wit_identity Byte.x02)))
       = Some (bstr "x").
Proof.
  exact (@identity_box_authentic toy_sodium _ (wit_identity Byte.x02)
    (public_key (wit_identity Byte.x01)) (public_key (wit_identity Byte.x01))
    (toy_sign_pk (secret_key (wit_identity Byte.x02))) (bstr "forged") 4 (bstr "x") eq_refl eq_refl
    eq_refl (λ c n m, toy_open_inv c m None n _)).
Defined.
