(* ===== verification/KeyTests.v ===== *)
(** * The tests of identity.rs, prekeys.rs, x3dh.rs, sealed_sender.rs and safety_number.rs

    Each test is the program that the source has. The clock is an argument. The
    tests left out expect that something is refused, or that two values differ,
    because of the strength of the cryptography or because generated keys differ. *)

From S2P Require Import Prelude RustStr Errors Sodium Instances Harness Identity X3dh Prekeys.
From S2P Require Import SafetyNumber SealedSender.
Local Open Scope rust_scope.

Section tests.
Context {BP : BuildProfile} {SO : Sodium} {HA : Hashes} {HX : Hex}.
Context {SJ : SerdeJson SealedSenderEnvelope}.
Variable utf8_error_string : bytes → bytes.
Variable clock : option Z.

(** ** identity.rs *)
Definition test_generate_and_sign_verify : M rng CryptoError unit :=
  identity ← unwrap Identity.generate;
  let message := bstr "hello, vaultex!" in
  let signature := sign identity message in
  assert_that (verify (public_key identity) message signature).

Definition test_fingerprint_format : M rng CryptoError unit :=
  identity ← unwrap Identity.generate;
  fp ← lift (public_key_fingerprint identity);
  let parts := split_on middle_dot fp in
  assert_that (bool_decide (length parts = 4%nat));;
  assert_that (forallb (λ part, bool_decide (length part = 4%nat)) parts);;
  assert_that (forallb (λ part, forallb is_ascii_hexdigit part) parts).

Definition test_from_bytes_roundtrip : M rng CryptoError unit :=
  original ← unwrap Identity.generate;
  let pk_bytes := public_key original in
  let sk_bytes := inner (secret_key_wrapper original) in
  restored ← unwrap (lift (Identity.from_bytes (array_list pk_bytes) (array_list sk_bytes)));
  assert_that (bool_decide (public_key original = public_key restored));;
  let msg := bstr "roundtrip test" in
  let sig := sign restored msg in
  assert_that (verify (public_key restored) msg sig).

Definition test_from_bytes_invalid_length : M rng CryptoError unit :=
  result ← attempt (lift (Identity.from_bytes (replicate 16 Byte.x00) (replicate 64 Byte.x00)));
  assert_that (is_err result).

(** ** prekeys.rs *)
Definition test_signed_prekey_generation_and_verify : M rng CryptoError unit :=
  identity ← unwrap Identity.generate;
  spk ← unwrap (SignedPreKey.generate identity 1);
  assert_that (SignedPreKey.verify spk (public_key identity));;
  assert_that (SignedPreKey.prekey_id spk =? 1).

Definition test_one_time_prekey_generation : M rng CryptoError unit :=
  otpk ← unwrap (OneTimePreKey.generate 42);
  assert_that (OneTimePreKey.prekey_id otpk =? 42);;
  assert_that (blen (OneTimePreKey.public_key_hex otpk) =? 64).

Fixpoint ids_from (i : Z) (ks : list OneTimePreKey.t) : M rng CryptoError unit :=
  match ks with
  | [] => mret tt
  | pk :: ks =>
      id ← lift (100 +u32 i);
      assert_that (OneTimePreKey.prekey_id pk =? id);;
      ids_from (i + 1) ks
  end.
Definition test_batch_generation : M rng CryptoError unit :=
  prekeys ← unwrap (generate_one_time_prekeys 10 100);
  assert_that (blen prekeys =? 10);;
  ids_from 0 prekeys.

Definition test_needs_rotation_fresh_key : M rng CryptoError unit :=
  now ← lift (current_timestamp clock);
  b ← lift (needs_rotation clock now SIGNED_PREKEY_ROTATION_INTERVAL);
  assert_that (negb b).
Definition test_needs_rotation_expired_key : M rng CryptoError unit :=
  now ← lift (current_timestamp clock);
  eight_days_ago ← lift (sub_w 64 now (8 * 24 * 60 * 60));
  b ← lift (needs_rotation clock eight_days_ago SIGNED_PREKEY_ROTATION_INTERVAL);
  assert_that b.
Definition test_needs_rotation_exactly_at_boundary : M rng CryptoError unit :=
  now ← lift (current_timestamp clock);
  at_boundary ← lift (sub_w 64 now SIGNED_PREKEY_ROTATION_INTERVAL);
  b ← lift (needs_rotation clock at_boundary SIGNED_PREKEY_ROTATION_INTERVAL);
  assert_that b.

Definition test_replenishment_batch_size : M rng CryptoError unit :=
  prekeys ← unwrap (generate_one_time_prekeys ONE_TIME_PREKEY_BATCH_SIZE 200);
  assert_that (blen prekeys =? ONE_TIME_PREKEY_BATCH_SIZE).
Definition test_constants_are_sensible : M rng CryptoError unit :=
  assert_that (SIGNED_PREKEY_ROTATION_INTERVAL =? 604800);;
  assert_that (SIGNED_PREKEY_GRACE_PERIOD =? 86400);;
  assert_that (MIN_ONE_TIME_PREKEYS <? ONE_TIME_PREKEY_BATCH_SIZE).

(** ** x3dh.rs *)
Definition test_x3dh_without_one_time_prekey : M rng CryptoError unit :=
  alice ← unwrap Identity.generate;
  bob ← unwrap Identity.generate;
  '(spk_pk, spk_sk) ← draw box_gen_keypair;
  let spk_sig := sign bob (array_list spk_pk) in
  let bundle := mkRecipientPreKeyBundle (public_key bob) spk_pk spk_sig None in
  init_result ← unwrap (initiate_x3dh alice bundle);
  accept_result ← unwrap (accept_x3dh bob spk_sk None (public_key alice)
                            (ephemeral_public_key init_result));
  assert_that (bool_decide (shared_secret init_result = accept_result));;
  assert_that (bool_decide (used_one_time_prekey_id init_result = None)).

Definition test_x3dh_with_one_time_prekey : M rng CryptoError unit :=
  alice ← unwrap Identity.generate;
  bob ← unwrap Identity.generate;
  '(spk_pk, spk_sk) ← draw box_gen_keypair;
  let spk_sig := sign bob (array_list spk_pk) in
  '(otpk_pk, otpk_sk) ← draw box_gen_keypair;
  let bundle := mkRecipientPreKeyBundle (public_key bob) spk_pk spk_sig (Some (42, otpk_pk)) in
  init_result ← unwrap (initiate_x3dh alice bundle);
  accept_result ← unwrap (accept_x3dh bob spk_sk (Some otpk_sk) (public_key alice)
                            (ephemeral_public_key init_result));
  assert_that (bool_decide (shared_secret init_result = accept_result));;
  assert_that (bool_decide (used_one_time_prekey_id init_result = Some 42)).

(** ** sealed_sender.rs *)
Definition test_encrypt_decrypt_to_identity_roundtrip : M rng CryptoError unit :=
  unwrap init_sodium;;
  sender ← unwrap Identity.generate;
  recipient ← unwrap Identity.generate;
  let plaintext := bstr "v=0" ++ [Byte.x0d; Byte.x0a] ++ bstr "m=audio 9 UDP/TLS/RTP/SAVPF 111"
                   ++ [Byte.x0d; Byte.x0a] in
  sealed ← unwrap (encrypt_to_identity sender (public_key recipient) plaintext);
  assert_that (negb (bool_decide (sealed = plaintext)));;
  opened ← unwrap (decrypt_from_identity recipient (public_key sender) sealed);
  assert_that (bool_decide (opened = plaintext)).

Definition test_seal_unseal_roundtrip : M rng CryptoError unit :=
  unwrap init_sodium;;
  '(pk, sk) ← draw box_gen_keypair;
  let sender_hex := bstr "abcdef1234567890abcdef1234567890abcdef1234567890abcdef1234567890" in
  let message := bstr "hello sealed sender" in
  envelope ← unwrap (seal sender_hex message pk);
  '(recovered_sender, recovered_msg) ← unwrap (lift (unseal utf8_error_string envelope pk sk));
  assert_that (bool_decide (recovered_sender = sender_hex));;
  assert_that (bool_decide (recovered_msg = message)).

(** ** safety_number.rs *)
Definition test_safety_number_deterministic : M rng CryptoError unit :=
  alice ← unwrap Identity.generate;
  bob ← unwrap Identity.generate;
  sn1 ← lift (generate_safety_number (array_list (public_key alice)) (array_list (public_key bob)));
  sn2 ← lift (generate_safety_number (array_list (public_key alice)) (array_list (public_key bob)));
  assert_that (bool_decide (sn1 = sn2)).
Definition test_safety_number_symmetric : M rng CryptoError unit :=
  alice ← unwrap Identity.generate;
  bob ← unwrap Identity.generate;
  from_alice ← lift (generate_safety_number (array_list (public_key alice)) (array_list (public_key bob)));
  from_bob ← lift (generate_safety_number (array_list (public_key bob)) (array_list (public_key alice)));
  assert_that (bool_decide (from_alice = from_bob)).
Definition test_safety_number_format : M rng CryptoError unit :=
  alice ← unwrap Identity.generate;
  bob ← unwrap Identity.generate;
  sn ← lift (generate_safety_number (array_list (public_key alice)) (array_list (public_key bob)));
  let groups := split_on (bstr " ") sn in
  assert_that (bool_decide (length groups = 12%nat));;
  assert_that (forallb (λ group, bool_decide (length group = 5%nat) && forallb is_ascii_digit group) groups).
Definition test_safety_number_from_hex : M rng CryptoError unit :=
  alice ← unwrap Identity.generate;
  bob ← unwrap Identity.generate;
  let alice_hex := hex_encode (array_list (public_key alice)) in
  let bob_hex := hex_encode (array_list (public_key bob)) in
  from_raw ← lift (generate_safety_number (array_list (public_key alice)) (array_list (public_key bob)));
  from_hex ← unwrap (lift (generate_safety_number_from_hex alice_hex bob_hex));
  assert_that (bool_decide (from_raw = from_hex)).
Definition test_safety_number_from_hex_invalid : M rng CryptoError unit :=
  result ← attempt (lift (generate_safety_number_from_hex (bstr "not-valid-hex") (bstr "also-not-valid")));
  assert_that (is_err result).
Definition test_safety_number_from_hex_wrong_length : M rng CryptoError unit :=
  result ← attempt (lift (generate_safety_number_from_hex (bstr "aabbccdd") (bstr "11223344")));
  assert_that (is_err result).
Definition test_safety_number_known_vector : M rng CryptoError unit :=
  let key_a := replicate 32 Byte.x00 in
  let key_b := replicate 32 Byte.xff in
  sn ← lift (generate_safety_number key_a key_b);
  let groups := split_on (bstr " ") sn in
  assert_that (bool_decide (length groups = 12%nat));;
  sn2 ← lift (generate_safety_number key_a key_b);
  assert_that (bool_decide (sn = sn2)).

Definition key_tests : list (M rng CryptoError unit) :=
  [test_generate_and_sign_verify; test_fingerprint_format; test_from_bytes_roundtrip;
   test_from_bytes_invalid_length; test_signed_prekey_generation_and_verify;
   test_one_time_prekey_generation; test_batch_generation; test_needs_rotation_fresh_key;
   test_needs_rotation_expired_key; test_needs_rotation_exactly_at_boundary;
   test_replenishment_batch_size; test_constants_are_sensible; test_x3dh_without_one_time_prekey;
   test_x3dh_with_one_time_prekey; test_encrypt_decrypt_to_identity_roundtrip;
   test_seal_unseal_roundtrip; test_safety_number_deterministic; test_safety_number_symmetric;
   test_safety_number_format; test_safety_number_from_hex; test_safety_number_from_hex_invalid;
   test_safety_number_from_hex_wrong_length; test_safety_number_known_vector].
End tests.

(** ** They pass *)
Section passing.
Context {BP : BuildProfile} {SO : Sodium} {HA : Hashes} {HX : Hex}.
Context {SJ : SerdeJson SealedSenderEnvelope}.
Context {L : SodiumLaws SO} {LH : HashLaws HA} {LK : KeyLaws SO} {LX : HexLaws HX}.
Context {LS : SerdeLaws SealedSenderEnvelope SJ}.

Lemma identity_step (k : IdentityKeyPair → M rng CryptoError unit) w :
  ready w → sign_keys_nonzero →
  (∀ id w', ready w' → sign_pair (public_key id) (secret_key id) → passes (k id) w') →
  passes (unwrap Identity.generate ≫= k) w.
Proof.
  intros Hw Hs Hk. destruct (identity_generate_pair w Hw Hs) as (id & w' & Hg & Hw' & Hp).
  tstep Hg. by apply Hk.
Qed.
Lemma keypair_step (k : key32 * key32 → M rng CryptoError unit) w :
  ready w → (∀ pk sk w', ready w' → box_pair pk sk → passes (k (pk, sk)) w') →
  passes (draw box_gen_keypair ≫= k) w.
Proof.
  intros Hw Hk. pose proof (box_gen_pair w) as Hp. pose proof (ready_box_gen_keypair w Hw) as Hw'.
  destruct (box_gen_keypair w) as [[pk sk] w'] eqn:Hg. simpl in *.
  eapply passes_bind; [unfold draw; by rewrite Hg|]. by apply Hk.
Qed.

(** The printed forms come apart at their separators. *)
Lemma hexdigit_02X b : forallb is_ascii_hexdigit (format_02X b) = true ∧ Byte.xc2 ∉ format_02X b.
Proof.
  apply (byte_ind (λ b, forallb is_ascii_hexdigit (format_02X b) = true ∧ Byte.xc2 ∉ format_02X b)).
  assert (forallb (λ n, let s := format_02X (byte_of_Z (Z.of_nat n)) in
    forallb is_ascii_hexdigit s && negb (bool_decide (Byte.xc2 ∈ s))) (seq 0 256) = true) as Hall by (by vm_compute).
  intros n Hn. rewrite forallb_forall in Hall. specialize (Hall n ltac:(apply in_seq; lia)).
  apply andb_prop in Hall as [-> H]. split; [done|]. by apply negb_true_iff, bool_decide_eq_false in H.
Qed.
Lemma fingerprint_parts id :
  ∃ fp parts, public_key_fingerprint id = Ret fp ∧ split_on middle_dot fp = parts ∧
    length parts = 4%nat ∧ Forall (λ p, length p = 4%nat ∧ forallb is_ascii_hexdigit p = true) parts.
Proof.
  eexists _, _. split; [apply fingerprint_run|]. split; [reflexivity|].
  destruct (length_8 (take 8 (array_list (public_key id))))
    as (b0 & b1 & b2 & b3 & b4 & b5 & b6 & b7 & ->); [by rewrite length_take, array_length|].
  set (word a b := format_02X a ++ format_02X b).
  assert (∀ a b, Byte.xc2 ∉ word a b ∧ length (word a b) = 4%nat ∧ forallb is_ascii_hexdigit (word a b) = true)
    as Hword.
  { intros a b. destruct (hexdigit_02X a) as [Ha Ha'], (hexdigit_02X b) as [Hb Hb']. unfold word.
    split_and!; [by rewrite elem_of_app; tauto|done|by rewrite forallb_app, Ha, Hb]. }
  change (fingerprint_of [b0; b1; b2; b3; b4; b5; b6; b7])
    with (join middle_dot [word b0 b1; word b2 b3; word b4 b5; word b6 b7]).
  unfold middle_dot. rewrite split_join; [|done|repeat constructor; apply Hword].
  split; [done|]. repeat constructor; apply Hword.
Qed.

Lemma digits_pad0 k n : 0 ≤ n → forallb is_ascii_digit (format_pad0 k n) = true.
Proof.
  intros Hn. unfold format_pad0. rewrite forallb_app. destruct (to_string_uint_spec n Hn) as (_ & -> & _).
  rewrite andb_true_r. by induction (k - length (to_string_uint n))%nat.
Qed.
Lemma group_texts_digits l : Forall (λ s, forallb is_ascii_digit s = true) (group_texts l).
Proof.
  induction l as [l IH] using (induction_ltof1 _ (@length byte)).
  destruct l as [|b0 [|b1 l]]; simpl; constructor.
  - apply digits_pad0, u16_range.
  - apply IH. unfold ltof. simpl. lia.
Qed.
Lemma safety_parts a b :
  ∃ s, generate_safety_number a b = Ret s ∧ length (split_on (bstr " ") s) = 12%nat ∧
    Forall (λ g, length g = 5%nat ∧ forallb is_ascii_digit g = true) (split_on (bstr " ") s).
Proof.
  eexists. split; [apply safety_run|].
  set (l := take 24 (array_list (sha256 (sorted_concat a b)))).
  assert (length l = (2 * 12)%nat) as Hl by (unfold l; by rewrite length_take, array_length).
  pose proof (length_group_texts l 12 Hl) as Hg. pose proof (group_texts_digits l) as Hd.
  change (bstr " ") with [Byte.x20]. rewrite split_join.
  - split; [done|]. apply Forall_and. split; [apply group_texts_5|done].
  - intros He. by rewrite He in Hg.
  - eapply Forall_impl; [exact Hd|]. intros s Hs Hin. rewrite forallb_forall in Hs.
    apply list_elem_of_In, Hs in Hin. by vm_compute in Hin.
Qed.

Lemma ids_from_passes ks i w :
  0 ≤ i → i + blen ks ≤ 1000 → OneTimePreKey.prekey_id <$> ks = seqZ (100 + i) (blen ks) →
  passes (ids_from i ks) w.
Proof.
  revert i. induction ks as [|k ks IH]; intros i Hi Hl Hids; [by exists w|].
  rewrite blen_cons in *. pose proof (blen_nonneg ks).
  rewrite seqZ_cons in Hids by lia. cbn [fmap list_fmap] in Hids. injection Hids as Hid Hids.
  cbn [ids_from]. apply (passes_lift _ _ _ (100 + i)); [apply add_w_ok; unfold in_width; lia|].
  tassert; [by apply Z.eqb_eq|]. apply IH; [lia|lia|].
  rewrite Hids. f_equal; lia.
Qed.
Lemma batch_step count start (k : list OneTimePreKey.t → M rng CryptoError unit) w :
  ready w → keys_nonzero → 0 ≤ start → 0 ≤ count → start + count ≤ 2 ^ 32 →
  (∀ ks w', ready w' → blen ks = count → OneTimePreKey.prekey_id <$> ks = seqZ start count → passes (k ks) w') →
  passes (unwrap (generate_one_time_prekeys count start) ≫= k) w.
Proof.
  intros Hw Hnz Hs Hc Hmax Hk.
  destruct (otpks_run count start w Hw Hnz Hs Hc Hmax) as (ks & w' & Hg & Hw' & Hids & _). tstep Hg.
  apply Hk; [done| |done]. apply (f_equal length) in Hids.
  rewrite length_fmap, length_seqZ in Hids. unfold blen. lia.
Qed.

(** The hypotheses on the environment of the tests. *)
Definition clock_runs (clock : option Z) : Prop := ∃ now, clock = Some now ∧ 691200 ≤ now < 2 ^ 64.
Definition box_overhead : Prop := ∀ m n pk sk, blen (box_seal m n pk sk) = blen m + MACBYTES.

Lemma rotation_passes clock w :
  clock_runs clock →
  passes (test_needs_rotation_fresh_key clock) w ∧ passes (test_needs_rotation_expired_key clock) w ∧
  passes (test_needs_rotation_exactly_at_boundary clock) w.
Proof.
  intros (now & -> & Hnow). split_and!; (eapply passes_lift; [reflexivity|]).
  - eapply passes_lift; [reflexivity|]. unfold saturating_sub. rewrite Z.ltb_irrefl, Z.sub_diag. by tassert.
  - apply (passes_lift _ _ _ (now - 691200)); [apply sub_w_ok; unfold in_width; lia|].
    eapply passes_lift; [reflexivity|]. tassert. apply Z.leb_le. unfold saturating_sub.
    rewrite (proj2 (Z.ltb_ge _ _)) by lia. unfold SIGNED_PREKEY_ROTATION_INTERVAL. lia.
  - apply (passes_lift _ _ _ (now - SIGNED_PREKEY_ROTATION_INTERVAL));
      [apply sub_w_ok; unfold in_width, SIGNED_PREKEY_ROTATION_INTERVAL; lia|].
    eapply passes_lift; [reflexivity|]. tassert. apply Z.leb_le. unfold saturating_sub, SIGNED_PREKEY_ROTATION_INTERVAL.
    rewrite (proj2 (Z.ltb_ge _ _)) by lia. lia.
Qed.

(** The handshake of the tests, with or without a one-time prekey. *)
Lemma handshake_step alice bob spk_pk spk_sk otpk (k : X3DHInitResult → key32 → M rng CryptoError unit) w :
  ready w →
  sign_pair (public_key alice) (secret_key alice) → sign_pair (public_key bob) (secret_key bob) →
  box_pair spk_pk spk_sk → (∀ i pk sk, otpk = Some (i, (pk, sk)) → box_pair pk sk) →
  (∀ r w', used_one_time_prekey_id r = fst <$> otpk → passes (k r (shared_secret r)) w') →
  passes (init_result ← unwrap (initiate_x3dh alice (bundle_of bob spk_pk otpk));
          accept_result ← unwrap (accept_x3dh bob spk_sk ((λ o, o.2.2) <$> otpk) (public_key alice)
                                    (ephemeral_public_key init_result));
          k init_result accept_result) w.
Proof.
  intros Hw Ha Hb Hspk Hotpk Hk.
  destruct (x3dh_agree alice bob spk_pk spk_sk otpk w Hw Ha Hb Hspk Hotpk) as (r & w' & Hi & Hw' & Hu & Hacc).
  tstep Hi. tstep (Hacc w' Hw'). by apply Hk.
Qed.

Lemma hex_decode_odd s : Nat.odd (length s) = true → hex_decode s = None.
Proof.
  intros Hodd. destruct (hex_decode s) as [b|] eqn:Hd; [|done].
  rewrite (hex_decode_length _ _ Hd) in Hodd. by rewrite Nat.odd_mul in Hodd.
Qed.
Lemma hex_decode_not_32 s b : hex_decode s = Some b → length s ≠ 64%nat → (blen b =? 32) = false.
Proof. intros Hd%hex_decode_length Hl. apply Z.eqb_neq. unfold blen. lia. Qed.

Lemma safety_step a b (k : bytes → M rng CryptoError unit) w :
  (∀ s, generate_safety_number a b = Ret s → passes (k s) w) →
  passes (lift (generate_safety_number a b) ≫= k) w.
Proof. intros Hk. eapply passes_lift; [apply safety_run|]. apply Hk, safety_run. Qed.
Lemma safety_format_passes a b w :
  passes (W:=rng) (E:=CryptoError)
         (sn ← lift (generate_safety_number a b);
          let groups := split_on (bstr " ") sn in
          assert_that (bool_decide (length groups = 12%nat));;
          assert_that (forallb (λ group, bool_decide (length group = 5%nat) && forallb is_ascii_digit group)
                         groups)) w.
Proof.
  destruct (safety_parts a b) as (s & Hs & Hn & Hall). tstep Hs. tassert; [by apply bool_decide_eq_true|].
  tassert. rewrite forallb_forall. rewrite Forall_forall in Hall. intros g Hg%list_elem_of_In.
  destruct (Hall g Hg) as [H5 Hd]. by rewrite bool_decide_true.
Qed.

(** The tests of identity.rs, prekeys.rs, x3dh.rs, sealed_sender.rs and
    safety_number.rs that expect success or a malformed input to be refused pass for
    every generator whose keys do not trip the debug assertions and every clock that
    runs at least eight days after the epoch: signatures and prekeys verify, batches
    are numbered, rotation is due at the right times, both sides of X3DH agree, sealed
    messages open, and fingerprints and safety numbers have their format. *)
Theorem key_tests_pass utf8_error_string clock w :
  ready w → keys_nonzero → sign_keys_nonzero → clock_runs clock → box_overhead →
  Forall (λ t, passes t w) (key_tests utf8_error_string clock).
Proof.
  intros Hw Hnz Hsnz Hclock Hbox. destruct (rotation_passes clock w Hclock) as (Hr1 & Hr2 & Hr3).
  each_case.
  - apply identity_step; [done..|]. intros id w1 _ Hp. tassert. by apply verify_sign.
  - apply identity_step; [done..|]. intros id w1 _ _.
    destruct (fingerprint_parts id) as (fp & parts & Hf & <- & Hn & Hall). tstep Hf.
    tassert; [by apply bool_decide_eq_true|]. rewrite Forall_forall in Hall.
    tassert; [|tassert]; rewrite forallb_forall; intros q Hq%list_elem_of_In; destruct (Hall q Hq); [|done].
    by apply bool_decide_eq_true.
  - apply identity_step; [done..|]. intros id w1 _ Hp. destruct id as [pk [sk]].
    eapply passes_unwrap_lift; [apply from_bytes_arrays|]. tassert; [by apply bool_decide_eq_true|].
    tassert. by apply verify_sign.
  - assert (Identity.from_bytes (replicate 16 Byte.x00) (replicate 64 Byte.x00) = Throw (InvalidKeyLength 32 16)) as H
      by (unfold Identity.from_bytes; by rewrite (from_slice_None 32) by done).
    eapply passes_attempt; [reflexivity|by rewrite H|]. rewrite H. by tassert.
  - apply identity_step; [done..|]. intros id w1 Hw1 Hp.
    destruct (spk_generate_run id 1 w1 Hw1 Hnz) as [Hg _]. tstep Hg. tassert; [by apply verify_sign|]. by tassert.
  - destruct (otpk_generate_run 42 w Hw Hnz) as [Hg _]. tstep Hg. tassert; [done|]. tassert.
    apply Z.eqb_eq. unfold OneTimePreKey.public_key_hex. by rewrite hex_encode_blen, array_blen.
  - apply batch_step; [done|done|lia|lia|lia|]. intros ks w1 Hw1 Hl Hids. rewrite Hl. tassert; [done|].
    apply ids_from_passes; [lia|lia|]. by rewrite Hl.
  - exact Hr1.
  - exact Hr2.
  - exact Hr3.
  - apply batch_step; [done|done|lia|done|done|]. intros ks w1 Hw1 Hl _. rewrite Hl. by tassert.
  - do 2 (tassert; [done|]). by tassert.
  - apply identity_step; [done..|]. intros alice w1 Hw1 Ha. apply identity_step; [done..|]. intros bob w2 Hw2 Hb.
    apply keypair_step; [done|]. intros pk sk w3 Hw3 Hp.
    apply (handshake_step alice bob pk sk None); [done..|]. intros r w4 Hu.
    tassert; [by apply bool_decide_eq_true|]. tassert. by apply bool_decide_eq_true.
  - apply identity_step; [done..|]. intros alice w1 Hw1 Ha. apply identity_step; [done..|]. intros bob w2 Hw2 Hb.
    apply keypair_step; [done|]. intros pk sk w3 Hw3 Hp. apply keypair_step; [done|]. intros opk osk w4 Hw4 Ho.
    apply (handshake_step alice bob pk sk (Some (42, (opk, osk)))); [done|done|done|done|by intros ??? [= _ <- <-]|].
    intros r w5 Hu. tassert; [by apply bool_decide_eq_true|]. tassert. by apply bool_decide_eq_true.
  - apply init_step; [done|]. apply identity_step; [done..|]. intros a w1 Hw1 Ha.
    apply identity_step; [done..|]. intros b w2 Hw2 Hb.
    cbv zeta. match goal with |- passes (unwrap (encrypt_to_identity _ _ ?m) ≫= _) _ =>
      destruct (identity_box_run a b m w2 Hw2 ltac:(done) Hbox Ha Hb) as (c & w3 & He & Hl & Hw3 & Hd);
      set (msg := m) in * end.
    tstep He. tassert.
    { apply negb_true_iff, bool_decide_eq_false. intros Heq. rewrite Heq in Hl. lia. }
    tstep (Hd w3 Hw3). tassert. by apply bool_decide_eq_true.
  - apply init_step; [done|]. apply keypair_step; [done|]. intros pk sk w1 Hw1 Hp.
    cbv zeta. match goal with |- passes (unwrap (seal ?h ?m pk) ≫= _) _ =>
      destruct (seal_run utf8_error_string h m pk sk w1 Hw1 Hp ltac:(reflexivity)) as (b & w2 & Hs & Hu & _) end.
    tstep Hs. tstep Hu. tassert; [done|]. by tassert.
  - apply identity_step; [done..|]. intros alice w1 Hw1 _. apply identity_step; [done..|]. intros bob w2 _ _.
    apply safety_step. intros s Hs. tstep Hs. tassert. by apply bool_decide_eq_true.
  - apply identity_step; [done..|]. intros alice w1 Hw1 _. apply identity_step; [done..|]. intros bob w2 _ _.
    apply safety_step. intros s Hs. apply safety_step. intros s' Hs'. tassert. apply bool_decide_eq_true.
    rewrite safety_run, sorted_concat_comm, <-safety_run, Hs' in Hs. by injection Hs.
  - apply identity_step; [done..|]. intros alice w1 Hw1 _. apply identity_step; [done..|]. intros bob w2 _ _.
    apply safety_format_passes.
  - apply identity_step; [done..|]. intros alice w1 Hw1 _. apply identity_step; [done..|]. intros bob w2 _ _.
    apply safety_step. intros s Hs. apply (passes_unwrap_lift _ _ _ s).
    { unfold generate_safety_number_from_hex. rewrite !hex_decode_encode. mred. by rewrite !array_blen. }
    tassert. by apply bool_decide_eq_true.
  - assert (generate_safety_number_from_hex (bstr "not-valid-hex") (bstr "also-not-valid")
            = Throw (InvalidKeyLength 32 0)) as H
      by (unfold generate_safety_number_from_hex; by rewrite (hex_decode_odd (bstr "not-valid-hex")) by done).
    eapply passes_attempt; [reflexivity|by rewrite H|]. rewrite H. by tassert.
  - assert (∃ n, generate_safety_number_from_hex (bstr "aabbccdd") (bstr "11223344")
            = Throw (InvalidKeyLength 32 n)) as [n H].
    { unfold generate_safety_number_from_hex.
      destruct (hex_decode (bstr "aabbccdd")) as [x|] eqn:Hx; mred; [|by eexists].
      destruct (hex_decode (bstr "11223344")) as [y|]; mred; [|by eexists].
      rewrite (hex_decode_not_32 _ _ Hx) by done. by eexists. }
    eapply passes_attempt; [reflexivity|by rewrite H|]. rewrite H. by tassert.
  - destruct (safety_parts (replicate 32 Byte.x00) (replicate 32 Byte.xff)) as (s & Hs & Hn & _).
    tstep Hs. tassert; [by apply bool_decide_eq_true|]. tstep Hs. tassert. by apply bool_decide_eq_true.
Qed.
End passing.

Lemma key_tests_pass_witness :
  Forall (λ t, passes t 9)
    (@key_tests release_profile toy_sodium toy_hashes toy_hex (countable_serde SealedSenderEnvelope) id
       (Some 1700000000)).
Proof.
  assert (clock_runs (Some 1700000000)) as H by (by exists 1700000000).
  assert (@box_overhead toy_sodium) as H' by (intros m n pk sk; apply toy_seal_length).
  exact (@key_tests_pass release_profile toy_sodium toy_hashes toy_hex (countable_serde SealedSenderEnvelope)
           _ _ toy_key_laws _ (countable_serde_laws _) id (Some 1700000000) 9 eq_refl
           toy_keys_nonzero_release toy_sign_keys_nonzero_release H H').
Defined.
