(* ===== verification/DataTests.v ===== *)
(** * The tests of aes_gcm.rs, media.rs, group.rs, security.rs and errors.rs

    Each test is the program that the source has. The clock of [GroupInfo::new] is
    an argument. The tests left out expect a wrong key or a changed ciphertext to be
    refused, or two random values to differ. *)

From S2P Require Import Prelude RustStr Errors Sodium Instances Harness PaddingTests AesGcm Media.
From S2P Require Import Group.
From S2P Require Import Identity Security.
Local Open Scope rust_scope.

Section tests.
Context {BP : BuildProfile} {SO : Sodium} {HX : Hex}.
Context {SJG : SerdeJson GroupInfo.t} {SJM : SerdeJson FileMetadata}.
Variable clock : option Z.

(** ** aes_gcm.rs *)
Definition test_encrypt_decrypt_roundtrip : M rng CryptoError unit :=
  let key := array_repeat 32 Byte.x42 in
  let plaintext := bstr "secret message for vaultex" in
  let ad := bstr "associated data" in
  '(nonce, ciphertext) ← unwrap (AesGcm.encrypt key plaintext (Some ad));
  decrypted ← unwrap (lift (AesGcm.decrypt key nonce ciphertext (Some ad)));
  assert_that (bool_decide (decrypted = plaintext)).
Definition test_encryption_key_wrapper : M rng CryptoError unit :=
  let ek := EncryptionKey.new (array_repeat 32 Byte.x55) in
  let plaintext := bstr "wrapped encryption" in
  '(nonce, ct) ← unwrap (EncryptionKey.encrypt ek plaintext None);
  pt ← unwrap (lift (EncryptionKey.decrypt ek nonce ct None));
  assert_that (bool_decide (pt = plaintext)).
Definition test_empty_plaintext : M rng CryptoError unit :=
  let key := array_repeat 32 Byte.x42 in
  '(nonce, ciphertext) ← unwrap (AesGcm.encrypt key [] None);
  decrypted ← unwrap (lift (AesGcm.decrypt key nonce ciphertext None));
  assert_that (blen decrypted =? 0).

(** ** media.rs *)
Definition file_test (plaintext : bytes) : M rng CryptoError unit :=
  '(ciphertext, key) ← unwrap (encrypt_file plaintext);
  decrypted ← unwrap (lift (decrypt_file ciphertext key));
  assert_that (bool_decide (decrypted = plaintext)).
Definition test_file_roundtrip : M rng CryptoError unit :=
  file_test (bstr "hello, this is a test file for VAULTEX media support").
Definition test_empty_file : M rng CryptoError unit :=
  '(ciphertext, key) ← unwrap (encrypt_file []);
  decrypted ← unwrap (lift (decrypt_file ciphertext key));
  assert_that (blen decrypted =? 0).
Definition test_large_file : M rng CryptoError unit := file_test (vec_of Byte.xab (1024 * 1024)).
Definition test_ciphertext_has_nonce_prepended : M rng CryptoError unit :=
  let plaintext := bstr "test" in
  '(ciphertext, _) ← unwrap (encrypt_file plaintext);
  n1 ← lift (NONCEBYTES +usize blen plaintext);
  n2 ← lift (n1 +usize MACBYTES);
  assert_that (blen ciphertext =? n2).
Definition test_truncated_ciphertext_fails : M rng CryptoError unit :=
  result ← attempt (lift (decrypt_file (replicate 10 Byte.x00) (array_repeat 32 Byte.x00)));
  assert_that (is_err result).
Definition test_file_metadata_serialization : M rng CryptoError unit :=
  let meta := mkFileMetadata (bstr "photo.jpg") (bstr "image/jpeg") 102400 (Some (bstr "base64encodeddata")) in
  json ← lift (unwrapped (to_vec meta));
  restored ← lift (unwrapped (json_from_slice json));
  assert_that (bool_decide (filename restored = bstr "photo.jpg"));;
  assert_that (Media.size restored =? 102400);;
  assert_that (bool_decide (is_Some (thumbnail restored))).
Definition test_file_encryption_key_zeroize : M rng CryptoError unit :=
  let key_bytes := array_repeat 32 Byte.x42 in
  let fek := FileEncryptionKey.new key_bytes in
  assert_that (bool_decide (FileEncryptionKey.as_bytes fek = key_bytes));;
  let dropped := FileEncryptionKey.drop fek in
  mret tt.

(** ** group.rs *)
Definition test_group_id_hex_roundtrip : M rng CryptoError unit :=
  unwrap init_sodium;;
  id ← unwrap GroupId.generate;
  let hex := GroupId.to_hex id in
  assert_that (blen hex =? 64);;
  restored ← unwrap (lift (GroupId.from_hex hex));
  assert_that (bool_decide (GroupId.id id = GroupId.id restored)).
Definition from_hex_fails (s : bytes) : M rng CryptoError unit :=
  result ← attempt (lift (GroupId.from_hex s));
  assert_that (is_err result).
Definition test_group_id_from_hex_invalid_length : M rng CryptoError unit := from_hex_fails (bstr "abcd").
Definition test_group_id_from_hex_invalid_hex : M rng CryptoError unit := from_hex_fails (bstr "zzzz").

(** [s.repeat(32)]. *)
Definition repeat_32 (s : bytes) : bytes := concat (replicate 32 s).
Definition creator : bytes := repeat_32 (bstr "aa").
Definition test_group_info_new_includes_creator : M rng CryptoError unit :=
  unwrap init_sodium;;
  let member := repeat_32 (bstr "bb") in
  group ← unwrap (GroupInfo.new clock (bstr "Test Group") creator [member]);
  assert_that (bool_decide (GroupInfo.name group = bstr "Test Group"));;
  assert_that (GroupInfo.contains (GroupInfo.members group) creator);;
  assert_that (GroupInfo.contains (GroupInfo.members group) member);;
  assert_that (bool_decide (GroupInfo.created_by group = creator));;
  assert_that (0 <? GroupInfo.created_at group).
Definition test_group_info_creator_already_in_members : M rng CryptoError unit :=
  unwrap init_sodium;;
  group ← unwrap (GroupInfo.new clock (bstr "Solo Group") creator [creator]);
  assert_that (bool_decide
    (length (List.filter (λ m, bool_decide (m = creator)) (GroupInfo.members group)) = 1%nat)).
Definition test_add_member : M rng CryptoError unit :=
  unwrap init_sodium;;
  group ← unwrap (GroupInfo.new clock (bstr "Group") creator []);
  let new_member := repeat_32 (bstr "bb") in
  let '(added, group) := GroupInfo.add_member group new_member in
  assert_that added;;
  assert_that (GroupInfo.is_member group new_member);;
  let '(added, group) := GroupInfo.add_member group new_member in
  assert_that (negb added).
Definition test_remove_member : M rng CryptoError unit :=
  unwrap init_sodium;;
  let member := repeat_32 (bstr "bb") in
  group ← unwrap (GroupInfo.new clock (bstr "Group") creator [member]);
  let '(removed, group) := GroupInfo.remove_member group member in
  assert_that removed;;
  assert_that (negb (GroupInfo.is_member group member));;
  let '(removed, group) := GroupInfo.remove_member group member in
  assert_that (negb removed).
Definition test_other_members : M rng CryptoError unit :=
  unwrap init_sodium;;
  let m1 := repeat_32 (bstr "bb") in
  let m2 := repeat_32 (bstr "cc") in
  group ← unwrap (GroupInfo.new clock (bstr "Group") creator [m1; m2]);
  let others := GroupInfo.other_members group creator in
  assert_that (bool_decide (length others = 2%nat));;
  assert_that (GroupInfo.contains others m1);;
  assert_that (GroupInfo.contains others m2);;
  assert_that (negb (GroupInfo.contains others creator)).
Definition test_non_member_cannot_be_verified : M rng CryptoError unit :=
  unwrap init_sodium;;
  group ← unwrap (GroupInfo.new clock (bstr "Group") creator []);
  let outsider := repeat_32 (bstr "ff") in
  assert_that (negb (GroupInfo.is_member group outsider)).
Definition test_group_info_serialization : M rng CryptoError unit :=
  unwrap init_sodium;;
  group ← unwrap (GroupInfo.new clock (bstr "Serialization Test") creator []);
  json ← lift (unwrapped (to_vec group));
  restored ← lift (unwrapped (json_from_slice json));
  assert_that (bool_decide (GroupInfo.name restored = bstr "Serialization Test"));;
  assert_that (bool_decide (GroupId.id (GroupInfo.group_id restored) = GroupId.id (GroupInfo.group_id group))).

(** ** security.rs *)
Definition test_constant_time_eq_equal_slices : M rng CryptoError unit :=
  assert_that (constant_time_eq (bstr "hello vaultex") (bstr "hello vaultex")).
Definition test_constant_time_eq_different_slices : M rng CryptoError unit :=
  assert_that (negb (constant_time_eq (bstr "hello vaultex") (bstr "hello VAULTEX"))).
Definition test_constant_time_eq_different_lengths : M rng CryptoError unit :=
  assert_that (negb (constant_time_eq (bstr "short") (bstr "longer string"))).
Definition test_constant_time_eq_empty_slices : M rng CryptoError unit :=
  assert_that (constant_time_eq [] []).
Definition test_constant_time_eq_single_bit_difference : M rng CryptoError unit :=
  let a := replicate 32 Byte.x00 in
  b ← lift (index_set a 31 Byte.x01);
  assert_that (negb (constant_time_eq a b)).
Definition test_secure_random_bytes_correct_length : M rng CryptoError unit :=
  unwrap init_sodium;;
  bytes ← secure_random_bytes 32;
  assert_that (blen bytes =? 32).
Definition test_secure_random_bytes_non_zero : M rng CryptoError unit :=
  unwrap init_sodium;;
  bytes ← secure_random_bytes 32;
  assert_that (existsb (λ b, negb (bool_decide (b = Byte.x00))) bytes).
Definition test_secure_random_bytes_empty : M rng CryptoError unit :=
  unwrap init_sodium;;
  bytes ← secure_random_bytes 0;
  assert_that (blen bytes =? 0).
(** [assert!(wipe_memory(&mut data); data.iter().all(|&b| b == 0))]. *)
Definition wipe_test (data : bytes) : M rng CryptoError unit :=
  let data := wipe_memory data in
  assert_that (forallb (λ b, bool_decide (b = Byte.x00)) data).
Definition test_wipe_memory_zeroes_data : M rng CryptoError unit := wipe_test (replicate 64 Byte.xff).
Definition test_wipe_memory_empty_slice : M rng CryptoError unit :=
  let data := wipe_memory [] in mret tt.
Definition test_wipe_memory_single_byte : M rng CryptoError unit :=
  let data := wipe_memory [Byte.xab] in
  b ← lift (index data 0);
  assert_that (bool_decide (b = Byte.x00)).
Definition test_wipe_memory_vec : M rng CryptoError unit := wipe_test (replicate 256 Byte.xcd).

(** ** errors.rs *)
Definition test_error_display : M rng CryptoError unit :=
  let err := InvalidKeyLength 32 16 in
  assert_that (bool_decide (display err = bstr "invalid key length: expected 32, got 16")).
Definition test_missing_prekey_error : M rng CryptoError unit :=
  let err := MissingOneTimePreKey 42 in
  assert_that (bool_decide (display err = bstr "missing one-time prekey with id 42")).

Definition data_tests : list (M rng CryptoError unit) :=
  [test_encrypt_decrypt_roundtrip; test_encryption_key_wrapper; test_empty_plaintext;
   test_file_roundtrip; test_empty_file; test_large_file; test_ciphertext_has_nonce_prepended;
   test_truncated_ciphertext_fails; test_file_metadata_serialization; test_file_encryption_key_zeroize;
   test_constant_time_eq_equal_slices; test_constant_time_eq_different_slices;
   test_constant_time_eq_different_lengths; test_constant_time_eq_empty_slices;
   test_constant_time_eq_single_bit_difference; test_secure_random_bytes_correct_length;
   test_secure_random_bytes_non_zero; test_secure_random_bytes_empty; test_wipe_memory_zeroes_data;
   test_wipe_memory_empty_slice; test_wipe_memory_single_byte; test_wipe_memory_vec;
   test_error_display; test_missing_prekey_error].
Definition group_tests : list (M rng CryptoError unit) :=
  [test_group_id_hex_roundtrip; test_group_id_from_hex_invalid_length; test_group_id_from_hex_invalid_hex;
   test_group_info_new_includes_creator; test_group_info_creator_already_in_members; test_add_member;
   test_remove_member; test_other_members; test_non_member_cannot_be_verified;
   test_group_info_serialization].
End tests.

(** ** They pass *)
Section passing.
Context {BP : BuildProfile} {SO : Sodium} {HX : Hex}.
Context {SJG : SerdeJson GroupInfo.t} {SJM : SerdeJson FileMetadata}.
Context {L : SodiumLaws SO} {LA : AeadLaws SO} {LB : SecretboxLaws SO} {LX : HexLaws HX}.
Context {LG : SerdeLaws GroupInfo.t SJG} {LM : SerdeLaws FileMetadata SJM}.

Lemma aead_passes key m ad (k : bytes → M rng CryptoError unit) w :
  ready w → (∀ w', passes (k m) w') →
  passes ('(nonce, c) ← unwrap (AesGcm.encrypt key m ad);
          pt ← unwrap (lift (AesGcm.decrypt key nonce c ad)); k pt) w.
Proof.
  intros Hw Hk. destruct (encrypt_spec key m ad w Hw) as (n & He & _). tstep He.
  eapply passes_unwrap_lift; [apply decrypt_sealed|]. apply Hk.
Qed.
Lemma file_passes m (k : bytes → M rng CryptoError unit) w :
  ready w → blen m ≤ MAX_FILE_SIZE → (∀ w', passes (k m) w') →
  passes ('(ciphertext, key) ← unwrap (encrypt_file m);
          decrypted ← unwrap (lift (decrypt_file ciphertext key)); k decrypted) w.
Proof.
  intros Hw Hm Hk. destruct (encrypt_file_run m w Hw Hm) as (key & nonce & w' & He & _).
  tstep He. apply (passes_unwrap_lift _ _ _ m); [|apply Hk].
  rewrite decrypt_file_nonce by (rewrite secretbox_seal_length; pose proof (blen_nonneg m); unfold MACBYTES; lia).
  by rewrite secretbox_open_seal.
Qed.
Lemma file_test_passes m w : ready w → blen m ≤ MAX_FILE_SIZE → passes (file_test m) w.
Proof. intros Hw Hm. apply file_passes; [done..|]. intros w'. tassert. by apply bool_decide_eq_true. Qed.
Lemma from_hex_fails_passes s w : length s ≠ 64%nat → passes (from_hex_fails s) w.
Proof.
  intros Hs. assert (∃ e, GroupId.from_hex s = Throw e) as [e He].
  { unfold GroupId.from_hex. destruct (hex_decode s) as [b|] eqn:Hb; mred; [|by eexists].
    apply hex_decode_length in Hb. rewrite (proj2 (Z.eqb_neq _ _)) by (unfold blen; lia). by eexists. }
  unfold from_hex_fails. eapply passes_attempt; [reflexivity|by rewrite He|]. rewrite He. by tassert.
Qed.
Lemma group_step clock name creator ms (k : GroupInfo.t → M rng CryptoError unit) w :
  ready w →
  (∀ gid w', ready w' →
     passes (k (GroupInfo.mk gid name (if bool_decide (creator ∈ ms) then ms else ms ++ [creator])
                  (default 0 clock) creator)) w') →
  passes (unwrap (GroupInfo.new clock name creator ms) ≫= k) w.
Proof.
  intros Hw Hk. destruct (group_new_run clock name creator ms w Hw) as (gid & w' & Hw' & Hn).
  tstep Hn. by apply Hk.
Qed.
Lemma wipe_test_passes data w : passes (wipe_test data) w.
Proof.
  unfold wipe_test, wipe_memory. tassert. by induction (length data) as [|n IH].
Qed.
Lemma random_step len (k : bytes → M rng CryptoError unit) w :
  0 ≤ len → (0 < len → any_nonzero (randombytes (Z.to_nat len) w).1 = true) →
  (∀ b w', blen b = len → b = (randombytes (Z.to_nat len) w).1 → passes (k b) w') →
  passes (secure_random_bytes len ≫= k) w.
Proof.
  intros Hlen Hnz Hk. destruct (secure_random_bytes_run len w Hlen (λ _, Hnz)) as (b & w' & Hr & Hl).
  tstep Hr. apply Hk; [done|]. unfold secure_random_bytes in Hr.
  apply bind_inv in Hr as (b' & w1 & Hd & Hr). unfold draw in Hd.
  destruct (randombytes (Z.to_nat len) w) as [b2 w2]. injection Hd as <- <-.
  apply bind_inv in Hr as (? & ? & _ & Hr). by injection Hr.
Qed.

(** The tests of aes_gcm.rs, media.rs, security.rs and errors.rs that expect
    success or a malformed input to be refused pass for every generator that does not
    draw 32 zero bytes: ciphertexts and files decrypt, an empty one and one of 1 MiB
    included, a file grows by nonce and tag, comparison is exact, random bytes have
    their length, wiped memory is zero, and the error texts are as written. *)
Theorem data_tests_pass w :
  ready w → any_nonzero (randombytes 32 w).1 = true → Forall (λ t, passes t w) data_tests.
Proof.
  intros Hw Hnz. each_case.
  - apply aead_passes; [done|]. intros w'. tassert. by apply bool_decide_eq_true.
  - apply (aead_passes (array_repeat 32 Byte.x55)); [done|]. intros w'. tassert. by apply bool_decide_eq_true.
  - apply aead_passes; [done|]. intros w'. by tassert.
  - by apply file_test_passes.
  - apply file_passes; [done..|]. intros w'. by tassert.
  - apply file_test_passes; [done|]. rewrite blen_vec_of; unfold MAX_FILE_SIZE; lia.
  - destruct (encrypt_file_run (bstr "test") w Hw) as (key & nonce & w' & He & _); [done|]. tstep He.
    eapply passes_lift; [by apply add_w_ok|]. eapply passes_lift; [by apply add_w_ok|].
    tassert. rewrite blen_app, array_blen, secretbox_seal_length. done.
  - assert (decrypt_file (replicate 10 Byte.x00) (array_repeat 32 Byte.x00) = Throw DecryptionFailed) as H
      by (by apply decrypt_file_short).
    eapply passes_attempt; [reflexivity|by rewrite H|]. rewrite H. by tassert.
  - destruct (to_vec_ok (mkFileMetadata (bstr "photo.jpg") (bstr "image/jpeg") 102400
                           (Some (bstr "base64encodeddata")))) as [v Hv].
    apply (passes_lift _ _ _ v); [by rewrite Hv|].
    eapply passes_lift; [by rewrite (json_roundtrip _ _ Hv)|].
    tassert; [done|]. tassert; [done|]. tassert. by apply bool_decide_eq_true.
  - tassert; [by apply bool_decide_eq_true|]. by exists w.
  - tassert. rewrite constant_time_eq_spec. by apply bool_decide_eq_true.
  - tassert. by rewrite constant_time_eq_spec.
  - tassert. by rewrite constant_time_eq_spec.
  - tassert. by rewrite constant_time_eq_spec.
  - eapply passes_lift; [reflexivity|]. tassert. by rewrite constant_time_eq_spec.
  - apply init_step; [done|]. apply random_step; [done|done|]. intros b w' Hl _. rewrite Hl. by tassert.
  - apply init_step; [done|]. apply random_step; [done|done|]. intros b w' _ ->. by tassert.
  - apply init_step; [done|]. apply random_step; [done|done|]. intros b w' Hl _. rewrite Hl. by tassert.
  - apply wipe_test_passes.
  - by exists w.
  - eapply passes_lift; [reflexivity|]. by tassert.
  - apply wipe_test_passes.
  - by tassert.
  - by tassert.
Qed.

(** The tests of group.rs pass for every generator and every clock past the
    epoch, but for the one that compares two random identifiers: identifiers survive
    their hexadecimal form and malformed ones are refused, the creator is a member and
    is not duplicated, members are added and removed once, the others are listed, and a
    group survives its JSON form. *)
Theorem group_tests_pass now w :
  ready w → 0 < now → Forall (λ t, passes t w) (group_tests (Some now)).
Proof.
  intros Hw Hnow. each_case.
  - apply init_step; [done|]. pose proof (group_new_run None [] [] [] w Hw) as (gid & w' & Hw' & Hn).
    unfold GroupInfo.new in Hn. apply bind_inv in Hn as (gid' & w1 & Hg & _). tstep Hg. tassert.
    { apply Z.eqb_eq. unfold GroupId.to_hex. by rewrite hex_encode_blen, array_blen. }
    apply (passes_unwrap_lift _ _ _ gid').
    { unfold GroupId.from_hex, GroupId.to_hex. rewrite hex_decode_encode. mred. rewrite array_blen. simpl.
      unfold copy_from_slice. rewrite array_of_list_array. by destruct gid'. }
    tassert. by apply bool_decide_eq_true.
  - by apply from_hex_fails_passes.
  - by apply from_hex_fails_passes.
  - apply init_step; [done|]. apply group_step; [done|]. intros gid w' _.
    do 4 (tassert; [by vm_compute|]). tassert. by apply Z.ltb_lt.
  - apply init_step; [done|]. apply group_step; [done|]. intros gid w' _. tassert. by vm_compute.
  - apply init_step; [done|]. apply group_step; [done|]. intros gid w' _.
    tassert; [by vm_compute|]. tassert; [by vm_compute|]. tassert. by vm_compute.
  - apply init_step; [done|]. apply group_step; [done|]. intros gid w' _.
    tassert; [by vm_compute|]. tassert; [by vm_compute|]. tassert. by vm_compute.
  - apply init_step; [done|]. apply group_step; [done|]. intros gid w' _.
    do 3 (tassert; [by vm_compute|]). tassert. by vm_compute.
  - apply init_step; [done|]. apply group_step; [done|]. intros gid w' _. tassert. by vm_compute.
  - apply init_step; [done|]. apply group_step; [done|]. intros gid w' _.
    match goal with |- passes (lift (unwrapped (to_vec ?g)) ≫= _) _ => destruct (to_vec_ok g) as [v Hv] end.
    apply (passes_lift _ _ _ v); [by rewrite Hv|]. eapply passes_lift; [by rewrite (json_roundtrip _ _ Hv)|].
    tassert; [done|]. tassert. by apply bool_decide_eq_true.
Qed.
End passing.

Definition metadata_tuple (m : FileMetadata) :=
  (filename m, Media.mime_type m, Media.size m, thumbnail m).
#[export] Instance FileMetadata_eq_decision : EqDecision FileMetadata.
Proof. solve_decision. Defined.
#[export] Program Instance FileMetadata_countable : Countable FileMetadata :=
  inj_countable' metadata_tuple (λ '(a, b, c, d), mkFileMetadata a b c d) _.
Next Obligation. by intros []. Qed.
Definition group_tuple (g : GroupInfo.t) :=
  (GroupId.id (GroupInfo.group_id g), GroupInfo.name g, GroupInfo.members g, GroupInfo.created_at g,
   GroupInfo.created_by g).
#[export] Instance GroupInfo_eq_decision : EqDecision GroupInfo.t.
Proof. pose proof GroupId.t_eq_decision; solve_decision. Defined.
#[export] Program Instance GroupInfo_countable : Countable GroupInfo.t :=
  inj_countable' group_tuple (λ '(a, b, c, d, e), GroupInfo.mk (GroupId.mk a) b c d e) _.
Next Obligation. intros [[a] b c d e]. reflexivity. Qed.

Lemma data_tests_pass_witness :
  Forall (λ t, passes t 9) (@data_tests debug_profile toy_sodium (countable_serde FileMetadata)).
Proof.
  assert (any_nonzero (@randombytes toy_sodium 32 9).1 = true) as H by (by vm_compute).
  exact (@data_tests_pass debug_profile toy_sodium (countable_serde FileMetadata) _ _ _
           (countable_serde_laws _) 9 eq_refl H).
Defined.
Lemma group_tests_pass_witness :
  Forall (λ t, passes t 9)
    (@group_tests toy_sodium toy_hex (countable_serde GroupInfo.t) (Some 1700000000)).
Proof.
  assert (0 < 1700000000) as H by done.
  exact (@group_tests_pass toy_sodium toy_hex (countable_serde GroupInfo.t) _ _ (countable_serde_laws _)
           1700000000 9 eq_refl H).
Defined.
