(* ===== verification/AuthTests.v ===== *)
(** * The tests of auth.rs and of extracted/server-middleware/auth.rs

    Each test is the program that the source has. The tests that expect two
    signatures to differ are in StrengthTests.v. The class [HeaderBuild] holds the
    functions of axum and uuid with which the server's tests make a header map and
    look at an identifier. *)

From S2P Require Import Prelude RustStr Errors Sodium Instances Harness Identity Auth ServerAuth.
From S2P Require Import KeyTests.
Local Open Scope rust_scope.

(** [s.ends_with(p)]. *)
Definition ends_with (s p : bytes) : bool := starts_with (reverse s) (reverse p).

Section tests.
Context {BP : BuildProfile} {SO : Sodium} {HA : Hashes} {HX : Hex}.
Variable clock : option Z.

(** The signature of a header is decoded and checked over the canonical message. *)
Definition assert_verifies (identity : IdentityKeyPair) (header : AuthHeader)
  (method path : bytes) (timestamp : Z) (body : bytes) : M rng CryptoError unit :=
  let message := build_signed_message method path timestamp body in
  sig_bytes ← lift (expect (hex_decode (signature_hex header)));
  signature ← lift (expect (signature_from_bytes sig_bytes));
  assert_that (verify (public_key identity) message signature).

Definition test_sign_request_produces_valid_headers : M rng CryptoError unit :=
  identity ← unwrap Identity.generate;
  let acc := bstr "550e8400-e29b-41d4-a716-446655440000" in
  let header := sign_request clock identity acc (bstr "GET") (bstr "/api/v1/messages/inbox") [] in
  assert_that (bool_decide (account_id header = acc));;
  assert_that (0 <? timestamp header);;
  assert_that (blen (signature_hex header) =? 128);;
  assert_verifies identity header (bstr "GET") (bstr "/api/v1/messages/inbox") (timestamp header) [].

Definition test_build_signed_message_deterministic : M rng CryptoError unit :=
  let msg1 := build_signed_message (bstr "GET") (bstr "/test") 12345 (bstr "hello") in
  let msg2 := build_signed_message (bstr "GET") (bstr "/test") 12345 (bstr "hello") in
  assert_that (bool_decide (msg1 = msg2)).

Definition test_build_signed_message_format : M rng CryptoError unit :=
  let msg := build_signed_message (bstr "POST") (bstr "/api/v1/test") 1700000000 [] in
  msg_str ← lift (expect (from_utf8 msg));
  assert_that (starts_with msg_str (bstr "POST:/api/v1/test:1700000000:"));;
  let empty_hash := hex_encode (array_list (sha256 [])) in
  assert_that (ends_with msg_str empty_hash).

Definition test_empty_body_signature_is_valid : M rng CryptoError unit :=
  identity ← unwrap Identity.generate;
  let timestamp := 1700000000 in
  let header := sign_request_with_timestamp identity (bstr "acct") (bstr "DELETE")
                  (bstr "/api/v1/accounts/self") [] timestamp in
  assert_verifies identity header (bstr "DELETE") (bstr "/api/v1/accounts/self") timestamp [].

(** ** server-middleware/auth.rs *)
Definition public_routes : list (bytes * bytes) :=
  [(bstr "POST", bstr "/api/v1/accounts/register"); (bstr "GET", bstr "/api/v1/health");
   (bstr "GET", bstr "/api/v1/ping"); (bstr "GET", bstr "/ws");
   (bstr "GET", bstr "/api/v1/accounts/by-key/abcdef1234567890");
   (bstr "POST", bstr "/api/v1/messages/send"); (bstr "POST", bstr "/api/v1/messages/sealed");
   (bstr "GET", bstr "/api/v1/stats/visits"); (bstr "POST", bstr "/api/v1/stats/visits")].
Definition protected_routes : list (bytes * bytes) :=
  [(bstr "GET", bstr "/api/v1/messages/inbox"); (bstr "DELETE", bstr "/api/v1/stats/visits");
   (bstr "DELETE", bstr "/api/v1/accounts/self"); (bstr "POST", bstr "/api/v1/ping")].
Definition test_unauthenticated_routes : M rng CryptoError unit :=
  assert_all ((λ r, is_unauthenticated_route r.1 r.2) <$> public_routes);;
  assert_all ((λ r, negb (is_unauthenticated_route r.1 r.2)) <$> protected_routes).

Definition test_timestamp_drift_calculation : M rng CryptoError unit :=
  let now := 1700000300 in
  let timestamp := 1700000000 in
  drift ← lift (sub_w 64 now timestamp);
  assert_that (drift =? 300);;
  assert_that (drift <=? MAX_TIMESTAMP_DRIFT_SECS);;
  let stale_timestamp := 1699999999 in
  stale_drift ← lift (sub_w 64 now stale_timestamp);
  assert_that (stale_drift =? 301);;
  assert_that (MAX_TIMESTAMP_DRIFT_SECS <? stale_drift).
Definition test_future_timestamp_drift : M rng CryptoError unit :=
  let now := 1700000000 in
  let future_timestamp := 1700000301 in
  drift ← lift (sub_w 64 future_timestamp now);
  assert_that (drift =? 301);;
  assert_that (MAX_TIMESTAMP_DRIFT_SECS <? drift).

Definition auth_tests : list (M rng CryptoError unit) :=
  [test_sign_request_produces_valid_headers; test_build_signed_message_deterministic;
   test_build_signed_message_format; test_empty_body_signature_is_valid;
   test_unauthenticated_routes; test_timestamp_drift_calculation; test_future_timestamp_drift].
End tests.

(** ** The header map *)
Class HeaderBuild (SV : Server) := {
  (** [HeaderMap::new()] and [insert(name, value)]. *)
  header_map_new : HeaderMap;
  header_insert : HeaderMap → bytes → HeaderValue → HeaderMap;
  (** [s.parse::<HeaderValue>()], [None] for an error. *)
  parse_header : bytes → option HeaderValue;
  uuid_to_string : Uuid → bytes;
}.
(** What the documentation of [http] and [uuid] says: a new map is empty and an
    inserted value is found; visible ASCII is a header value and is read back; the
    parser takes only the four layouts of a UUID, and prints the hyphenated one in
    lower case. *)
Definition hyphenated : list nat := [8; 4; 4; 4; 12]%nat.
Definition uuid_text (s : bytes) : bool :=
  bool_decide (length s = 36%nat)
  && bool_decide (length <$> split_on (bstr "-") s = hyphenated)
  && forallb (forallb is_lower_hexdigit) (split_on (bstr "-") s).
Class HeaderBuildLaws (SV : Server) (HB : HeaderBuild SV) : Prop := {
  header_get_new k : header_get header_map_new k = None;
  header_get_insert h k v : header_get (header_insert h k v) k = Some v;
  parse_header_ok s : forallb printable s = true → ∃ v, parse_header s = Some v ∧ to_str v = Some s;
  uuid_length s u : parse_str s = Some u → length s ∈ [32; 36; 38; 45]%nat;
  uuid_roundtrip s : uuid_text s = true → ∃ u, parse_str s = Some u ∧ uuid_to_string u = s;
}.

Section header_tests.
Context {SV : Server} {HB : HeaderBuild SV} {SO : Sodium}.

Definition with_account_id (value : bytes) : M rng CryptoError HeaderMap :=
  let headers := header_map_new in
  v ← lift (expect (parse_header value));
  mret (header_insert headers (bstr "X-Account-Id") v).
Definition test_extract_account_id_valid : M rng CryptoError unit :=
  headers ← with_account_id (bstr "550e8400-e29b-41d4-a716-446655440000");
  let result := extract_account_id headers in
  assert_that (match result with Ret _ => true | _ => false end);;
  id ← lift (unwrapped result);
  assert_that (bool_decide (uuid_to_string id = bstr "550e8400-e29b-41d4-a716-446655440000")).
(** [assert_eq!(result.unwrap_err(), status)]. *)
Definition assert_status (result : outcome StatusCode Uuid) (status : StatusCode) : M rng CryptoError unit :=
  match result with
  | Throw e => assert_that (bool_decide (e = status))
  | _ => lift Panic
  end.
Definition test_extract_account_id_missing : M rng CryptoError unit :=
  let headers := header_map_new in
  assert_status (extract_account_id headers) UNAUTHORIZED.
Definition test_extract_account_id_invalid_uuid : M rng CryptoError unit :=
  headers ← with_account_id (bstr "not-a-uuid");
  assert_status (extract_account_id headers) BAD_REQUEST.
Definition header_tests : list (M rng CryptoError unit) :=
  [test_extract_account_id_valid; test_extract_account_id_missing; test_extract_account_id_invalid_uuid].

Context {LHB : HeaderBuildLaws SV HB}.
Lemma with_account_id_step value (k : HeaderMap → M rng CryptoError unit) w :
  forallb printable value = true →
  (∀ h, header_str h (bstr "X-Account-Id") = Ret value → passes (k h) w) →
  passes (with_account_id value ≫= k) w.
Proof.
  intros Hp Hk. destruct (parse_header_ok value Hp) as (v & Hv & Hs).
  eapply (passes_bind _ _ _ (header_insert header_map_new (bstr "X-Account-Id") v));
    [unfold with_account_id; by rewrite Hv|].
  apply Hk. unfold header_str. rewrite header_get_insert. mred. by rewrite Hs.
Qed.
(** The server's tests of [extract_account_id] pass: a valid header is read, a missing
    one and one that is no UUID are refused with their status codes. *)
Lemma header_tests_pass w : Forall (λ t, passes t w) header_tests.
Proof.
  each_case.
  - apply with_account_id_step; [done|]. intros h Hh.
    destruct (uuid_roundtrip (bstr "550e8400-e29b-41d4-a716-446655440000")) as (u & Hu & Ht); [by vm_compute|].
    assert (extract_account_id h = Ret u) as He by (unfold extract_account_id; rewrite Hh; mred; by rewrite Hu).
    cbv zeta. rewrite He. tassert; [done|]. eapply passes_lift; [done|]. tassert. by apply bool_decide_eq_true.
  - unfold test_extract_account_id_missing, extract_account_id, header_str. rewrite header_get_new. mred. by tassert.
  - apply with_account_id_step; [done|]. intros h Hh. unfold extract_account_id. rewrite Hh. mred.
    destruct (parse_str (bstr "not-a-uuid")) as [u|] eqn:Hu; [|by tassert].
    apply uuid_length in Hu. vm_compute in Hu. repeat (apply elem_of_cons in Hu as [Hu|Hu]; [done|]).
    by apply not_elem_of_nil in Hu.
Qed.
End header_tests.

(** ** They pass *)
Section passing.
Context {BP : BuildProfile} {SO : Sodium} {HA : Hashes} {HX : Hex}.
Context {L : SodiumLaws SO} {LK : KeyLaws SO} {LX : HexLaws HX}.

Lemma assert_verifies_passes id acc m p t b w :
  sign_pair (public_key id) (secret_key id) →
  passes (assert_verifies id (sign_request_with_timestamp id acc m p b t) m p t b) w.
Proof.
  intros Hp. unfold assert_verifies, sign_request_with_timestamp. cbn [signature_hex].
  eapply passes_lift; [by rewrite hex_decode_encode|]. eapply passes_lift; [by rewrite signature_roundtrip|].
  tassert. by apply verify_sign.
Qed.
Lemma hex_ascii b : forallb (between 0 127) (hex_encode b) = true.
Proof.
  pose proof (hex_encode_lower b) as H. rewrite forallb_forall in H |- *. intros c Hc.
  specialize (H c Hc). unfold is_lower_hexdigit, between in *. lia.
Qed.
Lemma ends_with_app a b : ends_with (a ++ b) b = true.
Proof. unfold ends_with. rewrite reverse_app. apply starts_with_app. Qed.

(** The tests of auth.rs and of the server's auth.rs that do not compare two
    signatures or build an axum header map pass for every generator whose keys do not
    trip the debug assertions and every clock past the epoch: the headers are complete
    and verify, the canonical message has its format, the public routes are those
    listed, and the drift limit is 300 seconds, inclusive. *)
Theorem auth_tests_pass now w :
  ready w → sign_keys_nonzero → 0 < now → Forall (λ t, passes t w) (auth_tests (Some now)).
Proof.
  intros Hw Hs Hnow. each_case.
  - apply identity_step; [done..|]. intros id w1 _ Hp. tassert; [by apply bool_decide_eq_true|].
    tassert; [by apply Z.ltb_lt|].
    tassert; [apply Z.eqb_eq; cbn [signature_hex sign_request sign_request_with_timestamp];
              rewrite hex_encode_blen; unfold blen; by rewrite signature_length|].
    by apply assert_verifies_passes.
  - tassert. by apply bool_decide_eq_true.
  - assert (utf8_valid (build_signed_message (bstr "POST") (bstr "/api/v1/test") 1700000000 []) = true) as Hu.
    { apply utf8_valid_ascii. unfold build_signed_message, format_colons. rewrite !forallb_app, hex_ascii. by vm_compute. }
    eapply passes_lift; [unfold from_utf8; by rewrite Hu|].
    assert (build_signed_message (bstr "POST") (bstr "/api/v1/test") 1700000000 []
            = bstr "POST:/api/v1/test:1700000000:" ++ hex_encode (array_list (sha256 []))) as He by reflexivity.
    rewrite He. tassert; [apply starts_with_app|]. tassert. apply ends_with_app.
  - apply identity_step; [done..|]. intros id w1 _ Hp. by apply assert_verifies_passes.
  - by exists w.
  - eapply passes_lift; [reflexivity|]. do 2 (tassert; [done|]).
    eapply passes_lift; [reflexivity|]. tassert; [done|]. by tassert.
  - eapply passes_lift; [reflexivity|]. tassert; [done|]. by tassert.
Qed.
End passing.

Lemma auth_tests_pass_witness :
  Forall (λ t, passes t 9) (@auth_tests release_profile toy_sodium toy_hashes toy_hex (Some 1700000000)).
Proof.
  assert (0 < 1700000000) as H by done.
  exact (@auth_tests_pass release_profile toy_sodium toy_hashes toy_hex _ toy_key_laws _ 1700000000 9 eq_refl
           toy_sign_keys_nonzero_release H).
Defined.

(** A server whose identifiers are the texts of UUIDs. *)
Definition uuid_server : Server :=
  toy_server_of (λ s, if uuid_text s then Some s else None) (λ _ _ _, Ret tt).
#[export] Instance toy_header_build : HeaderBuild uuid_server := {|
  header_map_new := [] : @HeaderMap uuid_server;
  header_insert h k v := (k, v) :: h;
  parse_header s := if forallb printable s then Some s else None;
  uuid_to_string u := u;
|}.
#[export] Instance toy_header_laws : HeaderBuildLaws uuid_server toy_header_build.
Proof.
  split; simpl.
  - done.
  - intros h k v. unfold assoc. simpl. by rewrite bool_decide_true.
  - intros s ->. by exists s.
  - intros s u. destruct (uuid_text s) eqn:H; [|done]. intros _.
    apply andb_prop in H as [[->%bool_decide_eq_true _]%andb_prop _]. set_solver.
  - intros s ->. by exists s.
Qed.
