(* ===== verification/Strength.v ===== *)
(** * What the tests of refusals are stated with

    A wrong key, a changed ciphertext or another signer must be refused, or two drawn
    values must differ. No law of an interface says so: a key can collide, a
    tag can be guessed. The tests that expect it are therefore proved to pass if and
    only if a condition on the draws and on the primitives holds. Here are the words
    of those conditions ([drawn], [aead_made], [tampering_detected]), a lemma for each
    call, which says what the rest of a test sees after it, and one for each kind of
    final assertion. *)

From S2P Require Import Prelude RustStr Errors Sodium Instances Harness Identity X3dh Prekeys.
From S2P Require Import AesGcm Group Media Security SafetyNumber SealedSender KeyTests.
Local Open Scope rust_scope.

(** [l[i] ^= b]. *)
Definition byte_xor (a b : byte) : byte := byte_of_Z (Z.lxor (byte_to_Z a) (byte_to_Z b)).
Definition index_xor {E} (l : bytes) (i : Z) (b : byte) : outcome E bytes :=
  x ← index l i; index_set l i (byte_xor x b).

Section asserts.
Context {BP : BuildProfile} {SO : Sodium} {HA : Hashes}.
(** [assert!(call.is_err())]. *)
Definition assert_err {A} (call : M rng CryptoError A) : M rng CryptoError unit :=
  result ← attempt call;
  assert_that (is_err result).
(** [assert_ne!(a, b)]. *)
Definition assert_ne {A} `{EqDecision A} (a b : A) : M rng CryptoError unit :=
  assert_that (negb (bool_decide (a = b))).
(** The safety number of two identities. *)
Definition safety_number_of (a b : IdentityKeyPair) : M rng CryptoError bytes :=
  lift (generate_safety_number (array_list (public_key a)) (array_list (public_key b))).
End asserts.

(** [C] holds of what [f] draws and of the generator after it. *)
Definition drawn {SO : Sodium} {A} (f : rng → A * rng) (C : A → rng → Prop) (w : rng) : Prop :=
  C (f w).1 (f w).2.

Section conditions.
Context {SO : Sodium} {HA : Hashes}.
(** The ciphertext is the sealing of some message: it is accepted. *)
Definition aead_made (c : bytes) (ad : option bytes) (n : array 24) (k : key32) : Prop :=
  ∃ m, c = aead_seal m ad n k.
Definition secretbox_made (c : bytes) (n : array 24) (k : key32) : Prop := ∃ m, c = secretbox_seal m n k.
(** [b] is xored into byte [i] of the ciphertext, and nothing is accepted for it. *)
Definition tampering_detected (made : bytes → Prop) (c : bytes) (i : Z) (b : byte) : Prop :=
  ∀ c', index_xor (E:=CryptoError) c i b = Ret c' → ¬ made c'.
Definition box_pk (id : key32 * array 64) : key32 := (Sodium.ed25519_pk_to_curve25519 id.1).2.
Definition box_sk (id : key32 * array 64) : key32 := (Sodium.ed25519_sk_to_curve25519 id.2).2.

(** The part of the hash that a safety number shows. *)
Definition shown (a b : key32 * array 64) : bytes :=
  take 24 (array_list (sha256 (sorted_concat (array_list a.1) (array_list b.1)))).
End conditions.

(** ** Facts *)
Section exact.
Context {BP : BuildProfile} {SO : Sodium} {HA : Hashes} {HX : Hex}.
Context {SJ : SerdeJson SealedSenderEnvelope}.
Context {L : SodiumLaws SO} {LA : AeadLaws SO} {LB : SecretboxLaws SO} {LH : HashLaws HA}.
Context {LK : KeyLaws SO} {LX : HexLaws HX} {LS : SerdeLaws SealedSenderEnvelope SJ}.

(** What a test does after a call, and at its end. *)
Lemma bind_iff {A} (m : M rng CryptoError A) (k : A → M rng CryptoError unit) w a w' (C : Prop) :
  m w = (Ret a, w') → (passes (k a) w' ↔ C) → (passes (m ≫= k) w ↔ C).
Proof.
  intros H Hk. rewrite <-Hk. unfold passes. split; intros [w2 H2]; exists w2;
    rewrite (bind_Ret _ _ _ _ _ H) in *; done.
Qed.
Lemma lift_iff {A} (o : outcome CryptoError A) (k : A → M rng CryptoError unit) w a (C : Prop) :
  o = Ret a → (passes (k a) w ↔ C) → (passes (lift o ≫= k) w ↔ C).
Proof. intros ->. by apply bind_iff. Qed.
Lemma assert_iff b w : passes (W:=rng) (E:=CryptoError) (assert_that b) w ↔ b = true.
Proof. split; [|intros ->; by exists w]. intros [w' H]. by destruct b. Qed.
Lemma assert_true_iff b (k : unit → M rng CryptoError unit) w (C : Prop) :
  b = true → (passes (k tt) w ↔ C) → (passes (assert_that b ≫= k) w ↔ C).
Proof. intros ->. by apply bind_iff. Qed.
Lemma assert_bind_iff b (k : unit → M rng CryptoError unit) w (B C : Prop) :
  (b = true ↔ B) → (passes (k tt) w ↔ C) → (passes (assert_that b ≫= k) w ↔ B ∧ C).
Proof.
  intros HB HC. destruct b.
  - rewrite (bind_iff _ _ w tt w C) by done. tauto.
  - split; [by intros [w' H]|]. intros [H _]. by apply HB in H.
Qed.
Lemma negb_iff {A} `{EqDecision A} (a b : A) : negb (bool_decide (a = b)) = true ↔ a ≠ b.
Proof. by rewrite negb_true_iff, bool_decide_eq_false. Qed.
Lemma assert_ne_iff {A} `{EqDecision A} (a b : A) w : passes (assert_ne a b) w ↔ a ≠ b.
Proof. unfold assert_ne. by rewrite assert_iff, negb_iff. Qed.
Lemma assert_ne_bind_iff {A} `{EqDecision A} (a b : A) (k : unit → M rng CryptoError unit) w (B C : Prop) :
  (a ≠ b ↔ B) → (passes (k tt) w ↔ C) → (passes (assert_ne a b ≫= k) w ↔ B ∧ C).
Proof. intros HB. apply assert_bind_iff. by rewrite negb_iff. Qed.
Lemma rejects_iff b w : passes (W:=rng) (E:=CryptoError) (assert_that (negb b)) w ↔ b = false.
Proof. by rewrite assert_iff, negb_true_iff. Qed.
Lemma assert_err_iff {A} (m : M rng CryptoError A) w o w' :
  m w = (o, w') → o ≠ Panic → (passes (assert_err m) w ↔ ¬ ∃ a, o = Ret a).
Proof.
  intros Hm Ho. assert (attempt m w = (Ret o, w')) as H.
  { unfold attempt. rewrite Hm. by destruct o. }
  unfold assert_err. apply (bind_iff _ _ _ _ _ _ H). rewrite assert_iff.
  destruct o; simpl; naive_solver.
Qed.
Lemma refused_iff {A} (x : option A) e w : passes (assert_err (lift (ok_or x e))) w ↔ x = None.
Proof.
  rewrite (assert_err_iff _ w (ok_or x e) w) by (done || by destruct x).
  destruct x; simpl; naive_solver.
Qed.

Lemma aead_refused_iff c ad n k : aead_open c ad n k = None ↔ ¬ aead_made c ad n k.
Proof.
  unfold aead_made. split; [intros H [m ->]; by rewrite aead_open_seal in H|].
  intros H. destruct (aead_open c ad n k) as [m|] eqn:Ho; [|done].
  destruct H. exists m. by apply aead_open_inv.
Qed.
Lemma secretbox_refused_iff c n k : secretbox_open c n k = None ↔ ¬ secretbox_made c n k.
Proof.
  unfold secretbox_made. split; [intros H [m ->]; by rewrite secretbox_open_seal in H|].
  intros H. destruct (secretbox_open c n k) as [m|] eqn:Ho; [|done].
  destruct H. exists m. by apply secretbox_open_inv.
Qed.

Lemma index_xor_ok l i b :
  0 ≤ i < blen l → ∃ l', index_xor (E:=CryptoError) l i b = Ret l' ∧ blen l' = blen l.
Proof.
  intros Hi. unfold index_xor. destruct (lookup_lt_is_Some_2 l (Z.to_nat i)) as [x Hx]; [unfold blen in *; lia|].
  rewrite (index_ok _ _ x) by (done || lia). mred. unfold index_set.
  rewrite (proj2 (Z.leb_le _ _)), (proj2 (Z.ltb_lt _ _)) by lia. eexists. split; [done|].
  unfold blen. by rewrite length_insert.
Qed.
Lemma index_xor_app l k i b k' :
  0 ≤ i < blen k → index_xor (E:=CryptoError) k i b = Ret k' →
  index_xor (E:=CryptoError) (l ++ k) (blen l + i) b = Ret (l ++ k').
Proof.
  intros Hi. unfold index_xor.
  destruct (lookup_lt_is_Some_2 k (Z.to_nat i)) as [x Hx]; [unfold blen in *; lia|].
  rewrite (index_ok k i x), (index_app_r l k i x) by (done || lia). mred. unfold index_set.
  pose proof (blen_nonneg l). rewrite blen_app.
  rewrite !(proj2 (Z.leb_le _ _)), !(proj2 (Z.ltb_lt _ _)) by lia. simpl. intros [= <-].
  replace (Z.to_nat (blen l + i)) with (length l + Z.to_nat i)%nat by (unfold blen in *; lia).
  by rewrite insert_app_r.
Qed.

(** The calls of the tests with what they draw. *)
Lemma identity_iff (k : IdentityKeyPair → M rng CryptoError unit) (C : _ → rng → Prop) w :
  ready w → sign_keys_nonzero →
  (∀ kp w', ready w' → sign_pair kp.1 kp.2 → (passes (k (identity_of kp)) w' ↔ C kp w')) →
  (passes (unwrap Identity.generate ≫= k) w ↔ drawn sign_gen_keypair C w).
Proof.
  intros Hw Hs Hk. eapply bind_iff; [by apply unwrap_Ret, generate_drawn|].
  apply Hk; [by apply ready_sign_gen_keypair|apply sign_gen_pair].
Qed.
Lemma draw_iff {A} (f : rng → A * rng) (k : A → M rng CryptoError unit) (C : A → rng → Prop) w :
  (passes (k (f w).1) (f w).2 ↔ C (f w).1 (f w).2) → (passes (draw f ≫= k) w ↔ drawn f C w).
Proof. intros H. eapply bind_iff; [|exact H]. unfold draw. by destruct (f w). Qed.
Lemma keypair_iff (k : key32 * key32 → M rng CryptoError unit) (C : _ → rng → Prop) w :
  ready w → (∀ kp w', ready w' → box_pair kp.1 kp.2 → (passes (k kp) w' ↔ C kp w')) →
  (passes (draw box_gen_keypair ≫= k) w ↔ drawn box_gen_keypair C w).
Proof.
  intros Hw Hk. apply draw_iff, Hk; [by apply ready_box_gen_keypair|apply box_gen_pair].
Qed.
Lemma spk_iff id n (k : SignedPreKey.t → M rng CryptoError unit) (C : _ → rng → Prop) w :
  ready w → keys_nonzero →
  (∀ kp w', ready w' → box_pair kp.1 kp.2 →
     (passes (k (SignedPreKey.mk n kp.1 kp.2 (sign id (array_list kp.1)))) w' ↔ C kp w')) →
  (passes (unwrap (SignedPreKey.generate id n) ≫= k) w ↔ drawn box_gen_keypair C w).
Proof.
  intros Hw Hnz Hk. destruct (spk_generate_run id n w Hw Hnz) as [Hg Hw'].
  eapply bind_iff; [by apply unwrap_Ret|]. apply Hk; [done|apply box_gen_pair].
Qed.
Lemma aead_iff key m ad (k : bytes * bytes → M rng CryptoError unit) (C : _ → rng → Prop) w :
  ready w →
  (∀ n w', ready w' → (passes (k (array_list n, aead_seal m ad n key)) w' ↔ C n w')) →
  (passes (unwrap (AesGcm.encrypt key m ad) ≫= k) w ↔ drawn aead_gen_nonce C w).
Proof.
  intros Hw Hk. eapply bind_iff; [by apply unwrap_Ret, AesGcm.aead_encrypt_drawn|].
  by apply Hk, ready_aead_gen_nonce.
Qed.
Lemma file_iff m (k : bytes * key32 → M rng CryptoError unit) (C : _ → array 24 → rng → Prop) w :
  ready w → blen m ≤ MAX_FILE_SIZE →
  (∀ key n w', ready w' → (passes (k (array_list n ++ secretbox_seal m n key, key)) w' ↔ C key n w')) →
  (passes (unwrap (encrypt_file m) ≫= k) w
   ↔ drawn secretbox_gen_key (λ key, drawn secretbox_gen_nonce (C key)) w).
Proof.
  intros Hw Hm Hk. unfold drawn. pose proof (encrypt_file_drawn m w Hw Hm) as H.
  destruct (secretbox_gen_key w) as [key w1]. simpl.
  destruct (secretbox_gen_nonce w1) as [n w2]. destruct H as [He Hw2].
  eapply bind_iff; [by apply unwrap_Ret|]. by apply Hk.
Qed.
Lemma seal_iff sender m pk (k : bytes → M rng CryptoError unit) (C : _ → bytes → rng → Prop) w :
  ready w →
  (∀ c1 c2 v w', ready w' → to_vec (mkSealedSenderEnvelope c1 c2) = Ret v → (passes (k v) w' ↔ C c1 c2 w')) →
  (passes (unwrap (seal sender m pk) ≫= k) w
   ↔ drawn (sealedbox_seal sender pk) (λ c1, drawn (sealedbox_seal m pk) (C c1)) w).
Proof.
  intros Hw Hk. unfold drawn. pose proof (seal_drawn sender m pk w Hw) as H.
  destruct (sealedbox_seal sender pk w) as [c1 w1]. simpl.
  destruct (sealedbox_seal m pk w1) as [c2 w2]. destruct H as (v & Hv & Hs & Hw2).
  eapply bind_iff; [by apply unwrap_Ret|]. by apply Hk.
Qed.
Lemma box_iff a r m (k : bytes → M rng CryptoError unit) (C : _ → rng → Prop) w :
  ready w → blen m + 64 ≤ isize_max → box_overhead → sign_pair a.1 a.2 → sign_pair r.1 r.2 →
  (∀ n w', ready w' → (passes (k (array_list n ++ box_seal m n (box_pk r) (box_sk a))) w' ↔ C n w')) →
  (passes (unwrap (encrypt_to_identity (identity_of a) r.1 m) ≫= k) w ↔ drawn box_gen_nonce C w).
Proof.
  intros Hw Hm Hbox Ha Hr Hk.
  destruct (identity_curve_pair _ _ Ha) as (pka & ska & Hap & Has & _).
  destruct (identity_curve_pair _ _ Hr) as (pkr & skr & Hrp & Hrs & _).
  eapply bind_iff; [by apply unwrap_Ret, (encrypt_to_identity_drawn (identity_of a) r.1 m w ska pkr)|].
  unfold box_pk, box_sk in Hk. rewrite Hrp, Has in Hk. by apply Hk, ready_box_gen_nonce.
Qed.
Lemma group_id_iff (k : GroupId.t → M rng CryptoError unit) (C : bytes → rng → Prop) w :
  ready w →
  (∀ a w', ready w' → (passes (k (GroupId.mk a)) w' ↔ C (array_list a) w')) →
  (passes (unwrap GroupId.generate ≫= k) w ↔ drawn (randombytes 32) C w).
Proof.
  intros Hw Hk. pose proof (randombytes_length 32 w) as Hl. pose proof (ready_randombytes 32 w Hw) as Hw'.
  unfold drawn. destruct (randombytes 32 w) as [b w'] eqn:Hr. simpl in *.
  destruct (array_of_list_Some 32 b Hl) as (a & Ha & <-). apply (bind_iff _ _ _ (GroupId.mk a) w').
  - apply unwrap_Ret. unfold GroupId.generate. mstep (init_sodium_ready w Hw). mred. rewrite Hr. mred.
    unfold copy_from_slice. by rewrite Ha.
  - by apply Hk.
Qed.
(** A draw of zeros only stops a debug build. *)
Lemma random_iff len (k : bytes → M rng CryptoError unit) (C : bytes → rng → Prop) w :
  ready w → 0 < len →
  (∀ b w', ready w' → blen b = len → (passes (k b) w' ↔ C b w')) →
  (passes (secure_random_bytes len ≫= k) w
   ↔ drawn (randombytes (Z.to_nat len)) (λ b w', (debug_assertions = true → any_nonzero b = true) ∧ C b w') w).
Proof.
  intros Hw Hlen Hk. pose proof (randombytes_length (Z.to_nat len) w) as Hl.
  pose proof (ready_randombytes (Z.to_nat len) w Hw) as Hw'. unfold drawn.
  destruct (randombytes (Z.to_nat len) w) as [b w'] eqn:Hr. simpl in *.
  assert (secure_random_bytes len w
    = if negb debug_assertions || any_nonzero b then (Ret b, w') else (Panic, w')) as Hs.
  { unfold secure_random_bytes, draw. unfold mbind at 1, M_bind. rewrite Hr. unfold debug_assert.
    rewrite (proj2 (Z.eqb_neq _ _)) by lia. destruct debug_assertions, (any_nonzero b); by mred. }
  destruct (negb debug_assertions || any_nonzero b) eqn:Hb.
  - rewrite (bind_iff _ _ _ _ _ _ Hs (Hk b w' Hw' ltac:(unfold blen; lia))).
    destruct debug_assertions; simpl in Hb; naive_solver.
  - split; [intros [w2 H2]; unfold mbind, M_bind in H2; by rewrite Hs in H2|].
    destruct debug_assertions; [|done]. simpl in Hb. rewrite Hb. intros [H _]. by specialize (H eq_refl).
Qed.

(** The final assertions. *)
Lemma tampered_iff c i b (call : bytes → outcome CryptoError bytes) (made : bytes → Prop) w :
  0 ≤ i < blen c →
  (∀ c', blen c' = blen c → (passes (assert_err (lift (call c'))) w ↔ ¬ made c')) →
  passes (c ← lift (index_xor c i b); assert_err (lift (call c))) w ↔ tampering_detected made c i b.
Proof.
  intros Hi Hcall. destruct (index_xor_ok c i b Hi) as (c' & Hc & Hl). apply (lift_iff _ _ _ _ _ Hc).
  rewrite Hcall by done. unfold tampering_detected. rewrite Hc. naive_solver.
Qed.
Lemma aead_flip_iff key m n i b w :
  0 ≤ i < blen m + MACBYTES →
  passes (c ← lift (index_xor (aead_seal m None n key) i b);
          assert_err (lift (AesGcm.decrypt key (array_list n) c None))) w
  ↔ tampering_detected (λ c, aead_made c None n key) (aead_seal m None n key) i b.
Proof.
  intros Hi. apply (tampered_iff _ _ _ (λ c, AesGcm.decrypt key (array_list n) c None));
    [by rewrite aead_seal_length|].
  intros c' _. by rewrite decrypt_nonce, refused_iff, aead_refused_iff.
Qed.
Lemma file_flip_iff key m n i b w :
  0 ≤ i < blen m + MACBYTES →
  passes (c ← lift (index_xor (array_list n ++ secretbox_seal m n key) (24 + i) b);
          assert_err (lift (decrypt_file c key))) w
  ↔ tampering_detected (λ c, secretbox_made c n key) (secretbox_seal m n key) i b.
Proof.
  intros Hi. rewrite <-(secretbox_seal_length m n key) in Hi.
  destruct (index_xor_ok (secretbox_seal m n key) i b Hi) as (c' & Hc & Hl).
  pose proof (array_blen n : blen (array_list n) = 24) as Hn.
  pose proof (index_xor_app (array_list n) _ i b c' Hi Hc) as Hc'. rewrite Hn in Hc'.
  apply (lift_iff _ _ _ _ _ Hc'). rewrite secretbox_seal_length in Hl.
  rewrite decrypt_file_nonce by (pose proof (blen_nonneg m); unfold MACBYTES in *; lia).
  rewrite refused_iff, secretbox_refused_iff. unfold tampering_detected. rewrite Hc. naive_solver.
Qed.
Lemma safety_iff a b (k : bytes → M rng CryptoError unit) w (C : Prop) :
  (passes (k (join (bstr " ") (group_texts (shown a b)))) w ↔ C) →
  (passes (safety_number_of (identity_of a) (identity_of b) ≫= k) w ↔ C).
Proof. apply lift_iff, safety_run. Qed.
Lemma shown_iff a b c d :
  join (bstr " ") (group_texts (shown a b)) ≠ join (bstr " ") (group_texts (shown c d))
  ↔ shown a b ≠ shown c d.
Proof.
  split; [by intros H He; apply H; rewrite He|]. intros H He. apply H.
  assert (∀ x y, length (shown x y) = (2 * 12)%nat) as Hl
    by (intros; unfold shown; by rewrite length_take, array_length).
  apply (group_texts_inj _ _ 12); [done..|]. eapply join_inj; [|apply group_texts_5..|exact He].
  by rewrite !(length_group_texts _ 12).
Qed.
Lemma unseal_iff u c1 c2 v pk sk w :
  to_vec (mkSealedSenderEnvelope c1 c2) = Ret v →
  passes (assert_err (lift (unseal u v pk sk))) w
  ↔ ¬ ∃ s m, sealedbox_open c1 pk sk = Some s ∧ utf8_valid s = true ∧ sealedbox_open c2 pk sk = Some m.
Proof.
  intros Hv. rewrite (assert_err_iff _ w (unseal u v pk sk) w); [|done|];
    rewrite (unseal_vec u _ _ _ pk sk Hv); [|by repeat case_match].
  apply not_iff_compat. split; [|by intros (s & m & -> & -> & ->); eexists].
  intros [a H]. destruct (sealedbox_open c1 pk sk) as [s|]; [|done].
  destruct (utf8_valid s) eqn:Hu; [|done]. destruct (sealedbox_open c2 pk sk) as [m|]; [|done]. by exists s, m.
Qed.
Lemma open_box_iff r s n c w :
  ready w → sign_pair r.1 r.2 → sign_pair s.1 s.2 →
  passes (assert_err (decrypt_from_identity (identity_of r) s.1 (array_list n ++ c))) w
  ↔ box_open c n (box_pk s) (box_sk r) = None.
Proof.
  intros Hw Hr Hs.
  destruct (identity_curve_pair _ _ Hr) as (pkr & skr & Hrp & Hrs & _).
  destruct (identity_curve_pair _ _ Hs) as (pks & sks & Hsp & Hss & _).
  unfold box_pk, box_sk. rewrite Hsp, Hrs. simpl.
  rewrite (assert_err_iff _ _ _ _ (decrypt_from_identity_nonce (identity_of r) s.1 n c pks skr w Hw Hsp Hrs)).
  - destruct (box_open c n pks skr); simpl; naive_solver.
  - by destruct (box_open c n pks skr).
Qed.

Lemma x3dh_iff a b spk_pk spk_sk sig w :
  ready w → sign_pair (public_key a) (secret_key a) → sign_pair (public_key b) (secret_key b) →
  box_pair spk_pk spk_sk →
  passes (assert_err (initiate_x3dh a (mkRecipientPreKeyBundle (public_key b) spk_pk sig None))) w
  ↔ verify_detached sig (array_list spk_pk) (public_key b) = false.
Proof.
  intros Hw Ha Hb Hp. destruct (verify_detached sig (array_list spk_pk) (public_key b)) eqn:Hv.
  - destruct (x3dh_agree_signed a b spk_pk spk_sk sig None w) as (r & w2 & Hi & _); [done..|].
    rewrite (assert_err_iff _ _ _ _ Hi) by done. split; [|done]. intros H. destruct H. by eexists.
  - rewrite (assert_err_iff _ _ _ _ (initiate_bad_signature a (mkRecipientPreKeyBundle _ _ _ None) w Hw Hv)) by done.
    split; [done|]. by intros _ [].
Qed.
Lemma distinct_bytes_iff (l : bytes) : 1 < blen (remove_dups l) ↔ ∃ x y, x ∈ l ∧ y ∈ l ∧ x ≠ y.
Proof.
  pose proof (NoDup_remove_dups l) as Hnd.
  assert (∀ x, x ∈ remove_dups l ↔ x ∈ l) as Hin by (intros; apply elem_of_remove_dups). split.
  - destruct (remove_dups l) as [|x [|y k]] eqn:He; unfold blen; simpl; [lia..|]. intros _. exists x, y.
    rewrite <-!Hin. apply NoDup_cons in Hnd as [Hx _]. split_and!; [left|right; left|]. intros ->. apply Hx. left.
  - intros (x & y & Hx & Hy & Hne). apply Hin in Hx, Hy.
    destruct (remove_dups l) as [|a [|b k]]; unfold blen; simpl; [by apply not_elem_of_nil in Hx| |lia].
    apply list_elem_of_singleton in Hx, Hy. congruence.
Qed.
Lemma vary_nonzero (l : bytes) x y : x ∈ l → y ∈ l → x ≠ y → any_nonzero l = true.
Proof.
  intros Hx Hy Hne. unfold any_nonzero. apply existsb_exists.
  destruct (decide (x = Byte.x00)) as [->|Hx0].
  - exists y. split; [by apply list_elem_of_In|]. by rewrite bool_decide_false.
  - exists x. split; [by apply list_elem_of_In|]. by rewrite bool_decide_false.
Qed.
End exact.
