(* ===== verification/StrengthTests.v ===== *)
(** * The unit tests that rest on the strength of the cryptography

    Each test is the program that the source has, paired with the condition, in the
    words of Strength.v, on the generator's draws and on the primitives under which it
    passes. The theorem says that it passes exactly then, so that the code adds no way
    to accept what it must refuse. *)

From S2P Require Import Prelude RustStr Errors Sodium Instances Harness Identity X3dh Prekeys.
From S2P Require Import AesGcm DoubleRatchet RatchetFacts RatchetProps RatchetTests Auth Group.
From S2P Require Import Media Security SafetyNumber SealedSender KeyTests Strength.
Local Open Scope rust_scope.

Section tests.
Context {BP : BuildProfile} {SO : Sodium} {HA : Hashes} {HX : Hex}.
Context {SJ : SerdeJson SealedSenderEnvelope}.
Variable utf8_error_string : bytes → bytes.

(** ** aes_gcm.rs *)
Definition test_decrypt_fails_with_wrong_key : M rng CryptoError unit :=
  let key := array_repeat 32 Byte.x42 in
  let wrong_key := array_repeat 32 Byte.x43 in
  '(nonce, ciphertext) ← unwrap (AesGcm.encrypt key (bstr "hello") None);
  assert_err (lift (AesGcm.decrypt wrong_key nonce ciphertext None)).
Definition test_decrypt_fails_with_wrong_ad : M rng CryptoError unit :=
  let key := array_repeat 32 Byte.x42 in
  '(nonce, ciphertext) ← unwrap (AesGcm.encrypt key (bstr "hello") (Some (bstr "correct ad")));
  assert_err (lift (AesGcm.decrypt key nonce ciphertext (Some (bstr "wrong ad")))).
Definition test_decrypt_fails_with_tampered_ciphertext : M rng CryptoError unit :=
  let key := array_repeat 32 Byte.x42 in
  '(nonce, ciphertext) ← unwrap (AesGcm.encrypt key (bstr "hello") None);
  ciphertext ← lift (index_xor ciphertext 0 Byte.xff);
  assert_err (lift (AesGcm.decrypt key nonce ciphertext None)).

(** ** auth.rs *)
Definition signatures_differ (acc m1 p1 b1 : bytes) (t1 : Z) (m2 p2 b2 : bytes) (t2 : Z) :
  M rng CryptoError unit :=
  identity ← unwrap Identity.generate;
  let header1 := sign_request_with_timestamp identity acc m1 p1 b1 t1 in
  let header2 := sign_request_with_timestamp identity acc m2 p2 b2 t2 in
  assert_ne (signature_hex header1) (signature_hex header2).
Definition test_different_bodies_produce_different_signatures : M rng CryptoError unit :=
  signatures_differ (bstr "550e8400-e29b-41d4-a716-446655440000")
    (bstr "POST") (bstr "/api/v1/messages/send") (bstr "body one") 1700000000
    (bstr "POST") (bstr "/api/v1/messages/send") (bstr "body two") 1700000000.
Definition test_different_methods_produce_different_signatures : M rng CryptoError unit :=
  signatures_differ (bstr "test-account")
    (bstr "GET") (bstr "/api/v1/keys/prekey_count") [] 1700000000
    (bstr "POST") (bstr "/api/v1/keys/prekey_count") [] 1700000000.
Definition test_different_paths_produce_different_signatures : M rng CryptoError unit :=
  signatures_differ (bstr "test-account")
    (bstr "GET") (bstr "/api/v1/path/a") [] 1700000000
    (bstr "GET") (bstr "/api/v1/path/b") [] 1700000000.
Definition test_different_timestamps_produce_different_signatures : M rng CryptoError unit :=
  signatures_differ (bstr "test-account")
    (bstr "GET") (bstr "/api/v1/test") [] 1700000000
    (bstr "GET") (bstr "/api/v1/test") [] 1700000001.

(** ** double_ratchet.rs *)
Definition test_ratchet_wrong_key_fails : M rng CryptoError unit :=
  unwrap init_sodium;;
  let shared_secret := array_repeat 32 Byte.x42 in
  let wrong_secret := array_repeat 32 Byte.x43 in
  '(bob_pk, bob_sk) ← draw box_gen_keypair;
  alice ← unwrap (init_sender shared_secret bob_pk);
  let bob := init_receiver wrong_secret (bob_pk, bob_sk) in
  let ad := bstr "test" in
  '((header, ct), alice) ← unwrap (with_session (DoubleRatchet.encrypt (bstr "secret") ad) alice);
  '(result, bob) ← try_session (DoubleRatchet.decrypt header ct ad) bob;
  assert_that (is_err result).

(** ** group.rs *)
Definition test_group_id_generate_unique : M rng CryptoError unit :=
  unwrap init_sodium;;
  id1 ← unwrap GroupId.generate;
  id2 ← unwrap GroupId.generate;
  assert_ne (GroupId.id id1) (GroupId.id id2).

(** ** identity.rs *)
Definition test_verify_rejects_wrong_message : M rng CryptoError unit :=
  identity ← unwrap Identity.generate;
  let signature := sign identity (bstr "correct message") in
  assert_that (negb (verify (public_key identity) (bstr "wrong message") signature)).
Definition test_verify_rejects_wrong_key : M rng CryptoError unit :=
  alice ← unwrap Identity.generate;
  bob ← unwrap Identity.generate;
  let message := bstr "hello" in
  let signature := sign alice message in
  assert_that (negb (verify (public_key bob) message signature)).

(** ** media.rs *)
Definition test_wrong_key_fails : M rng CryptoError unit :=
  '(ciphertext, _) ← unwrap (encrypt_file (bstr "secret document content"));
  let wrong_key := array_repeat 32 Byte.xff in
  assert_err (lift (decrypt_file ciphertext wrong_key)).
Definition test_tampered_ciphertext_fails : M rng CryptoError unit :=
  '(ciphertext, key) ← unwrap (encrypt_file (bstr "important data"));
  idx ← lift (NONCEBYTES +usize 1);
  ciphertext ← lift (index_xor ciphertext idx Byte.xff);
  assert_err (lift (decrypt_file ciphertext key)).
Definition test_different_files_get_different_keys : M rng CryptoError unit :=
  '(_, key1) ← unwrap (encrypt_file (bstr "file one"));
  '(_, key2) ← unwrap (encrypt_file (bstr "file two"));
  assert_ne key1 key2.

(** ** prekeys.rs *)
Definition test_signed_prekey_rejects_wrong_identity : M rng CryptoError unit :=
  identity ← unwrap Identity.generate;
  other ← unwrap Identity.generate;
  spk ← unwrap (SignedPreKey.generate identity 1);
  assert_that (negb (SignedPreKey.verify spk (public_key other))).
Definition test_rotation_generates_different_key : M rng CryptoError unit :=
  identity ← unwrap Identity.generate;
  spk1 ← unwrap (SignedPreKey.generate identity 1);
  spk2 ← unwrap (SignedPreKey.generate identity 2);
  assert_ne (SignedPreKey.prekey_id spk1) (SignedPreKey.prekey_id spk2);;
  assert_ne (SignedPreKey.public_key spk1) (SignedPreKey.public_key spk2);;
  assert_that (SignedPreKey.verify spk1 (public_key identity));;
  assert_that (SignedPreKey.verify spk2 (public_key identity)).

(** ** safety_number.rs *)
Definition test_different_keys_produce_different_safety_numbers : M rng CryptoError unit :=
  alice ← unwrap Identity.generate;
  bob ← unwrap Identity.generate;
  carol ← unwrap Identity.generate;
  sn_ab ← safety_number_of alice bob;
  sn_ac ← safety_number_of alice carol;
  sn_bc ← safety_number_of bob carol;
  assert_ne sn_ab sn_ac;;
  assert_ne sn_ab sn_bc;;
  assert_ne sn_ac sn_bc.

(** ** sealed_sender.rs *)
Definition test_decrypt_fails_for_wrong_recipient : M rng CryptoError unit :=
  unwrap init_sodium;;
  sender ← unwrap Identity.generate;
  recipient ← unwrap Identity.generate;
  attacker ← unwrap Identity.generate;
  sealed ← unwrap (encrypt_to_identity sender (public_key recipient) (bstr "secret sdp"));
  assert_err (decrypt_from_identity attacker (public_key sender) sealed).
Definition test_decrypt_fails_for_forged_sender : M rng CryptoError unit :=
  unwrap init_sodium;;
  real_sender ← unwrap Identity.generate;
  forger ← unwrap Identity.generate;
  recipient ← unwrap Identity.generate;
  forged ← unwrap (encrypt_to_identity forger (public_key recipient) (bstr "injected sdp"));
  assert_err (decrypt_from_identity recipient (public_key real_sender) forged).
Definition test_unseal_fails_with_wrong_key : M rng CryptoError unit :=
  unwrap init_sodium;;
  '(pk, _) ← draw box_gen_keypair;
  '(_, sk2) ← draw box_gen_keypair;
  envelope ← unwrap (seal (bstr "sender_key_hex") (bstr "secret") pk);
  assert_err (lift (unseal utf8_error_string envelope pk sk2)).
Definition test_seal_hides_sender_from_server : M rng CryptoError unit :=
  unwrap init_sodium;;
  '(pk, _) ← draw box_gen_keypair;
  env1 ← unwrap (seal (bstr "sender_a") (bstr "msg1") pk);
  env2 ← unwrap (seal (bstr "sender_b") (bstr "msg2") pk);
  assert_ne env1 env2.

(** ** security.rs *)
Definition test_secure_random_bytes_non_repeating : M rng CryptoError unit :=
  unwrap init_sodium;;
  a ← secure_random_bytes 32;
  b ← secure_random_bytes 32;
  assert_ne a b.
(** The size of the [HashSet] of the bytes is the number of different ones. *)
Definition test_secure_random_bytes_large : M rng CryptoError unit :=
  unwrap init_sodium;;
  bytes ← secure_random_bytes 1024;
  assert_that (blen bytes =? 1024);;
  let unique_bytes := remove_dups bytes in
  assert_that (1 <? blen unique_bytes).

(** ** x3dh.rs *)
Definition test_x3dh_rejects_bad_signature : M rng CryptoError unit :=
  alice ← unwrap Identity.generate;
  bob ← unwrap Identity.generate;
  mallory ← unwrap Identity.generate;
  '(spk_pk, _) ← draw box_gen_keypair;
  let bad_sig := sign mallory (array_list spk_pk) in
  let bundle := mkRecipientPreKeyBundle (public_key bob) spk_pk bad_sig None in
  assert_err (initiate_x3dh alice bundle).
End tests.

(** ** When they pass *)
Section conditions.
Context {BP : BuildProfile} {SO : Sodium} {HA : Hashes} {HX : Hex}.

Definition wrong_key_refused (m : bytes) : rng → Prop :=
  drawn aead_gen_nonce (λ n _,
    ¬ aead_made (aead_seal m None n (array_repeat 32 Byte.x42)) None n (array_repeat 32 Byte.x43)).
Definition wrong_ad_refused : rng → Prop :=
  drawn aead_gen_nonce (λ n _,
    let key := array_repeat 32 Byte.x42 in
    ¬ aead_made (aead_seal (bstr "hello") (Some (bstr "correct ad")) n key) (Some (bstr "wrong ad")) n key).
Definition flip_refused (m : bytes) (i : Z) (b : byte) : rng → Prop :=
  drawn aead_gen_nonce (λ n _,
    let key := array_repeat 32 Byte.x42 in
    tampering_detected (λ c, aead_made c None n key) (aead_seal m None n key) i b).

Definition messages_signed_apart (m1 p1 b1 : bytes) (t1 : Z) (m2 p2 b2 : bytes) (t2 : Z) : rng → Prop :=
  drawn sign_gen_keypair (λ id _,
    sign_detached (build_signed_message m1 p1 t1 b1) id.2 ≠ sign_detached (build_signed_message m2 p2 t2 b2) id.2).

(** The first message key of a session, from the shared secret and the first exchange. *)
Definition first_key (shared_secret dh : key32) : key32 := msg_key (rk_step shared_secret dh).2.
Definition wrong_secret_refused : rng → Prop :=
  drawn box_gen_keypair (λ bob, drawn box_gen_keypair (λ alice, drawn aead_gen_nonce (λ n _,
    ∀ dh, scalarmult alice.2 bob.1 = Some dh →
      ¬ aead_made (aead_seal (bstr "secret") (Some (bstr "test")) n (first_key (array_repeat 32 Byte.x42) dh))
          (Some (bstr "test")) n (first_key (array_repeat 32 Byte.x43) dh)))).

Definition file_wrong_key_refused : rng → Prop :=
  drawn secretbox_gen_key (λ key, drawn secretbox_gen_nonce (λ n _,
    ¬ secretbox_made (secretbox_seal (bstr "secret document content") n key) n (array_repeat 32 Byte.xff))).
Definition file_flip_refused : rng → Prop :=
  drawn secretbox_gen_key (λ key, drawn secretbox_gen_nonce (λ n _,
    tampering_detected (λ c, secretbox_made c n key) (secretbox_seal (bstr "important data") n key) 1 Byte.xff)).
Definition file_keys_differ : rng → Prop :=
  drawn secretbox_gen_key (λ key1, drawn secretbox_gen_nonce (λ _, drawn secretbox_gen_key (λ key2 _, key1 ≠ key2))).

Definition other_message_refused : rng → Prop :=
  drawn sign_gen_keypair (λ id _,
    verify_detached (sign_detached (bstr "correct message") id.2) (bstr "wrong message") id.1 = false).
Definition other_signer_refused : rng → Prop :=
  drawn sign_gen_keypair (λ alice, drawn sign_gen_keypair (λ bob _,
    verify_detached (sign_detached (bstr "hello") alice.2) (bstr "hello") bob.1 = false)).
Definition other_prekey_signer_refused : rng → Prop :=
  drawn sign_gen_keypair (λ id, drawn sign_gen_keypair (λ other, drawn box_gen_keypair (λ spk _,
    verify_detached (sign_detached (array_list spk.1) id.2) (array_list spk.1) other.1 = false))).
Definition prekeys_differ : rng → Prop :=
  drawn sign_gen_keypair (λ _, drawn box_gen_keypair (λ spk1, drawn box_gen_keypair (λ spk2 _, spk1.1 ≠ spk2.1))).
Definition mallory_refused : rng → Prop :=
  drawn sign_gen_keypair (λ _, drawn sign_gen_keypair (λ bob, drawn sign_gen_keypair (λ mallory,
    drawn box_gen_keypair (λ spk _,
      verify_detached (sign_detached (array_list spk.1) mallory.2) (array_list spk.1) bob.1 = false)))).

Definition hashes_differ : rng → Prop :=
  drawn sign_gen_keypair (λ a, drawn sign_gen_keypair (λ b, drawn sign_gen_keypair (λ c _,
    shown a b ≠ shown a c ∧ shown a b ≠ shown b c ∧ shown a c ≠ shown b c))).

Definition wrong_recipient_refused : rng → Prop :=
  drawn sign_gen_keypair (λ s, drawn sign_gen_keypair (λ r, drawn sign_gen_keypair (λ a, drawn box_gen_nonce (λ n _,
    box_open (box_seal (bstr "secret sdp") n (box_pk r) (box_sk s)) n (box_pk s) (box_sk a) = None)))).
Definition forged_sender_refused : rng → Prop :=
  drawn sign_gen_keypair (λ s, drawn sign_gen_keypair (λ f, drawn sign_gen_keypair (λ r, drawn box_gen_nonce (λ n _,
    box_open (box_seal (bstr "injected sdp") n (box_pk r) (box_sk f)) n (box_pk s) (box_sk r) = None)))).
(** Not both boxes open, with a sender that is text. *)
Definition unseal_refused (sender m : bytes) : rng → Prop :=
  drawn box_gen_keypair (λ kp, drawn box_gen_keypair (λ kp2,
    drawn (sealedbox_seal sender kp.1) (λ c1, drawn (sealedbox_seal m kp.1) (λ c2 _,
      ¬ ∃ s m, sealedbox_open c1 kp.1 kp2.2 = Some s ∧ utf8_valid s = true ∧
               sealedbox_open c2 kp.1 kp2.2 = Some m)))).
Definition envelopes_differ : rng → Prop :=
  drawn box_gen_keypair (λ kp,
    drawn (sealedbox_seal (bstr "sender_a") kp.1) (λ a1, drawn (sealedbox_seal (bstr "msg1") kp.1) (λ a2,
    drawn (sealedbox_seal (bstr "sender_b") kp.1) (λ b1, drawn (sealedbox_seal (bstr "msg2") kp.1) (λ b2 _,
      (a1, a2) ≠ (b1, b2)))))).

Definition group_ids_differ : rng → Prop :=
  drawn (randombytes 32) (λ a, drawn (randombytes 32) (λ b _, a ≠ b)).
(** In a debug build neither draw may be all zero either. *)
Definition random_bytes_differ : rng → Prop :=
  drawn (randombytes 32) (λ a, drawn (randombytes 32) (λ b _,
    (debug_assertions = true → any_nonzero a = true ∧ any_nonzero b = true) ∧ a ≠ b)).
Definition bytes_vary : rng → Prop :=
  drawn (randombytes 1024) (λ l _, ∃ x y, x ∈ l ∧ y ∈ l ∧ x ≠ y).
End conditions.

(** The tests with their conditions. *)
Section table.
Context {BP : BuildProfile} {SO : Sodium} {HA : Hashes} {HX : Hex}.
Context {SJ : SerdeJson SealedSenderEnvelope}.
Variable utf8_error_string : bytes → bytes.

Definition strength_tests : list (M rng CryptoError unit * (rng → Prop)) :=
  [(test_decrypt_fails_with_wrong_key, wrong_key_refused (bstr "hello"));
   (test_decrypt_fails_with_wrong_ad, wrong_ad_refused);
   (test_decrypt_fails_with_tampered_ciphertext, flip_refused (bstr "hello") 0 Byte.xff);
   (test_different_bodies_produce_different_signatures,
    messages_signed_apart (bstr "POST") (bstr "/api/v1/messages/send") (bstr "body one") 1700000000
      (bstr "POST") (bstr "/api/v1/messages/send") (bstr "body two") 1700000000);
   (test_different_methods_produce_different_signatures,
    messages_signed_apart (bstr "GET") (bstr "/api/v1/keys/prekey_count") [] 1700000000
      (bstr "POST") (bstr "/api/v1/keys/prekey_count") [] 1700000000);
   (test_different_paths_produce_different_signatures,
    messages_signed_apart (bstr "GET") (bstr "/api/v1/path/a") [] 1700000000
      (bstr "GET") (bstr "/api/v1/path/b") [] 1700000000);
   (test_different_timestamps_produce_different_signatures,
    messages_signed_apart (bstr "GET") (bstr "/api/v1/test") [] 1700000000
      (bstr "GET") (bstr "/api/v1/test") [] 1700000001);
   (test_ratchet_wrong_key_fails, wrong_secret_refused);
   (test_group_id_generate_unique, group_ids_differ);
   (test_verify_rejects_wrong_message, other_message_refused);
   (test_verify_rejects_wrong_key, other_signer_refused);
   (test_wrong_key_fails, file_wrong_key_refused);
   (test_tampered_ciphertext_fails, file_flip_refused);
   (test_different_files_get_different_keys, file_keys_differ);
   (test_signed_prekey_rejects_wrong_identity, other_prekey_signer_refused);
   (test_rotation_generates_different_key, prekeys_differ);
   (test_different_keys_produce_different_safety_numbers, hashes_differ);
   (test_decrypt_fails_for_wrong_recipient, wrong_recipient_refused);
   (test_decrypt_fails_for_forged_sender, forged_sender_refused);
   (test_unseal_fails_with_wrong_key utf8_error_string, unseal_refused (bstr "sender_key_hex") (bstr "secret"));
   (test_seal_hides_sender_from_server, envelopes_differ);
   (test_secure_random_bytes_non_repeating, random_bytes_differ);
   (test_secure_random_bytes_large, bytes_vary);
   (test_x3dh_rejects_bad_signature, mallory_refused)].
End table.


(** ** The tests pass exactly when their conditions hold *)
Section exact.
Context {BP : BuildProfile} {SO : Sodium} {HA : Hashes} {HX : Hex}.
Context {SJ : SerdeJson SealedSenderEnvelope}.
Context {L : SodiumLaws SO} {LA : AeadLaws SO} {LB : SecretboxLaws SO} {LH : HashLaws HA}.
Context {LK : KeyLaws SO} {LX : HexLaws HX} {LS : SerdeLaws SealedSenderEnvelope SJ}.

Lemma signatures_iff acc m1 p1 b1 t1 m2 p2 b2 t2 w :
  ready w → sign_keys_nonzero →
  passes (signatures_differ acc m1 p1 b1 t1 m2 p2 b2 t2) w
  ↔ messages_signed_apart m1 p1 b1 t1 m2 p2 b2 t2 w.
Proof.
  intros Hw Hs. apply identity_iff; [done..|]. intros kp w1 _ _. rewrite assert_ne_iff.
  unfold sign_request_with_timestamp, sign. cbn [signature_hex]. split; intros H He; apply H.
  - cbn. by rewrite He.
  - apply (inj hex_encode) in He. pose proof (signature_roundtrip (sign_detached (build_signed_message m1 p1 t1 b1) kp.2)) as Hr.
    cbn in He. rewrite He, signature_roundtrip in Hr. by injection Hr.
Qed.
Lemma wrong_secret_iff w :
  ready w → passes test_ratchet_wrong_key_fails w ↔ wrong_secret_refused w.
Proof.
  intros Hw. apply (bind_iff _ _ _ _ _ _ (unwrap_Ret _ _ _ _ (init_sodium_ready w Hw))).
  apply keypair_iff; [done|]. intros [bpk bsk] w1 Hw1 Hb. cbn [fst snd] in *.
  destruct (init_sender_run (array_repeat 32 Byte.x42) bpk bsk w1 Hw1 Hb)
    as (pk & sk & d & w2 & Hg & Hp & Hw2 & Hd & Hd' & Hi).
  apply (bind_iff _ _ _ _ _ _ (unwrap_Ret _ _ _ _ Hi)). unfold drawn at 1. rewrite Hg. cbn [fst snd].
  eapply bind_iff.
  { apply unwrap_Ret, with_session_Ret. by apply (encrypt_drawn _ w2 (rk_step (array_repeat 32 Byte.x42) d).2 pk sk). }
  unfold drawn. pose proof (ready_aead_gen_nonce w2 Hw2) as Hw3.
  destruct (aead_gen_nonce w2) as [n w3]. cbn [fst snd set_sending_chain_key set_send_message_number] in *.
  pose proof (box_gen_pair w3) as Hkp. destruct (box_gen_keypair w3) as [kp w4] eqn:Hg'. simpl in Hkp.
  destruct (scalarmult_comm _ _ _ _ Hkp Hp) as (d2 & Hd2 & _).
  set (ad := bstr "test"). set (c := aead_seal _ _ _ _).
  assert (decrypt (mkMessageHeader pk 0 0) (array_list n ++ c) ad
            (init_receiver (array_repeat 32 Byte.x43) (bpk, bsk), w3)
    = (ok_or (aead_open c (Some ad) n (first_key (array_repeat 32 Byte.x43) d)) DecryptionFailed,
       (receive_at pk (rk_step (array_repeat 32 Byte.x43) d).2 0
          (ratcheted pk d d2 kp (init_receiver (array_repeat 32 Byte.x43) (bpk, bsk))), w4))) as Hdec.
  { rewrite (decrypt_new_key (mkMessageHeader pk 0 0) _ ad _ w3 _ bpk bsk d kp d2 w4) by done.
    f_equal. unfold c. by rewrite decrypt_with_key_nonce. }
  eapply bind_iff; [apply (try_session_run _ _ _ _ _ _ Hdec); by destruct (aead_open _ _ _ _)|].
  rewrite assert_iff, Hd. transitivity (aead_open c (Some ad) n (first_key (array_repeat 32 Byte.x43) d) = None).
  { by destruct (aead_open _ _ _ _). }
  rewrite aead_refused_iff. unfold c, ad, first_key. split; [by intros H dh [= <-]|]. intros H. by apply H.
Qed.
Lemma test_aead_exact w :
  ready w →
  (passes test_decrypt_fails_with_wrong_key w ↔ wrong_key_refused (bstr "hello") w) ∧
  (passes test_decrypt_fails_with_wrong_ad w ↔ wrong_ad_refused w) ∧
  (passes test_decrypt_fails_with_tampered_ciphertext w ↔ flip_refused (bstr "hello") 0 Byte.xff w).
Proof.
  intros Hw. split_and!; (apply aead_iff; [done|]; intros n w1 Hw1).
  - by rewrite decrypt_nonce, refused_iff, aead_refused_iff.
  - by rewrite decrypt_nonce, refused_iff, aead_refused_iff.
  - by apply aead_flip_iff.
Qed.
Lemma test_media_exact w :
  ready w →
  (passes test_wrong_key_fails w ↔ file_wrong_key_refused w) ∧
  (passes test_tampered_ciphertext_fails w ↔ file_flip_refused w) ∧
  (passes test_different_files_get_different_keys w ↔ file_keys_differ w).
Proof.
  intros Hw. split_and!; (apply file_iff; [done|by vm_compute|]; intros key n w1 Hw1).
  - cbv beta iota zeta. rewrite decrypt_file_nonce, refused_iff; [by apply secretbox_refused_iff|].
    by rewrite secretbox_seal_length.
  - apply (lift_iff _ _ _ 25); [done|]. by apply (file_flip_iff key (bstr "important data") n 1).
  - unfold drawn. pose proof (encrypt_file_drawn (bstr "file two") w1 Hw1 ltac:(by vm_compute)) as H.
    destruct (secretbox_gen_key w1) as [key2 w2], (secretbox_gen_nonce w2) as [n2 w3], H as [He _].
    apply (bind_iff _ _ _ _ _ _ (unwrap_Ret _ _ _ _ He)), assert_ne_iff.
Qed.
Lemma test_keys_exact w :
  ready w → keys_nonzero → sign_keys_nonzero →
  (passes test_verify_rejects_wrong_message w ↔ other_message_refused w) ∧
  (passes test_verify_rejects_wrong_key w ↔ other_signer_refused w) ∧
  (passes test_signed_prekey_rejects_wrong_identity w ↔ other_prekey_signer_refused w) ∧
  (passes test_rotation_generates_different_key w ↔ prekeys_differ w) ∧
  (passes test_different_keys_produce_different_safety_numbers w ↔ hashes_differ w) ∧
  (passes test_x3dh_rejects_bad_signature w ↔ mallory_refused w).
Proof.
  intros Hw Hb Hs. split_and!; (apply identity_iff; [done..|]; intros id w1 Hw1 Hp).
  - apply rejects_iff.
  - apply identity_iff; [done..|]. intros bob w2 _ _. apply rejects_iff.
  - apply identity_iff; [done..|]. intros other w2 Hw2 _. apply spk_iff; [done..|]. intros spk w3 _ _. apply rejects_iff.
  - apply spk_iff; [done..|]. intros spk1 w2 Hw2 _. apply spk_iff; [done..|]. intros spk2 w3 _ _.
    apply assert_true_iff; [done|].
    rewrite (assert_ne_bind_iff _ _ _ _ (spk1.1 ≠ spk2.1) True); [unfold prekeys_differ; tauto|done|].
    apply assert_true_iff; [by apply (verify_sign id.1)|]. rewrite assert_iff. split; [done|]. intros _.
    by apply (verify_sign id.1).
  - apply identity_iff; [done..|]. intros b w2 Hw2 _. apply identity_iff; [done..|]. intros c w3 _ _.
    do 3 apply safety_iff.
    do 2 (apply assert_ne_bind_iff; [apply shown_iff|]). rewrite assert_ne_iff. apply shown_iff.
  - apply identity_iff; [done..|]. intros b w2 Hw2 Hpb. apply identity_iff; [done..|]. intros m w3 Hw3 _.
    apply keypair_iff; [done|]. intros [pk sk] w4 Hw4 Hp4. by apply (x3dh_iff (identity_of id) (identity_of b) pk sk).
Qed.
Lemma test_sealed_exact u w :
  ready w → sign_keys_nonzero → box_overhead →
  (passes test_decrypt_fails_for_wrong_recipient w ↔ wrong_recipient_refused w) ∧
  (passes test_decrypt_fails_for_forged_sender w ↔ forged_sender_refused w) ∧
  (passes (test_unseal_fails_with_wrong_key u) w ↔ unseal_refused (bstr "sender_key_hex") (bstr "secret") w) ∧
  (passes test_seal_hides_sender_from_server w ↔ envelopes_differ w).
Proof.
  intros Hw Hs Hbox. pose proof (unwrap_Ret _ _ _ _ (init_sodium_ready w Hw)) as Hinit.
  split_and!; apply (bind_iff _ _ _ _ _ _ Hinit).
  - apply identity_iff; [done..|]. intros s w1 Hw1 Hps. apply identity_iff; [done..|]. intros r w2 Hw2 Hpr.
    apply identity_iff; [done..|]. intros a w3 Hw3 Hpa. apply (box_iff s r); [done|by vm_compute|done..|].
    intros n w4 Hw4. by apply (open_box_iff a s).
  - apply identity_iff; [done..|]. intros s w1 Hw1 Hps. apply identity_iff; [done..|]. intros f w2 Hw2 Hpf.
    apply identity_iff; [done..|]. intros r w3 Hw3 Hpr. apply (box_iff f r); [done|by vm_compute|done..|].
    intros n w4 Hw4. by apply (open_box_iff r s).
  - apply keypair_iff; [done|]. intros [pk sk] w1 Hw1 _. apply keypair_iff; [done|]. intros [pk2 sk2] w2 Hw2 _.
    apply seal_iff; [done|]. intros c1 c2 v w3 _ Hv. by apply unseal_iff.
  - apply keypair_iff; [done|]. intros [pk sk] w1 Hw1 _.
    apply seal_iff; [done|]. intros a1 a2 v w3 Hw3 Hv. apply seal_iff; [done|]. intros b1 b2 v' w4 _ Hv'.
    rewrite assert_ne_iff. split; intros H He; apply H; [simplify_eq; congruence|].
    subst v'. pose proof (json_roundtrip _ _ Hv) as Hj. rewrite (json_roundtrip _ _ Hv') in Hj. by simplify_eq.
Qed.
Lemma test_random_exact w :
  ready w →
  (passes test_group_id_generate_unique w ↔ group_ids_differ w) ∧
  (passes test_secure_random_bytes_non_repeating w ↔ random_bytes_differ w) ∧
  (passes test_secure_random_bytes_large w ↔ bytes_vary w).
Proof.
  intros Hw. pose proof (unwrap_Ret _ _ _ _ (init_sodium_ready w Hw)) as Hinit.
  split_and!; apply (bind_iff _ _ _ _ _ _ Hinit).
  - apply group_id_iff; [done|]. intros a w1 Hw1. apply group_id_iff; [done|]. intros b w2 _.
    rewrite assert_ne_iff. split; intros H He; apply H; [by apply array_eq|]. simpl in He. by rewrite He.
  - etransitivity.
    { apply random_iff; [done..|]. intros a w1 Hw1 _. apply random_iff; [done..|]. intros b w2 _ _. apply assert_ne_iff. }
    unfold random_bytes_differ, drawn. change (Z.to_nat 32) with 32%nat. cbv beta. tauto.
  - etransitivity.
    { apply (random_iff _ _ (λ l _, ∃ x y, x ∈ l ∧ y ∈ l ∧ x ≠ y)); [done..|].
      intros l w1 Hw1 Hl. apply assert_true_iff; [by apply Z.eqb_eq|].
      rewrite assert_iff, Z.ltb_lt. apply distinct_bytes_iff. }
    unfold bytes_vary, drawn. change (Z.to_nat 1024) with 1024%nat. cbv beta. split; [tauto|].
    intros (x & y & Hx & Hy & Hne). split; [|by exists x, y]. intros _. by apply (vary_nonzero _ x y).
Qed.

(** The tests of refusals are exact. The unit tests that expect a wrong key,
    associated data, recipient, signer or shared secret or a changed ciphertext to be
    refused, or drawn keys, signatures, identifiers and envelopes to differ, pass if
    and only if the primitives and the generator allow it: a test of a cipher passes
    iff the ciphertext is not the sealing of some message under the wrong key, one of
    a signature iff the primitive does not verify it, one of safety numbers iff the 24
    bytes shown of the hashes differ, one of random values iff the draws differ. The
    code around them never accepts more, and never refuses less. *)
Lemma strength_tests_exact u w :
  ready w → keys_nonzero → sign_keys_nonzero → box_overhead →
  Forall (λ t, passes t.1 w ↔ t.2 w) (strength_tests u).
Proof.
  intros Hw Hb Hs Hbox.
  destruct (test_aead_exact w Hw) as (? & ? & ?), (test_media_exact w Hw) as (? & ? & ?).
  destruct (test_keys_exact w Hw Hb Hs) as (? & ? & ? & ? & ? & ?).
  destruct (test_sealed_exact u w Hw Hs Hbox) as (? & ? & ? & ?), (test_random_exact w Hw) as (? & ? & ?).
  pose proof (wrong_secret_iff w Hw). repeat apply Forall_cons_2; try apply Forall_nil_2; try done;
    by apply signatures_iff.
Qed.
End exact.
