(* ===== verification/UnitTests.v ===== *)
(** * All the unit tests of the crate

    The lists of the test files together, for one generator, one clock and one set of
    implementations of the interfaces. A test that does not rest on the strength of the
    cryptography passes without a condition. *)

From S2P Require Import Prelude RustStr Errors Sodium Instances Harness Identity Prekeys.
From S2P Require Import RatchetScripts RatchetTests PaddingTests.
From S2P Require Import Json JsonReader MessagePayload PayloadFormat PayloadTests Media Group DataTests SealedSender KeyTests.
From S2P Require Import ServerAuth AuthTests StrengthTests.
Local Open Scope rust_scope.

Section unit_tests.
Context {BP : BuildProfile} {SO : Sodium} {HA : Hashes} {HX : Hex}.
Context {SJ : SerdeJson MessagePayload} {SJE : SerdeJson SealedSenderEnvelope}.
Context {SJG : SerdeJson GroupInfo.t} {SJM : SerdeJson FileMetadata}.
Context {SV : Server} {HB : HeaderBuild SV}.
Variable utf8_error_string : bytes → bytes.

Definition unit_tests (clock : option Z) : list (M rng CryptoError unit) :=
  double_ratchet_tests ++ padding_tests ++ payload_tests ++ key_tests utf8_error_string clock
  ++ data_tests ++ group_tests clock ++ auth_tests clock ++ header_tests.
(** Each test with the condition under which it passes. *)
Definition conditional_tests (clock : option Z) : list (M rng CryptoError unit * (rng → Prop)) :=
  ((λ t, (t, λ _, True)) <$> unit_tests clock) ++ strength_tests utf8_error_string.

(** What the tests need of the machine they run on. *)
Record test_machine (clock : option Z) (w : rng) : Prop := {
  tm_ready : ready w;
  tm_fresh : Forall (λ x, test_fresh x.1.1 x.1.2 x.2 w) scripts_of_tests;
  tm_box_keys : keys_nonzero;
  tm_sign_keys : sign_keys_nonzero;
  tm_random : any_nonzero (randombytes 32 w).1 = true;
  tm_clock : clock_runs clock;
  tm_overhead : box_overhead;
}.

Context {L : SodiumLaws SO} {LA : AeadLaws SO} {LB : SecretboxLaws SO} {LH : HashLaws HA}.
Context {LK : KeyLaws SO} {LX : HexLaws HX}.
Context {JS : JsonStrings} {PF : PayloadFormat SJ} {LSE : SerdeLaws SealedSenderEnvelope SJE}.
Context {LHB : HeaderBuildLaws SV HB}.
Context {LSG : SerdeLaws GroupInfo.t SJG} {LSM : SerdeLaws FileMetadata SJM}.

Lemma unit_tests_run clock w :
  test_machine clock w → Forall (λ t, passes t w) (unit_tests clock).
Proof.
  intros [Hw Hf Hb Hs Hr Hc Ho]. pose proof Hc as (now & -> & Hnow).
  unfold unit_tests. rewrite !Forall_app. split_and!.
  - by apply double_ratchet_tests_pass.
  - by apply padding_tests_pass.
  - by apply payload_tests_pass.
  - by apply key_tests_pass.
  - by apply data_tests_pass.
  - apply group_tests_pass; [done|lia].
  - apply auth_tests_pass; [done|done|lia].
  - apply header_tests_pass.
Qed.

(** C39: the crate's unit tests are exact. For every implementation that satisfies the
    interfaces' laws and every generator, each test of double_ratchet.rs,
    padding.rs, message_payload.rs, identity.rs, prekeys.rs, x3dh.rs, sealed_sender.rs,
    safety_number.rs, aes_gcm.rs, media.rs, group.rs, security.rs, errors.rs and of both
    auth.rs runs to its end if and only if its condition holds. That is no condition
    at all for the tests of what the code does on its own: no [unwrap] fails and every
    assertion holds. For the 24 tests that expect a wrong key, signer or
    recipient or a changed ciphertext to be refused, or drawn values to differ, it is that the
    ciphertext is not the sealing of another message under the wrong key, that the
    primitive does not verify the signature, or that the draws differ: the code
    around the primitives never accepts more and never refuses less. *)
Theorem unit_tests_exact clock w :
  test_machine clock w → Forall (λ t, passes t.1 w ↔ t.2 w) (conditional_tests clock).
Proof.
  intros Hm. unfold conditional_tests. apply Forall_app. split.
  - apply Forall_fmap. eapply Forall_impl; [by apply unit_tests_run|]. by intros t Ht.
  - destruct Hm. by apply strength_tests_exact.
Qed.
End unit_tests.

Lemma toy_scripts_fresh :
  Forall (λ x, @test_fresh release_profile toy_sodium toy_hashes x.1.1 x.1.2 x.2 9) scripts_of_tests.
Proof. apply (bool_decide_unpack _). by vm_compute. Qed.
Lemma toy_test_machine :
  @test_machine release_profile toy_sodium toy_hashes (Some 1700000000) 9.
Proof.
  split; [done|apply toy_scripts_fresh|apply toy_keys_nonzero_release|apply toy_sign_keys_nonzero_release|by vm_compute
         |by exists 1700000000|intros m n pk sk; apply toy_seal_length].
Qed.
Lemma unit_tests_exact_witness :
  Forall (λ t, passes t.1 9 ↔ t.2 9)
    (@conditional_tests release_profile toy_sodium toy_hashes toy_hex serde_payload
       (countable_serde SealedSenderEnvelope) (countable_serde GroupInfo.t) (countable_serde FileMetadata)
       uuid_server toy_header_build id (Some 1700000000)).
Proof.
  exact (@unit_tests_exact release_profile toy_sodium toy_hashes toy_hex serde_payload
           (countable_serde SealedSenderEnvelope) (countable_serde GroupInfo.t)
           (countable_serde FileMetadata) uuid_server toy_header_build id _ _ _ _ toy_key_laws _
           serde_strings serde_payload_format (countable_serde_laws _) _ (countable_serde_laws _) (countable_serde_laws _)
           (Some 1700000000) 9 toy_test_machine).
Defined.

(** The conditions can hold: the stand-in cipher refuses the wrong key of
    [test_decrypt_fails_with_wrong_key]. *)
Lemma toy_seal_inj m m' ad ad' n n' k k' :
  toy_seal m ad n k = toy_seal m' ad' n' k' → m = m' ∧ toy_tag k n ad m = toy_tag k' n' ad' m'.
Proof.
  intros H. apply app_inj_2 in H as [-> H]; [|by rewrite !array_length]. split; [done|by apply array_eq].
Qed.
Example toy_refuses_wrong_key : @wrong_key_refused toy_sodium (bstr "hello") 9.
Proof. intros [m H]. apply toy_seal_inj in H as [<- H]. apply (f_equal array_list) in H. by vm_compute in H. Qed.
