(* ===== verification/Conversation.v ===== *)
(** * A conversation in order

    [converse] is the loop of the message-flow tests: each turn one side encrypts,
    the other decrypts, and the plaintext is compared. Unlike the runs of
    RatchetSession.v it is a program, and the theorem says that it never fails,
    however the sides take turns, and that no message key is ever stored. *)

From S2P Require Import Prelude RustStr Errors Sodium Instances Harness AesGcm DoubleRatchet.
From S2P Require Import RatchetFacts RatchetChain RatchetProps RatchetNetwork RatchetReceive.
From S2P Require Import RatchetSession.
Local Open Scope rust_scope.

Section conversation.
Context {BP : BuildProfile} {SO : Sodium} {HA : Hashes}.

(** One turn: (alice, bob) are the two sessions. *)
Definition exchange (ad : bytes) (sender : side) (text : bytes) (alice bob : RatchetState) :
  M rng CryptoError (RatchetState * RatchetState) :=
  match sender with
  | Alice =>
      '((h, ct), alice) ← unwrap (with_session (encrypt text ad) alice);
      '(pt, bob) ← unwrap (with_session (decrypt h ct ad) bob);
      assert_that (bool_decide (pt = text));;
      mret (alice, bob)
  | Bob =>
      '((h, ct), bob) ← unwrap (with_session (encrypt text ad) bob);
      '(pt, alice) ← unwrap (with_session (decrypt h ct ad) alice);
      assert_that (bool_decide (pt = text));;
      mret (alice, bob)
  end.
Fixpoint converse (ad : bytes) (script : list (side * bytes)) (alice bob : RatchetState) :
  M rng CryptoError (RatchetState * RatchetState) :=
  match script with
  | [] => mret (alice, bob)
  | (sender, text) :: script =>
      '(alice, bob) ← exchange ad sender text alice bob;
      converse ad script alice bob
  end.

Lemma turn_run ad b m alice bob alice' bob' h ct w w1 w2 :
  (match b with
   | Alice => encrypt m ad (alice, w) = (Ret (h, ct), (alice', w1)) ∧
              decrypt h ct ad (bob, w1) = (Ret m, (bob', w2))
   | Bob => encrypt m ad (bob, w) = (Ret (h, ct), (bob', w1)) ∧
            decrypt h ct ad (alice, w1) = (Ret m, (alice', w2))
   end) →
  exchange ad b m alice bob w = (Ret (alice', bob'), w2).
Proof.
  destruct b; intros [He Hd]; unfold exchange.
  all: mstep (unwrap_Ret _ _ _ _ (with_session_Ret _ _ _ _ _ _ He)).
  all: mstep (unwrap_Ret _ _ _ _ (with_session_Ret _ _ _ _ _ _ Hd)).
  all: by mstep (assert_that_true (S:=rng) (E:=CryptoError) _ w2 (bool_decide_eq_true_2 _ (eq_refl m))).
Qed.

(** The receiver's next ratchet key differs from its present one, at every turn. *)
Definition turn_fresh (ad : bytes) (sender : side) (text : bytes) (alice bob : RatchetState) (w : rng) : Prop :=
  let '(snd, rcv) := match sender with Alice => (alice, bob) | Bob => (bob, alice) end in
  (box_gen_keypair (encrypt text ad (snd, w)).2.2).1.1 ∉ own_key rcv.
Fixpoint fresh_script (ad : bytes) (script : list (side * bytes)) (alice bob : RatchetState) (w : rng) : Prop :=
  match script with
  | [] => True
  | (sender, text) :: script =>
      turn_fresh ad sender text alice bob w ∧
      match exchange ad sender text alice bob w with
      | (Ret (alice, bob), w) => fresh_script ad script alice bob w
      | _ => True
      end
  end.
End conversation.

(** ** The invariant between two turns *)
Section lockstep.
Context {BP : BuildProfile} {SO : Sodium} {HA : Hashes}.
Context {L : SodiumLaws SO} {LA : AeadLaws SO} {LH : HashLaws HA} {LK : KeyLaws SO}.
Implicit Types (s sL sF : RatchetState) (w : rng).

(** The leader [sL] has not sent on its new chain; the follower's chain, if it has
    one, is the one the leader receives on, at the same place; nothing is stored. *)
Record lockstep sL sF (N : Z) (pkL skL pkF skF d ckL : key32) : Prop := {
  lk_kpL : sending_keypair sL = Some (pkL, skL);
  lk_boxL : box_pair pkL skL;
  lk_kpF : sending_keypair sF = Some (pkF, skF);
  lk_boxF : box_pair pkF skF;
  lk_remL : remote_ratchet_key sL = Some pkF;
  lk_remF : remote_ratchet_key sF ≠ Some pkL;
  lk_dh : scalarmult skF pkL = Some d;
  lk_root : rk_step (root_key sF) d = (root_key sL, ckL);
  lk_ckL : sending_chain_key sL = Some ckL;
  lk_snL : send_message_number sL = 0;
  lk_chain : receiving_chain_key sL = sending_chain_key sF;
  lk_num : recv_message_number sL = send_message_number sF;
  lk_snF : 0 ≤ send_message_number sF ≤ N;
  lk_old : receiving_chain_key sF = None ∨ recv_message_number sF = previous_chain_length sL;
  lk_pl : 0 ≤ previous_chain_length sL ≤ N;
  lk_rnF : 0 ≤ recv_message_number sF ≤ N;
  lk_plF : 0 ≤ previous_chain_length sF ≤ N;
  lk_skL : skipped_keys sL = ∅;
  lk_skF : skipped_keys sF = ∅;
}.

(** Closing the old chain stores nothing: everything was received. *)
Lemma skip_current_all until s w :
  is_u32 until → receiving_chain_key s = None ∨ recv_message_number s = until →
  skip_message_keys_for_current_chain until (s, w) = (Ret tt, (s, w)).
Proof.
  intros Hu [Hn|Hn]; [by apply skip_current_none; left|].
  destruct (receiving_chain_key s) as [ck|] eqn:Hck; [|by apply skip_current_none; left].
  destruct (remote_ratchet_key s) as [pk|] eqn:Hpk; [|by apply skip_current_none; right].
  subst until. rewrite (skip_current_run _ s w ck pk) by done.
  rewrite (proj2 (Z.ltb_ge _ _)) by (unfold MAX_SKIP; lia).
  unfold cache_until. rewrite Z.sub_diag. destruct s; simpl in *; by subst.
Qed.

(** The leader sends: whenever the follower reads it, it ratchets and the roles change. *)
Lemma leader_turn ad m sL sF w N pkL skL pkF skF d ckL :
  ready w → lockstep sL sF N pkL skL pkF skF d ckL → N + 1 < 2 ^ 32 → blen m + 40 ≤ isize_max →
  ∃ h ct sL',
    encrypt m ad (sL, w) = (Ret (h, ct), (sL', (aead_gen_nonce w).2)) ∧ blen ct = blen m + 40 ∧
    ∀ w1, ready w1 → (box_gen_keypair w1).1.1 ∉ own_key sF →
    ∃ sF' w2 pk sk d' ck,
      decrypt h ct ad (sF, w1) = (Ret m, (sF', w2)) ∧ ready w2 ∧
      lockstep sF' sL' (N + 1) pk sk pkL skL d' ck ∧ sending_chain_key sL' ≠ None.
Proof.
  intros Hw Hl HN Hm. destruct Hl.
  destruct (encrypt_run sL w ckL pkL skL m ad Hw) as (nc & He & _); try done; [by rewrite lk_snL0|].
  rewrite lk_snL0 in He. eexists _, _, _. split; [exact He|].
  split; [rewrite blen_app, array_blen, aead_seal_length; unfold MACBYTES; lia|]. intros w1 Hw1 Hfresh.
  pose proof (box_gen_pair w1) as Hbox. pose proof (ready_box_gen_keypair w1 Hw1) as Hw2.
  destruct (box_gen_keypair w1) as [[npk nsk] w2] eqn:Hgen. simpl in *.
  destruct (scalarmult_comm npk nsk pkL skL Hbox lk_boxL0) as (d2 & Hd2 & Hd2').
  unfold own_key in Hfresh. rewrite lk_kpF0 in Hfresh.
  pose proof (decrypt_new_key (mkMessageHeader pkL (previous_chain_length sL) 0)
    (array_list nc ++ aead_seal m (Some ad) nc (msg_key ckL)) ad sF w1 sF pkF skF d (npk, nsk) d2 w2)
    as Hdec. simpl in Hdec.
  rewrite lk_root0, lk_skF0 in Hdec. simpl in Hdec. unfold mk_at in Hdec. simpl in Hdec.
  eexists _, _, npk, nsk, d2, (rk_step (root_key sL) d2).2. split.
  { rewrite Hdec; try done; [by rewrite decrypt_with_key_sealed|].
    apply skip_current_all; [unfold is_u32, in_width; lia|done]. }
  split; [done|]. unfold ratcheted. rewrite lk_root0.
  destruct (rk_step (root_key sL) d2) as [r2 sck] eqn:Hr2.
  destruct sL as [rk sck0 rck kp rem sn rn pl sk], sF as [rk' sck' rck' kp' rem' sn' rn' pl' sk'].
  simpl in *. subst. split; [|done].
  split; simpl; try done; try lia.
  intros [= ->]. apply Hfresh. by apply elem_of_singleton.
Qed.
Lemma exchange_leader ad m sL sF w N pkL skL pkF skF d ckL :
  ready w → lockstep sL sF N pkL skL pkF skF d ckL → N + 1 < 2 ^ 32 → blen m + 40 ≤ isize_max →
  (box_gen_keypair (encrypt m ad (sL, w)).2.2).1.1 ∉ own_key sF →
  ∃ h ct sL' w1 sF' w2 pk sk d' ck,
    encrypt m ad (sL, w) = (Ret (h, ct), (sL', w1)) ∧
    decrypt h ct ad (sF, w1) = (Ret m, (sF', w2)) ∧ ready w2 ∧
    lockstep sF' sL' (N + 1) pk sk pkL skL d' ck ∧ sending_chain_key sL' ≠ None.
Proof.
  intros Hw Hl HN Hm Hfresh.
  destruct (leader_turn ad m sL sF w N _ _ _ _ _ _ Hw Hl HN Hm) as (h & ct & sL' & He & _ & Hread).
  rewrite He in Hfresh. simpl in Hfresh.
  destruct (Hread _ (ready_aead_gen_nonce w Hw) Hfresh) as (sF' & w2 & pk & sk & d' & ck & Hrest).
  by exists h, ct, sL', (aead_gen_nonce w).2, sF', w2, pk, sk, d', ck.
Qed.

(** The follower sends on its chain. *)
Lemma exchange_follower ad m sL sF w N pkL skL pkF skF d ckL :
  ready w → lockstep sL sF N pkL skL pkF skF d ckL → sending_chain_key sF ≠ None →
  N + 1 < 2 ^ 32 → blen m + 40 ≤ isize_max →
  ∃ h ct sF' w1 sL',
    encrypt m ad (sF, w) = (Ret (h, ct), (sF', w1)) ∧
    decrypt h ct ad (sL, w1) = (Ret m, (sL', w1)) ∧ ready w1 ∧
    lockstep sL' sF' (N + 1) pkL skL pkF skF d ckL ∧ sending_chain_key sF' ≠ None.
Proof.
  intros Hw Hl Hck HN Hm. destruct Hl. destruct (sending_chain_key sF) as [ck|] eqn:Hsck; [|done].
  destruct (encrypt_run sF w ck pkF skF m ad Hw) as (nc & He & Hw1); try done;
    [unfold is_u32, in_width; lia|].
  pose proof (decrypt_current (mkMessageHeader pkF (previous_chain_length sF) (send_message_number sF))
    (array_list nc ++ aead_seal m (Some ad) nc (msg_key ck)) ad sL (aead_gen_nonce w).2 ck) as Hdec.
  simpl in Hdec. rewrite lk_num0, Z.sub_diag in Hdec. unfold mk_at in Hdec. simpl in Hdec.
  eexists _, _, _, _, _. split; [exact He|]. split.
  { rewrite Hdec; try done; [by rewrite decrypt_with_key_sealed|by rewrite lk_skL0|..];
      unfold is_u32, in_width, MAX_SKIP; lia. }
  split; [done|].
  destruct sL as [rk sck0 rck kp rem sn rn pl sk], sF as [rk' sck' rck' kp' rem' sn' rn' pl' sk'].
  simpl in *. subst. split; [|done]. split; simpl; rewrite ?Z.sub_diag; try done; try lia.
Qed.

(** The two sessions, whoever leads. Before Bob has received anything, Alice
    leads and only she can speak. *)
Definition in_step (alice bob : RatchetState) (N : Z) (started : bool) : Prop :=
  ∃ ldr pkL skL pkF skF d ckL,
    let '(sL, sF) := match ldr with Alice => (alice, bob) | Bob => (bob, alice) end in
    lockstep sL sF N pkL skL pkF skF d ckL ∧
    (ldr = Bob ∨ started = true → sending_chain_key sF ≠ None).

Lemma exchange_in_step ad b m alice bob N started w :
  ready w → in_step alice bob N started → (started = false → b = Alice) →
  N + 1 < 2 ^ 32 → blen m + 40 ≤ isize_max → turn_fresh ad b m alice bob w →
  ∃ alice' bob' w', exchange ad b m alice bob w = (Ret (alice', bob'), w') ∧
    ready w' ∧ in_step alice' bob' (N + 1) true.
Proof.
  intros Hw (ldr & pkL & skL & pkF & skF & d & ckL & Hl) Hb HN Hm Hf. unfold turn_fresh in Hf.
  destruct ldr, b; destruct Hl as [Hl Hs]; simpl in Hf.
  - destruct (exchange_leader ad m alice bob w N _ _ _ _ _ _ Hw Hl HN Hm Hf)
      as (h & ct & a' & w1 & b' & w2 & pk & sk & d' & ck & He & Hd & Hw2 & Hl' & Hs').
    exists a', b', w2. split; [by apply (turn_run _ _ _ _ _ _ _ h ct w w1)|]. split; [done|].
    by exists Bob, pk, sk, pkL, skL, d', ck.
  - destruct started; [|by specialize (Hb eq_refl)].
    destruct (exchange_follower ad m alice bob w N _ _ _ _ _ _ Hw Hl ltac:(auto) HN Hm)
      as (h & ct & b' & w1 & a' & He & Hd & Hw1 & Hl' & Hs').
    exists a', b', w1. split; [by apply (turn_run _ _ _ _ _ _ _ h ct w w1)|]. split; [done|].
    by exists Alice, pkL, skL, pkF, skF, d, ckL.
  - destruct (exchange_follower ad m bob alice w N _ _ _ _ _ _ Hw Hl ltac:(auto) HN Hm)
      as (h & ct & a' & w1 & b' & He & Hd & Hw1 & Hl' & Hs').
    exists a', b', w1. split; [by apply (turn_run _ _ _ _ _ _ _ h ct w w1)|]. split; [done|].
    by exists Bob, pkL, skL, pkF, skF, d, ckL.
  - destruct (exchange_leader ad m bob alice w N _ _ _ _ _ _ Hw Hl HN Hm Hf)
      as (h & ct & b' & w1 & a' & w2 & pk & sk & d' & ck & He & Hd & Hw2 & Hl' & Hs').
    exists a', b', w2. split; [by apply (turn_run _ _ _ _ _ _ _ h ct w w1)|]. split; [done|].
    by exists Alice, pk, sk, pkL, skL, d', ck.
Qed.

Lemma converse_in_step ad script alice bob N started w :
  ready w → in_step alice bob N started →
  (started = false → match script with (Bob, _) :: _ => False | _ => True end) →
  N + blen script < 2 ^ 32 → Forall (λ x, blen x.2 + 40 ≤ isize_max) script →
  fresh_script ad script alice bob w →
  ∃ alice' bob' w', converse ad script alice bob w = (Ret (alice', bob'), w') ∧
    ready w' ∧ in_step alice' bob' (N + blen script) (bool_decide (script ≠ []) || started).
Proof.
  revert alice bob N started w.
  induction script as [|[b m] script IH]; intros alice bob N started w Hw Hs Hb HN Hms Hf.
  { exists alice, bob, w. by rewrite blen_nil, Z.add_0_r. }
  rewrite blen_cons in *. pose proof (blen_nonneg script). inversion_clear Hms as [|?? Hm Hms'].
  destruct Hf as [Hf Hfs].
  destruct (exchange_in_step ad b m alice bob N started w Hw Hs) as (a1 & b1 & w1 & He & Hw1 & Hs1);
    [by intros ->; destruct b; [|specialize (Hb eq_refl)]|lia|done|done|].
  rewrite He in Hfs.
  destruct (IH a1 b1 (N + 1) true w1 Hw1 Hs1) as (a2 & b2 & w2 & He2 & Hw2 & Hs2); [done|lia|done|done|].
  exists a2, b2, w2. split; [by simpl; mstep He; rewrite He2|]. split; [done|].
  rewrite orb_true_r in Hs2. by rewrite Z.add_assoc.
Qed.
(** What does not depend on who leads. *)
Lemma in_step_facts alice bob N started b :
  in_step alice bob N started →
  let s := match b with Alice => alice | Bob => bob end in
  skipped_keys s = ∅ ∧ (∃ pk sk, sending_keypair s = Some (pk, sk) ∧ box_pair pk sk) ∧
  0 ≤ recv_message_number s ≤ N ∧ 0 ≤ previous_chain_length s ≤ N ∧ 0 ≤ send_message_number s ≤ N ∧
  (b = Alice ∨ started = true → sending_chain_key s ≠ None).
Proof.
  intros (ldr & pkL & skL & pkF & skF & d & ckL & Hl).
  destruct ldr; destruct Hl as [[] Hs]; destruct b; simpl;
    (split_and!; [done|by eexists _, _|lia|lia|lia|lia|lia|lia|]).
  - by rewrite lk_ckL0.
  - intros [?|?]; [done|]. apply Hs. by right.
  - intros _. apply Hs. by left.
  - by rewrite lk_ckL0.
Qed.
End lockstep.

(** ** Properties *)
Section conversation_properties.
Context {BP : BuildProfile} {SO : Sodium} {HA : Hashes}.
Context {L : SodiumLaws SO} {LA : AeadLaws SO} {LH : HashLaws HA} {LK : KeyLaws SO}.

Lemma in_step_start ss bpk bsk w alice w1 :
  ready w → box_pair bpk bsk → init_sender ss bpk w = (Ret alice, w1) →
  ready w1 ∧ in_step alice (init_receiver ss (bpk, bsk)) 0 false.
Proof.
  intros Hw Hb Hi.
  destruct (init_sender_run ss bpk bsk w Hw Hb) as (pk & sk & d & w' & Hg & Hp & Hw' & _ & Hd & Hi').
  rewrite Hi in Hi'. injection Hi' as -> ->. split; [done|].
  exists Alice, pk, sk, bpk, bsk, d, (rk_step ss d).2. split; [|by intros [|]].
  split; simpl; try done; [by destruct (rk_step ss d)|by left].
Qed.

Lemma converse_from_start ss bpk bsk w alice w1 ad script :
  ready w → box_pair bpk bsk → bpk ≠ (box_gen_keypair w).1.1 →
  init_sender ss bpk w = (Ret alice, w1) →
  match script with (Bob, _) :: _ => False | _ => True end →
  blen script < 2 ^ 32 → Forall (λ x, blen x.2 + 40 ≤ isize_max) script →
  fresh_script ad script alice (init_receiver ss (bpk, bsk)) w1 →
  ∃ alice' bob' w', converse ad script alice (init_receiver ss (bpk, bsk)) w1
                    = (Ret (alice', bob'), w') ∧
    skipped_keys alice' = ∅ ∧ skipped_keys bob' = ∅.
Proof.
  intros Hw Hb Hne Hi Hfirst Hlen Hms Hf.
  destruct (in_step_start ss bpk bsk w alice w1 Hw Hb Hi) as [Hw1 Hs].
  destruct (converse_in_step ad script alice _ 0 false w1 Hw1 Hs) as (a & b & w2 & Hc & _ & Hs2);
    [by intros _|lia|done|done|].
  exists a, b, w2. split; [done|].
  destruct Hs2 as (ldr & pkL & skL & pkF & skF & d & ckL & Hl).
  destruct ldr; destruct Hl as [[] _]; by split.
Qed.

(** A conversation in order never fails and stores nothing. From the sessions
    that [init_sender] and [init_receiver] make, with Alice speaking first, every
    script of turns (any speaker at each, up to the counter's range), run as the
    message-flow tests run it, decrypts every message to its plaintext with no error,
    panic or failed assertion; at the end no message key is left in either cache. *)
Theorem conversation_delivers ss bpk bsk w alice w1 ad script :
  ready w → box_pair bpk bsk → bpk ≠ (box_gen_keypair w).1.1 →
  init_sender ss bpk w = (Ret alice, w1) →
  match script with (Bob, _) :: _ => False | _ => True end →
  blen script < 2 ^ 32 → Forall (λ x, blen x.2 + 40 ≤ isize_max) script →
  fresh_script ad script alice (init_receiver ss (bpk, bsk)) w1 →
  ∃ alice' bob' w', converse ad script alice (init_receiver ss (bpk, bsk)) w1
                    = (Ret (alice', bob'), w') ∧
    skipped_keys alice' = ∅ ∧ skipped_keys bob' = ∅.
Proof. apply converse_from_start. Qed.
End conversation_properties.

#[export] Instance fresh_script_dec {BP : BuildProfile} {SO : Sodium} {HA : Hashes} ad script alice bob w :
  Decision (fresh_script ad script alice bob w).
Proof.
  revert alice bob w. induction script as [|[b m] script IH]; intros alice bob w; simpl; [apply _|].
  apply and_dec.
  - unfold turn_fresh. destruct b; apply _.
  - destruct (exchange ad b m alice bob w) as [[[a' b']|e|] w']; apply _.
Defined.

(** The conversation of the first message-flow test, in short. *)
Definition wit_script : list (side * bytes) :=
  [(Alice, bstr "Hello Bob!"); (Bob, bstr "Hi Alice!"); (Alice, bstr "How are you?");
   (Bob, bstr "Good, thanks! And you?"); (Bob, bstr "Awesome"); (Alice, bstr "Let's ship it!")].
Definition wit_alice : RatchetState := st toy_start Alice.
Lemma wit_alice_start :
  @init_sender toy_sodium toy_hashes wit_ss wit_pk 5 = (Ret wit_alice, wd toy_start).
Proof. by vm_compute. Qed.
Lemma wit_script_fresh :
  @fresh_script debug_profile toy_sodium toy_hashes wit_ad wit_script wit_alice
    (init_receiver wit_ss (wit_pk, wit_pk)) (wd toy_start).
Proof. apply (bool_decide_unpack _). by vm_compute. Qed.
Lemma wit_script_fits : Forall (λ x : side * bytes, blen x.2 + 40 ≤ isize_max) wit_script.
Proof. repeat constructor; by vm_compute. Qed.

Lemma conversation_delivers_witness :
  ∃ alice' bob' w',
    @converse debug_profile toy_sodium toy_hashes wit_ad wit_script wit_alice
      (init_receiver wit_ss (wit_pk, wit_pk)) (wd toy_start) = (Ret (alice', bob'), w') ∧
    skipped_keys alice' = ∅ ∧ skipped_keys bob' = ∅.
Proof.
  assert (@ready toy_sodium 5) as H1 by done.
  assert (@box_pair _ toy_key_laws wit_pk wit_pk) as H2 by done.
  assert (wit_pk ≠ (@box_gen_keypair toy_sodium 5).1.1) as H3
    by (apply (bool_decide_unpack _); by vm_compute).
  assert (blen wit_script < 2 ^ 32) as H4 by done.
  exact (@conversation_delivers debug_profile toy_sodium toy_hashes _ _ _ toy_key_laws wit_ss wit_pk
           wit_pk 5 wit_alice (wd toy_start) wit_ad wit_script H1 H2 H3 wit_alice_start I H4
           wit_script_fits wit_script_fresh).
Defined.
