(* ===== verification/EndToEnd.v ===== *)
(** * The crates' components together: from key generation to a delivered message

    [setup_session] is the helper of tests/e2e_message_flow.rs that shows how the
    components are meant to be used: two identities, prekeys, X3DH and the two
    ratchet sessions. [send_first_payload] sends one padded payload over them,
    [message_flow] holds a conversation, and [sealed_flow] sends a message in a sealed
    envelope. The theorems are proved from the components' lemmas only. *)

From S2P Require Import Prelude RustStr Errors Sodium Instances Padding AesGcm DoubleRatchet.
From S2P Require Import RatchetFacts RatchetChain RatchetProps RatchetNetwork RatchetReceive.
From S2P Require Import RatchetSession Identity X3dh Prekeys.
From S2P Require Import RatchetScripts RatchetTests Json JsonReader MessagePayload PayloadFormat Harness Conversation.
From S2P Require Import SealedSender.
Local Open Scope rust_scope.

Section end_to_end.
Context {BP : BuildProfile} {SO : Sodium} {HA : Hashes} {HX : Hex}.
Context {SJ : SerdeJson MessagePayload} {SJE : SerdeJson SealedSenderEnvelope}.
Context {SJP : SerdeJson (MessageHeader * bytes)}.
Variable utf8_error_string : bytes → bytes.

Definition setup_session :
  M rng CryptoError (RatchetState * RatchetState * IdentityKeyPair * IdentityKeyPair) :=
  unwrap init_sodium;;
  alice_id ← unwrap Identity.generate;
  bob_id ← unwrap Identity.generate;
  bob_spk ← unwrap (SignedPreKey.generate bob_id 1);
  bob_otpks ← unwrap (generate_one_time_prekeys 5 100);
  otpk0 ← lift (index bob_otpks 0);
  let bundle := mkRecipientPreKeyBundle (public_key bob_id) (SignedPreKey.public_key bob_spk)
                  (SignedPreKey.signature bob_spk)
                  (Some (OneTimePreKey.prekey_id otpk0, OneTimePreKey.public_key otpk0)) in
  assert_that (SignedPreKey.verify bob_spk (public_key bob_id));;
  init_result ← unwrap (initiate_x3dh alice_id bundle);
  bob_shared_secret ← unwrap (accept_x3dh bob_id (SignedPreKey.secret_key bob_spk)
                                (Some (OneTimePreKey.secret_key otpk0)) (public_key alice_id)
                                (ephemeral_public_key init_result));
  assert_that (bool_decide (shared_secret init_result = bob_shared_secret));;
  alice_ratchet ← unwrap (init_sender (shared_secret init_result) (SignedPreKey.public_key bob_spk));
  let bob_ratchet := init_receiver bob_shared_secret
                       (SignedPreKey.public_key bob_spk, SignedPreKey.secret_key bob_spk) in
  mret (alice_ratchet, bob_ratchet, alice_id, bob_id).

Definition send_first_payload (p : MessagePayload) (ad : bytes) : M rng CryptoError MessagePayload :=
  '(alice, bob, _, _) ← setup_session;
  padded ← to_padded_bytes p;
  '((header, ct), _) ← with_session (DoubleRatchet.encrypt padded ad) alice;
  '(plain, _) ← with_session (DoubleRatchet.decrypt header ct ad) bob;
  lift (from_padded_bytes plain).

(** test_full_message_flow_alice_to_bob, for any script of turns. *)
Definition message_flow (ad : bytes) (script : list (side * bytes)) :
  M rng CryptoError (RatchetState * RatchetState) :=
  '(alice_ratchet, bob_ratchet, _, _) ← setup_session;
  converse ad script alice_ratchet bob_ratchet.
Definition flow_script : list (side * bytes) :=
  [(Alice, bstr "Hello Bob!"); (Bob, bstr "Hi Alice!");
   (Alice, bstr "How are you?"); (Bob, bstr "Good, thanks! And you?");
   (Alice, bstr "Great! Working on VAULTEX."); (Bob, bstr "Awesome, the crypto layer is solid.");
   (Alice, bstr "Let's ship it!")].
Definition test_full_message_flow_alice_to_bob : M rng CryptoError unit :=
  message_flow (bstr "e2e-session") flow_script;;
  mret tt.

(** test_full_flow_with_sealed_sender, for any message. *)
Definition sealed_flow (ad message : bytes) : M rng CryptoError unit :=
  unwrap init_sodium;;
  '(alice_ratchet, bob_ratchet, alice_id, _) ← setup_session;
  '(bob_ss_pk, bob_ss_sk) ← draw box_gen_keypair;
  let alice_identity_hex := hex_encode (array_list (public_key alice_id)) in
  '((header, ratchet_ct), _) ←
    unwrap (with_session (DoubleRatchet.encrypt message ad) alice_ratchet);
  payload ← unwrap (lift (map_err SerializationError (to_vec (header, ratchet_ct))));
  envelope_bytes ← unwrap (seal alice_identity_hex payload bob_ss_pk);
  '(recovered_sender_hex, recovered_payload) ←
    unwrap (lift (unseal utf8_error_string envelope_bytes bob_ss_pk bob_ss_sk));
  assert_that (bool_decide (recovered_sender_hex = alice_identity_hex));;
  '(recovered_header, recovered_ct) ←
    unwrap (lift (map_err SerializationError (json_from_slice recovered_payload)));
  '(plaintext, _) ←
    unwrap (with_session (DoubleRatchet.decrypt recovered_header recovered_ct ad) bob_ratchet);
  assert_that (bool_decide (plaintext = message)).
Definition test_full_flow_with_sealed_sender : M rng CryptoError unit :=
  sealed_flow (bstr "sealed-session") (bstr "Secret sealed message").

(** test_out_of_order_delivery, for any script. *)
Definition scripted_flow (ad : bytes) (script : list op) : M rng CryptoError unit :=
  '(alice_ratchet, bob_ratchet, _, _) ← setup_session;
  run_script ad script (both alice_ratchet bob_ratchet, []);;
  mret tt.
Definition out_of_order_script : list op :=
  ((λ i, Says Alice (bstr "Message #" ++ to_string_uint i)) <$> seqZ 0 5)
  ++ (Reads <$> [4; 1; 0; 3; 2]%nat).
Definition test_out_of_order_delivery : M rng CryptoError unit :=
  scripted_flow (bstr "ooo-e2e") out_of_order_script.

(** The ratchet keys that the flow draws are new at every turn. *)
Definition flow_fresh (ad : bytes) (script : list (side * bytes)) (w : rng) : Prop :=
  match setup_session w with
  | (Ret (alice, bob, _, _), w) => own_key bob ≠ own_key alice ∧ fresh_script ad script alice bob w
  | _ => True
  end.

Context {L : SodiumLaws SO} {LA : AeadLaws SO} {LH : HashLaws HA} {LK : KeyLaws SO}.
Context {JS : JsonStrings} {PF : PayloadFormat SJ} {LSE : SerdeLaws SealedSenderEnvelope SJE}.
Context {LSP : SerdeLaws (MessageHeader * bytes) SJP} {LX : HexLaws HX}.

(** The set-up succeeds and leaves the two sessions on the two ends of a fresh
    chain, with the responder's signed prekey as its ratchet key. *)
Lemma setup_session_run w :
  ready w → keys_nonzero → sign_keys_nonzero →
  ∃ ss bpk bsk ida idb w0 w1 alice,
    setup_session w = (Ret (alice, init_receiver ss (bpk, bsk), ida, idb), w1) ∧
    ready w0 ∧ ready w1 ∧ box_pair bpk bsk ∧ init_sender ss bpk w0 = (Ret alice, w1).
Proof.
  intros Hw Hnz Hsnz.
  destruct (identity_generate_pair w Hw Hsnz) as (ida & wa & Ha & Hwa & Hpa).
  destruct (identity_generate_pair wa Hwa Hsnz) as (idb & wb & Hb & Hwb & Hpb).
  destruct (spk_generate_run idb 1 wb Hwb Hnz) as [Hspk Hws].
  pose proof (box_gen_pair wb) as Hbp. set (spk := SignedPreKey.mk _ _ _ _) in Hspk.
  destruct (generate_loop_run 100 5 0 [] _ Hws Hnz) as (ks & wk & Hks & Hwk & Hids & Hpairs); [lia..|].
  assert (generate_one_time_prekeys 5 100 (box_gen_keypair wb).2 = (Ret ks, wk)) as Hks'.
  { unfold generate_one_time_prekeys. mred. rewrite with_capacity_ok by done. mred. exact Hks. }
  destruct ks as [|k ks]; [done|].
  inversion_clear Hpairs as [|?? [wx Hk] _].
  pose proof (box_gen_pair wx) as Hkp. rewrite <-Hk in Hkp. simpl in Hkp.
  destruct (x3dh_agree ida idb (SignedPreKey.public_key spk) (SignedPreKey.secret_key spk)
    (Some (OneTimePreKey.prekey_id k, (OneTimePreKey.public_key k, OneTimePreKey.secret_key k)))
    wk) as (r & wi & Hi & Hwi & _ & Hacc); try done; [by intros ??? [= _ <- <-]|].
  destruct (init_sender_run (shared_secret r) (SignedPreKey.public_key spk)
              (SignedPreKey.secret_key spk) wi Hwi Hbp)
    as (pk & sk & d & w1 & _ & _ & Hw1 & _ & _ & Hinit).
  eexists (shared_secret r), (SignedPreKey.public_key spk), (SignedPreKey.secret_key spk), ida, idb,
    wi, w1, _. split; [|by split_and!].
  assert (initiate_x3dh ida (mkRecipientPreKeyBundle (public_key idb) (SignedPreKey.public_key spk)
    (SignedPreKey.signature spk) (Some (OneTimePreKey.prekey_id k, OneTimePreKey.public_key k))) wk
    = (Ret r, wi)) as Hi' by exact Hi.
  assert (accept_x3dh idb (SignedPreKey.secret_key spk) (Some (OneTimePreKey.secret_key k))
    (public_key ida) (ephemeral_public_key r) wi = (Ret (shared_secret r), wi)) as Hacc'
    by exact (Hacc wi Hwi).
  assert (SignedPreKey.verify spk (public_key idb) = true) as Hv by exact (verify_sign _ _ _ Hpb).
  unfold setup_session.
  mstep (unwrap_Ret _ _ _ _ (init_sodium_ready w Hw)). mstep (unwrap_Ret _ _ _ _ Ha).
  mstep (unwrap_Ret _ _ _ _ Hb). mstep (unwrap_Ret _ _ _ _ Hspk). mstep (unwrap_Ret _ _ _ _ Hks').
  mstep (eq_refl (lift (index (E:=CryptoError) (k :: ks) 0) wk)).
  mstep (assert_that_true (S:=rng) (E:=CryptoError) _ wk Hv).
  mstep (unwrap_Ret _ _ _ _ Hi'). mstep (unwrap_Ret _ _ _ _ Hacc').
  mstep (assert_that_true (S:=rng) (E:=CryptoError) _ wi (bool_decide_eq_true_2 _ (eq_refl (shared_secret r)))).
  mstep (unwrap_Ret _ _ _ _ Hinit). reflexivity.
Qed.

(** C3: the whole path works. Starting from an initialised library, two identities,
    a signed prekey and one-time prekeys are generated, X3DH is run by both sides,
    the ratchet sessions are created, and the first payload (a direct message, or
    one for a group; any payload of the Rust type that fits in memory) is serialised, padded, encrypted, decrypted, unpadded and parsed;
    no step fails or panics, and the receiver gets the sender's payload. *)
Theorem first_payload_delivered p ad w :
  ready w → keys_nonzero → sign_keys_nonzero →
  payload_ok p = true → payload_fits p → sendable p →
  ∃ w', send_first_payload p ad w = (Ret p, w').
Proof.
  intros Hw Hnz Hsnz Hok Hfit Hp.
  destruct (setup_session_run w Hw Hnz Hsnz)
    as (ss & bpk & bsk & ida & idb & w0 & w1 & alice & Hset & Hw0 & Hw1 & Hb & Hinit).
  destruct (init_sender_run ss bpk bsk w0 Hw0 Hb)
    as (pk & sk & d & w1' & _ & Hpk & _ & _ & Hd & Hinit').
  rewrite Hinit in Hinit'. injection Hinit' as Halice <-.
  destruct (payload_run p w1 Hok Hfit Hp) as (b & w2 & Hb1 & Hb2 & Hw2 & Hbl). specialize (Hw2 Hw1).
  destruct (encrypt_chain alice w2 pk (rk_step ss d).2 b ad Hw2)
    as (h & c & s' & w3 & He & -> & Hg & _ & _ & Hw3).
  { rewrite Halice. by split; [exists sk|..]. }
  { by rewrite Halice. }
  { lia. }
  destruct (first_delivery ss bpk bsk pk sk d w3 _ c _ b ad Hb Hpk Hd Hg) as (s2 & w4 & Hdec & _).
  { rewrite Halice. unfold MAX_SKIP. simpl. lia. }
  exists w4. unfold send_first_payload. mstep Hset. mstep Hb1.
  mstep (with_session_Ret _ _ _ _ _ _ He). mstep (with_session_Ret _ _ _ _ _ _ Hdec).
  unfold lift. by rewrite Hb2.
Qed.

(** The first message of the initiator, between the two ends of the set-up. *)
Lemma first_message ss bpk bsk w0 w1 alice m ad w :
  ready w0 → ready w → box_pair bpk bsk → init_sender ss bpk w0 = (Ret alice, w1) →
  blen m + 40 ≤ isize_max →
  ∃ h c alice' w', DoubleRatchet.encrypt m ad (alice, w) = (Ret (h, c), (alice', w')) ∧ ready w' ∧
    ∀ wb, ∃ bob' wb', DoubleRatchet.decrypt h c ad (init_receiver ss (bpk, bsk), wb)
                      = (Ret m, (bob', wb')).
Proof.
  intros Hw0 Hw Hb Hi Hm.
  destruct (init_sender_run ss bpk bsk w0 Hw0 Hb) as (pk & sk & d & w1' & _ & Hpk & _ & _ & Hd & Hi').
  rewrite Hi in Hi'. injection Hi' as Halice _.
  destruct (encrypt_chain alice w pk (rk_step ss d).2 m ad Hw)
    as (h & c & s' & w' & He & Hh & Hg & _ & _ & Hw'); [|by rewrite Halice|done|].
  { rewrite Halice. by split; [exists sk|..]. }
  exists h, c, s', w'. split_and!; [done..|]. intros wb.
  destruct (first_delivery ss bpk bsk pk sk d wb h c _ m ad Hb Hpk Hd Hg) as (s2 & w4 & Hdec & _).
  { rewrite Halice. unfold MAX_SKIP. simpl. lia. }
  by exists s2, w4.
Qed.

(** A conversation after the set-up. *)
Lemma message_flow_run ad script w :
  ready w → keys_nonzero → sign_keys_nonzero →
  match script with (Bob, _) :: _ => False | _ => True end →
  blen script < 2 ^ 32 → Forall (λ x, blen x.2 + 40 ≤ isize_max) script →
  flow_fresh ad script w →
  ∃ alice bob w', message_flow ad script w = (Ret (alice, bob), w') ∧
    skipped_keys alice = ∅ ∧ skipped_keys bob = ∅.
Proof.
  intros Hw Hnz Hsnz Hfirst Hlen Hms Hf.
  destruct (setup_session_run w Hw Hnz Hsnz)
    as (ss & bpk & bsk & ida & idb & w0 & w1 & alice & Hset & Hw0 & Hw1 & Hb & Hinit).
  unfold flow_fresh in Hf. rewrite Hset in Hf. destruct Hf as [Hne Hf].
  destruct (converse_from_start ss bpk bsk w0 alice w1 ad script) as (a & b & w2 & Hc & Ha & Hb');
    try done.
  { destruct (init_sender_run ss bpk bsk w0 Hw0 Hb) as (pk & sk & d & w1' & Hg & _ & _ & _ & _ & Hi').
    rewrite Hinit in Hi'. injection Hi' as Halice _. rewrite Hg. simpl. intros ->.
    apply Hne. unfold own_key. by rewrite Halice. }
  exists a, b, w2. split; [|done]. unfold message_flow. mstep Hset. exact Hc.
Qed.

(** C22: the first message-flow test passes for every script. From key generation
    and X3DH on, the two users exchange any sequence of messages in order, Alice
    first; no step of the set-up or of the conversation fails, panics or breaks an
    assertion, and no message key is left in a cache. *)
Theorem message_flow_passes ad script w :
  ready w → keys_nonzero → sign_keys_nonzero →
  match script with (Bob, _) :: _ => False | _ => True end →
  blen script < 2 ^ 32 → Forall (λ x, blen x.2 + 40 ≤ isize_max) script →
  flow_fresh ad script w →
  ∃ alice bob w', message_flow ad script w = (Ret (alice, bob), w') ∧
    skipped_keys alice = ∅ ∧ skipped_keys bob = ∅.
Proof. apply message_flow_run. Qed.

(** The out-of-order test, and every plausible script after the set-up, passes. *)
Definition scripted_fresh (ad : bytes) (script : list op) (w : rng) : Prop :=
  match setup_session w with
  | (Ret (alice, bob, _, _), w) => fresh_keys ad script (own_key bob ∪ own_key alice) (both alice bob, []) w
  | _ => True
  end.
Lemma scripted_flow_passes ad script w :
  ready w → keys_nonzero → sign_keys_nonzero →
  plausible script [] ∅ false = true → blen script ≤ MAX_SKIP → Forall op_fits script →
  scripted_fresh ad script w → passes (scripted_flow ad script) w.
Proof.
  intros Hw Hnz Hsnz Hpl Hlen Hfit Hf.
  destruct (setup_session_run w Hw Hnz Hsnz)
    as (ss & bpk & bsk & ida & idb & w0 & w1 & alice & Hset & Hw0 & Hw1 & Hb & Hinit).
  unfold scripted_fresh in Hf. rewrite Hset in Hf. unfold scripted_flow. tstep Hset.
  by apply (script_after_setup ad script ss bpk bsk w0 alice w1).
Qed.
Lemma out_of_order_delivery_passes w :
  ready w → keys_nonzero → sign_keys_nonzero →
  scripted_fresh (bstr "ooo-e2e") out_of_order_script w → passes test_out_of_order_delivery w.
Proof. intros Hw Hnz Hsnz Hf. apply scripted_flow_passes; try done. repeat constructor; by vm_compute. Qed.

(** A sealed message after the set-up. *)
Lemma sealed_flow_run ad message w :
  ready w → keys_nonzero → sign_keys_nonzero → blen message + 40 ≤ isize_max →
  passes (sealed_flow ad message) w.
Proof.
  intros Hw Hnz Hsnz Hm.
  destruct (setup_session_run w Hw Hnz Hsnz)
    as (ss & bpk & bsk & ida & idb & w0 & w1 & alice & Hset & Hw0 & Hw1 & Hb & Hinit).
  pose proof (box_gen_pair w1) as Hbox. pose proof (ready_box_gen_keypair w1 Hw1) as Hw2.
  destruct (box_gen_keypair w1) as [[epk esk] w2] eqn:Hg. simpl in Hbox, Hw2.
  destruct (first_message ss bpk bsk w0 w1 alice message ad w2 Hw0 Hw2 Hb Hinit Hm)
    as (h & c & alice' & w3 & He & Hw3 & Hdec).
  destruct (to_vec_ok (h, c)) as [v Hv].
  set (hexid := hex_encode (array_list (public_key ida))).
  destruct (seal_run utf8_error_string hexid v epk esk w3 Hw3 Hbox) as (env & w4 & Hs & Hu & Hw4).
  { apply utf8_valid_ascii. pose proof (hex_encode_lower (array_list (public_key ida))) as Hl.
    rewrite forallb_forall in Hl |- *. intros x Hx. specialize (Hl x Hx).
    unfold is_lower_hexdigit, between in *. lia. }
  destruct (Hdec w4) as (bob' & w5 & Hd). exists w5. unfold sealed_flow.
  mstep (unwrap_Ret _ _ _ _ (init_sodium_ready w Hw)). mstep Hset.
  rewrite (bind_Ret (draw box_gen_keypair) _ w1 (epk, esk) w2) by (unfold draw; by rewrite Hg).
  mstep (unwrap_Ret _ _ _ _ (with_session_Ret _ _ _ _ _ _ He)).
  rewrite Hv. cbn [map_err]. mstep (eq_refl (unwrap (lift (E:=CryptoError) (Ret v)) w3)).
  mstep (unwrap_Ret _ _ _ _ Hs). rewrite Hu.
  mstep (eq_refl (unwrap (lift (E:=CryptoError) (Ret (hexid, v))) w4)).
  mstep (assert_that_true (S:=rng) (E:=CryptoError) _ w4 (bool_decide_eq_true_2 _ (eq_refl hexid))).
  rewrite (json_roundtrip _ _ Hv). cbn [map_err].
  mstep (eq_refl (unwrap (lift (E:=CryptoError) (Ret (h, c))) w4)).
  mstep (unwrap_Ret _ _ _ _ (with_session_Ret _ _ _ _ _ _ Hd)).
  apply assert_that_true. by apply bool_decide_eq_true_2.
Qed.

(** The sealed-sender test passes for every message. After the set-up, Alice
    encrypts a message, serialises header and ciphertext and seals them with her
    identity for Bob; Bob opens the envelope, finds her identity, parses and
    decrypts. No step fails, and both assertions hold. *)
Theorem sealed_flow_passes ad message w :
  ready w → keys_nonzero → sign_keys_nonzero → blen message + 40 ≤ isize_max →
  passes (sealed_flow ad message) w.
Proof. apply sealed_flow_run. Qed.
End end_to_end.

Lemma first_payload_delivered_witness :
  ∃ w', @send_first_payload release_profile toy_sodium toy_hashes serde_payload
          wit_payload (bstr "session") 9 = (Ret wit_payload, w').
Proof.
  assert (payload_fits wit_payload) as Hf by (by vm_compute).
  assert (@sign_keys_nonzero release_profile toy_sodium) as Hs by exact toy_sign_keys_nonzero_release.
  exact (@first_payload_delivered release_profile toy_sodium toy_hashes serde_payload _ _ _
           toy_key_laws serde_strings serde_payload_format wit_payload (bstr "session") 9 eq_refl
           toy_keys_nonzero_release Hs eq_refl Hf I).
Defined.

Definition header_tuple (h : MessageHeader) :=
  (ratchet_public_key h, h_previous_chain_length h, message_number h).
#[export] Instance MessageHeader_eq_decision : EqDecision MessageHeader.
Proof. solve_decision. Defined.
#[export] Program Instance MessageHeader_countable : Countable MessageHeader :=
  inj_countable' header_tuple (λ '(a, b, c), mkMessageHeader a b c) _.
Next Obligation. by intros []. Qed.
#[export] Hint Opaque flow_fresh scripted_fresh : typeclass_instances.
#[export] Instance flow_fresh_dec {BP : BuildProfile} {SO : Sodium} {HA : Hashes} ad script w :
  Decision (flow_fresh ad script w).
Proof.
  unfold flow_fresh. destruct (setup_session w) as [[[[[a b] ida] idb]|e|] w']; apply _.
Defined.

Lemma wit_flow_fresh :
  @flow_fresh release_profile toy_sodium toy_hashes wit_ad wit_script 9.
Proof. apply (bool_decide_unpack _). by vm_compute. Qed.
Lemma message_flow_passes_witness :
  ∃ alice bob w',
    @message_flow release_profile toy_sodium toy_hashes wit_ad wit_script 9 = (Ret (alice, bob), w') ∧
    skipped_keys alice = ∅ ∧ skipped_keys bob = ∅.
Proof.
  assert (blen wit_script < 2 ^ 32) as H by done.
  exact (@message_flow_passes release_profile toy_sodium toy_hashes _ _ _ toy_key_laws wit_ad wit_script
           9 eq_refl toy_keys_nonzero_release toy_sign_keys_nonzero_release I H wit_script_fits
           wit_flow_fresh).
Defined.
Lemma sealed_flow_passes_witness :
  passes (@sealed_flow release_profile toy_sodium toy_hashes toy_hex
          (countable_serde SealedSenderEnvelope) (countable_serde (MessageHeader * bytes)) id
          (bstr "sealed-session") (bstr "Secret sealed message")) 9.
Proof.
  assert (blen (bstr "Secret sealed message") + 40 ≤ isize_max) as H by done.
  exact (@sealed_flow_passes release_profile toy_sodium toy_hashes toy_hex
           (countable_serde SealedSenderEnvelope) (countable_serde (MessageHeader * bytes)) id
           _ _ _ toy_key_laws (countable_serde_laws _) (countable_serde_laws _) _
           (bstr "sealed-session") (bstr "Secret sealed message") 9 eq_refl
           toy_keys_nonzero_release toy_sign_keys_nonzero_release H).
Defined.
#[export] Instance scripted_fresh_dec {BP : BuildProfile} {SO : Sodium} {HA : Hashes} ad script w :
  Decision (scripted_fresh ad script w).
Proof.
  unfold scripted_fresh. destruct (setup_session w) as [[[[[a b] ida] idb]|e|] w']; apply _.
Defined.
Lemma wit_out_of_order_fresh :
  @scripted_fresh release_profile toy_sodium toy_hashes (bstr "ooo-e2e") out_of_order_script 9.
Proof. apply (bool_decide_unpack _). by vm_compute. Qed.
Lemma scripted_flow_passes_witness :
  passes (@scripted_flow release_profile toy_sodium toy_hashes (bstr "ooo-e2e") out_of_order_script) 9.
Proof.
  assert (blen out_of_order_script ≤ MAX_SKIP) as H by done.
  assert (Forall op_fits out_of_order_script) as H' by (repeat constructor; by vm_compute).
  exact (@scripted_flow_passes release_profile toy_sodium toy_hashes _ _ _ toy_key_laws (bstr "ooo-e2e")
           out_of_order_script 9 eq_refl toy_keys_nonzero_release toy_sign_keys_nonzero_release eq_refl H H'
           wit_out_of_order_fresh).
Defined.
