(* ===== verification/SecurityAudit.v ===== *)
(** * tests/security_audit_tests.rs

    The audit's tests, each as the program that the source has, with the names of the
    source. The tests that expect random values or ciphertexts to differ
    (SA-CRYPTO-01, 02, 03, 14, 17) or a wrong key, a flipped bit or a forged signature
    to be refused (08, 09, 11, 20) are in IntegrationTests.v. *)

From S2P Require Import Prelude RustStr Errors Sodium Instances Harness Padding PaddingTests AesGcm.
From S2P Require Import DoubleRatchet RatchetFacts RatchetChain RatchetProps RatchetNetwork.
From S2P Require Import RatchetReceive RatchetSession RatchetScripts.
From S2P Require Import RatchetTests Identity X3dh Prekeys MessagePayload Security SafetyNumber.
From S2P Require Import SealedSender KeyTests DataTests Conversation EndToEnd.
Local Open Scope rust_scope.

Definition AD : bytes := bstr "security-audit-test".

Section tests.
Context {BP : BuildProfile} {SO : Sodium} {HA : Hashes} {SJ : SerdeJson SealedSenderEnvelope}.
Variable utf8_error_string : bytes → bytes.

Definition setup_session :
  M rng CryptoError (RatchetState * RatchetState * IdentityKeyPair * IdentityKeyPair) :=
  unwrap init_sodium;;
  alice ← unwrap Identity.generate;
  bob ← unwrap Identity.generate;
  bob_spk ← unwrap (SignedPreKey.generate bob 1);
  bob_otpks ← unwrap (generate_one_time_prekeys 5 100);
  otpk0 ← lift (index bob_otpks 0);
  let bundle := mkRecipientPreKeyBundle (public_key bob) (SignedPreKey.public_key bob_spk)
                  (SignedPreKey.signature bob_spk)
                  (Some (OneTimePreKey.prekey_id otpk0, OneTimePreKey.public_key otpk0)) in
  init ← unwrap (initiate_x3dh alice bundle);
  bob_secret ← unwrap (accept_x3dh bob (SignedPreKey.secret_key bob_spk)
                         (Some (OneTimePreKey.secret_key otpk0)) (public_key alice)
                         (ephemeral_public_key init));
  assert_that (bool_decide (shared_secret init = bob_secret));;
  alice_ratchet ← unwrap (init_sender (shared_secret init) (SignedPreKey.public_key bob_spk));
  let bob_ratchet := init_receiver bob_secret
                       (SignedPreKey.public_key bob_spk, SignedPreKey.secret_key bob_spk) in
  mret (alice_ratchet, bob_ratchet, alice, bob).

(** ** Replay and reordering *)
Definition skipped_keys_deleted_after_use : M rng CryptoError unit :=
  '(alice, bob, _, _) ← setup_session;
  '(p1, alice) ← unwrap (with_session (encrypt (bstr "msg 1") AD) alice);
  '(p2, alice) ← unwrap (with_session (encrypt (bstr "msg 2") AD) alice);
  '(p3, alice) ← unwrap (with_session (encrypt (bstr "msg 3") AD) alice);
  bob ← reads AD p3 (bstr "msg 3") bob;
  bob ← reads AD p1 (bstr "msg 1") bob;
  '(replay_result, bob) ← try_session (decrypt p1.1 p1.2 AD) bob;
  assert_that (is_err replay_result);;
  bob ← reads AD p2 (bstr "msg 2") bob;
  mret tt.
Definition replay_attack_prevention : M rng CryptoError unit :=
  '(alice, bob, _, _) ← setup_session;
  '(p, alice) ← unwrap (with_session (encrypt (bstr "one time message") AD) alice);
  bob ← reads AD p (bstr "one time message") bob;
  '(replay, bob) ← try_session (decrypt p.1 p.2 AD) bob;
  assert_that (is_err replay).
Definition out_of_order_message_delivery : M rng CryptoError unit :=
  '(alice, bob, _, _) ← setup_session;
  '(p1, alice) ← unwrap (with_session (encrypt (bstr "first") AD) alice);
  '(p2, alice) ← unwrap (with_session (encrypt (bstr "second") AD) alice);
  '(p3, alice) ← unwrap (with_session (encrypt (bstr "third") AD) alice);
  '(p4, alice) ← unwrap (with_session (encrypt (bstr "fourth") AD) alice);
  '(p5, alice) ← unwrap (with_session (encrypt (bstr "fifth") AD) alice);
  bob ← reads AD p5 (bstr "fifth") bob;
  bob ← reads AD p3 (bstr "third") bob;
  bob ← reads AD p1 (bstr "first") bob;
  bob ← reads AD p4 (bstr "fourth") bob;
  bob ← reads AD p2 (bstr "second") bob;
  mret tt.

(** The loop of [max_skip_enforcement] keeps the last header and ciphertext. *)
Fixpoint encrypt_loop (i : Z) (count : nat) (last_header : option MessageHeader) (last_ct : bytes)
  (alice : RatchetState) : M rng CryptoError (option MessageHeader * bytes * RatchetState) :=
  match count with
  | O => mret (last_header, last_ct, alice)
  | S count =>
      '((h, ct), alice) ←
        unwrap (with_session (encrypt (bstr "msg " ++ to_string_uint i) AD) alice);
      encrypt_loop (i + 1) count (Some h) ct alice
  end.
Definition max_skip_enforcement : M rng CryptoError unit :=
  '(alice, bob, _, _) ← setup_session;
  '(last_header, last_ct, alice) ← encrypt_loop 0 1002 None [] alice;
  last_header ← lift (expect last_header);
  '(result, bob) ← try_session (decrypt last_header last_ct AD) bob;
  assert_that (is_err result).

(** ** The cipher *)
Definition aead_rejects_truncated_ciphertext : M rng CryptoError unit :=
  unwrap init_sodium;;
  let key := array_repeat 32 Byte.x42 in
  '(nonce, ct) ← unwrap (AesGcm.encrypt key (bstr "hello") None);
  truncated ← lift (slice_to ct (blen ct / 2));
  result ← attempt (lift (AesGcm.decrypt key nonce truncated None));
  assert_that (is_err result).
Definition encrypt_decrypt_empty_message : M rng CryptoError unit :=
  unwrap init_sodium;;
  let key := array_repeat 32 Byte.x42 in
  '(nonce, ct) ← unwrap (AesGcm.encrypt key [] None);
  pt ← unwrap (lift (AesGcm.decrypt key nonce ct None));
  assert_that (bool_decide (pt = [])).
Definition encrypt_decrypt_large_message : M rng CryptoError unit :=
  unwrap init_sodium;;
  let key := array_repeat 32 Byte.x42 in
  let large_msg := vec_of Byte.xab 1000000 in
  '(nonce, ct) ← unwrap (AesGcm.encrypt key large_msg None);
  pt ← unwrap (lift (AesGcm.decrypt key nonce ct None));
  assert_that (bool_decide (pt = large_msg)).

(** ** Safety numbers, padding, sealed sender, comparison *)
Definition safety_number_deterministic : M rng CryptoError unit :=
  unwrap init_sodium;;
  alice ← unwrap Identity.generate;
  bob ← unwrap Identity.generate;
  sn1 ← lift (generate_safety_number (array_list (public_key alice)) (array_list (public_key bob)));
  sn2 ← lift (generate_safety_number (array_list (public_key alice)) (array_list (public_key bob)));
  assert_that (bool_decide (sn1 = sn2)).
Definition safety_number_asymmetric : M rng CryptoError unit :=
  unwrap init_sodium;;
  alice ← unwrap Identity.generate;
  bob ← unwrap Identity.generate;
  sn_ab ← lift (generate_safety_number (array_list (public_key alice)) (array_list (public_key bob)));
  sn_ba ← lift (generate_safety_number (array_list (public_key bob)) (array_list (public_key alice)));
  mret tt.
Definition padding_prevents_length_fingerprinting : M rng CryptoError unit :=
  let msg_short := bstr "hi" in
  let msg_medium := bstr "hello world, this is a test" in
  padded_short ← unwrap (pad_message msg_short);
  padded_medium ← unwrap (pad_message msg_medium);
  assert_that (blen msg_short <=? blen padded_short);;
  assert_that (blen msg_medium <=? blen padded_medium);;
  recovered_short ← unwrap (lift (unpad_message padded_short));
  recovered_medium ← unwrap (lift (unpad_message padded_medium));
  assert_that (bool_decide (recovered_short = msg_short));;
  assert_that (bool_decide (recovered_medium = msg_medium)).
Definition sealed_sender_round_trip : M rng CryptoError unit :=
  unwrap init_sodium;;
  '(recipient_pk, recipient_sk) ← draw box_gen_keypair;
  let sender_id := bstr "alice_identity_key_hex_1234567890abcdef" in
  let inner_payload := bstr "encrypted message payload" in
  envelope_bytes ← unwrap (seal sender_id inner_payload recipient_pk);
  '(recovered_sender, recovered_payload) ←
    unwrap (lift (unseal utf8_error_string envelope_bytes recipient_pk recipient_sk));
  assert_that (bool_decide (recovered_sender = sender_id));;
  assert_that (bool_decide (recovered_payload = inner_payload)).
Definition constant_time_eq_equal : M rng CryptoError unit :=
  assert_that (constant_time_eq (bstr "identical_value_1234567890") (bstr "identical_value_1234567890")).
Definition constant_time_eq_unequal : M rng CryptoError unit :=
  assert_that (negb (constant_time_eq (bstr "value_a_1234567890abcdef") (bstr "value_b_1234567890abcdef"))).
Definition constant_time_eq_different_lengths : M rng CryptoError unit :=
  assert_that (negb (constant_time_eq (bstr "short") (bstr "much longer value"))).

(** ** X3DH without a one-time prekey, and a long conversation *)
Definition x3dh_without_one_time_prekey : M rng CryptoError unit :=
  unwrap init_sodium;;
  alice ← unwrap Identity.generate;
  bob ← unwrap Identity.generate;
  bob_spk ← unwrap (SignedPreKey.generate bob 1);
  let bundle := mkRecipientPreKeyBundle (public_key bob) (SignedPreKey.public_key bob_spk)
                  (SignedPreKey.signature bob_spk) None in
  init ← unwrap (initiate_x3dh alice bundle);
  bob_secret ← unwrap (accept_x3dh bob (SignedPreKey.secret_key bob_spk) None (public_key alice)
                         (ephemeral_public_key init));
  assert_that (bool_decide (shared_secret init = bob_secret)).
Definition multi_ratchet_script : list (side * bytes) :=
  ((λ i, (Alice, bstr "alice msg " ++ to_string_uint i)) <$> seqZ 0 3)
  ++ ((λ i, (Bob, bstr "bob msg " ++ to_string_uint i)) <$> seqZ 0 2)
  ++ ((λ i, (Alice, bstr "alice msg " ++ to_string_uint i)) <$> seqZ 3 3)
  ++ [(Bob, bstr "final bob")].
Definition bidirectional_multi_ratchet_conversation : M rng CryptoError unit :=
  '(alice, bob, _, _) ← setup_session;
  converse AD multi_ratchet_script alice bob;;
  mret tt.

Definition audit_tests : list (M rng CryptoError unit) :=
  [skipped_keys_deleted_after_use; replay_attack_prevention; out_of_order_message_delivery;
   max_skip_enforcement; aead_rejects_truncated_ciphertext; encrypt_decrypt_empty_message;
   encrypt_decrypt_large_message; safety_number_deterministic; safety_number_asymmetric;
   padding_prevents_length_fingerprinting; sealed_sender_round_trip; constant_time_eq_equal;
   constant_time_eq_unequal; constant_time_eq_different_lengths; x3dh_without_one_time_prekey;
   bidirectional_multi_ratchet_conversation].
End tests.

(** ** They pass *)
Section passing.
Context {BP : BuildProfile} {SO : Sodium} {HA : Hashes} {HX : Hex} {SJ : SerdeJson SealedSenderEnvelope}.
Context {L : SodiumLaws SO} {LA : AeadLaws SO} {LH : HashLaws HA} {LK : KeyLaws SO}.
Context {LS : SerdeLaws SealedSenderEnvelope SJ}.

(** The set-up is the one of the end-to-end tests without its check of the prekey. *)
Lemma setup_same w r w' : EndToEnd.setup_session w = (Ret r, w') → setup_session w = (Ret r, w').
Proof.
  unfold EndToEnd.setup_session, setup_session. intros H.
  do 6 (apply bind_inv in H as (? & ? & Ha & H); mstep Ha; clear Ha).
  apply bind_inv in H as (? & ? & Ha & H). unfold assert_that in Ha at 1.
  destruct (SignedPreKey.verify _ _); [|done]. injection Ha as _ <-. exact H.
Qed.
Lemma setup_run w :
  ready w → keys_nonzero → sign_keys_nonzero →
  ∃ ss bpk bsk ida idb w0 w1 alice,
    setup_session w = (Ret (alice, init_receiver ss (bpk, bsk), ida, idb), w1) ∧
    ready w0 ∧ box_pair bpk bsk ∧ init_sender ss bpk w0 = (Ret alice, w1).
Proof.
  intros Hw Hb Hs. destruct (setup_session_run w Hw Hb Hs)
    as (ss & bpk & bsk & ida & idb & w0 & w1 & alice & Hset & Hw0 & _ & Hp & Hi).
  exists ss, bpk, bsk, ida, idb, w0, w1, alice. split_and!; [|done..]. by apply setup_same.
Qed.
(** A test that starts with the set-up goes on with the two ends of a chain. *)
Lemma setup_step (k : RatchetState * RatchetState * IdentityKeyPair * IdentityKeyPair → M rng CryptoError unit) w :
  ready w → keys_nonzero → sign_keys_nonzero →
  (∀ alice bob ida idb pk ck0 w', ready w' → send_chain alice pk ck0 → send_message_number alice = 0 →
     listens bob pk ck0 ∅ 0 → passes (k (alice, bob, ida, idb)) w') →
  passes (setup_session ≫= k) w.
Proof.
  intros Hw Hb Hs Hk.
  destruct (setup_run w Hw Hb Hs) as (ss & bpk & bsk & ida & idb & w0 & w1 & alice & Hset & Hw0 & Hp & Hi).
  destruct (chain_start ss bpk bsk w0 alice w1 Hw0 Hp Hi) as (pk & ck0 & Hw1 & Ha & Hn & Hl).
  tstep Hset. by apply (Hk _ _ _ _ pk ck0).
Qed.

Lemma encrypt_loop_run pk ck0 count : ∀ i last ct alice w,
  ready w → send_chain alice pk ck0 → send_message_number alice = i → is_u32 (i + Z.of_nat count) →
  (∀ j, i ≤ j < i + Z.of_nat count → blen (bstr "msg " ++ to_string_uint j) + 40 ≤ isize_max) →
  ∃ last' ct' alice' w', encrypt_loop i count last ct alice w = (Ret (last', ct', alice'), w') ∧
    match count with
    | O => last' = last
    | S _ => ∃ pl, last' = Some (mkMessageHeader pk pl (i + Z.of_nat count - 1))
    end.
Proof.
  induction count as [|count IH]; intros i last ct alice w Hw Hs Hi Hu Hm; [by eexists _, _, _, w|].
  unfold is_u32, in_width in Hu. pose proof (sc_num _ _ _ Hs) as [H0 _].
  destruct (encrypt_chain alice w pk ck0 (bstr "msg " ++ to_string_uint i) AD Hw Hs)
    as (h & c & s' & w' & He & Hh & _ & Hs' & Hn' & Hw');
    [unfold is_u32, in_width; lia|apply Hm; lia|].
  destruct (IH (i + 1) (Some h) c s' w' Hw' Hs') as (last' & ct' & a' & w2 & Hl & Hlast).
  { rewrite Hn'. destruct alice; simpl in *; lia. }
  { unfold is_u32, in_width. lia. }
  { intros j Hj. apply Hm. lia. }
  exists last', ct', a', w2. cbn [encrypt_loop].
  mstep (unwrap_Ret _ _ _ _ (with_session_Ret _ _ _ _ _ _ He)). split; [exact Hl|].
  destruct count as [|count]; [|destruct Hlast as [pl ->]; exists pl; do 2 f_equal; lia].
  exists (previous_chain_length alice). rewrite Hlast, Hh. do 2 f_equal. lia.
Qed.
Lemma audit_texts_fit j :
  0 ≤ j < 1002 → blen (bstr "msg " ++ to_string_uint j) + 40 ≤ isize_max.
Proof.
  intros Hj.
  assert (Forall (λ j, blen (bstr "msg " ++ to_string_uint j) + 40 ≤ isize_max) (seqZ 0 1002)) as H
    by (apply (bool_decide_unpack _); by vm_compute).
  rewrite Forall_forall in H. apply H, elem_of_seqZ. lia.
Qed.
Lemma max_skip_enforced w :
  ready w → keys_nonzero → sign_keys_nonzero → passes max_skip_enforcement w.
Proof.
  intros Hw Hnz Hs.
  destruct (setup_run w Hw Hnz Hs) as (ss & bpk & bsk & ida & idb & w0 & w1 & alice & Hset & Hw0 & Hb & Hi).
  destruct (init_sender_run ss bpk bsk w0 Hw0 Hb) as (pk & sk & d & w1' & _ & Hp & Hw1 & _ & Hd & Hi').
  rewrite Hi in Hi'. injection Hi' as Halice <-.
  assert (send_chain alice pk (rk_step ss d).2) as Ha by (rewrite Halice; by split; [exists sk|..]).
  destruct (encrypt_loop_run pk (rk_step ss d).2 1002 0 None [] alice w1 Hw1 Ha)
    as (last & ct & alice' & w2 & Hl & pl & ->); [by rewrite Halice|done|intros j Hj; apply audit_texts_fit; lia|].
  pose proof (box_gen_pair w2) as Hkp. destruct (box_gen_keypair w2) as [kp w3] eqn:Hg. simpl in Hkp.
  destruct (scalarmult_comm _ _ _ _ Hkp Hp) as (d2 & Hd2 & _).
  set (h := mkMessageHeader pk pl _) in Hl.
  assert (decrypt h ct AD (init_receiver ss (bpk, bsk), w2)
    = (Throw (RatchetError (bstr "too many skipped messages")),
       (ratcheted pk d d2 kp (init_receiver ss (bpk, bsk)), w3))) as Hdec.
  { apply (decrypt_new_key_far h ct AD _ w2 _ bpk bsk); try done. }
  unfold max_skip_enforcement. tstep Hset. tstep Hl. tcompute.
  eapply passes_bind; [by apply (try_session_run _ _ _ _ _ _ Hdec)|]. by tassert.
Qed.

Lemma x3dh_without_passes w :
  ready w → keys_nonzero → sign_keys_nonzero → passes x3dh_without_one_time_prekey w.
Proof.
  intros Hw Hnz Hs. apply init_step; [done|].
  apply identity_step; [done..|]. intros alice w1 Hw1 Ha. apply identity_step; [done..|]. intros bob w2 Hw2 Hb.
  destruct (spk_generate_run bob 1 w2 Hw2 Hnz) as [Hg Hw3]. tstep Hg.
  pose proof (box_gen_pair w2) as Hp. set (spk := SignedPreKey.mk _ _ _ _).
  apply (handshake_step alice bob (SignedPreKey.public_key spk) (SignedPreKey.secret_key spk) None); [done..|].
  intros r w4 _. tassert. by apply bool_decide_eq_true.
Qed.
Lemma truncated_refused key n w :
  passes (W:=rng) (E:=CryptoError)
         (truncated ← lift (slice_to (aead_seal (bstr "hello") None n key)
                                     (blen (aead_seal (bstr "hello") None n key) / 2));
          result ← attempt (lift (AesGcm.decrypt key (array_list n) truncated None));
          assert_that (is_err result)) w.
Proof.
  pose proof (aead_seal_length (bstr "hello") None n key) as Hl. set (ct := aead_seal _ _ _ _) in *.
  change (blen (bstr "hello") + MACBYTES) with 21 in Hl. rewrite Hl. change (21 / 2) with 10.
  rewrite <-(take_drop 10 ct). assert (blen (take 10 ct) = 10) as Ht.
  { unfold blen in *. rewrite length_take. lia. }
  rewrite (slice_to_app_eq _ _ 10) by done. tcompute. rewrite decrypt_nonce.
  assert (aead_open (take 10 ct) None n key = None) as ->.
  { destruct (aead_open _ _ _ _) as [m|] eqn:Ho; [|done]. apply aead_open_inv in Ho.
    pose proof (aead_seal_length m None n key) as Hm. rewrite <-Ho, Ht in Hm.
    pose proof (blen_nonneg m). unfold MACBYTES in Hm. lia. }
  eapply passes_attempt; [done|done|]. by tassert.
Qed.

(** What the tests ask of the generator: the long conversation draws new ratchet
    keys. *)
Definition audit_fresh (w : rng) : Prop := flow_fresh AD multi_ratchet_script w.
Lemma bidirectional_passes w :
  ready w → keys_nonzero → sign_keys_nonzero → audit_fresh w →
  passes bidirectional_multi_ratchet_conversation w.
Proof.
  intros Hw Hnz Hs Hf.
  destruct (message_flow_run AD multi_ratchet_script w Hw Hnz Hs I) as (a & b & w' & Hr & _); [done| |done|].
  { repeat constructor; by vm_compute. }
  unfold message_flow in Hr. apply bind_inv in Hr as ([[[alice bob] ida] idb] & w1 & Hset & Hc).
  unfold bidirectional_multi_ratchet_conversation. tstep (setup_same w _ w1 Hset). tstep Hc. by exists w'.
Qed.

(** The first three end-to-end tests and the tests of
    the security audit that do not rest on random values being different run to
    their end for every generator whose keys do not trip the debug assertions and
    whose ratchet keys are new: from key generation and X3DH on, conversations and
    packets out of order decrypt to their texts, replayed packets, a jump over 1001
    numbers and a truncated ciphertext are refused, and sealed, padded and encrypted
    messages come back. *)
Lemma integration_tests_pass {LX : HexLaws HX}
  {SJP : SerdeJson (MessageHeader * bytes)} {LSP : SerdeLaws (MessageHeader * bytes) SJP} u w :
  ready w → keys_nonzero → sign_keys_nonzero → audit_fresh w →
  flow_fresh (bstr "e2e-session") flow_script w →
  scripted_fresh (bstr "ooo-e2e") out_of_order_script w →
  Forall (λ t, passes t w)
    ([test_full_message_flow_alice_to_bob; test_full_flow_with_sealed_sender u; test_out_of_order_delivery]
     ++ audit_tests u).
Proof.
  intros Hw Hnz Hs Hf1 Hf2 Hf3. each_case.
  - destruct (message_flow_run (bstr "e2e-session") flow_script w Hw Hnz Hs I)
      as (a & b & w' & Hr & _); [done|repeat constructor; by vm_compute|done|].
    unfold test_full_message_flow_alice_to_bob. tstep Hr. by exists w'.
  - by apply sealed_flow_run.
  - by apply out_of_order_delivery_passes.
  - apply setup_step; [done..|]. intros alice bob ida idb pk ck0 w' Hw' Ha Hn Hl. cbn beta iota.
    do 3 speak. do 2 read. cbn [fst snd]. replayed. tassert; [done|]. read. by eexists.
  - apply setup_step; [done..|]. intros alice bob ida idb pk ck0 w' Hw' Ha Hn Hl. cbn beta iota.
    speak. read. cbn [fst snd]. replayed. by tassert.
  - apply setup_step; [done..|]. intros alice bob ida idb pk ck0 w' Hw' Ha Hn Hl. cbn beta iota.
    do 5 speak. do 5 read. by eexists.
  - by apply max_skip_enforced.
  - apply init_step; [done|]. destruct (encrypt_spec (array_repeat 32 Byte.x42) (bstr "hello") None w Hw)
      as (n & He & _). tstep He. apply truncated_refused.
  - apply init_step; [done|]. apply aead_passes; [done|]. intros w'. by tassert.
  - apply init_step; [done|]. apply aead_passes; [done|]. intros w'. tassert. by apply bool_decide_eq_true.
  - apply init_step; [done|]. apply identity_step; [done..|]. intros a w1 Hw1 _.
    apply identity_step; [done..|]. intros b w2 _ _.
    apply safety_step. intros s Hsn. tstep Hsn. tassert. by apply bool_decide_eq_true.
  - apply init_step; [done|]. apply identity_step; [done..|]. intros a w1 Hw1 _.
    apply identity_step; [done..|]. intros b w2 _ _.
    apply safety_step. intros s _. apply safety_step. intros s' _. by eexists.
  - eapply pad_step; [reflexivity|done|reflexivity|done|]. intros q1 w1 Hw1 _ _ Hl1 Hu1 _.
    eapply pad_step; [reflexivity|done|reflexivity|done|]. intros q2 w2 Hw2 _ _ Hl2 Hu2 _.
    rewrite Hl1, Hl2. do 2 (tassert; [done|]). tstep Hu1. tstep Hu2.
    tassert; [by apply bool_decide_eq_true|]. tassert. by apply bool_decide_eq_true.
  - apply init_step; [done|]. apply keypair_step; [done|]. intros pk sk w1 Hw1 Hp. cbv zeta.
    match goal with |- passes (unwrap (seal ?h ?m pk) ≫= _) _ =>
      destruct (seal_run u h m pk sk w1 Hw1 Hp ltac:(reflexivity)) as (b & w2 & Hseal & Hu & _) end.
    tstep Hseal. tstep Hu. tassert; [done|]. by tassert.
  - tassert. rewrite constant_time_eq_spec. by apply bool_decide_eq_true.
  - tassert. by rewrite constant_time_eq_spec.
  - tassert. by rewrite constant_time_eq_spec.
  - by apply x3dh_without_passes.
  - by apply bidirectional_passes.
Qed.
End passing.

Lemma wit_audit_fresh : @audit_fresh release_profile toy_sodium toy_hashes 9.
Proof. unfold audit_fresh. apply (bool_decide_unpack _). by vm_compute. Qed.
Lemma wit_flow_script_fresh :
  @flow_fresh release_profile toy_sodium toy_hashes (bstr "e2e-session") flow_script 9.
Proof. apply (bool_decide_unpack _). by vm_compute. Qed.
