(* ===== verification/Foreign.v ===== *)
(** * A packet of another session

    What [decrypt] does with a packet that the session's peer did not send: it derives
    a key for it, from the present chain or by a DH ratchet step with the header's key,
    and refuses the packet unless it is a sealing under that key. [foreign] says so,
    and [foreign_exact] that nothing else decides. *)

From S2P Require Import Prelude RustStr Errors Sodium Instances Harness AesGcm DoubleRatchet.
From S2P Require Import RatchetFacts RatchetChain Strength.
Local Open Scope rust_scope.

Section foreign.
Context {BP : BuildProfile} {SO : Sodium} {HA : Hashes}.

(** The message key that a session without stored keys derives for a header: from the
    chain it receives on, or from a DH ratchet step. *)
Definition derived_key (s : RatchetState) (h : MessageHeader) : option key32 :=
  if decide (remote_ratchet_key s = Some (ratchet_public_key h)) then
    if message_number h <? recv_message_number s then None
    else ck ← receiving_chain_key s; Some (mk_at ck (message_number h - recv_message_number s))
  else
    ck ← new_chain_key s (ratchet_public_key h); Some (mk_at ck (message_number h)).
(** It derives none, or the packet is no sealing under it. *)
Definition foreign (ad : bytes) (s : RatchetState) (p : MessageHeader * bytes) : Prop :=
  ∀ k, derived_key s p.1 = Some k → no_sealing k ad p.2.

Context {L : SodiumLaws SO} {LA : AeadLaws SO} {LH : HashLaws HA} {LK : KeyLaws SO}.

Lemma decrypt_with_key_iff k c ad :
  decrypt_with_key k c ad ≠ Panic ∧
  ((∀ m, decrypt_with_key k c ad ≠ Ret m) ↔ no_sealing k ad c).
Proof.
  destruct (decrypt_with_key_cases k c ad) as [(m & n & -> & ->)|Hd].
  - split; [done|]. split; [intros H; by specialize (H m)|]. intros H. by destruct (H n m).
  - rewrite Hd. split; [done|]. split; [|done]. intros _ n m ->. by rewrite decrypt_with_key_sealed in Hd.
Qed.

(** A session without stored keys refuses such a packet, and accepts any other. *)
Record small (s : RatchetState) (p : MessageHeader * bytes) : Prop := {
  sm_cache : skipped_keys s = ∅;
  sm_own : ∃ opk osk, sending_keypair s = Some (opk, osk) ∧ box_pair opk osk;
  sm_their : ∃ psk, box_pair (ratchet_public_key p.1) psk;
  sm_recv : 0 ≤ recv_message_number s ≤ MAX_SKIP;
  sm_pl : 0 ≤ h_previous_chain_length p.1 ≤ MAX_SKIP;
  sm_num : 0 ≤ message_number p.1 ≤ MAX_SKIP;
}.
Lemma foreign_exact ad s p w :
  small s p →
  ∃ o s' w', decrypt p.1 p.2 ad (s, w) = (o, (s', w')) ∧ (ready w → ready w') ∧ o ≠ Panic ∧
    ((∀ m, o ≠ Ret m) ↔ foreign ad s p).
Proof.
  intros [Hcache (opk & osk & Hkp & Hown) (psk & Htheir) Hr Hpl Hn]. unfold MAX_SKIP in *.
  assert (skipped_keys s !! (ratchet_public_key p.1, message_number p.1) = None) as Hnone by (by rewrite Hcache).
  assert (is_u32 (recv_message_number s) ∧ is_u32 (message_number p.1) ∧ is_u32 (message_number p.1 + 1)
          ∧ is_u32 (h_previous_chain_length p.1)) as (Hr' & Hn' & Hn1 & Hpl')
    by (unfold is_u32, in_width; lia).
  unfold foreign, derived_key. case_decide as Hrem.
  - destruct (Z.ltb_spec (message_number p.1) (recv_message_number s)) as [Hlt|Hge].
    { eexists _, _, _. split; [by apply decrypt_consumed|done]. }
    destruct (receiving_chain_key s) as [ck|] eqn:Hck; simpl;
      [|eexists _, _, _; split; [by apply decrypt_no_chain; unfold MAX_SKIP; try lia|done]].
    eexists _, _, _. split; [apply (decrypt_current p.1 p.2 ad s w ck); unfold MAX_SKIP; done || lia|].
    destruct (decrypt_with_key_iff (mk_at ck (message_number p.1 - recv_message_number s)) p.2 ad) as [Hp ->].
    split; [done|]. split; [done|]. split; [by intros H ? [= <-]|]. intros H. by apply H.
  - destruct (close_chain (h_previous_chain_length p.1) s w) as (s' & Hclose & Hroot & Hkp' & _);
      [done|done|unfold MAX_SKIP; lia|].
    pose proof (box_gen_pair w) as Hbox. pose proof (ready_box_gen_keypair w) as Hw'.
    destruct (box_gen_keypair w) as [kp w'] eqn:Hg. simpl in Hbox, Hw'.
    destruct (scalarmult_comm _ _ _ _ Hown Htheir) as (d & Hd & _).
    destruct (scalarmult_comm _ _ _ _ Hbox Htheir) as (d2 & Hd2 & _).
    eexists _, _, _. split.
    { apply (decrypt_new_key p.1 p.2 ad s w s' opk osk d kp d2 w'); try done. by rewrite Hkp'. }
    unfold new_chain_key. rewrite Hroot, Hkp. simpl. rewrite Hd. simpl.
    destruct (decrypt_with_key_iff (mk_at (rk_step (root_key s) d).2 (message_number p.1)) p.2 ad) as [Hp ->].
    split; [done|]. split; [done|]. split; [by intros H ? [= <-]|]. intros H. by apply H.
Qed.

(** The end of a test: [assert!(session.decrypt(..).is_err())]. *)
Definition assert_foreign (ad : bytes) (p : MessageHeader * bytes) (s : RatchetState) : M rng CryptoError unit :=
  '(result, s) ← try_session (decrypt p.1 p.2 ad) s;
  assert_that (is_err result).
Lemma foreign_iff ad s p (k : unit → M rng CryptoError unit) w (C : Prop) :
  small s p → ready w →
  (∀ w', ready w' → (∃ o s', decrypt p.1 p.2 ad (s, w) = (o, (s', w'))) → (passes (k tt) w' ↔ C)) →
  (passes (assert_foreign ad p s ≫= k) w ↔ foreign ad s p ∧ C).
Proof.
  intros Hs Hw Hk. destruct (foreign_exact ad s p w Hs) as (o & s' & w' & Hd & Hw' & Ho & Hf).
  specialize (Hk w' (Hw' Hw) ltac:(by eexists _, _)).
  assert (assert_foreign ad p s w = (if is_err o then Ret tt else Panic, w')) as Hrun.
  { unfold assert_foreign. by mstep (try_session_run _ _ _ _ _ _ Hd Ho). }
  rewrite <-Hf. destruct (is_err o) eqn:He.
  - rewrite (bind_iff _ _ _ _ _ _ Hrun Hk). destruct o; naive_solver.
  - split; [intros [w2 H2]; unfold mbind, M_bind in H2; by rewrite Hrun in H2|].
    intros [H _]. destruct o as [m| |]; [by specialize (H m)|done..].
Qed.
End foreign.
