(* ===== verification/IntegrationTests.v ===== *)
(** * The integration tests that rest on the strength of the cryptography

    The tests of tests/e2e_message_flow.rs and tests/security_audit_tests.rs that expect
    a packet of another session, a wrong key or a changed ciphertext or signature to be
    refused, or ciphertexts to differ, each with the condition under which it
    passes, the test that restores a snapshot, and all integration tests together. *)

From S2P Require Import Prelude RustStr Errors Sodium Instances Harness AesGcm DoubleRatchet.
From S2P Require Import RatchetFacts RatchetChain RatchetProps RatchetNetwork RatchetReceive.
From S2P Require Import RatchetSession RatchetScripts.
From S2P Require Import RatchetTests Identity X3dh Prekeys Auth SafetyNumber SealedSender KeyTests AuthTests.
From S2P Require Import MessagePayload Strength StrengthTests Foreign Conversation EndToEnd SecurityAudit.
Local Open Scope rust_scope.

(** ** The tests *)
Section tests.
Context {BP : BuildProfile} {SO : Sodium} {HA : Hashes} {HX : Hex} {SJ : SerdeJson SealedSenderEnvelope}.
Context {SJR : SerdeJson RatchetStateSer} {HI : HashMapIter (key32 * Z) key32}.
Variable utf8_error_string : bytes → bytes.

(** *** e2e_message_flow.rs *)
Definition request_body : bytes :=
  [Byte.x7b; Byte.x22] ++ bstr "to" ++ [Byte.x22; Byte.x3a; Byte.x22] ++ bstr "bob" ++ [Byte.x22; Byte.x2c; Byte.x22]
  ++ bstr "msg" ++ [Byte.x22; Byte.x3a; Byte.x22] ++ bstr "hello" ++ [Byte.x22; Byte.x7d].
Definition test_auth_request_signing : M rng CryptoError unit :=
  identity ← unwrap Identity.generate;
  let account_id := bstr "e2e-test-account-uuid" in
  let timestamp := 1700000000 in
  let method := bstr "POST" in
  let path := bstr "/api/v1/messages/send" in
  let body := request_body in
  let header := sign_request_with_timestamp identity account_id method path body timestamp in
  let message := build_signed_message method path timestamp body in
  sig_bytes ← lift (expect (hex_decode (signature_hex header)));
  signature ← lift (expect (signature_from_bytes sig_bytes));
  assert_that (verify (public_key identity) message signature);;
  let tampered_message := build_signed_message method path timestamp (bstr "tampered body") in
  assert_that (negb (verify (public_key identity) tampered_message signature));;
  let wrong_path_message := build_signed_message method (bstr "/api/v1/evil") timestamp body in
  assert_that (negb (verify (public_key identity) wrong_path_message signature));;
  replay_timestamp ← lift (add_w 64 timestamp 1);
  let replay_message := build_signed_message method path replay_timestamp body in
  assert_that (negb (verify (public_key identity) replay_message signature));;
  other_identity ← unwrap Identity.generate;
  assert_that (negb (verify (public_key other_identity) message signature)).

(** One of the two sessions that [test_multi_party_sessions] sets up. *)
Definition open_session (alice_id peer_id : IdentityKeyPair) (first_id : Z) :
  M rng CryptoError (RatchetState * RatchetState) :=
  spk ← unwrap (SignedPreKey.generate peer_id 1);
  otpks ← unwrap (generate_one_time_prekeys 1 first_id);
  otpk0 ← lift (index otpks 0);
  let bundle := mkRecipientPreKeyBundle (public_key peer_id) (SignedPreKey.public_key spk)
                  (SignedPreKey.signature spk)
                  (Some (OneTimePreKey.prekey_id otpk0, OneTimePreKey.public_key otpk0)) in
  init ← unwrap (initiate_x3dh alice_id bundle);
  secret ← unwrap (accept_x3dh peer_id (SignedPreKey.secret_key spk)
                     (Some (OneTimePreKey.secret_key otpk0)) (public_key alice_id)
                     (ephemeral_public_key init));
  assert_that (bool_decide (shared_secret init = secret));;
  alice_ratchet ← unwrap (init_sender (shared_secret init) (SignedPreKey.public_key spk));
  let peer_ratchet := init_receiver secret (SignedPreKey.public_key spk, SignedPreKey.secret_key spk) in
  mret (alice_ratchet, peer_ratchet).
Definition multi_ad : bytes := bstr "multi-party".
(** The test up to the attempts on the other's packet. *)
Definition multi_party_messages :
  M rng CryptoError ((RatchetState * RatchetState) * ((MessageHeader * bytes) * (MessageHeader * bytes))) :=
  unwrap init_sodium;;
  alice_id ← unwrap Identity.generate;
  bob_id ← unwrap Identity.generate;
  carol_id ← unwrap Identity.generate;
  '(alice_bob, bob) ← open_session alice_id bob_id 200;
  '(alice_carol, carol) ← open_session alice_id carol_id 300;
  '(p_bob, _) ← unwrap (with_session (DoubleRatchet.encrypt (bstr "Secret for Bob only") multi_ad) alice_bob);
  '(p_carol, _) ← unwrap (with_session (DoubleRatchet.encrypt (bstr "Secret for Carol only") multi_ad) alice_carol);
  bob ← reads multi_ad p_bob (bstr "Secret for Bob only") bob;
  carol ← reads multi_ad p_carol (bstr "Secret for Carol only") carol;
  mret ((bob, carol), (p_bob, p_carol)).
Definition test_multi_party_sessions : M rng CryptoError unit :=
  '((bob, carol), (p_bob, p_carol)) ← multi_party_messages;
  assert_foreign multi_ad p_carol bob;;
  assert_foreign multi_ad p_bob carol;;
  mret tt.
Definition others_packets_foreign (w : rng) : Prop :=
  match multi_party_messages w with
  | (Ret ((bob, carol), (p_bob, p_carol)), _) => foreign multi_ad bob p_carol ∧ foreign multi_ad carol p_bob
  | _ => False
  end.

Definition fs_ad : bytes := bstr "forward-secrecy".
Definition old_script : list (side * bytes) :=
  ((λ i, (Alice, bstr "Alice msg " ++ to_string_uint i)) <$> seqZ 0 3) ++ [(Bob, bstr "Bob reply")].
Definition new_script : list (side * bytes) :=
  (λ i, (Alice, bstr "New session msg " ++ to_string_uint i)) <$> seqZ 0 5.
(** The test up to the attempts across the sessions. *)
Definition two_sessions :
  M rng CryptoError ((RatchetState * RatchetState) * (RatchetState * RatchetState)) :=
  '(alice, bob, _, _) ← EndToEnd.setup_session;
  old ← converse fs_ad old_script alice bob;
  '(alice2, bob2, _, _) ← EndToEnd.setup_session;
  '(alice2, bob2) ← converse fs_ad new_script alice2 bob2;
  '((h_r, ct_r), bob2) ← unwrap (with_session (DoubleRatchet.encrypt (bstr "reply") fs_ad) bob2);
  '(_, alice2) ← unwrap (with_session (DoubleRatchet.decrypt h_r ct_r fs_ad) alice2);
  new ← converse fs_ad [(Alice, bstr "post-ratchet-advance")] alice2 bob2;
  mret (old, new).
Definition test_forward_secrecy : M rng CryptoError unit :=
  '((alice, bob), (alice2, bob2)) ← two_sessions;
  '(p_new, alice2) ← unwrap (with_session (DoubleRatchet.encrypt (bstr "only for new session") fs_ad) alice2);
  assert_foreign fs_ad p_new bob;;
  '(p_old, alice) ← unwrap (with_session (DoubleRatchet.encrypt (bstr "from old session") fs_ad) alice);
  assert_foreign fs_ad p_old bob2;;
  mret tt.

(** *** security_audit_tests.rs *)
Fixpoint nonce_loop (key : EncryptionKey.t) (i : Z) (count : nat) (nonces : gset bytes) : M rng CryptoError unit :=
  match count with
  | O => mret tt
  | S count =>
      '(nonce, _) ← unwrap (EncryptionKey.encrypt key (bstr "msg-" ++ to_string_uint i) None);
      assert_that (bool_decide (nonce ∉ nonces));;
      nonce_loop key (i + 1) count ({[nonce]} ∪ nonces)
  end.
Definition nonce_uniqueness_across_many_encryptions : M rng CryptoError unit :=
  unwrap init_sodium;;
  let key := EncryptionKey.new (array_repeat 32 Byte.x42) in
  nonce_loop key 0 (Z.to_nat 10000) ∅.

(** The two loops of [double_ratchet_unique_message_keys]. *)
Fixpoint encrypt_same (m : bytes) (count : nat) (alice : RatchetState) :
  M rng CryptoError (list (MessageHeader * bytes)) :=
  match count with
  | O => mret []
  | S count =>
      '(p, alice) ← unwrap (with_session (DoubleRatchet.encrypt m AD) alice);
      ps ← encrypt_same m count alice;
      mret (p :: ps)
  end.
Fixpoint decrypt_same (m : bytes) (ps : list (MessageHeader * bytes)) (bob : RatchetState) : M rng CryptoError unit :=
  match ps with
  | [] => mret tt
  | p :: ps => bob ← reads AD p m bob; decrypt_same m ps bob
  end.
Definition identical_content : bytes := bstr "identical message content".
Definition double_ratchet_unique_message_keys : M rng CryptoError unit :=
  '(alice, bob, _, _) ← SecurityAudit.setup_session;
  headers_and_cts ← encrypt_same identical_content 50 alice;
  let unique := remove_dups (snd <$> headers_and_cts) in
  assert_that (blen unique =? 50);;
  decrypt_same identical_content headers_and_cts bob.

Definition forward_secrecy_after_dh_ratchet : M rng CryptoError unit :=
  '(alice, bob, _, _) ← SecurityAudit.setup_session;
  '((h1, ct1), alice) ← unwrap (with_session (DoubleRatchet.encrypt (bstr "before ratchet") AD) alice);
  '(_, bob) ← unwrap (with_session (DoubleRatchet.decrypt h1 ct1 AD) bob);
  '((h_bob, ct_bob), bob) ← unwrap (with_session (DoubleRatchet.encrypt (bstr "bob reply") AD) bob);
  '(_, alice) ← unwrap (with_session (DoubleRatchet.decrypt h_bob ct_bob AD) alice);
  alice_state_before ← unwrap (lift (DoubleRatchet.to_bytes alice));
  '((h2, ct2), alice) ← unwrap (with_session (DoubleRatchet.encrypt (bstr "after ratchet") AD) alice);
  alice_old ← unwrap (lift (DoubleRatchet.from_bytes alice_state_before));
  '((_, ct_old), alice_old) ← unwrap (with_session (DoubleRatchet.encrypt (bstr "from old state") AD) alice_old);
  assert_ne ct2 ct_old;;
  bob ← reads AD (h2, ct2) (bstr "after ratchet") bob;
  mret tt.

Definition x3dh_rejects_invalid_prekey_signature : M rng CryptoError unit :=
  unwrap init_sodium;;
  alice ← unwrap Identity.generate;
  bob ← unwrap Identity.generate;
  bob_spk ← unwrap (SignedPreKey.generate bob 1);
  bad_sig_bytes ← lift (index_xor (signature_as_ref (SignedPreKey.signature bob_spk)) 0 Byte.xff);
  bad_sig ← lift (expect (signature_from_bytes bad_sig_bytes));
  let bad_bundle := mkRecipientPreKeyBundle (public_key bob) (SignedPreKey.public_key bob_spk) bad_sig None in
  assert_err (initiate_x3dh alice bad_bundle).
Definition aead_detects_ciphertext_tampering : M rng CryptoError unit :=
  unwrap init_sodium;;
  let key := array_repeat 32 Byte.x42 in
  '(nonce, ct) ← unwrap (AesGcm.encrypt key (bstr "sensitive data") None);
  last ← lift (sub_w 64 (blen ct) 1);
  ct ← lift (index_xor ct last Byte.x01);
  assert_err (lift (AesGcm.decrypt key nonce ct None)).
Definition aead_wrong_key_fails : M rng CryptoError unit :=
  unwrap init_sodium;;
  let key1 := array_repeat 32 Byte.x42 in
  let key2 := array_repeat 32 Byte.x43 in
  '(nonce, ct) ← unwrap (AesGcm.encrypt key1 (bstr "secret") None);
  assert_err (lift (AesGcm.decrypt key2 nonce ct None)).
Definition cross_session_isolation : M rng CryptoError unit :=
  '(alice1, _, _, _) ← SecurityAudit.setup_session;
  '(alice2, _, _, _) ← SecurityAudit.setup_session;
  '((_, ct1), _) ← unwrap (with_session (DoubleRatchet.encrypt (bstr "same message") AD) alice1);
  '((_, ct2), _) ← unwrap (with_session (DoubleRatchet.encrypt (bstr "same message") AD) alice2);
  assert_ne ct1 ct2.
Definition safety_number_unique_per_pair : M rng CryptoError unit :=
  unwrap init_sodium;;
  a ← unwrap Identity.generate;
  b ← unwrap Identity.generate;
  c ← unwrap Identity.generate;
  sn_ab ← safety_number_of a b;
  sn_ac ← safety_number_of a c;
  assert_ne sn_ab sn_ac.
Definition sealed_sender_wrong_key_fails : M rng CryptoError unit :=
  unwrap init_sodium;;
  '(recipient_pk, _) ← draw box_gen_keypair;
  '(_, wrong_sk) ← draw box_gen_keypair;
  envelope_bytes ← unwrap (seal (bstr "sender_id") (bstr "payload") recipient_pk);
  assert_err (lift (unseal utf8_error_string envelope_bytes recipient_pk wrong_sk)).
End tests.

(** ** When they pass *)
Section conditions.
Context {BP : BuildProfile} {SO : Sodium} {HA : Hashes} {HX : Hex} {SJ : SerdeJson SealedSenderEnvelope}.

Definition request_signature_specific : rng → Prop :=
  drawn sign_gen_keypair (λ id,
    let message t p b := build_signed_message (bstr "POST") p t b in
    let path := bstr "/api/v1/messages/send" in
    let original := message 1700000000 path request_body in
    let sig := sign_detached original id.2 in
    λ w,
    verify_detached sig (message 1700000000 path (bstr "tampered body")) id.1 = false ∧
    verify_detached sig (message 1700000000 (bstr "/api/v1/evil") request_body) id.1 = false ∧
    verify_detached sig (message 1700000001 path request_body) id.1 = false ∧
    drawn sign_gen_keypair (λ other _, verify_detached sig original other.1 = false) w).

(** Each session's packets are foreign to the other, the second one at the
    generator that the first attempt leaves. *)
Definition sessions_foreign (w : rng) : Prop :=
  match two_sessions w with
  | (Ret ((alice, bob), (alice2, bob2)), w1) =>
      match DoubleRatchet.encrypt (bstr "only for new session") fs_ad (alice2, w1) with
      | (Ret p_new, (_, w2)) =>
          foreign fs_ad bob p_new ∧
          match DoubleRatchet.encrypt (bstr "from old session") fs_ad
                  (alice, (DoubleRatchet.decrypt p_new.1 p_new.2 fs_ad (bob, w2)).2.2) with
          | (Ret p_old, _) => foreign fs_ad bob2 p_old
          | _ => False
          end
      | _ => False
      end
  | _ => False
  end.

Fixpoint drawn_nonces (count : nat) (w : rng) : list bytes :=
  match count with
  | O => []
  | S count => let '(n, w) := aead_gen_nonce w in array_list n :: drawn_nonces count w
  end.
(** The ciphertexts of the first messages of the chain from [ck], all of the text [m]. *)
Fixpoint chain_ciphertexts (m : bytes) (count : nat) (ck : key32) (w : rng) : list bytes :=
  match count with
  | O => []
  | S count =>
      let '(n, w) := aead_gen_nonce w in
      (array_list n ++ aead_seal m (Some AD) n (msg_key ck)) :: chain_ciphertexts m count (next_ck ck) w
  end.
Definition ciphertexts_distinct (w : rng) : Prop :=
  match SecurityAudit.setup_session w with
  | (Ret (alice, _, _, _), w) =>
      ∃ ck, sending_chain_key alice = Some ck ∧ NoDup (chain_ciphertexts identical_content 50 ck w)
  | _ => False
  end.
Definition session_ciphertexts_differ (w : rng) : Prop :=
  match SecurityAudit.setup_session w with
  | (Ret (alice1, _, _, _), w) =>
      match SecurityAudit.setup_session w with
      | (Ret (alice2, _, _, _), w) =>
          ∃ ck1 ck2, sending_chain_key alice1 = Some ck1 ∧ sending_chain_key alice2 = Some ck2 ∧
          drawn aead_gen_nonce (λ n1, drawn aead_gen_nonce (λ n2 _,
            array_list n1 ++ aead_seal (bstr "same message") (Some AD) n1 (msg_key ck1)
            ≠ array_list n2 ++ aead_seal (bstr "same message") (Some AD) n2 (msg_key ck2))) w
      | _ => False
      end
  | _ => False
  end.
Definition tampered_signature_refused : rng → Prop :=
  drawn sign_gen_keypair (λ _, drawn sign_gen_keypair (λ bob, drawn box_gen_keypair (λ spk _,
    ∀ b, index_xor (E:=CryptoError) (signature_as_ref (sign_detached (array_list spk.1) bob.2)) 0 Byte.xff = Ret b →
      ∃ sig, signature_from_bytes b = Some sig ∧ verify_detached sig (array_list spk.1) bob.1 = false))).
Definition two_hashes_differ : rng → Prop :=
  drawn sign_gen_keypair (λ a, drawn sign_gen_keypair (λ b, drawn sign_gen_keypair (λ c _,
    shown a b ≠ shown a c))).
End conditions.

(** The tests with their conditions. *)
Definition integration_strength_tests {BP : BuildProfile} {SO : Sodium} {HA : Hashes} {HX : Hex}
  {SJ : SerdeJson SealedSenderEnvelope} (u : bytes → bytes) : list (M rng CryptoError unit * (rng → Prop)) :=
  [(test_auth_request_signing, request_signature_specific);
   (test_multi_party_sessions, others_packets_foreign);
   (test_forward_secrecy, sessions_foreign);
   (nonce_uniqueness_across_many_encryptions, λ w, NoDup (drawn_nonces (Z.to_nat 10000) w));
   (double_ratchet_unique_message_keys, ciphertexts_distinct);
   (x3dh_rejects_invalid_prekey_signature, tampered_signature_refused);
   (aead_detects_ciphertext_tampering, flip_refused (bstr "sensitive data") 29 Byte.x01);
   (aead_wrong_key_fails, wrong_key_refused (bstr "secret"));
   (cross_session_isolation, session_ciphertexts_differ);
   (safety_number_unique_per_pair, two_hashes_differ);
   (sealed_sender_wrong_key_fails u, unseal_refused (bstr "sender_id") (bstr "payload"))].

(** ** They pass exactly then *)
Section exact.
Context {BP : BuildProfile} {SO : Sodium} {HA : Hashes} {HX : Hex} {SJ : SerdeJson SealedSenderEnvelope}.
Context {L : SodiumLaws SO} {LA : AeadLaws SO} {LH : HashLaws HA} {LK : KeyLaws SO} {LX : HexLaws HX}.
Context {LS : SerdeLaws SealedSenderEnvelope SJ}.

Lemma auth_request_exact w :
  ready w → sign_keys_nonzero → passes test_auth_request_signing w ↔ request_signature_specific w.
Proof.
  intros Hw Hs. apply identity_iff; [done..|]. intros kp w1 Hw1 Hp.
  eapply lift_iff; [unfold sign_request_with_timestamp; cbn [signature_hex]; by rewrite hex_decode_encode|].
  eapply lift_iff; [by rewrite signature_roundtrip|]. apply assert_true_iff; [by apply (verify_sign kp.1)|].
  cbv beta zeta. do 2 (apply assert_bind_iff; [apply negb_true_iff|]; cbv beta zeta).
  apply (lift_iff _ _ _ 1700000001); [done|]. cbv beta zeta. apply assert_bind_iff; [apply negb_true_iff|].
  apply identity_iff; [done..|]. intros other w2 _ _. apply rejects_iff.
Qed.
Lemma nonces_exact key w :
  ready w → passes (unwrap init_sodium;; nonce_loop key 0 (Z.to_nat 10000) ∅) w
            ↔ NoDup (drawn_nonces (Z.to_nat 10000) w).
Proof.
  intros Hw. apply (bind_iff _ _ _ _ _ _ (unwrap_Ret _ _ _ _ (init_sodium_ready w Hw))).
  assert (∀ n i (X : gset bytes) w, ready w →
    passes (nonce_loop key i n X) w ↔ NoDup (drawn_nonces n w) ∧ ∀ x, x ∈ drawn_nonces n w → x ∉ X) as H.
  - clear w Hw. induction n as [|n IH]; intros i X w Hw; simpl.
    { split; [|by exists w]. intros _. split; [constructor|]. intros x Hx. by apply not_elem_of_nil in Hx. }
    etransitivity; [eapply bind_iff; [by apply unwrap_Ret, AesGcm.aead_encrypt_drawn|reflexivity]|].
    pose proof (ready_aead_gen_nonce w Hw) as Hw1. destruct (aead_gen_nonce w) as [c w1]. cbn [fst snd] in *.
    etransitivity; [apply assert_bind_iff; [apply bool_decide_eq_true|by apply IH]|].
    rewrite NoDup_cons. setoid_rewrite elem_of_cons. setoid_rewrite not_elem_of_union.
    setoid_rewrite not_elem_of_singleton. split.
    + intros (Hc & Hnd & Hall). split; [split; [|done]; intros Hin; by destruct (Hall _ Hin)|].
      intros x [->|Hx]; [done|]. by destruct (Hall x Hx).
    + intros ([Hc Hnd] & Hall). split; [apply Hall; by left|]. split; [done|]. intros x Hx.
      split; [by intros ->|]. apply Hall. by right.
  - rewrite H by done. split; [by intros [? _]|]. intros Hnd. split; [done|]. intros x _. apply not_elem_of_empty.
Qed.
Lemma audit_cipher_exact u w :
  ready w → keys_nonzero → sign_keys_nonzero →
  (passes aead_detects_ciphertext_tampering w ↔ flip_refused (bstr "sensitive data") 29 Byte.x01 w) ∧
  (passes aead_wrong_key_fails w ↔ wrong_key_refused (bstr "secret") w) ∧
  (passes safety_number_unique_per_pair w ↔ two_hashes_differ w) ∧
  (passes (sealed_sender_wrong_key_fails u) w ↔ unseal_refused (bstr "sender_id") (bstr "payload") w) ∧
  (passes x3dh_rejects_invalid_prekey_signature w ↔ tampered_signature_refused w).
Proof.
  intros Hw Hb Hs. pose proof (unwrap_Ret _ _ _ _ (init_sodium_ready w Hw)) as Hinit.
  split_and!; apply (bind_iff _ _ _ _ _ _ Hinit).
  - apply aead_iff; [done|]. intros n w1 _.
    apply (lift_iff _ _ _ 29); [by rewrite aead_seal_length|]. by apply aead_flip_iff.
  - apply aead_iff; [done|]. intros n w1 _. by rewrite decrypt_nonce, refused_iff, aead_refused_iff.
  - apply identity_iff; [done..|]. intros a w1 Hw1 _. apply identity_iff; [done..|]. intros b w2 Hw2 _.
    apply identity_iff; [done..|]. intros c w3 _ _. do 2 apply safety_iff. rewrite assert_ne_iff. apply shown_iff.
  - apply keypair_iff; [done|]. intros [pk sk] w1 Hw1 _. apply keypair_iff; [done|]. intros [pk2 sk2] w2 Hw2 _.
    apply seal_iff; [done|]. intros c1 c2 v w3 _ Hv. by apply unseal_iff.
  - apply identity_iff; [done..|]. intros a w1 Hw1 Ha. apply identity_iff; [done..|]. intros b w2 Hw2 Hpb.
    apply spk_iff; [done..|]. intros spk w3 Hw3 Hp. cbn [SignedPreKey.signature SignedPreKey.public_key].
    destruct (index_xor_ok (signature_as_ref (sign (identity_of b) (array_list spk.1))) 0 Byte.xff) as (c & Hc & _);
      [unfold blen; by rewrite signature_length|].
    apply (lift_iff _ _ _ _ _ Hc). change (sign (identity_of b)) with (λ m, sign_detached m b.2) in Hc. cbv beta in Hc.
    rewrite Hc. transitivity (∃ sig, signature_from_bytes c = Some sig ∧ verify_detached sig (array_list spk.1) b.1 = false);
      [|split; [by intros H ? [= <-]|intros H; by apply H]].
    destruct (signature_from_bytes c) as [sig|]; [|split; [by intros [? ?]|by intros (? & ? & _)]].
    apply (lift_iff _ _ _ sig); [done|]. rewrite (x3dh_iff (identity_of a) (identity_of b) spk.1 spk.2) by done.
    naive_solver.
Qed.

(** Fifty messages of one text. *)
Lemma encrypt_same_run m pk ck0 count : ∀ alice n w,
  ready w → send_chain alice pk ck0 → send_message_number alice = n → n + Z.of_nat count ≤ MAX_SKIP →
  blen m + 40 ≤ isize_max →
  ∃ ps w', encrypt_same m count alice w = (Ret ps, w') ∧ ready w' ∧
    ps.*2 = chain_ciphertexts m count (chain_at ck0 (Z.to_nat n)) w ∧
    ∀ i p, ps !! i = Some p → genuine pk ck0 AD p.1 p.2 (n + Z.of_nat i) m.
Proof.
  induction count as [|count IH]; intros alice n w Hw Ha Hn Hmax Hm; [by exists [], w|].
  pose proof Ha as [[sk Hkp] Hck [Hn0 _]]. unfold MAX_SKIP in Hmax. rewrite Hn in Hck, Hn0.
  assert (is_u32 (n + 1)) as Hu by (unfold is_u32, in_width; lia).
  pose proof (encrypt_drawn alice w _ pk sk m AD Hw Hck Hkp) as He. rewrite Hn in He. specialize (He Hu Hm).
  set (alice' := set_send_message_number _ _) in He.
  assert (next_ck (chain_at ck0 (Z.to_nat n)) = chain_at ck0 (Z.to_nat (n + 1))) as Hnext
    by (rewrite <-chain_at_succ; f_equal; lia).
  destruct (IH alice' (n + 1) (aead_gen_nonce w).2) as (ps & w' & Hrun & Hw' & Hcs & Hgs).
  { by apply ready_aead_gen_nonce. }
  { unfold alice'. rewrite Hnext. destruct alice; simpl in *. split; simpl; [by exists sk|done|done]. }
  { unfold alice'. by destruct alice. }
  { unfold MAX_SKIP. lia. } { done. }
  eexists (_ :: ps), w'. split; [cbn [encrypt_same]; mstep (unwrap_Ret _ _ _ _ (with_session_Ret _ _ _ _ _ _ He)); by mstep Hrun|].
  split; [done|]. cbn [chain_ciphertexts]. destruct (aead_gen_nonce w) as [c w1]. cbn [fst snd] in *.
  rewrite Hnext. split; [by rewrite fmap_cons, Hcs|].
  intros [|i] p; simpl; [|intros Hi%Hgs; by replace (n + Z.of_nat (S i)) with (n + 1 + Z.of_nat i) by lia].
  intros [= <-]. rewrite Z.add_0_r. split_and!; [done..|]. by exists c.
Qed.
Lemma decrypt_same_passes m pk ck0 ps : ∀ bob C N n w,
  ready w → listens bob pk ck0 C N → (∀ k, k ∈ C → k < n) → 0 ≤ n → n + blen ps ≤ MAX_SKIP →
  (∀ i p, ps !! i = Some p → genuine pk ck0 AD p.1 p.2 (n + Z.of_nat i) m) →
  passes (decrypt_same m ps bob) w.
Proof.
  induction ps as [|[h c] ps IH]; intros bob C N n w Hw Hl HC Hn Hmax Hg; [by exists w|].
  rewrite blen_cons in Hmax. pose proof (blen_nonneg ps).
  pose proof (Hg 0%nat (h, c) eq_refl) as Hg0. simpl in Hg0. rewrite Z.add_0_r in Hg0.
  cbn [decrypt_same]. eapply (read_step bob pk ck0 C N h c AD n m); [done|done|lia|by intros ?%HC; lia|done|].
  intros bob' w' Hw' Hl'. apply (IH _ _ _ (n + 1) w' Hw' Hl'); [|lia|lia|].
  - intros k [->%elem_of_singleton|Hk%HC]%elem_of_union; lia.
  - intros i p Hi. replace (n + 1 + Z.of_nat i) with (n + Z.of_nat (S i)) by lia. by apply Hg.
Qed.
Lemma all_distinct {A} `{EqDecision A} (l : list A) : blen (remove_dups l) = blen l ↔ NoDup l.
Proof.
  assert (∀ l : list A, blen (remove_dups l) ≤ blen l) as Hle.
  { clear l. induction l as [|x l IH]; simpl; [done|]. case_decide; rewrite ?blen_cons; lia. }
  induction l as [|x l IH]; simpl; [split; [constructor|done]|]. rewrite NoDup_cons, <-IH.
  specialize (Hle l). case_decide; rewrite ?blen_cons; [split; [lia|tauto]|]. split; [split; [done|lia]|lia].
Qed.
Lemma length_chain_ciphertexts m n : ∀ ck w, blen (chain_ciphertexts m n ck w) = Z.of_nat n.
Proof.
  induction n as [|n IH]; intros ck w; simpl; [done|].
  destruct (aead_gen_nonce w) as [c w']. rewrite blen_cons, IH. lia.
Qed.
Lemma unique_keys_exact w :
  ready w → keys_nonzero → sign_keys_nonzero →
  passes double_ratchet_unique_message_keys w ↔ ciphertexts_distinct w.
Proof.
  intros Hw Hb Hs. unfold ciphertexts_distinct.
  destruct (setup_run w Hw Hb Hs) as (ss & bpk & bsk & ida & idb & w0 & w1 & alice & Hset & Hw0 & Hp & Hi).
  destruct (chain_start ss bpk bsk w0 alice w1 Hw0 Hp Hi) as (pk & ck0 & Hw1 & Ha & Hn & Hl).
  rewrite Hset. apply (bind_iff _ _ _ _ _ _ Hset). cbn beta iota.
  pose proof (sc_ck _ _ _ Ha) as Hck. rewrite Hn in Hck. simpl in Hck.
  destruct (encrypt_same_run identical_content pk ck0 50 alice 0 w1 Hw1 Ha Hn)
    as (ps & w2 & Hps & Hw2 & Hcs & Hgs); [done|by vm_compute|].
  apply (bind_iff _ _ _ _ _ _ Hps). cbv zeta. change (snd <$> ps) with ps.*2.
  assert (blen ps.*2 = 50) as Hlen by (by rewrite Hcs, length_chain_ciphertexts).
  transitivity (NoDup ps.*2 ∧ True).
  - apply assert_bind_iff; [by rewrite <-all_distinct, Hlen, Z.eqb_eq|]. split; [done|]. intros _.
    apply (decrypt_same_passes identical_content pk ck0 ps _ ∅ 0 0 w2 Hw2 Hl); [set_solver|lia| |done].
    unfold blen, MAX_SKIP in *. rewrite length_fmap in Hlen. lia.
  - rewrite Hcs. simpl. rewrite Hck. split; [intros [H _]; by exists ck0|]. intros (ck & [= <-] & H). done.
Qed.

Lemma cross_session_exact w :
  ready w → keys_nonzero → sign_keys_nonzero →
  passes cross_session_isolation w ↔ session_ciphertexts_differ w.
Proof.
  intros Hw Hb Hs. unfold session_ciphertexts_differ.
  destruct (setup_run w Hw Hb Hs) as (ss & bpk & bsk & ida & idb & w0 & w1 & alice & Hset & Hw0 & Hp & Hi).
  destruct (chain_start ss bpk bsk w0 alice w1 Hw0 Hp Hi) as (pk & ck & Hw1 & [[sk Hkp] Hck _] & Hn & _).
  destruct (setup_run w1 Hw1 Hb Hs) as (ss2 & bpk2 & bsk2 & ida2 & idb2 & w2 & w3 & alice2 & Hset2 & Hw2 & Hp2 & Hi2).
  destruct (chain_start ss2 bpk2 bsk2 w2 alice2 w3 Hw2 Hp2 Hi2) as (pk2 & ck2 & Hw3 & [[sk2 Hkp2] Hck2 _] & Hn2 & _).
  rewrite Hn in Hck. rewrite Hn2 in Hck2. simpl in Hck, Hck2. rewrite Hset, Hset2.
  apply (bind_iff _ _ _ _ _ _ Hset), (bind_iff _ _ _ _ _ _ Hset2). cbn beta iota.
  eapply bind_iff; [apply unwrap_Ret, with_session_Ret, (encrypt_drawn alice w3 ck pk sk); by rewrite ?Hn|].
  eapply bind_iff.
  { apply unwrap_Ret, with_session_Ret, (encrypt_drawn alice2 _ ck2 pk2 sk2); try by rewrite ?Hn2.
    by apply ready_aead_gen_nonce. }
  rewrite assert_ne_iff. unfold drawn. rewrite Hck, Hck2. split; [intros H; by exists ck, ck2|].
  by intros (? & ? & [= <-] & [= <-] & H).
Qed.

(** *** The flows in step *)
Lemma encrypt_any s m ad w ck pk sk N :
  ready w → sending_chain_key s = Some ck → sending_keypair s = Some (pk, sk) →
  0 ≤ send_message_number s ≤ N → N < MAX_SKIP → blen m + 40 ≤ isize_max →
  ∃ p s' w', encrypt m ad (s, w) = (Ret p, (s', w')) ∧ ready w' ∧ ratchet_public_key p.1 = pk ∧
    h_previous_chain_length p.1 = previous_chain_length s ∧ message_number p.1 = send_message_number s.
Proof.
  intros Hw Hck Hkp Hn HN Hm. unfold MAX_SKIP in HN. eexists _, _, _.
  split; [apply (encrypt_drawn s w ck pk sk m ad); try done; unfold is_u32, in_width; lia|].
  split; [by apply ready_aead_gen_nonce|done].
Qed.
(** A packet of one conversation is small for the other. *)
Lemma in_step_small alice bob N started alice' bob' N' started' m ad w :
  ready w → in_step alice bob N started → in_step alice' bob' N' started' → N < MAX_SKIP → N' ≤ MAX_SKIP →
  blen m + 40 ≤ isize_max →
  ∃ p s w', encrypt m ad (alice, w) = (Ret p, (s, w')) ∧ ready w' ∧ small bob' p.
Proof.
  intros Hw Hl Hl' HN HN' Hm.
  destruct (in_step_facts _ _ _ _ Alice Hl) as (_ & (pk & sk & Hkp & Hp) & _ & Hpl & Hn & Hck).
  destruct (in_step_facts _ _ _ _ Bob Hl') as (Hc & Hkp' & Hr & _).
  destruct (sending_chain_key alice) as [ck|] eqn:Hsck; [|by destruct Hck; [left|]].
  destruct (encrypt_any alice m ad w ck pk sk N Hw Hsck Hkp Hn HN Hm) as (p & s & w' & He & Hw' & Hpk & Hppl & Hpn).
  exists p, s, w'. split; [done|]. split; [done|]. unfold MAX_SKIP in *.
  split; [done|done|rewrite Hpk; by exists sk|unfold MAX_SKIP; lia..].
Qed.
Lemma setup_in_step w :
  ready w → keys_nonzero → sign_keys_nonzero →
  ∃ alice bob ida idb w1, EndToEnd.setup_session w = (Ret (alice, bob, ida, idb), w1) ∧ ready w1 ∧ in_step alice bob 0 false.
Proof.
  intros Hw Hb Hs.
  destruct (setup_session_run w Hw Hb Hs) as (ss & bpk & bsk & ida & idb & w0 & w1 & alice & Hset & Hw0 & _ & Hp & Hi).
  destruct (in_step_start ss bpk bsk w0 alice w1 Hw0 Hp Hi) as [Hw1 Hst]. by eexists alice, _, ida, idb, w1.
Qed.

Lemma flow_in_step ad script w :
  ready w → keys_nonzero → sign_keys_nonzero → flow_fresh ad script w →
  match script with (Bob, _) :: _ => False | _ => True end →
  blen script < 2 ^ 32 → Forall (λ x, blen x.2 + 40 ≤ isize_max) script → script ≠ [] →
  ∃ alice bob ida idb w1 alice' bob' w',
    EndToEnd.setup_session w = (Ret (alice, bob, ida, idb), w1) ∧
    converse ad script alice bob w1 = (Ret (alice', bob'), w') ∧ ready w' ∧ in_step alice' bob' (blen script) true.
Proof.
  intros Hw Hb Hs Hf Hfirst Hlen Hms Hne.
  destruct (setup_in_step w Hw Hb Hs) as (alice & bob & ida & idb & w1 & Hset & Hw1 & Hst).
  unfold flow_fresh in Hf. rewrite Hset in Hf. destruct Hf as [_ Hf].
  destruct (converse_in_step ad script alice bob 0 false w1 Hw1 Hst) as (a & b & w' & Hc & Hw' & Hst'); try done.
  rewrite orb_false_r, bool_decide_true in Hst' by done. by exists alice, bob, ida, idb, w1, a, b, w'.
Qed.
Lemma converse_app ad s1 s2 : ∀ alice bob w a b w',
  converse ad (s1 ++ s2) alice bob w = (Ret (a, b), w') →
  ∃ a1 b1 w1, converse ad s1 alice bob w = (Ret (a1, b1), w1) ∧ converse ad s2 a1 b1 w1 = (Ret (a, b), w').
Proof.
  induction s1 as [|[x m] s1 IH]; intros alice bob w a b w' H; [by exists alice, bob, w|].
  cbn [converse app] in *. apply bind_inv in H as ([a0 b0] & w0 & He & H).
  destruct (IH _ _ _ _ _ _ H) as (a1 & b1 & w1 & H1 & H2). exists a1, b1, w1. split; [by mstep He|done].
Qed.
(** A turn without its last comparison. *)
Lemma exchange_bob_inv ad m alice bob w alice' bob' w' :
  exchange ad Bob m alice bob w = (Ret (alice', bob'), w') →
  ∃ h ct pt w1, unwrap (with_session (encrypt m ad) bob) w = (Ret ((h, ct), bob'), w1) ∧
    unwrap (with_session (decrypt h ct ad) alice) w1 = (Ret (pt, alice'), w').
Proof.
  unfold exchange. intros H. apply bind_inv in H as ([[h ct] b1] & w1 & He & H).
  apply bind_inv in H as ([pt a1] & w2 & Hd & H). apply bind_inv in H as ([] & w3 & Ha & H).
  injection H as -> -> <-. unfold assert_that in Ha. destruct (bool_decide _); [|done]. injection Ha as <-.
  by exists h, ct, pt, w1.
Qed.

Definition new_turns : list (side * bytes) :=
  new_script ++ [(Bob, bstr "reply"); (Alice, bstr "post-ratchet-advance")].
(** Both sessions draw new ratchet keys. *)
Definition sessions_fresh (w : rng) : Prop :=
  flow_fresh fs_ad old_script w ∧
  match message_flow fs_ad old_script w with (Ret _, w) => flow_fresh fs_ad new_turns w | _ => True end.
Lemma two_sessions_run w :
  ready w → keys_nonzero → sign_keys_nonzero → sessions_fresh w →
  ∃ alice bob alice2 bob2 w', two_sessions w = (Ret ((alice, bob), (alice2, bob2)), w') ∧ ready w' ∧
    in_step alice bob 4 true ∧ in_step alice2 bob2 7 true.
Proof.
  intros Hw Hb Hs [Hf Hf2].
  destruct (flow_in_step fs_ad old_script w Hw Hb Hs Hf I) as (a0 & b0 & ida & idb & w1 & alice & bob & w2 & Hset & Hc & Hw2 & Hst);
    [done|repeat constructor; by vm_compute|done|].
  unfold message_flow in Hf2. rewrite (bind_Ret _ _ _ _ _ Hset) in Hf2. cbn beta iota in Hf2. rewrite Hc in Hf2.
  destruct (flow_in_step fs_ad new_turns w2 Hw2 Hb Hs Hf2 I)
    as (a3 & b3 & ida2 & idb2 & w3 & alice2 & bob2 & w4 & Hset2 & Hc2 & Hw4 & Hst2);
    [done|repeat constructor; by vm_compute|done|].
  exists alice, bob, alice2, bob2, w4. split; [|by split_and!].
  apply converse_app in Hc2 as (a4 & b4 & w5 & Hc5 & Hc6).
  apply (converse_app fs_ad [(Bob, bstr "reply")] [_]) in Hc6 as (a6 & b6 & w6 & Hc6 & Hc7).
  cbn [converse] in Hc6. apply bind_inv in Hc6 as ([a7 b7] & w7 & He & Hret). injection Hret as -> -> ->.
  apply exchange_bob_inv in He as (h & ct & pt & w8 & Henc & Hdec).
  unfold two_sessions. mstep Hset. mstep Hc. mstep Hset2. mstep Hc5. mstep Henc. mstep Hdec. by mstep Hc7.
Qed.
Lemma forward_secrecy_exact w :
  ready w → keys_nonzero → sign_keys_nonzero → sessions_fresh w →
  passes test_forward_secrecy w ↔ sessions_foreign w.
Proof.
  intros Hw Hb Hs Hf. unfold sessions_foreign.
  destruct (two_sessions_run w Hw Hb Hs Hf) as (alice & bob & alice2 & bob2 & w1 & Hrun & Hw1 & Hst & Hst2).
  rewrite Hrun. apply (bind_iff _ _ _ _ _ _ Hrun). cbn beta iota.
  destruct (in_step_small alice2 bob2 7 true alice bob 4 true (bstr "only for new session") fs_ad w1)
    as (p_new & a2' & w2 & He & Hw2 & Hsm); [done..|].
  rewrite He. apply (bind_iff _ _ _ _ _ _ (unwrap_Ret _ _ _ _ (with_session_Ret _ _ _ _ _ _ He))). cbn beta iota.
  apply foreign_iff; [done..|]. intros w3 Hw3 (o & s' & Hd). rewrite Hd. cbn [snd].
  destruct (in_step_small alice bob 4 true alice2 bob2 7 true (bstr "from old session") fs_ad w3)
    as (p_old & a' & w4 & He4 & Hw4 & Hsm4); [done..|].
  rewrite He4. apply (bind_iff _ _ _ _ _ _ (unwrap_Ret _ _ _ _ (with_session_Ret _ _ _ _ _ _ He4))). cbn beta iota.
  rewrite (foreign_iff fs_ad bob2 p_old _ w4 True); [tauto|done|done|]. intros w5 _ _. split; [done|]. by exists w5.
Qed.

(** *** Three parties *)
Lemma open_session_run ida idb i w :
  ready w → keys_nonzero → sign_pair (public_key ida) (secret_key ida) →
  sign_pair (public_key idb) (secret_key idb) → 0 ≤ i → i + 1 ≤ 2 ^ 32 →
  ∃ ss bpk bsk w0 w1 alice, open_session ida idb i w = (Ret (alice, init_receiver ss (bpk, bsk)), w1) ∧
    ready w0 ∧ ready w1 ∧ box_pair bpk bsk ∧ init_sender ss bpk w0 = (Ret alice, w1).
Proof.
  intros Hw Hnz Ha Hb H0 Hmax. destruct (spk_generate_run idb 1 w Hw Hnz) as [Hspk Hws].
  pose proof (box_gen_pair w) as Hbp. set (spk := SignedPreKey.mk _ _ _ _) in Hspk.
  destruct (otpks_run 1 i _ Hws Hnz H0) as (ks & wk & Hks & Hwk & Hids & Hpairs); [lia..|].
  destruct ks as [|k ks]; [done|]. inversion_clear Hpairs as [|?? [wx Hk] _].
  pose proof (box_gen_pair wx) as Hkp. rewrite <-Hk in Hkp. simpl in Hkp.
  destruct (x3dh_agree ida idb (SignedPreKey.public_key spk) (SignedPreKey.secret_key spk)
    (Some (OneTimePreKey.prekey_id k, (OneTimePreKey.public_key k, OneTimePreKey.secret_key k)))
    wk) as (r & wi & Hi & Hwi & _ & Hacc); try done; [by intros ??? [= _ <- <-]|].
  destruct (init_sender_run (shared_secret r) (SignedPreKey.public_key spk)
              (SignedPreKey.secret_key spk) wi Hwi Hbp) as (pk & sk & d & w1 & _ & _ & Hw1 & _ & _ & Hinit).
  eexists (shared_secret r), (SignedPreKey.public_key spk), (SignedPreKey.secret_key spk), wi, w1, _.
  split; [|by split_and!]. specialize (Hacc wi Hwi). cbn [fmap option_fmap option_map snd] in Hacc.
  unfold open_session. mstep (unwrap_Ret _ _ _ _ Hspk). mstep (unwrap_Ret _ _ _ _ Hks).
  mstep (eq_refl (lift (index (E:=CryptoError) (k :: ks) 0) wk)).
  mstep (unwrap_Ret _ _ _ _ Hi). mstep (unwrap_Ret _ _ _ _ Hacc).
  mstep (assert_that_true (S:=rng) (E:=CryptoError) _ wi (bool_decide_eq_true_2 _ (eq_refl (shared_secret r)))).
  mstep (unwrap_Ret _ _ _ _ Hinit). reflexivity.
Qed.
(** The first packet of a session, and the receiver once it has read it. *)
Lemma first_packet ss bpk bsk w0 w1 alice m ad w :
  ready w0 → box_pair bpk bsk → init_sender ss bpk w0 = (Ret alice, w1) → ready w → blen m + 40 ≤ isize_max →
  ∃ p alice' w', encrypt m ad (alice, w) = (Ret p, (alice', w')) ∧ ready w' ∧
    (∃ psk, box_pair (ratchet_public_key p.1) psk) ∧ h_previous_chain_length p.1 = 0 ∧ message_number p.1 = 0 ∧
    ∀ w2, ready w2 → ∃ bob w3, reads ad p m (init_receiver ss (bpk, bsk)) w2 = (Ret bob, w3) ∧ ready w3 ∧
      skipped_keys bob = ∅ ∧ (∃ pk sk, sending_keypair bob = Some (pk, sk) ∧ box_pair pk sk) ∧
      recv_message_number bob = 1.
Proof.
  intros Hw0 Hb Hi Hw Hm.
  destruct (init_sender_run ss bpk bsk w0 Hw0 Hb) as (pk & sk & d & w1' & _ & Hp & _ & _ & Hd & Hi').
  rewrite Hi in Hi'. injection Hi' as -> ->.
  eexists (_, _), _, _. split; [by apply (encrypt_drawn _ w (rk_step ss d).2 pk sk)|].
  split; [by apply ready_aead_gen_nonce|]. split; [by exists sk|]. split; [done|]. split; [done|]. intros w2 Hw2.
  pose proof (box_gen_pair w2) as Hkp. pose proof (ready_box_gen_keypair w2 Hw2) as Hw3.
  destruct (box_gen_keypair w2) as [[npk nsk] w3] eqn:Hg. simpl in Hkp, Hw3.
  destruct (scalarmult_comm _ _ _ _ Hkp Hp) as (d2 & Hd2 & _). eexists _, w3. split.
  { unfold reads. erewrite bind_Ret; [|apply unwrap_Ret, with_session_Ret].
    2: { cbn [fst snd]. rewrite (decrypt_new_key (mkMessageHeader pk _ _) _ ad _ w2 _ bpk bsk d (npk, nsk) d2 w3) by done.
         cbn [message_number]. by rewrite decrypt_with_key_sealed. }
    cbn beta iota. by mstep (assert_that_true (S:=rng) (E:=CryptoError) _ w3 (bool_decide_eq_true_2 _ (eq_refl m))). }
  split; [done|]. unfold ratcheted. destruct (rk_step _ d) as [r1 c1], (rk_step r1 d2) as [r2 c2].
  split; [done|]. split; [by exists npk, nsk|done].
Qed.
Lemma multi_party_run w :
  ready w → keys_nonzero → sign_keys_nonzero →
  ∃ bob carol p_bob p_carol w', multi_party_messages w = (Ret ((bob, carol), (p_bob, p_carol)), w') ∧ ready w' ∧
    small bob p_carol ∧ small carol p_bob.
Proof.
  intros Hw Hnz Hs.
  destruct (identity_generate_pair w Hw Hs) as (ida & wa & Ha & Hwa & Hpa).
  destruct (identity_generate_pair wa Hwa Hs) as (idb & wb & Hb & Hwb & Hpb).
  destruct (identity_generate_pair wb Hwb Hs) as (idc & wc & Hc & Hwc & Hpc).
  destruct (open_session_run ida idb 200 wc) as (ss & bpk & bsk & w0 & w1 & al & Ho & Hw0 & Hw1 & Hbp & Hi); [done..|lia|done|].
  destruct (open_session_run ida idc 300 w1) as (ss' & cpk & csk & w2 & w3 & al' & Ho' & Hw2 & Hw3 & Hcp & Hi'); [done..|lia|done|].
  destruct (first_packet ss bpk bsk w0 w1 al (bstr "Secret for Bob only") multi_ad w3)
    as (pb & x & w4 & He & Hw4 & Hpk & Hpl & Hn & Hread); [done..|].
  destruct (first_packet ss' cpk csk w2 w3 al' (bstr "Secret for Carol only") multi_ad w4)
    as (pc & x' & w5 & He' & Hw5 & Hpk' & Hpl' & Hn' & Hread'); [done..|].
  destruct (Hread w5 Hw5) as (bob & w6 & Hr & Hw6 & Hb1 & Hb2 & Hb3).
  destruct (Hread' w6 Hw6) as (carol & w7 & Hr' & Hw7 & Hc1 & Hc2 & Hc3).
  exists bob, carol, pb, pc, w7. split_and!; [|done|split; try done; unfold MAX_SKIP; lia|split; try done; unfold MAX_SKIP; lia].
  unfold multi_party_messages. mstep (unwrap_Ret _ _ _ _ (init_sodium_ready w Hw)).
  mstep (unwrap_Ret _ _ _ _ Ha). mstep (unwrap_Ret _ _ _ _ Hb). mstep (unwrap_Ret _ _ _ _ Hc).
  mstep Ho. mstep Ho'.
  mstep (unwrap_Ret _ _ _ _ (with_session_Ret _ _ _ _ _ _ He)).
  mstep (unwrap_Ret _ _ _ _ (with_session_Ret _ _ _ _ _ _ He')). mstep Hr. by mstep Hr'.
Qed.
Lemma multi_party_exact w :
  ready w → keys_nonzero → sign_keys_nonzero → passes test_multi_party_sessions w ↔ others_packets_foreign w.
Proof.
  intros Hw Hb Hs. unfold others_packets_foreign.
  destruct (multi_party_run w Hw Hb Hs) as (bob & carol & pb & pc & w1 & Hrun & Hw1 & Hsb & Hsc).
  rewrite Hrun. apply (bind_iff _ _ _ _ _ _ Hrun). cbn beta iota.
  apply foreign_iff; [done..|]. intros w2 Hw2 _.
  rewrite (foreign_iff multi_ad carol pb _ w2 True); [tauto|done|done|]. intros w3 _ _. split; [done|]. by exists w3.
Qed.

(** *** A restored snapshot *)
Context {SJR : SerdeJson RatchetStateSer} {HI : HashMapIter (key32 * Z) key32}.
Context {LSR : SerdeLaws RatchetStateSer SJR} {LI : HashMapIterLaws (key32 * Z) key32 HI}.

Definition before_snapshot : list (side * bytes) := [(Alice, bstr "before ratchet"); (Bob, bstr "bob reply")].
(** The ratchet keys drawn before the snapshot and by the last reading are new. *)
Definition snapshot_fresh (w : rng) : Prop :=
  match SecurityAudit.setup_session w with
  | (Ret (alice, bob, _, _), w) =>
      fresh_script AD before_snapshot alice bob w ∧
      match converse AD before_snapshot alice bob w with
      | (Ret (_, bob), w) => (box_gen_keypair (aead_gen_nonce (aead_gen_nonce w).2).2).1.1 ∉ own_key bob
      | _ => True
      end
  | _ => True
  end.
Lemma snapshot_passes w :
  ready w → keys_nonzero → sign_keys_nonzero → snapshot_fresh w → passes forward_secrecy_after_dh_ratchet w.
Proof.
  intros Hw Hnz Hs. unfold snapshot_fresh.
  destruct (setup_run w Hw Hnz Hs) as (ss & bpk & bsk & ida & idb & w0 & w1 & a0 & Hset & Hw0 & Hp & Hi).
  rewrite Hset. intros [(Hf1 & Hf2) Hf3].
  destruct (in_step_start ss bpk bsk w0 a0 w1 Hw0 Hp Hi) as [Hw1 (ldr & pkL & skL & pkF & skF & d & ckL & Hl)].
  destruct ldr; destruct Hl as [Hl _]; [|by pose proof (lk_remL _ _ _ _ _ _ _ _ _ Hl)].
  set (b0 := init_receiver ss (bpk, bsk)) in *.
  destruct (leader_turn AD (bstr "before ratchet") _ _ w1 _ _ _ _ _ _ _ Hw1 Hl)
    as (h1 & c1 & a1 & He1 & _ & Hr1); [done|done|].
  unfold turn_fresh in Hf1. rewrite He1 in Hf1. cbn [fst snd] in Hf1.
  destruct (Hr1 _ (ready_aead_gen_nonce w1 Hw1) Hf1) as (b1 & w2 & pk2 & sk2 & d2 & ck2 & Hd1 & Hw2 & Hl1 & _).
  pose proof (turn_run AD Alice _ a0 b0 a1 b1 h1 c1 w1 _ w2 (conj He1 Hd1)) as Hx1. rewrite Hx1 in Hf2.
  destruct Hf2 as [Hf2 _]. unfold turn_fresh in Hf2.
  destruct (leader_turn AD (bstr "bob reply") _ _ w2 _ _ _ _ _ _ _ Hw2 Hl1)
    as (h2 & c2 & b2 & He2 & _ & Hr2); [done|done|].
  rewrite He2 in Hf2. cbn [fst snd] in Hf2.
  destruct (Hr2 _ (ready_aead_gen_nonce w2 Hw2) Hf2) as (a2 & w3 & pk3 & sk3 & d3 & ck3 & Hd2 & Hw3 & Hl2 & _).
  pose proof (turn_run AD Bob _ a1 b1 a2 b2 h2 c2 w2 _ w3 (conj He2 Hd2)) as Hx2.
  cbn [converse before_snapshot] in Hf3. rewrite (bind_Ret _ _ _ _ _ Hx1) in Hf3. cbn beta iota in Hf3.
  rewrite (bind_Ret _ _ _ _ _ Hx2) in Hf3. cbn in Hf3.
  destruct (leader_turn AD (bstr "after ratchet") _ _ w3 _ _ _ _ _ _ _ Hw3 Hl2)
    as (h3 & c3 & a3 & He3 & Hlen3 & Hr3); [done|done|].
  set (w4 := (aead_gen_nonce w3).2) in *. assert (ready w4) as Hw4 by (by apply ready_aead_gen_nonce).
  destruct (leader_turn AD (bstr "from old state") _ _ w4 _ _ _ _ _ _ _ Hw4 Hl2)
    as (h4 & c4 & a4 & He4 & Hlen4 & _); [done|done|].
  destruct (Hr3 _ (ready_aead_gen_nonce w4 Hw4) Hf3) as (b3 & w5 & pk5 & sk5 & d5 & ck5 & Hd3 & _ & _ & _).
  destruct (state_restored a2) as (bs & Hto & Hfrom).
  pose proof (λ T W E A m s w a s' w' H, unwrap_Ret _ _ _ _ (@with_session_Ret T W E A m s w a s' w' H)) as Hcall.
  unfold forward_secrecy_after_dh_ratchet. tstep Hset.
  tstep (Hcall _ _ _ _ _ _ _ _ _ _ He1). tstep (Hcall _ _ _ _ _ _ _ _ _ _ Hd1).
  tstep (Hcall _ _ _ _ _ _ _ _ _ _ He2). tstep (Hcall _ _ _ _ _ _ _ _ _ _ Hd2).
  tstep Hto. tstep (Hcall _ _ _ _ _ _ _ _ _ _ He3). tstep Hfrom. tstep (Hcall _ _ _ _ _ _ _ _ _ _ He4).
  unfold assert_ne. tassert.
  { apply negb_iff. intros ->. by rewrite Hlen4 in Hlen3. }
  unfold reads. cbn [fst snd].
  eapply passes_bind; [|by exists w5].
  rewrite (bind_Ret _ _ _ _ _ (Hcall _ _ _ _ _ _ _ _ _ _ Hd3)). cbn beta iota.
  by mstep (assert_that_true (S:=rng) (E:=CryptoError) _ w5 (bool_decide_eq_true_2 _ (eq_refl (bstr "after ratchet")))).
Qed.

(** *** All of them *)
Context {SJP : SerdeJson (MessageHeader * bytes)} {LSP : SerdeLaws (MessageHeader * bytes) SJP}.

Definition integration_tests (u : bytes → bytes) : list (M rng CryptoError unit) :=
  [test_full_message_flow_alice_to_bob; test_full_flow_with_sealed_sender u; test_out_of_order_delivery]
  ++ audit_tests u ++ [forward_secrecy_after_dh_ratchet].
(** Each test with the condition under which it passes. *)
Definition conditional_integration_tests (u : bytes → bytes) : list (M rng CryptoError unit * (rng → Prop)) :=
  ((λ t, (t, λ _, True)) <$> integration_tests u) ++ integration_strength_tests u.
(** What they need of the generator: no debug assertion is tripped, and the ratchet
    keys of the conversations are new. *)
Record integration_machine (w : rng) : Prop := {
  im_ready : ready w;
  im_box_keys : keys_nonzero;
  im_sign_keys : sign_keys_nonzero;
  im_audit : audit_fresh w;
  im_flow : flow_fresh (bstr "e2e-session") flow_script w;
  im_order : scripted_fresh (bstr "ooo-e2e") out_of_order_script w;
  im_sessions : sessions_fresh w;
  im_snapshot : snapshot_fresh w;
}.

(** C40: the integration tests are exact. All six end-to-end tests and all tests of the
    security audit are modelled; each runs to its end if and only if its condition
    holds. Twenty pass without a condition: from key generation and X3DH on,
    conversations and packets out of order decrypt to their texts, replayed packets, a
    jump over 1001 numbers and a truncated ciphertext are refused, a restored
    snapshot encrypts, and sealed, padded and encrypted messages come back. The others
    pass iff the primitives allow it: a session refuses a packet of another session,
    before and after ratchet steps, iff it is not a sealing under the one key
    that the session derives for its header; a request's signature is specific iff the
    primitive does not verify it for another body, path, time or key; nonces and
    ciphertexts are unique iff the values drawn make them so. *)
Theorem integration_tests_exact u w :
  integration_machine w → Forall (λ t, passes t.1 w ↔ t.2 w) (conditional_integration_tests u).
Proof.
  intros [Hw Hb Hs Ha Hf Ho Hss Hsn]. unfold conditional_integration_tests. apply Forall_app. split.
  - apply Forall_fmap. eapply (Forall_impl (λ t, passes t w)); [|by intros t Ht].
    unfold integration_tests. rewrite app_assoc. apply Forall_app. split; [by apply integration_tests_pass|].
    apply Forall_singleton. by apply snapshot_passes.
  - destruct (audit_cipher_exact u w Hw Hb Hs) as (? & ? & ? & ? & ?).
    repeat apply Forall_cons_2; try apply Forall_nil_2; try done.
    + by apply auth_request_exact.
    + by apply multi_party_exact.
    + by apply forward_secrecy_exact.
    + by apply nonces_exact.
    + by apply unique_keys_exact.
    + by apply cross_session_exact.
Qed.
End exact.

#[export] Hint Opaque sessions_fresh snapshot_fresh : typeclass_instances.
#[export] Instance sessions_fresh_dec {BP : BuildProfile} {SO : Sodium} {HA : Hashes} w :
  Decision (sessions_fresh w).
Proof. unfold sessions_fresh. destruct (message_flow fs_ad old_script w) as [[r|e|] w']; apply _. Defined.
#[export] Instance snapshot_fresh_dec {BP : BuildProfile} {SO : Sodium} {HA : Hashes} w :
  Decision (snapshot_fresh w).
Proof.
  unfold snapshot_fresh. destruct (SecurityAudit.setup_session w) as [[[[[a b] ida] idb]|e|] w1]; [|apply _..].
  apply and_dec; [apply _|]. destruct (converse AD before_snapshot a b w1) as [[[a' b']|e|] w2]; apply _.
Defined.
Lemma toy_integration_machine : @integration_machine release_profile toy_sodium toy_hashes 9.
Proof.
  split; [done|apply toy_keys_nonzero_release|apply toy_sign_keys_nonzero_release|apply wit_audit_fresh
         |apply wit_flow_script_fresh|apply wit_out_of_order_fresh| |];
    apply (bool_decide_unpack _); by vm_compute.
Qed.
Lemma integration_tests_exact_witness :
  Forall (λ t, passes t.1 9 ↔ t.2 9)
    (@conditional_integration_tests release_profile toy_sodium toy_hashes toy_hex
       (countable_serde SealedSenderEnvelope) (countable_serde RatchetStateSer) map_iter
       (countable_serde (MessageHeader * bytes)) id).
Proof.
  exact (@integration_tests_exact release_profile toy_sodium toy_hashes toy_hex
           (countable_serde SealedSenderEnvelope) _ _ _ toy_key_laws _ (countable_serde_laws _)
           (countable_serde RatchetStateSer) map_iter (countable_serde_laws _) map_iter_laws
           (countable_serde (MessageHeader * bytes)) (countable_serde_laws _) id 9 toy_integration_machine).
Defined.
